(** * QA Report Helper: the data pipeline, embedded and verified

    A shallow embedding of the pure core of the [QA_Report_Helper] package
    ([data_processor.py], [data_validator.py], [report_generator.py],
    [config.py]) together with the properties its specification states.

    Conventions of the embedding
    - Python [str] is [string]; the text functions ([strip], [lower],
      [title], ...) are the ASCII fragment of Python's (code points below
      128).  A character above 127 is carried along as an uncased,
      non-blank, non-digit character; what [str.title] does beyond ASCII
      is outside the model, and the properties that rest on it are stated
      for text in ASCII.
    - A spreadsheet cell ([Any] in the source) is a [value]: [None], a
      string, an integer, a date or a datetime.  Floats and booleans are
      outside the model.
    - A record (a Python [dict] keyed by column name) is a
      [gmap string value]; a key bound to [VNone] is present with value
      [None], which [dict.get] tells apart from an absent key only through
      its default.
    - Counters and [defaultdict]s whose iteration order reaches the output
      are association lists in insertion order.
    - The functions that copy and then update records ([clean_data],
      [apply_corrections]) run on an explicit store of record objects, so
      that sharing between input and output is visible.
    - Quotients of counts (Python floats) are exact rationals; the
      properties give them as quotients or compare them, and rounding to
      a float keeps the comparisons.
    - A worksheet is the list of its rows; module [ReadOnly] has the
      sheets as the reader hands them over in read-only mode, where
      [max_row] may be missing and reading a row may raise.
    - The similarity of two texts is a parameter of the validator; module
      [Difflib] has the one of the standard library. *)

From Stdlib Require Import ZArith QArith Ascii String List Lia Permutation Sorted.
From stdpp Require Import gmap strings list.

Local Open Scope string_scope.
Local Open Scope Z_scope.
Local Open Scope list_scope.

(** ** Python text, ASCII fragment *)

Module PyStr.

Definition code (c : ascii) : N := N_of_ascii c.

Definition in_range (lo hi : N) (c : ascii) : bool :=
  ((lo <=? code c) && (code c <=? hi))%N.

(** [str.isspace] on one character: TAB..CR, FS..US and the blank. *)
Definition is_space (c : ascii) : bool :=
  in_range 9 13 c || in_range 28 32 c.

Definition is_digit (c : ascii) : bool := in_range 48 57 c.
Definition is_upper (c : ascii) : bool := in_range 65 90 c.
Definition is_lower (c : ascii) : bool := in_range 97 122 c.
Definition is_cased (c : ascii) : bool := is_upper c || is_lower c.

Definition lower_char (c : ascii) : ascii :=
  if is_upper c then ascii_of_N (code c + 32) else c.
Definition upper_char (c : ascii) : ascii :=
  if is_lower c then ascii_of_N (code c - 32) else c.

Fixpoint lower (s : string) : string :=
  match s with
  | EmptyString => EmptyString
  | String c s' => String (lower_char c) (lower s')
  end.

Definition is_empty (s : string) : bool :=
  match s with EmptyString => true | _ => false end.

Fixpoint lstrip (s : string) : string :=
  match s with
  | EmptyString => EmptyString
  | String c s' => if is_space c then lstrip s' else s
  end.

Fixpoint rstrip (s : string) : string :=
  match s with
  | EmptyString => EmptyString
  | String c s' =>
      let t := rstrip s' in
      if is_space c && is_empty t then EmptyString else String c t
  end.

(** [s.strip()] *)
Definition strip (s : string) : string := rstrip (lstrip s).

(** [s.title()]: a cased character is upper-cased when the character
    before it is not cased, and lower-cased otherwise. *)
Fixpoint title_from (previous_is_cased : bool) (s : string) : string :=
  match s with
  | EmptyString => EmptyString
  | String c s' =>
      String (if previous_is_cased then lower_char c else upper_char c)
             (title_from (is_cased c) s')
  end.
Definition title (s : string) : string := title_from false s.

(** [s.startswith(p)] *)
Definition startswith (s p : string) : bool := String.prefix p s.

(** [c in s] for a one-character [c] *)
Fixpoint contains (c : ascii) (s : string) : bool :=
  match s with
  | EmptyString => false
  | String a s' => Ascii.eqb a c || contains c s'
  end.

(** [s.split(c)[0]] *)
Fixpoint split_head (c : ascii) (s : string) : string :=
  match s with
  | EmptyString => EmptyString
  | String a s' => if Ascii.eqb a c then EmptyString else String a (split_head c s')
  end.

(** [s.replace(c, '')] for a one-character [c] *)
Fixpoint remove (c : ascii) (s : string) : string :=
  match s with
  | EmptyString => EmptyString
  | String a s' => if Ascii.eqb a c then remove c s' else String a (remove c s')
  end.

Fixpoint all_digits (s : string) : bool :=
  match s with
  | EmptyString => true
  | String a s' => is_digit a && all_digits s'
  end.

(** [s.isdigit()] *)
Definition isdigit (s : string) : bool := negb (is_empty s) && all_digits s.

Definition digit_char (n : N) : ascii := ascii_of_N (48 + n mod 10).

Fixpoint digits_go (fuel : nat) (n : N) (acc : string) : string :=
  match fuel with
  | O => acc
  | S fuel' =>
      let acc' := String (digit_char n) acc in
      if (n <? 10)%N then acc' else digits_go fuel' (n / 10)%N acc'
  end.

(** Decimal digits of a natural number, no leading zero. *)
Definition of_N (n : N) : string := digits_go (S (N.size_nat n)) n "".

(** [str(z)] for an [int] *)
Definition of_Z (z : Z) : string :=
  match z with
  | Z0 => "0"
  | Zpos p => of_N (Npos p)
  | Zneg p => String "-" (of_N (Npos p))
  end.

Fixpoint zeros (k : nat) : string :=
  match k with O => "" | S k' => String "0" (zeros k') end.

(** [format(n, "0<w>d")] for [n >= 0] *)
Definition pad (w : nat) (n : Z) : string :=
  let s := of_N (Z.to_N n) in
  zeros (w - String.length s) +:+ s.

Definition digit_val (c : ascii) : Z := Z.of_N (code c) - 48.

Fixpoint to_Z_from (acc : Z) (s : string) : Z :=
  match s with
  | EmptyString => acc
  | String a s' => to_Z_from (10 * acc + digit_val a) s'
  end.

(** [int(s)] for a string of digits *)
Definition to_Z (s : string) : Z := to_Z_from 0 s.

End PyStr.

(** ** Calendar dates ([datetime.date]) *)

Record date := mkdate { year : Z; month : Z; day : Z }.

Module Date.

Definition is_leap (y : Z) : bool :=
  (y mod 4 =? 0) && (negb (y mod 100 =? 0) || (y mod 400 =? 0)).

Definition days_in_month (y m : Z) : Z :=
  match m with
  | 2 => if is_leap y then 29 else 28
  | 4 | 6 | 9 | 11 => 30
  | _ => 31
  end.

(** The check of the [date(year, month, day)] constructor, which raises
    [ValueError] when it fails. *)
Definition valid (y m d : Z) : bool :=
  (1 <=? y) && (y <=? 9999) && (1 <=? m) && (m <=? 12)
  && (1 <=? d) && (d <=? days_in_month y m).

Definition make (y m d : Z) : option date :=
  if valid y m d then Some (mkdate y m d) else None.

Definition compare (a b : date) : comparison :=
  match year a ?= year b with
  | Eq => match month a ?= month b with
          | Eq => day a ?= day b
          | c => c
          end
  | c => c
  end.

Definition ltb (a b : date) : bool :=
  match compare a b with Lt => true | _ => false end.
Definition leb (a b : date) : bool :=
  match compare a b with Gt => false | _ => true end.
Definition eqb (a b : date) : bool :=
  match compare a b with Eq => true | _ => false end.

Definition lt (a b : date) : Prop := ltb a b = true.
Definition le (a b : date) : Prop := leb a b = true.

(** [date(d.year, d.month, 1)] *)
Definition first_of_month (d : date) : date := mkdate (year d) (month d) 1.

Definition days_before_year (y : Z) : Z :=
  let y1 := y - 1 in y1 * 365 + y1 / 4 - y1 / 100 + y1 / 400.

Definition days_before_month (y m : Z) : Z :=
  let base :=
    match m with
    | 1 => 0 | 2 => 31 | 3 => 59 | 4 => 90 | 5 => 120 | 6 => 151
    | 7 => 181 | 8 => 212 | 9 => 243 | 10 => 273 | 11 => 304 | _ => 334
    end in
  base + (if (2 <? m) && is_leap y then 1 else 0).

Definition toordinal (d : date) : Z :=
  days_before_year (year d) + days_before_month (year d) (month d) + day d.

Definition MAXORDINAL : Z := 3652059.

(** [date.fromordinal], following [_ord2ymd] of the standard library. *)
Definition ord2ymd (n : Z) : date :=
  let n := n - 1 in
  let n400 := n / 146097 in
  let n := n mod 146097 in
  let y := n400 * 400 + 1 in
  let n100 := n / 36524 in
  let n := n mod 36524 in
  let n4 := n / 1461 in
  let n := n mod 1461 in
  let n1 := n / 365 in
  let n := n mod 365 in
  let y := y + n100 * 100 + n4 * 4 + n1 in
  if (n1 =? 4) || (n100 =? 4) then mkdate (y - 1) 12 31
  else
    let leapyear := (n1 =? 3) && (negb (n4 =? 24) || (n100 =? 3)) in
    let m := Z.shiftr (n + 50) 5 in
    let preceding :=
      days_before_month 1 m + (if (2 <? m) && leapyear then 1 else 0) in
    if n <? preceding then
      let m' := m - 1 in
      let preceding' :=
        preceding - (days_in_month 1 m'
                     + (if (m' =? 2) && leapyear then 1 else 0)) in
      mkdate y m' (n - preceding' + 1)
    else mkdate y m (n - preceding + 1).

(** [d + timedelta(days)]: [OverflowError] outside years 1..9999. *)
Definition add_days (d : date) (days : Z) : option date :=
  let o := toordinal d + days in
  if (0 <? o) && (o <=? MAXORDINAL) then Some (ord2ymd o) else None.

(** [str(d)], the ISO form *)
Definition isoformat (d : date) : string :=
  PyStr.pad 4 (year d) +:+ "-" +:+ PyStr.pad 2 (month d) +:+ "-" +:+ PyStr.pad 2 (day d).

End Date.

(** ** Cell values *)

Inductive value :=
| VNone
| VStr (s : string)
| VInt (z : Z)
| VDate (d : date)
| VDateTime (d : date) (hour minute second microsecond : Z).

Global Instance date_eq_dec : EqDecision date.
Proof. solve_decision. Defined.

Global Instance value_eq_dec : EqDecision value.
Proof. solve_decision. Defined.

Definition date_to_tuple (d : date) : Z * Z * Z := (year d, month d, day d).
Definition date_of_tuple (t : Z * Z * Z) : date :=
  let '(y, m, d) := t in mkdate y m d.

Global Instance date_countable : Countable date.
Proof.
  apply (inj_countable' date_to_tuple date_of_tuple).
  intros [y m d]; reflexivity.
Defined.

Definition value_to_sum (v : value)
  : unit + string + Z + date + (date * (Z * Z * Z * Z)) :=
  match v with
  | VNone => inl (inl (inl (inl tt)))
  | VStr s => inl (inl (inl (inr s)))
  | VInt z => inl (inl (inr z))
  | VDate d => inl (inr d)
  | VDateTime d h m s us => inr (d, (h, m, s, us))
  end.

Definition value_of_sum
  (x : unit + string + Z + date + (date * (Z * Z * Z * Z))) : value :=
  match x with
  | inl (inl (inl (inl _))) => VNone
  | inl (inl (inl (inr s))) => VStr s
  | inl (inl (inr z)) => VInt z
  | inl (inr d) => VDate d
  | inr (d, (h, m, s, us)) => VDateTime d h m s us
  end.

Global Instance value_countable : Countable value.
Proof.
  apply (inj_countable' value_to_sum value_of_sum).
  intros []; reflexivity.
Defined.

(** [str(v)] *)
Definition py_str (v : value) : string :=
  match v with
  | VNone => "None"
  | VStr s => s
  | VInt z => PyStr.of_Z z
  | VDate d => Date.isoformat d
  | VDateTime d h m s us =>
      Date.isoformat d +:+ " " +:+ PyStr.pad 2 h +:+ ":" +:+ PyStr.pad 2 m
        +:+ ":" +:+ PyStr.pad 2 s
        +:+ (if us =? 0 then "" else "." +:+ PyStr.pad 6 us)
  end.

(** Truth value of [v] in a condition ([if v], [not v]). *)
Definition truthy (v : value) : bool :=
  match v with
  | VNone => false
  | VStr s => negb (PyStr.is_empty s)
  | VInt z => negb (z =? 0)
  | VDate _ | VDateTime _ _ _ _ _ => true
  end.

Definition is_none (v : value) : bool :=
  match v with VNone => true | _ => false end.

(** ** Records *)

Abbreviation record := (gmap string value).

(** [r.get(k)] *)
Definition get (r : record) (k : string) : value := default VNone (r !! k).

(** [r.get(k, d)] *)
Definition get_default (r : record) (k : string) (d : value) : value :=
  default d (r !! k).

(** [DataProcessor.normalize] (and [DataValidator.normalize_value]) *)
Definition normalize (v : value) : string :=
  if is_none v then "" else PyStr.lower (PyStr.strip (py_str v)).

(** ** [datetime.strptime]

    The standard library turns a format into a regular expression (one
    named group per directive, alternatives tried left to right, letters
    matched without regard to case, a run of blanks in the format matched
    by one or more blanks), takes the first match from the start of the
    text, and raises [ValueError] when there is none, when text is left
    over after it, or when the fields found are not a date.  Month names
    are those of the C locale. *)

Module Strptime.

Inductive directive := D_Y | D_y | D_m | D_d | D_b | D_B | D_H | D_M | D_S.

Inductive item :=
| Dir (d : directive)
| Lit (c : ascii)
| Spaces.

Definition directive_of (c : ascii) : option directive :=
  match c with
  | "Y" => Some D_Y | "y" => Some D_y | "m" => Some D_m | "d" => Some D_d
  | "b" => Some D_b | "B" => Some D_B | "H" => Some D_H | "M" => Some D_M
  | "S" => Some D_S | _ => None
  end%char.

(** The items of a format; [None] for a directive outside the nine above
    or a stray percent sign.  No format of this program repeats a
    directive. *)
Fixpoint compile_from (in_blanks : bool) (fmt : string) : option (list item) :=
  match fmt with
  | EmptyString => Some []
  | String "%" EmptyString => None
  | String "%" (String "%" fmt') => cons (Lit "%") <$> compile_from false fmt'
  | String "%" (String c fmt') =>
      match directive_of c with
      | Some d => cons (Dir d) <$> compile_from false fmt'
      | None => None
      end
  | String c fmt' =>
      if PyStr.is_space c then
        if in_blanks then compile_from true fmt'
        else cons Spaces <$> compile_from true fmt'
      else cons (Lit c) <$> compile_from false fmt'
  end.

Definition compile (fmt : string) : option (list item) := compile_from false fmt.

(** A character class, and an alternative as a sequence of classes. *)
Definition cls := ascii -> bool.
Definition digit : cls := PyStr.is_digit.
Definition rng (a b : ascii) : cls := PyStr.in_range (PyStr.code a) (PyStr.code b).
Definition one (a : ascii) : cls := rng a a.
Definition letter (a : ascii) : cls := fun c => Ascii.eqb (PyStr.lower_char c) a.
Definition word (w : string) : list cls := map letter (list_ascii_of_string w).

Definition a_month : list string :=
  ["jan"; "feb"; "mar"; "apr"; "may"; "jun"; "jul"; "aug"; "sep"; "oct"; "nov"; "dec"].
Definition f_month : list string :=
  ["january"; "february"; "march"; "april"; "may"; "june"; "july"; "august";
   "september"; "october"; "november"; "december"].
(** The full names in the order of their group: longest first. *)
Definition f_month_by_length : list string :=
  ["september"; "february"; "november"; "december"; "january"; "october";
   "august"; "march"; "april"; "june"; "july"; "may"].

Definition alternatives (d : directive) : list (list cls) :=
  match d with
  | D_d => [[one "3"; rng "0" "1"]; [rng "1" "2"; digit]; [one "0"; rng "1" "9"];
            [rng "1" "9"]; [one " "; rng "1" "9"]]
  | D_m => [[one "1"; rng "0" "2"]; [one "0"; rng "1" "9"]; [rng "1" "9"]]
  | D_Y => [[digit; digit; digit; digit]]
  | D_y => [[digit; digit]]
  | D_H => [[one "2"; rng "0" "3"]; [rng "0" "1"; digit]; [digit]]
  | D_M => [[rng "0" "5"; digit]; [digit]]
  | D_S => [[one "6"; rng "0" "1"]; [rng "0" "5"; digit]; [digit]]
  | D_b => map word a_month
  | D_B => map word f_month_by_length
  end%char.

(** The text matched by a sequence of classes at the head of [s], and
    what follows it. *)
Fixpoint match_classes (cs : list cls) (s : string) : option (string * string) :=
  match cs with
  | [] => Some (EmptyString, s)
  | c :: cs' =>
      match s with
      | EmptyString => None
      | String a s' =>
          if c a then
            match match_classes cs' s' with
            | Some (txt, rest) => Some (String a txt, rest)
            | None => None
            end
          else None
      end
  end.

(** What can follow one or more blanks at the head of [s], longest run
    first. *)
Fixpoint after_blanks (s : string) : list string :=
  match s with
  | EmptyString => []
  | String a s' => if PyStr.is_space a then after_blanks s' ++ [s'] else []
  end.

Definition groups := list (directive * string).

(** All matches of the items at the head of [s], in the order in which a
    backtracking matcher finds them, each with the text left over; the
    groups found are accumulated last-first. *)
Fixpoint matches (items : list item) (s : string) (found : groups)
  : list (groups * string) :=
  match items with
  | [] => [(found, s)]
  | Lit c :: items' =>
      match s with
      | EmptyString => []
      | String a s' =>
          if Ascii.eqb (PyStr.lower_char a) (PyStr.lower_char c)
          then matches items' s' found else []
      end
  | Spaces :: items' =>
      flat_map (fun rest => matches items' rest found) (after_blanks s)
  | Dir d :: items' =>
      flat_map
        (fun alt =>
           match match_classes alt s with
           | Some (txt, rest) => matches items' rest ((d, txt) :: found)
           | None => []
           end)
        (alternatives d)
  end.

Record fields := mkfields { f_year : Z; f_month_ : Z; f_day : Z; f_second : Z }.

Fixpoint index_of (w : string) (l : list string) (i : Z) : Z :=
  match l with
  | [] => i
  | x :: l' => if String.eqb x w then i else index_of w l' (i + 1)
  end.

Definition set_field (f : fields) (g : directive * string) : fields :=
  let '(d, txt) := g in
  match d with
  | D_Y => mkfields (PyStr.to_Z txt) (f_month_ f) (f_day f) (f_second f)
  | D_y =>
      let y := PyStr.to_Z txt in
      mkfields (if y <=? 68 then y + 2000 else y + 1900) (f_month_ f) (f_day f) (f_second f)
  | D_m => mkfields (f_year f) (PyStr.to_Z txt) (f_day f) (f_second f)
  | D_b => mkfields (f_year f) (index_of (PyStr.lower txt) a_month 1) (f_day f) (f_second f)
  | D_B => mkfields (f_year f) (index_of (PyStr.lower txt) f_month 1) (f_day f) (f_second f)
  | D_d => mkfields (f_year f) (f_month_ f) (PyStr.to_Z (PyStr.lstrip txt)) (f_second f)
  | D_S => mkfields (f_year f) (f_month_ f) (f_day f) (PyStr.to_Z txt)
  | D_H | D_M => f
  end.

(** [datetime.strptime(s, fmt).date()]; [None] stands for [ValueError]. *)
Definition strptime (s fmt : string) : option date :=
  match compile fmt with
  | None => None
  | Some items =>
      match matches items s [] with
      | (found, EmptyString) :: _ =>
          let f := fold_left set_field (rev found) (mkfields 1900 1 1 0) in
          if f_second f <=? 59 then Date.make (f_year f) (f_month_ f) (f_day f)
          else None
      | _ => None
      end
  end.

End Strptime.

(** ** [DataProcessor]: date parsing *)

Definition date_formats : list string :=
  [ "%Y-%m-%d %H:%M:%S";
    "%Y-%m-%d";
    "%d-%b-%y";
    "%d-%B-%y";
    "%d-%b-%Y";
    "%d-%B-%Y";
    "%d/%b/%y";
    "%d/%B/%y";
    "%d/%b/%Y";
    "%d/%B/%Y";
    "%d.%b.%y";
    "%d.%B.%y";
    "%d-%m-%Y";
    "%d/%m/%Y";
    "%d-%m-%y";
    "%d/%m/%y";
    "%m/%d/%Y";
    "%m-%d-%Y";
    "%m/%d/%y";
    "%m-%d-%y" ].

(** The loop over the formats: the first one that parses wins. *)
Fixpoint try_formats (fmts : list string) (date_str : string) : option date :=
  match fmts with
  | [] => None
  | fmt :: fmts' =>
      match Strptime.strptime date_str fmt with
      | Some d => Some d
      | None => try_formats fmts' date_str
      end
  end.

(** [s.split(c, 1)[1]] when [c] occurs in [s], the empty string otherwise. *)
Fixpoint after_first (c : ascii) (s : string) : string :=
  match s with
  | EmptyString => EmptyString
  | String a s' => if Ascii.eqb a c then s' else after_first c s'
  end.

(** [float(s)] for a text made of digits, dots and dashes only, as the
    exact decimal [n / 10^k]; [None] stands for [ValueError]. *)
Definition parse_decimal (s : string) : option (Z * Z) :=
  let '(negative, body) :=
    match s with
    | String "-" body => (true, body)
    | _ => (false, s)
    end in
  let whole := PyStr.split_head "." body in
  let frac := after_first "." body in
  if PyStr.contains "-" body || PyStr.contains "." frac
     || (PyStr.is_empty whole && PyStr.is_empty frac)
  then None
  else
    let n := PyStr.to_Z (whole +:+ frac) in
    Some (if negative then - n else n, Z.of_nat (String.length frac)).

(** The last resort of [parse_date]: a spreadsheet serial number.  The day
    is the floor of the exact decimal; the rounding of [float] beyond 15
    digits and of [timedelta] to the microsecond is not modelled.  Both
    [timedelta] and the addition raise [OverflowError], which the source
    catches, when the result leaves years 1..9999. *)
Definition parse_excel_serial (date_str : string) : option date :=
  if PyStr.isdigit (PyStr.remove "-" (PyStr.remove "." date_str)) then
    match parse_decimal date_str with
    | Some (n, k) =>
        let excel_days := n / 10 ^ k in
        let days := if 59 * 10 ^ k <? n then excel_days - 1 - 1 else excel_days - 1 in
        Date.add_days (mkdate 1900 1 1) days
    | None => None
    end
  else None.

Definition parse_date (date_value : value) : option date :=
  if is_none date_value
     || PyStr.is_empty (PyStr.strip (py_str date_value))
     || String.eqb (PyStr.lower (PyStr.strip (py_str date_value))) "nan"
  then None
  else
    match date_value with
    | VDateTime d _ _ _ _ => Some d
    | VDate d => Some d
    | _ =>
        let date_str := PyStr.strip (py_str date_value) in
        let from_datetime_string :=
          if PyStr.contains " " date_str && PyStr.contains ":" date_str
          then Strptime.strptime (PyStr.split_head " " date_str) "%Y-%m-%d"
          else None in
        match from_datetime_string with
        | Some d => Some d
        | None =>
            match try_formats date_formats date_str with
            | Some d => Some d
            | None => parse_excel_serial date_str
            end
        end
    end.

(** ** [Config] *)

Record Config := mkConfig {
  REQUIRED_COLUMNS : list string;
  OPTIONAL_COLUMNS : list string;
  ACCEPTED_LEAD_STATUS : list string;
  MAX_FILE_SIZE_MB : Z
}.

Definition default_config : Config :=
  {| REQUIRED_COLUMNS := ["Lead Status"; "Agent Name"; "DQ Reason"];
     OPTIONAL_COLUMNS := ["Segment Tagging"; "JT Persona Tagging"];
     ACCEPTED_LEAD_STATUS := ["Qualified"; "Disqualified"];
     MAX_FILE_SIZE_MB := 50 |}.

(** ** [DataProcessor]: state, sheets and date filters *)

Record DataProcessor := mkDataProcessor {
  config : Config;
  date_column : option string;
  parsed_dates : list (nat * date)
}.

(** [DataProcessor(config)] *)
Definition new_processor (cfg : Config) : DataProcessor :=
  {| config := cfg; date_column := None; parsed_dates := [] |}.

(** A worksheet as [iter_rows(values_only=True)] yields it; [max_row] is
    the number of its rows.  Module [ReadOnly] below has the sheets whose
    [max_row] is something else, or nothing. *)
Abbreviation worksheet := (list (list value)).

Definition any_cell (row : list value) : bool :=
  existsb (fun cell => negb (is_none cell)) row.

Definition header_name (i : nat) (h : value) : string :=
  if is_none h then "Column_" +:+ PyStr.of_Z (Z.of_nat i + 1)
  else PyStr.strip (py_str h).

(** The record of one row: one key per header, later headers of the same
    name overwriting earlier ones, then the two metadata keys. *)
Definition row_record (headers : list string) (row : list value)
    (row_idx : Z) (sheet_type : string) : record :=
  let cells :=
    fold_left (fun (rec : record) (ih : nat * string) =>
                 <[ih.2 := default VNone (row !! ih.1)]> rec)
              (imap (fun i h => (i, h)) headers) ∅ in
  <["_sheet_name" := VStr sheet_type]> (<["_row_number" := VInt row_idx]> cells).

Definition _parse_sheet (ws : worksheet) (sheet_type : string)
  : list string * list record :=
  if (Z.of_nat (List.length ws) <? 2) then ([], [])
  else
    let data := filter (fun row => any_cell row = true) ws in
    match data with
    | [] => ([], [])
    | header_row :: data_rows =>
        let headers := imap header_name header_row in
        let records :=
          omap (fun (ir : nat * list value) =>
                  if negb (any_cell ir.2) then None
                  else Some (row_record headers ir.2 (Z.of_nat ir.1 + 2) sheet_type))
               (imap (fun i row => (i, row)) data_rows) in
        (headers, records)
    end.

(** [parse_dates_from_records]: the one method here that writes to the
    processor (the memo of parsed dates). *)
Definition parse_dates_from_records (self : DataProcessor)
    (records : list record) (column : string)
  : list (nat * date) * DataProcessor :=
  let parsed :=
    omap (fun (ir : nat * record) =>
            match parse_date (get ir.2 column) with
            | Some d => Some (ir.1, d)
            | None => None
            end)
         (imap (fun i r => (i, r)) records) in
  (parsed, {| config := config self; date_column := date_column self;
              parsed_dates := parsed |}).

(** [not self.date_column]: no column, or the empty name. *)
Definition date_column_unset (self : DataProcessor) : bool :=
  match date_column self with
  | None => true
  | Some c => PyStr.is_empty c
  end.

Definition column_name (self : DataProcessor) : string :=
  default "" (date_column self).

Definition on_date (col : string) (target_date : date) (r : record) : bool :=
  match parse_date (get r col) with
  | Some parsed_date => Date.eqb parsed_date target_date
  | None => false
  end.

Definition filter_records_by_date (self : DataProcessor)
    (records : list record) (target_date : date) : list record :=
  if date_column_unset self then []
  else filter (fun r => on_date (column_name self) target_date r = true) records.

(** One turn of the loop that looks for the earliest date. *)
Definition earliest_step (col : string) (earliest_date : option date) (r : record)
  : option date :=
  match parse_date (get r col) with
  | Some parsed_date =>
      match earliest_date with
      | None => Some parsed_date
      | Some e => if Date.ltb parsed_date e then Some parsed_date else Some e
      end
  | None => earliest_date
  end.

Definition in_mtd_window (col : string) (mtd_start selected_date : date) (r : record) : bool :=
  match parse_date (get r col) with
  | Some parsed_date => Date.leb mtd_start parsed_date && Date.leb parsed_date selected_date
  | None => false
  end.

Definition filter_records_mtd (self : DataProcessor)
    (records : list record) (selected_date : date) : list record :=
  if date_column_unset self then []
  else
    let col := column_name self in
    match fold_left (earliest_step col) records None with
    | None => []
    | Some earliest_date =>
        let mtd_start := Date.first_of_month earliest_date in
        filter (fun r => in_mtd_window col mtd_start selected_date r = true) records
    end.

(** ** Record objects in a store

    A list of records in the source is a list of references; [dict.copy]
    makes a new object.  An address is an index into the store, a new
    object goes to the end.  A run stops with [None] only on an address
    outside the store, which no reference of the source can be; the
    properties below show that it does not stop on references that lead
    to records. *)

Abbreviation loc := nat.
Abbreviation store := (list record).

Definition M (A : Type) : Type := store -> option (A * store).

Definition ret {A} (a : A) : M A := fun h => Some (a, h).
Definition bind {A B} (m : M A) (k : A -> M B) : M B :=
  fun h => match m h with
           | Some (a, h') => k a h'
           | None => None
           end.

Declare Scope store_scope.
Delimit Scope store_scope with store.
Notation "x <-- m ;; k" := (bind m (fun x => k))
  (at level 100, m at next level, right associativity) : store_scope.
Notation "m ;;; k" := (bind m (fun _ => k))
  (at level 100, right associativity) : store_scope.

(** [record.copy()] *)
Definition copy (l : loc) : M loc :=
  fun h => match h !! l with
           | Some r => Some (List.length h, h ++ [r])
           | None => None
           end.

(** [record.get(k)] on the object at [l] *)
Definition load (l : loc) (k : string) : M value :=
  fun h => match h !! l with
           | Some r => Some (get r k, h)
           | None => None
           end.

(** [record[k] = v] on the object at [l] *)
Definition assign (l : loc) (k : string) (v : value) : M unit :=
  fun h => match h !! l with
           | Some r => Some (tt, <[l := <[k := v]> r]> h)
           | None => None
           end.

Fixpoint for_each {A B} (f : A -> M B) (l : list A) : M (list B) :=
  match l with
  | [] => ret []
  | a :: l' => (b <-- f a ;; bs <-- for_each f l' ;; ret (b :: bs))%store
  end.

(** ** [DataProcessor.clean_data] *)

Definition normalize_dq_reason (dq_reason : value) : value :=
  if negb (truthy dq_reason)
     || bool_decide (PyStr.strip (py_str dq_reason) ∈ [""; "-"])
  then dq_reason
  else
    let clean_reason := PyStr.strip (py_str dq_reason) in
    VStr (PyStr.title clean_reason).

Definition is_blank_value (v : value) : bool :=
  is_none v
  || String.eqb (PyStr.strip (py_str v)) ""
  || String.eqb (PyStr.strip (py_str v)) "-".

Definition clean_field (cleaned_record : loc) (field : string) : M unit :=
  (v <-- load cleaned_record field ;;
   if is_blank_value v then
     assign cleaned_record field
       (VStr (if String.eqb field "Lead Status" then "" else "(Blank)"))
   else
     let cleaned_value := PyStr.strip (py_str v) in
     if String.eqb field "DQ Reason" then
       assign cleaned_record field (normalize_dq_reason (VStr cleaned_value))
     else
       assign cleaned_record field (VStr cleaned_value))%store.

Definition key_fields : list string := ["Lead Status"; "Agent Name"; "DQ Reason"].

Definition clean_record (rec : loc) : M loc :=
  (cleaned_record <-- copy rec ;;
   for_each (clean_field cleaned_record) key_fields ;;;
   ret cleaned_record)%store.

Definition clean_data (records : list loc) : M (list loc) :=
  for_each clean_record records.

(** ** Dictionaries in insertion order, stable sorting *)

Section OrderedDict.
Context {K : Type} `{EqDecision K} {A : Type}.

(** [d[k] = f(d[k])] on a [Counter] or [defaultdict] whose missing
    entries read as [dflt]: an entry keeps its place, a new key goes to
    the end. *)
Fixpoint upsert (k : K) (f : A -> A) (dflt : A) (d : list (K * A)) : list (K * A) :=
  match d with
  | [] => [(k, f dflt)]
  | (k', a) :: d' =>
      if decide (k' = k) then (k', f a) :: d' else (k', a) :: upsert k f dflt d'
  end.
End OrderedDict.

Section StableSort.
Context {A : Type} (ahead : A -> A -> bool).

(** [ahead x y]: [x], which stood before [y], stays before it. *)
Fixpoint insert_sorted (x : A) (l : list A) : list A :=
  match l with
  | [] => [x]
  | y :: l' => if ahead x y then x :: y :: l' else y :: insert_sorted x l'
  end.

(** [sorted(l, key=..., reverse=True)] and [l.sort(key=..., reverse=True)]:
    largest key first, equal keys in their original order. *)
Definition sort_desc (l : list A) : list A := foldr insert_sorted [] l.
End StableSort.

(** The quotient [n / d if d > 0 else 0] of two counts, as the exact
    rational.  The float of the source is the one nearest to it; the
    rounding is monotone, so rates compare as their floats do, and two
    different rates of counts below 2^26 are different floats. *)
Definition rate (n d : nat) : Q :=
  if (0 <? d)%nat then (Z.of_nat n # Pos.of_nat d)%Q else 0%Q.

(** ** [DataValidator] *)

Record DataValidator := mkDataValidator {
  v_config : Config;
  corrections_applied : gmap value string
}.

Definition qualified_patterns : list string := ["qualified"; "qualify"; "qual"; "q"].
Definition disqualified_patterns : list string :=
  ["disqualified"; "disqualify"; "disqual"; "dq"; "dis"].

Definition matches_pattern (status_lower : string) (patterns : list string) : bool :=
  existsb (fun pattern => String.eqb pattern status_lower
                          || PyStr.startswith status_lower pattern) patterns.

Definition normalize_lead_status (status_text : value) : value :=
  if negb (truthy status_text) || String.eqb (PyStr.strip (py_str status_text)) ""
  then status_text
  else
    let status_lower := PyStr.strip (PyStr.lower (py_str status_text)) in
    if matches_pattern status_lower qualified_patterns then VStr "Qualified"
    else if matches_pattern status_lower disqualified_patterns then VStr "Disqualified"
    else status_text.

(** [v in s] for a set of strings *)
Definition in_statuses (v : value) (s : gset string) : bool :=
  match v with
  | VStr x => bool_decide (x ∈ s)
  | _ => false
  end.

Record issue := mkissue {
  original : value;
  count : nat;
  auto_suggestion : option string;
  fuzzy_matches : list string;
  valid_options : list string
}.

Definition score_ahead (a b : Q * string) : bool :=
  if Qeq_bool a.1 b.1 then String.leb b.2 a.2 else Qle_bool b.1 a.1.

Section Validator.

(** [SequenceMatcher(None, a, b).ratio()] of [difflib], which module
    [Difflib] below defines; its two quick estimates, tested first by
    [get_close_matches], are upper bounds of it and reject nothing that
    it accepts, as [get_close_matches_difflib] shows. *)
Variable ratio : string -> string -> Q.

(** [difflib.get_close_matches]: the possibilities that score at least
    [cutoff] against [word], the [n] best, best first. *)
Definition get_close_matches (word : string) (possibilities : list string)
    (n : nat) (cutoff : Q) : list string :=
  let result :=
    map (fun x => (ratio x word, x))
        (filter (fun x => Qle_bool cutoff (ratio x word) = true) possibilities) in
  map snd (take n (sort_desc score_ahead result)).

Definition count_status (status_counts : list (value * nat)) (r : record)
  : list (value * nat) :=
  let status := get r "Lead Status" in
  if is_none status then status_counts
  else upsert status S 0%nat status_counts.

Definition issue_of (valid_statuses : gset string) (sc : value * nat) : issue :=
  let '(status, count) := sc in
  let normalized := normalize_lead_status status in
  let auto_suggestion :=
    match normalized with
    | VStr n =>
        if bool_decide (normalized ≠ status) && in_statuses normalized valid_statuses
        then Some n else None
    | _ => None
    end in
  let fuzzy_matches :=
    get_close_matches (py_str status) (elements valid_statuses) 2 (6 # 10)%Q in
  {| original := status; count := count; auto_suggestion := auto_suggestion;
     fuzzy_matches := fuzzy_matches; valid_options := elements valid_statuses |}.

(** The order of [list(valid_statuses)] is that of the set, which the
    source leaves to the hash of the strings; here it is the order of
    [elements]. *)
Definition find_lead_status_issues (self : DataValidator) (records : list record)
  : list issue * gmap value string :=
  let valid_statuses : gset string := list_to_set (ACCEPTED_LEAD_STATUS (v_config self)) in
  let status_counts := fold_left count_status records [] in
  let invalid :=
    filter (fun sc : value * nat => in_statuses sc.1 valid_statuses = false) status_counts in
  let issues := map (issue_of valid_statuses) invalid in
  let auto_suggestions :=
    fold_left (fun (acc : gmap value string) (i : issue) =>
                 match auto_suggestion i with
                 | Some a => if PyStr.is_empty a then acc else <[original i := a]> acc
                 | None => acc
                 end) issues ∅ in
  (issues, auto_suggestions).

End Validator.

(** One turn of the loop of [apply_corrections]. *)
Definition correct_record (corrections : gmap value string) (rec : loc) : M (loc * nat) :=
  (corrected_record <-- copy rec ;;
   original_status <-- load rec "Lead Status" ;;
   match corrections !! original_status with
   | Some c =>
       assign corrected_record "Lead Status" (VStr c) ;;;
       ret (corrected_record, 1%nat)
   | None => ret (corrected_record, 0%nat)
   end)%store.

Definition apply_corrections (self : DataValidator) (records : list loc)
    (corrections : gmap value string) : M (list loc * nat * DataValidator) :=
  if bool_decide (corrections = ∅) then ret (records, 0%nat, self)
  else
    (done <-- for_each (correct_record corrections) records ;;
     ret (map fst done, sum_list (map snd done),
          {| v_config := v_config self; corrections_applied := corrections |}))%store.

(** ** [ReportGenerator] *)

Definition status_of (r : record) : string :=
  normalize (get_default r "Lead Status" (VStr "")).

Definition is_qualified (r : record) : bool := String.eqb (status_of r) "qualified".
Definition is_disqualified (r : record) : bool := String.eqb (status_of r) "disqualified".

(** [sum(1 for r in records if p(r))] *)
Definition count_if (p : record -> bool) (records : list record) : nat :=
  sum_list (map (fun _ => 1%nat) (filter (fun r => p r = true) records)).

Definition int_cell (n : nat) : value := VInt (Z.of_nat n).

Definition generate_combined_qa_report (date_records mtd_records : list record)
  : list (list value) :=
  let daily_total := List.length date_records in
  let daily_qualified := count_if is_qualified date_records in
  let mtd_total := List.length mtd_records in
  let mtd_qualified := count_if is_qualified mtd_records in
  [ [VStr "MTD PRE QA"; VStr "MTD POST QA"; VStr "PRE QA"; VStr "POST QA"];
    [int_cell mtd_total; int_cell mtd_qualified; int_cell daily_total; int_cell daily_qualified] ].

Record counts := mkcounts { c_qualified : nat; c_disqualified : nat }.

Definition count_agent (agent_data : list (value * counts)) (r : record)
  : list (value * counts) :=
  let agent := get_default r "Agent Name" (VStr "(Blank)") in
  let status := status_of r in
  if String.eqb status "qualified" then
    upsert agent (fun c => mkcounts (S (c_qualified c)) (c_disqualified c))
           (mkcounts 0 0) agent_data
  else if String.eqb status "disqualified" then
    upsert agent (fun c => mkcounts (c_qualified c) (S (c_disqualified c)))
           (mkcounts 0 0) agent_data
  else agent_data.

(** A row [[agent, disqualified, qualified, grand_total, error_pct]]. *)
Record agent_row := mkagent_row {
  ar_agent : value;
  ar_disqualified : nat;
  ar_qualified : nat;
  ar_total : nat;
  ar_error_pct : Q
}.

Definition agent_row_of (ac : value * counts) : agent_row :=
  let '(agent, c) := ac in
  let grand_total := (c_qualified c + c_disqualified c)%nat in
  mkagent_row agent (c_disqualified c) (c_qualified c) grand_total
              (rate (c_disqualified c) grand_total).

(** The rows of the agents, sorted, before the total is appended. *)
Definition agent_rows (records : list record) : list agent_row :=
  sort_desc (fun x y => Qle_bool (ar_error_pct y) (ar_error_pct x))
            (map agent_row_of (fold_left count_agent records [])).

Definition agent_total_row (rows : list agent_row) : agent_row :=
  let sum_disqualified := sum_list (map ar_disqualified rows) in
  let sum_qualified := sum_list (map ar_qualified rows) in
  let sum_total := sum_list (map ar_total rows) in
  mkagent_row (VStr "Grand Total") sum_disqualified sum_qualified sum_total
              (rate sum_disqualified sum_total).

(** [if rows: rows.append(total(rows))] *)
Definition with_total {R} (total : list R -> R) (rows : list R) : list R :=
  match rows with
  | [] => []
  | _ => rows ++ [total rows]
  end.

(** A row [[reason, count, error_pct]]. *)
Record reason_row := mkreason_row {
  rr_reason : value;
  rr_count : nat;
  rr_error_pct : Q
}.

Definition count_reason (reason_counts : list (value * nat)) (r : record)
  : list (value * nat) :=
  if is_disqualified r then
    upsert (get_default r "DQ Reason" (VStr "(Blank)")) S 0%nat reason_counts
  else reason_counts.

Definition reason_rows (records : list record) : list reason_row :=
  let total_leads := List.length records in
  sort_desc (fun x y => Qle_bool (rr_error_pct y) (rr_error_pct x))
            (map (fun rc : value * nat => mkreason_row rc.1 rc.2 (rate rc.2 total_leads))
                 (fold_left count_reason records [])).

Definition reason_total_row (total_leads : nat) (rows : list reason_row) : reason_row :=
  let total_disqualified := sum_list (map rr_count rows) in
  mkreason_row (VStr "Grand Total") total_disqualified (rate total_disqualified total_leads).

(** The label of a record in a tag column: the trimmed text, or
    ["(Blank)"]. *)
Definition tag_of (column : string) (r : record) : string :=
  let tag := get_default r column (VStr "(Blank)") in
  if is_none tag || String.eqb (PyStr.strip (py_str tag)) "" then "(Blank)"
  else PyStr.strip (py_str tag).

Definition count_tag (column : string) (tag_counts : list (string * nat)) (r : record)
  : list (string * nat) :=
  if is_qualified r then upsert (tag_of column r) S 0%nat tag_counts
  else tag_counts.

(** [Counter.most_common()] of the tags of the qualified records. *)
Definition tag_rows (column : string) (records : list record) : list (string * nat) :=
  sort_desc (fun x y : string * nat => (y.2 <=? x.2)%nat)
            (fold_left (count_tag column) records []).

Definition tag_total_row (rows : list (string * nat)) : string * nat :=
  ("Grand Total", sum_list (map snd rows)).

Definition generate_tag_report (title column : string) (records : list record)
  : list (list value) :=
  [VStr title; VStr "Qualified Count"]
  :: map (fun row : string * nat => [VStr row.1; int_cell row.2])
         (with_total tag_total_row (tag_rows column records)).

Definition generate_segment_wise_report : list record -> list (list value) :=
  generate_tag_report "Segment Wise" "Segment Tagging".

Definition generate_jt_persona_wise_report : list record -> list (list value) :=
  generate_tag_report "JT Persona Tagging" "JT Persona Tagging".

Section Display.

(** [f"{x:.0%}"], the rate as a whole percentage; it rounds the float
    and is left open. *)
Variable format_percent : Q -> string.

Definition display_agent_row (row : agent_row) : list value :=
  [ar_agent row; int_cell (ar_disqualified row); int_cell (ar_qualified row);
   int_cell (ar_total row); VStr (format_percent (ar_error_pct row))].

Definition generate_agent_breakdown_report (records : list record) : list (list value) :=
  [VStr "Agent Name"; VStr "Disqualified"; VStr "Qualified"; VStr "Grand Total"; VStr "Error%"]
  :: map display_agent_row (with_total agent_total_row (agent_rows records)).

Definition display_reason_row (row : reason_row) : list value :=
  [rr_reason row; int_cell (rr_count row); VStr (format_percent (rr_error_pct row))].

Definition generate_dq_reason_report (records : list record) : list (list value) :=
  [VStr "DQ Reason"; VStr "Disqualified"; VStr "Error%"]
  :: map display_reason_row
         (with_total (reason_total_row (List.length records)) (reason_rows records)).

End Display.

(** ** Vocabulary of the specification *)

(** The dates that parse, in the order of the records. *)
Definition parsed_dates_of (col : string) (records : list record) : list date :=
  omap (fun r => parse_date (get r col)) records.

(** In the words of the specification: [min(parsed dates)]. *)
Definition is_earliest (e : date) (ds : list date) : Prop :=
  e ∈ ds /\ forall d, d ∈ ds -> Date.le e d.

(** In the words of the specification: the parsed date lies in [[lo, hi]]. *)
Definition in_window (col : string) (lo hi : date) (r : record) : Prop :=
  exists d, parse_date (get r col) = Some d /\ Date.le lo d /\ Date.le d hi.

Global Instance in_window_dec col lo hi r : Decision (in_window col lo hi r).
Proof.
  unfold in_window. destruct (parse_date (get r col)) as [d|].
  - destruct (Date.leb lo d) eqn:E1; [destruct (Date.leb d hi) eqn:E2 |].
    + left. exists d. auto.
    + right. intros (d' & [= <-] & _ & H). unfold Date.le in H. congruence.
    + right. intros (d' & [= <-] & H & _). unfold Date.le in H. congruence.
  - right. intros (d' & H & _). discriminate.
Defined.

(** ** Data of the worked examples *)

Definition lead (status agent reason audit_date : string) : record :=
  {[ "Lead Status" := VStr status; "Agent Name" := VStr agent;
     "DQ Reason" := VStr reason; "Audit Date" := VStr audit_date ]}.

(** Ten leads: six audited on 2025-11-06 (four qualified), four on
    2025-11-03 (three qualified). *)
Definition scenario_records : list record :=
  [ lead "Qualified" "Ann" "(Blank)" "06-Nov-25";
    lead "Qualified" "Ann" "(Blank)" "2025-11-06";
    lead "Disqualified" "Ann" "Invalid Email" "06-11-2025";
    lead "Qualified" "Bob" "(Blank)" "2025-11-06 00:00:00";
    lead "Disqualified" "Bob" "Invalid Geo" "06-Nov-25";
    lead "Qualified" "Bob" "(Blank)" "06-Nov-25";
    lead "Qualified" "Ann" "(Blank)" "03-Nov-25";
    lead "Qualified" "Bob" "(Blank)" "2025-11-03";
    lead "Disqualified" "Bob" "Invalid Email" "03-11-2025";
    lead "Qualified" "Cid" "(Blank)" "03-Nov-25" ].

Definition scenario_processor : DataProcessor :=
  {| config := default_config; date_column := Some "Audit Date"; parsed_dates := [] |}.

Definition scenario_date : date := mkdate 2025 11 6.

(** A processor whose date column is the empty name, and a record that
    carries a date under that name. *)
Definition unnamed_column_processor : DataProcessor :=
  {| config := default_config; date_column := Some ""; parsed_dates := [] |}.

Definition unnamed_column_record : record := {[ "" := VStr "2025-11-06" ]}.

(** A sheet with a blank row between the header and its one data row. *)
Definition sheet_with_blank_row : worksheet :=
  [ [VStr "Lead Status"; VStr "Agent Name"];
    [VNone; VNone];
    [VStr "Qualified"; VStr "Ann"] ].

(** In the words of the specification: the normalized status is
    ["qualified"]. *)
Definition qualified_status (r : record) : Prop :=
  normalize (get r "Lead Status") = "qualified".

Definition disqualified_status (r : record) : Prop :=
  normalize (get r "Lead Status") = "disqualified".

Global Instance qualified_status_dec r : Decision (qualified_status r).
Proof. unfold qualified_status. apply _. Defined.

Global Instance disqualified_status_dec r : Decision (disqualified_status r).
Proof. unfold disqualified_status. apply _. Defined.

(** ** Reading the store *)

(** The references [locs] lead to the records [rs] in the store [h]. *)
Definition points_to (h : store) (locs : list loc) (rs : list record) : Prop :=
  Forall2 (fun l r => h !! l = Some r) locs rs.

(** What the body of the loop of [clean_data] leaves in one field. *)
Definition cleaned_value (field : string) (v : value) : value :=
  if is_blank_value v then VStr (if String.eqb field "Lead Status" then "" else "(Blank)")
  else if String.eqb field "DQ Reason"
       then normalize_dq_reason (VStr (PyStr.strip (py_str v)))
       else VStr (PyStr.strip (py_str v)).

(** The contents of the cleaned copy of a record. *)
Definition cleaned_contents (r : record) : record :=
  fold_left (fun (c : record) field => <[field := cleaned_value field (get c field)]> c)
            key_fields r.

(** The contents of the corrected copy of a record. *)
Definition corrected_contents (corrections : gmap value string) (r : record) : record :=
  match corrections !! get r "Lead Status" with
  | Some c => <["Lead Status" := VStr c]> r
  | None => r
  end.

(** Whether the status of a record is a key of the corrections. *)
Definition has_correction (corrections : gmap value string) (r : record) : Prop :=
  is_Some (corrections !! get r "Lead Status").

(** In the words of the specification, as amended: absent, blank after
    trimming, or a dash after trimming. *)
Definition blank_or_dash (v : value) : Prop :=
  v = VNone \/ PyStr.strip (py_str v) = "" \/ PyStr.strip (py_str v) = "-".

Definition blank_marker (field : string) : string :=
  if decide (field = "Lead Status") then "" else "(Blank)".

(** No replacement is itself a value to be replaced. *)
Definition settled (corrections : gmap value string) : Prop :=
  forall k c, corrections !! k = Some c -> corrections !! VStr c = None.

(** The text is empty or starts with a character that is not a blank. *)
Definition no_leading_blank (s : string) : Prop :=
  match s with
  | EmptyString => True
  | String c _ => PyStr.is_space c = false
  end.

(** A lead as the sheet gives it, and a store that holds it. *)
Definition raw_lead : record :=
  {[ "Lead Status" := VStr " Qualified "; "Agent Name" := VStr " - ";
     "DQ Reason" := VStr "email bounce back"; "_row_number" := VInt 2;
     "_sheet_name" := VStr "Qualified" ]}.

Definition status_only (status : string) : record := {[ "Lead Status" := VStr status ]}.

(** Five leads with status ["Qual"] among seven. *)
Definition qual_store : store :=
  [ status_only "Qual"; status_only "Qualified"; status_only "Qual"; status_only "Qual";
    status_only "Disqualified"; status_only "Qual"; status_only "Qual" ].

Definition qual_corrections : gmap value string := {[ VStr "Qual" := "Qualified" ]}.

Definition some_validator : DataValidator :=
  {| v_config := default_config; corrections_applied := ∅ |}.

(** ** Reading counters *)

(** What a counter holds for the key [k]. *)
Definition total_for {K} `{EqDecision K} (k : K) (d : list (K * nat)) : nat :=
  sum_list (map snd (filter (fun e : K * nat => e.1 = k) d)).

(** [1] when the proposition holds, [0] otherwise. *)
Definition one_if (P : Prop) `{Decision P} : nat := if decide P then 1%nat else 0%nat.

(** The ["DQ Reason"] by which a record is grouped. *)
Definition reason_of (r : record) : value := get_default r "DQ Reason" (VStr "(Blank)").

(** The ["Agent Name"] by which a record is grouped. *)
Definition agent_of (r : record) : value := get_default r "Agent Name" (VStr "(Blank)").

(** Agent A with two disqualified and three qualified leads, agent B with
    one and four. *)
Definition agent_example : list record :=
  [ lead "Qualified" "B" "" ""; lead "Disqualified" "A" "x" ""; lead "Qualified" "A" "" "";
    lead "Qualified" "B" "" ""; lead "Disqualified" "A" "y" ""; lead "Qualified" "A" "" "";
    lead "Disqualified" "B" "x" ""; lead "Qualified" "B" "" ""; lead "Qualified" "A" "" "";
    lead "Qualified" "B" "" "" ].

(** One agent with a single disqualified lead, another with three
    qualified ones. *)
Definition uneven_example : list record :=
  [ lead "Disqualified" "A" "x" ""; lead "Qualified" "B" "" "";
    lead "Qualified" "B" "" ""; lead "Qualified" "B" "" "" ].

(** One turn of a counting loop: the key under which a record counts, if
    it counts at all. *)
Definition tally_step {K} `{EqDecision K} (sel : record -> option K)
    (d : list (K * nat)) (r : record) : list (K * nat) :=
  match sel r with
  | Some k => upsert k S 0%nat d
  | None => d
  end.

Definition status_key (r : record) : option value :=
  if is_none (get r "Lead Status") then None else Some (get r "Lead Status").

Definition reason_key (r : record) : option value :=
  if is_disqualified r then Some (reason_of r) else None.

Definition tag_key (column : string) (r : record) : option string :=
  if is_qualified r then Some (tag_of column r) else None.

(** In the words of the specification: a record with normalized status
    ["disqualified"] and the given reason. *)
Definition disqualified_for (reason : value) (r : record) : Prop :=
  disqualified_status r /\ reason_of r = reason.

Global Instance disqualified_for_dec reason r : Decision (disqualified_for reason r).
Proof. unfold disqualified_for. apply _. Defined.

(** In the words of the specification: the text equals or starts with one
    of the patterns. *)
Definition equals_or_starts_with (text : string) (patterns : list string) : Prop :=
  Exists (fun p => text = p \/ PyStr.startswith text p = true) patterns.

Global Instance equals_or_starts_with_dec text patterns :
  Decision (equals_or_starts_with text patterns).
Proof. unfold equals_or_starts_with. apply _. Defined.

(** In the words of the specification: the suggestion made for a value by
    the prefix rule, on its lower-cased, trimmed text. *)
Definition prefix_rule (v : value) : option string :=
  let text := PyStr.strip (PyStr.lower (py_str v)) in
  if decide (equals_or_starts_with text ["qualified"; "qualify"; "qual"; "q"])
  then Some "Qualified"
  else if decide (equals_or_starts_with text
                    ["disqualified"; "disqualify"; "disqual"; "dq"; "dis"])
       then Some "Disqualified"
       else None.

(** Records of the statuses ["Qual"] (five times), ["Disposed"] and the
    two accepted ones. *)
Definition status_example : list record :=
  map status_only
      ["Qual"; "Qualified"; "Qual"; "Disposed"; "Qual"; "Disqualified"; "Qual"; "Qual"].

(** ** More of [DataProcessor]: loading, columns, validation

    A [ValidationError] is its message; a function that may raise one
    returns [inl message], and [inr] what it returns otherwise. *)

Definition ValidationError := string.

(** The text between double quotes *)
Definition quoted (s : string) : string :=
  String (ascii_of_N 34) s +:+ String (ascii_of_N 34) EmptyString.

(** [sep.join(l)] *)
Definition join (sep : string) (l : list string) : string := String.concat sep l.

(** What the reader of spreadsheets hands over: the size of the file when
    it has one, and either the sheets of the workbook, each with its
    title, or the text of the exception that [load_workbook] raised. *)
Record uploaded_file := mkfile {
  file_size : option Z;
  workbook : string + list (string * worksheet)
}.

Definition validate_file_size (self : DataProcessor) (f : uploaded_file)
  : ValidationError + unit :=
  match file_size f with
  | Some size =>
      if MAX_FILE_SIZE_MB (config self) * 1024 * 1024 <? size
      then inl ("File size exceeds " +:+ PyStr.of_Z (MAX_FILE_SIZE_MB (config self))
                +:+ " MB limit")
      else inr tt
  | None => inr tt
  end.

(** The loop that looks for the two sheets: a later sheet of the same
    name replaces an earlier one. *)
Definition pick_sheet (found : option worksheet * option worksheet)
    (sheet : string * worksheet) : option worksheet * option worksheet :=
  let sheet_name_lower := PyStr.strip (PyStr.lower sheet.1) in
  if String.eqb sheet_name_lower "qualified" then (Some sheet.2, found.2)
  else if String.eqb sheet_name_lower "disqualified" then (found.1, Some sheet.2)
  else found.

(** The loop that keeps the first header of each name, names compared in
    lower case. *)
Fixpoint unique_headers_from (seen_headers : gset string) (all_headers : list string)
  : list string :=
  match all_headers with
  | [] => []
  | header :: rest =>
      let header_lower := PyStr.lower header in
      if bool_decide (header_lower ∈ seen_headers)
      then unique_headers_from seen_headers rest
      else header :: unique_headers_from ({[header_lower]} ∪ seen_headers) rest
  end.

Definition parse_found (found : option worksheet) (sheet_type : string)
  : list string * list record :=
  match found with
  | Some ws => _parse_sheet ws sheet_type
  | None => ([], [])
  end.

Definition load_and_parse_excel (self : DataProcessor) (f : uploaded_file)
  : ValidationError + (list string * list record) :=
  match validate_file_size self f with
  | inl e => inl e
  | inr _ =>
      match workbook f with
      | inl e => inl ("Error reading file: " +:+ e)
      | inr worksheets =>
          if bool_decide (worksheets = []) then inl "No worksheets found in the file"
          else
            let found := fold_left pick_sheet worksheets (None, None) in
            match found with
            | (None, None) =>
                inl ("Required sheets not found. File must contain at least one sheet named "
                     +:+ quoted "Qualified" +:+ " or " +:+ quoted "Disqualified"
                     +:+ " (case-insensitive)")
            | (qualified_sheet, disqualified_sheet) =>
                let q := parse_found qualified_sheet "Qualified" in
                let d := parse_found disqualified_sheet "Disqualified" in
                let all_headers := q.1 ++ d.1 in
                let all_records := q.2 ++ d.2 in
                if bool_decide (all_records = [])
                then inl "No valid data records found in any sheet"
                else inr (unique_headers_from ∅ all_headers, all_records)
            end
      end
  end.

(** [detect_date_column]: the dictionary from lower-cased header to
    header keeps, for each lower-cased name, the last header of that
    name. *)
Definition headers_by_lower (headers : list string) : gmap string string :=
  fold_left (fun (m : gmap string string) h => <[PyStr.lower h := h]> m) headers ∅.

Definition detect_date_column (self : DataProcessor) (headers : list string)
  : option string * DataProcessor :=
  match headers_by_lower headers !! "audit date" with
  | Some c =>
      (Some c, {| config := config self; date_column := Some c;
                  parsed_dates := parsed_dates self |})
  | None => (None, self)
  end.

Definition excluded_lower : list string :=
  ["_row_number"; "_sheet_name"; "lead status"; "dq reason"; "agent name"].

Definition get_date_column_options (headers : list string) : list string :=
  filter (fun h => PyStr.lower h ∉ excluded_lower) headers.

(** [sorted(s)] for a set of dates *)
Definition sorted_dates (dates : list date) : list date :=
  foldr (insert_sorted Date.leb) [] dates.

(** [get_unique_dates]: the set of the dates remembered, sorted. *)
Definition get_unique_dates (self : DataProcessor) : list date :=
  match parsed_dates self with
  | [] => []
  | _ => sorted_dates (elements (list_to_set (map snd (parsed_dates self)) : gset date))
  end.

Definition validate_columns (self : DataProcessor) (headers : list string)
  : ValidationError + unit :=
  let headers_lower := map PyStr.lower headers in
  let missing_cols :=
    filter (fun col => PyStr.lower col ∉ headers_lower) (REQUIRED_COLUMNS (config self)) in
  match missing_cols with
  | [] => inr tt
  | _ => inl ("Missing required columns: " +:+ join ", " missing_cols)
  end.

(** The statuses that [validate_lead_status] rejects: the normalized
    statuses of the records, those of absent values left out, that are
    neither empty nor the normalized form of an accepted status. *)
Definition unexpected_statuses (self : DataProcessor) (records : list record)
  : list string :=
  let unique_statuses : gset string :=
    list_to_set
      (map (fun r => normalize (get r "Lead Status"))
           (filter (fun r => is_none (get r "Lead Status") = false) records)) in
  let accepted_statuses :=
    map (fun status => normalize (VStr status)) (ACCEPTED_LEAD_STATUS (config self)) in
  filter (fun status => status <> "" /\ status ∉ accepted_statuses)
         (elements unique_statuses).

Definition validate_lead_status (self : DataProcessor) (records : list record)
  : ValidationError + unit :=
  match unexpected_statuses self records with
  | [] => inr tt
  | unexpected =>
      inl ("Invalid Lead Status values: " +:+ join ", " unexpected
           +:+ ". Allowed values: " +:+ join ", " (ACCEPTED_LEAD_STATUS (config self)))
  end.

(** [check_optional_columns]: for each optional column, whether a header
    has its name, compared in lower case. *)
Definition check_optional_columns (self : DataProcessor) (headers : list string)
  : gmap string bool :=
  let headers_lower := map PyStr.lower headers in
  fold_left (fun (m : gmap string bool) col =>
               <[col := bool_decide (PyStr.lower col ∈ headers_lower)]> m)
            (OPTIONAL_COLUMNS (config self)) ∅.

(** ** Dates that exist *)

(** A date of the calendar, as every [datetime.date] is. *)
Definition real_date (d : date) : Prop := Date.valid (year d) (month d) (day d) = true.

(** A cell whose date, if it holds one, is a date of the calendar. *)
Definition well_formed (v : value) : Prop :=
  match v with
  | VDate d | VDateTime d _ _ _ _ => real_date d
  | _ => True
  end.

(** The month and the day that [Date.ord2ymd] gives to day [n] (from 0)
    of a year, leap or not. *)
Definition month_day (n : Z) (leapyear : bool) : Z * Z :=
  let m := Z.shiftr (n + 50) 5 in
  let preceding :=
    Date.days_before_month 1 m + (if (2 <? m) && leapyear then 1 else 0) in
  if n <? preceding then
    let m' := m - 1 in
    let preceding' :=
      preceding - (Date.days_in_month 1 m'
                   + (if (m' =? 2) && leapyear then 1 else 0)) in
    (m', n - preceding' + 1)
  else (m, n - preceding + 1).

Definition month_day_ok (leapyear : bool) (n : Z) : bool :=
  let '(m, d) := month_day n leapyear in
  (1 <=? m) && (m <=? 12) && (1 <=? d)
  && (d <=? match m with
            | 2 => if leapyear then 29 else 28
            | 4 | 6 | 9 | 11 => 30
            | _ => 31
            end).

(** Whether the year [1 + 100 a + 4 b + c] of a cycle of 400 years is
    leap exactly when [Date.ord2ymd] says so. *)
Definition leap_flag_ok (a b c : Z) : bool :=
  Bool.eqb (Date.is_leap (1 + 100 * a + 4 * b + c))
           ((c =? 3) && (negb (b =? 24) || (a =? 3))).

(** ** Vocabulary of the date filters *)

(** The date of the record parses, to a date not after [d]. *)
Definition dated_by (col : string) (d : date) (r : record) : Prop :=
  exists p, parse_date (get r col) = Some p /\ Date.le p d.

(** The date of the record parses to [d]. *)
Definition dated (col : string) (d : date) (r : record) : Prop :=
  parse_date (get r col) = Some d.

(** The date of the record parses. *)
Definition has_date (col : string) (r : record) : Prop :=
  is_Some (parse_date (get r col)).

Global Instance dated_by_dec col d r : Decision (dated_by col d r).
Proof.
  unfold dated_by. destruct (parse_date (get r col)) as [p|].
  - destruct (Date.leb p d) eqn:E.
    + left. exists p. auto.
    + right. intros (p' & [= <-] & H). unfold Date.le in H. congruence.
  - right. intros (p' & H & _). discriminate.
Defined.

Global Instance dated_dec col d r : Decision (dated col d r).
Proof. unfold dated. apply _. Defined.

Global Instance has_date_dec col r : Decision (has_date col r).
Proof. unfold has_date. apply _. Defined.

(** The cells of the date column hold dates of the calendar, where they
    hold dates. *)
Definition date_cells_well_formed (col : string) (records : list record) : Prop :=
  Forall (fun r => well_formed (get r col)) records.

(** A processor whose date column is [col]. *)
Definition uses_column (self : DataProcessor) (col : string) : Prop :=
  date_column self = Some col /\ col <> "".

(** ** Vocabulary of the loader *)

(** The last sheet of the workbook whose title reads [name] once in
    lower case and trimmed. *)
Definition sheet_named (name : string) (sheets : list (string * worksheet))
  : option worksheet :=
  last (filter (fun sheet : string * worksheet => PyStr.strip (PyStr.lower sheet.1) = name)
               sheets).*2.

(** The number of rows of a sheet that are not blank. *)
Definition filled_rows (ws : worksheet) : nat :=
  List.length (filter (fun row => any_cell row = true) ws).

(** The size of the file, when it has one, is within the limit. *)
Definition within_size_limit (self : DataProcessor) (f : uploaded_file) : Prop :=
  forall size, file_size f = Some size -> size <= MAX_FILE_SIZE_MB (config self) * 1024 * 1024.

(** A key of a record that [_parse_sheet] adds by itself. *)
Definition metadata_key (k : string) : Prop := k = "_row_number" \/ k = "_sheet_name".


(** A workbook whose Disqualified sheet comes first and whose Qualified
    sheet is titled in capitals, with blanks around the title. *)
Definition two_sheet_file : uploaded_file :=
  {| file_size := Some 20480;
     workbook :=
       inr [ ("Disqualified",
              [ [VStr "Lead Status"; VStr "agent name"];
                [VStr "Disqualified"; VStr "Bob"] ]);
             ("Notes", [ [VStr "n/a"] ]);
             (" QUALIFIED ", sheet_with_blank_row) ] |}.


(** A counting loop that leaves out the keys without the property. *)
Definition keep_if {K} (P : K -> Prop) `{forall k, Decision (P k)}
    (sel : record -> option K) (r : record) : option K :=
  match sel r with
  | Some k => if decide (P k) then Some k else None
  | None => None
  end.

(** Every replacement is an accepted status. *)
Definition to_accepted (cfg : Config) (corrections : gmap value string) : Prop :=
  forall k c, corrections !! k = Some c -> c ∈ ACCEPTED_LEAD_STATUS cfg.


(** ** Vocabulary of the serial numbers *)

(** The items of a format hold a character that no digit matches. *)
Definition has_separator (items : list Strptime.item) : bool :=
  existsb (fun it => match it with
                     | Strptime.Lit c => negb (PyStr.is_digit c)
                     | Strptime.Spaces => true
                     | Strptime.Dir _ => false
                     end) items.

(** The date of the serial number [n] of a spreadsheet: day 1 is the
    first of January 1900, and from 60 on one day is taken off, for the
    29th of February 1900 that spreadsheets count. *)
Definition serial_date (n : Z) : option date :=
  Date.add_days (mkdate 1900 1 1) (if 59 <? n then n - 2 else n - 1).


(** ** Vocabulary of the reports *)

(** The elements of a list, each once, in the order in which they first
    occur. *)
Definition first_seen {A} `{EqDecision A} (l : list A) : list A :=
  reverse (remove_dups (reverse l)).

(** The agent under which a record counts in the report of the agents,
    if it counts at all. *)
Definition agent_key (r : record) : option value :=
  if is_qualified r || is_disqualified r then Some (agent_of r) else None.

(** A record of the given agent with normalized status ["qualified"],
    or ["disqualified"]. *)
Definition qualified_by (agent : value) (r : record) : Prop :=
  qualified_status r /\ agent_of r = agent.

Definition disqualified_by (agent : value) (r : record) : Prop :=
  disqualified_status r /\ agent_of r = agent.

Global Instance qualified_by_dec agent r : Decision (qualified_by agent r).
Proof. unfold qualified_by. apply _. Defined.

Global Instance disqualified_by_dec agent r : Decision (disqualified_by agent r).
Proof. unfold disqualified_by. apply _. Defined.

(** A qualified record with the given label in a tag column. *)
Definition tagged (column tag : string) (r : record) : Prop :=
  qualified_status r /\ tag_of column r = tag.

Global Instance tagged_dec column tag r : Decision (tagged column tag r).
Proof. unfold tagged. apply _. Defined.


Global Instance Qeq_decision (x y : Q) : Decision (x == y)%Q := Qeq_dec x y.


(** The normalized status is empty: no status, or a blank one. *)
Definition blank_status (r : record) : Prop :=
  normalize (get r "Lead Status") = "".

Global Instance blank_status_dec r : Decision (blank_status r).
Proof. unfold blank_status. apply _. Defined.


(** ** The selection of the date, in the application

    [_handle_date_selection] shows each date offered as
    [d.strftime('%d-%b-%Y')] and reads the text selected back with
    [datetime.strptime(text, '%d-%b-%Y').date()]. *)

Definition month_abbr : list string :=
  ["Jan"; "Feb"; "Mar"; "Apr"; "May"; "Jun"; "Jul"; "Aug"; "Sep"; "Oct"; "Nov"; "Dec"].

(** [d.strftime('%d-%b-%Y')] in the C locale, for a year of four digits
    (below 1000 the C libraries differ on the padding of the year). *)
Definition strftime_d_b_Y (d : date) : string :=
  PyStr.pad 2 (day d) +:+ "-" +:+ nth (Z.to_nat (month d - 1)) month_abbr ""
  +:+ "-" +:+ PyStr.pad 4 (year d).

(** The text of a year has four digits and reads back as the year. *)
Definition year_text_ok (y : Z) : bool :=
  match PyStr.pad 4 y with
  | String a (String b (String c (String e EmptyString))) =>
      PyStr.is_digit a && PyStr.is_digit b && PyStr.is_digit c && PyStr.is_digit e
      && (PyStr.to_Z (PyStr.pad 4 y) =? y)
  | _ => false
  end.

(** The text of a day reads back as the day, and the name of a month as
    the month. *)
Definition day_text_ok (n : Z) : bool :=
  PyStr.to_Z (PyStr.lstrip (PyStr.pad 2 n)) =? n.

Definition month_text_ok (m : Z) : bool :=
  Strptime.index_of (PyStr.lower (nth (Z.to_nat (m - 1)) month_abbr ""))
                    Strptime.a_month 1 =? m.



(** The text of a month number reads back as the month. *)
Definition month_number_ok (m : Z) : bool := PyStr.to_Z (PyStr.pad 2 m) =? m.


(** A date in the format that the source calls its primary one,
    [%d-%b-%y], as in [06-Nov-25]. *)
Definition primary_text (d : date) : string :=
  PyStr.pad 2 (day d) +:+ "-" +:+ nth (Z.to_nat (month d - 1)) month_abbr ""
  +:+ "-" +:+ PyStr.pad 2 (year d mod 100).

(** The text of a number below 100 has two digits and reads back as the
    number. *)
Definition two_digits_ok (n : Z) : bool :=
  match PyStr.pad 2 n with
  | String a (String b EmptyString) =>
      PyStr.is_digit a && PyStr.is_digit b && (PyStr.to_Z (PyStr.pad 2 n) =? n)
  | _ => false
  end.

(** The name of a month holds no blank. *)
Definition month_name_ok (m : Z) : bool :=
  negb (PyStr.contains " " (nth (Z.to_nat (m - 1)) month_abbr "")).


(** A sheet whose headers are spelled in lower case. *)
Definition lower_case_sheet : worksheet :=
  [ [VStr "lead status"; VStr "agent name"; VStr "dq reason"];
    [VStr "Qualified"; VStr "Ann"; VNone];
    [VStr "Disqualified"; VStr "Bob"; VStr "Invalid Email"] ].


(** ** Text in ASCII

    The functions of [PyStr] follow [str] on the characters below 128.
    On others [str.title] and its like do more: a character may have a
    title case of several characters. *)

Definition ascii_char (c : ascii) : bool := (PyStr.code c <? 128)%N.

Fixpoint ascii_text (s : string) : bool :=
  match s with
  | EmptyString => true
  | String c s' => ascii_char c && ascii_text s'
  end.

(** The text [str(v)] of a value is in ASCII. *)
Definition ascii_value (v : value) : Prop := ascii_text (py_str v) = true.

(** The three fields that [clean_data] cleans hold text in ASCII. *)
Definition ascii_key_fields (r : record) : Prop :=
  forall field, field ∈ key_fields -> ascii_value (get r field).


(** ** Sheets as the reader of spreadsheets hands them over

    In read-only mode [worksheet.max_row] is what the dimension element
    of the sheet says, and [None] when the sheet has none; the rows come
    from [iter_rows], which reads the sheet as it goes and may raise.
    [_parse_sheet] and [load_and_parse_excel] above are the functions
    below on sheets that are read without an exception and whose
    [max_row] is the number of their rows. *)

Module ReadOnly.

Record worksheet := mksheet {
  max_row : option Z;
  iter_rows : string + list (list value)
}.

Record uploaded_file := mkfile {
  file_size : option Z;
  workbook : string + list (string * worksheet)
}.

(** The text of the [TypeError] that [None < 2] raises. *)
Definition none_less_than_int : string :=
  "'<' not supported between instances of 'NoneType' and 'int'".

(** The body of [_parse_sheet] from the rows on. *)
Definition parse_rows (rows : list (list value)) (sheet_type : string)
  : list string * list record :=
  let data := filter (fun row => any_cell row = true) rows in
  match data with
  | [] => ([], [])
  | header_row :: data_rows =>
      let headers := imap header_name header_row in
      let records :=
        omap (fun (ir : nat * list value) =>
                if negb (any_cell ir.2) then None
                else Some (row_record headers ir.2 (Z.of_nat ir.1 + 2) sheet_type))
             (imap (fun i row => (i, row)) data_rows) in
      (headers, records)
  end.

(** [inl e]: an exception that is no [ValidationError], with [str(e)]. *)
Definition _parse_sheet (ws : worksheet) (sheet_type : string)
  : string + (list string * list record) :=
  match max_row ws with
  | None => inl none_less_than_int
  | Some m =>
      if m <? 2 then inr ([], [])
      else
        match iter_rows ws with
        | inl e => inl e
        | inr rows => inr (parse_rows rows sheet_type)
        end
  end.

Definition validate_file_size (self : DataProcessor) (f : uploaded_file)
  : ValidationError + unit :=
  match file_size f with
  | Some size =>
      if MAX_FILE_SIZE_MB (config self) * 1024 * 1024 <? size
      then inl ("File size exceeds " +:+ PyStr.of_Z (MAX_FILE_SIZE_MB (config self))
                +:+ " MB limit")
      else inr tt
  | None => inr tt
  end.

Definition pick_sheet (found : option worksheet * option worksheet)
    (sheet : string * worksheet) : option worksheet * option worksheet :=
  let sheet_name_lower := PyStr.strip (PyStr.lower sheet.1) in
  if String.eqb sheet_name_lower "qualified" then (Some sheet.2, found.2)
  else if String.eqb sheet_name_lower "disqualified" then (found.1, Some sheet.2)
  else found.

Definition parse_found (found : option worksheet) (sheet_type : string)
  : string + (list string * list record) :=
  match found with
  | Some ws => _parse_sheet ws sheet_type
  | None => inr ([], [])
  end.

(** [except Exception as e: raise ValidationError(...)] *)
Definition error_reading_file (e : string) : ValidationError :=
  "Error reading file: " +:+ e.

Definition load_and_parse_excel (self : DataProcessor) (f : uploaded_file)
  : ValidationError + (list string * list record) :=
  match validate_file_size self f with
  | inl e => inl e
  | inr _ =>
      match workbook f with
      | inl e => inl (error_reading_file e)
      | inr [] => inl "No worksheets found in the file"
      | inr worksheets =>
          let found := fold_left pick_sheet worksheets (None, None) in
          match found with
          | (None, None) =>
              inl ("Required sheets not found. File must contain at least one sheet named "
                   +:+ quoted "Qualified" +:+ " or " +:+ quoted "Disqualified"
                   +:+ " (case-insensitive)")
          | (qualified_sheet, disqualified_sheet) =>
              match parse_found qualified_sheet "Qualified" with
              | inl e => inl (error_reading_file e)
              | inr q =>
                  match parse_found disqualified_sheet "Disqualified" with
                  | inl e => inl (error_reading_file e)
                  | inr d =>
                      let all_headers := q.1 ++ d.1 in
                      let all_records := q.2 ++ d.2 in
                      if bool_decide (all_records = [])
                      then inl "No valid data records found in any sheet"
                      else inr (unique_headers_from ∅ all_headers, all_records)
                  end
              end
          end
      end
  end.

(** A sheet read without an exception whose [max_row] is the number of
    its rows. *)
Definition dimensioned (rows : list (list value)) : worksheet :=
  {| max_row := Some (Z.of_nat (List.length rows)); iter_rows := inr rows |}.

(** The same rows in a sheet without a dimension element. *)
Definition undimensioned (rows : list (list value)) : worksheet :=
  {| max_row := None; iter_rows := inr rows |}.

(** The last sheet of the workbook whose title reads [name] once in
    lower case and trimmed. *)
Definition sheet_named (name : string) (sheets : list (string * worksheet))
  : option worksheet :=
  last (filter (fun sheet : string * worksheet => PyStr.strip (PyStr.lower sheet.1) = name)
               sheets).*2.

(** The sheet can be parsed: it has a [max_row], and its rows can be
    read when [max_row] is 2 or more. *)
Definition readable (found : option worksheet) : Prop :=
  match found with
  | Some ws =>
      exists m, max_row ws = Some m
                /\ (2 <= m -> exists rows, iter_rows ws = inr rows)
  | None => True
  end.

(** The number of records that a sheet gives: none when [max_row] is
    below 2, else the rows that are not blank, less the first of them. *)
Definition data_rows_of (found : option worksheet) : nat :=
  match found with
  | Some {| max_row := Some m; iter_rows := inr rows |} =>
      if m <? 2 then 0%nat else pred (filled_rows rows)
  | _ => 0%nat
  end.

Definition within_size_limit (self : DataProcessor) (f : uploaded_file) : Prop :=
  forall size, file_size f = Some size -> size <= MAX_FILE_SIZE_MB (config self) * 1024 * 1024.

End ReadOnly.

(** The file whose sheets are those of [f], read without an exception
    and each with the number of its rows as [max_row]. *)
Definition all_dimensioned (f : uploaded_file) : ReadOnly.uploaded_file :=
  {| ReadOnly.file_size := file_size f;
     ReadOnly.workbook :=
       match workbook f with
       | inl e => inl e
       | inr sheets =>
           inr (map (fun sheet : string * worksheet =>
                       (sheet.1, ReadOnly.dimensioned sheet.2)) sheets)
       end |}.

(** A workbook whose Qualified sheet has no dimension element. *)
Definition undimensioned_file : ReadOnly.uploaded_file :=
  {| ReadOnly.file_size := Some 20480;
     ReadOnly.workbook :=
       inr [ ("Disqualified",
              ReadOnly.dimensioned
                [ [VStr "Lead Status"; VStr "agent name"];
                  [VStr "Disqualified"; VStr "Bob"] ]);
             (" QUALIFIED ", ReadOnly.undimensioned sheet_with_blank_row) ] |}.

(** The workbook of [two_sheet_file], all dimensions in place. *)
Definition dimensioned_file : ReadOnly.uploaded_file := all_dimensioned two_sheet_file.


(** ** [difflib]: the similarity of two texts

    [SequenceMatcher(None, a, b)] as the standard library has it, on the
    characters of two strings and with no junk test: [__chain_b] leaves
    out of [b2j] the characters that are popular in [b] (more than
    [len(b) // 100 + 1] occurrences once [b] has 200 characters),
    [find_longest_match] looks for the longest block of [a[alo:ahi]]
    that is in [b[blo:bhi]] and that starts with a character in [b2j],
    then extends it on both sides, and [get_matching_blocks] goes on in
    the same way to the left and to the right of the block. *)

Module Difflib.

Definition chars (s : string) : list ascii := list_ascii_of_string s.

Definition occurrences (c : ascii) (b : list ascii) : nat :=
  List.length (filter (fun x => x = c) b).

(** The characters that [__chain_b] deletes from [b2j]. *)
Definition popular (b : list ascii) (c : ascii) : bool :=
  (200 <=? List.length b)%nat && (List.length b / 100 + 1 <? occurrences c b)%nat.

(** [Match(a, b, size)] *)
Record Match := mkMatch { m_a : nat; m_b : nat; m_size : nat }.

Section Matcher.
Variables a b : list ascii.

Definition a_at (i : nat) : ascii := nth i a Ascii.zero.
Definition b_at (j : nat) : ascii := nth j b Ascii.zero.

(** The inner loop of [find_longest_match], for one [i]: [j] runs over
    the places of [a[i]] in [b], in increasing order; [bs] is [b[j:]].
    The dictionary [j2len] is the list of its values by [j], with 0 where
    it has no entry: [j2len] holds its values from [j] on and [before]
    is [j2len.get(j - 1, 0)].  The result is [newj2len] from [j] on and
    the best match so far. *)
Fixpoint inner_loop (i blo bhi : nat) (bs : list ascii) (j before : nat)
    (j2len : list nat) (best : Match) : list nat * Match :=
  match bs with
  | [] => ([], best)
  | bj :: bs' =>
      let here := hd 0%nat j2len in
      if Ascii.eqb bj (a_at i) && negb (popular b bj) && (blo <=? j)%nat && (j <? bhi)%nat
      then
        let k := S before in
        let best' :=
          if (m_size best <? k)%nat
          then {| m_a := i + 1 - k; m_b := j + 1 - k; m_size := k |}
          else best in
        let '(newj2len, best'') := inner_loop i blo bhi bs' (S j) here (tl j2len) best' in
        (k :: newj2len, best'')
      else
        let '(newj2len, best'') := inner_loop i blo bhi bs' (S j) here (tl j2len) best in
        (0%nat :: newj2len, best'')
  end.

(** One turn of the loop [for i in range(alo, ahi)]. *)
Definition outer_step (blo bhi : nat) (state : list nat * Match) (i : nat)
  : list nat * Match :=
  inner_loop i blo bhi b 0 0 state.1 state.2.

(** [while besti > alo and bestj > blo and a[besti-1] == b[bestj-1]] *)
Fixpoint extend_back (alo blo besti bestj bestsize : nat) {struct besti} : Match :=
  match besti, bestj with
  | S i', S j' =>
      if (alo <? besti)%nat && (blo <? bestj)%nat && Ascii.eqb (a_at i') (b_at j')
      then extend_back alo blo i' j' (S bestsize)
      else mkMatch besti bestj bestsize
  | _, _ => mkMatch besti bestj bestsize
  end.

(** [while besti+bestsize < ahi and bestj+bestsize < bhi and
    a[besti+bestsize] == b[bestj+bestsize]], which takes at most
    [ahi - (besti + bestsize)] turns. *)
Fixpoint extend_forward (turns ahi bhi besti bestj bestsize : nat) : nat :=
  match turns with
  | O => bestsize
  | S turns' =>
      if (besti + bestsize <? ahi)%nat && (bestj + bestsize <? bhi)%nat
         && Ascii.eqb (a_at (besti + bestsize)) (b_at (bestj + bestsize))
      then extend_forward turns' ahi bhi besti bestj (S bestsize)
      else bestsize
  end.

Definition find_longest_match (alo ahi blo bhi : nat) : Match :=
  let best :=
    (fold_left (outer_step blo bhi) (seq alo (ahi - alo))
               ([], mkMatch alo blo 0)).2 in
  let back := extend_back alo blo (m_a best) (m_b best) (m_size best) in
  let bestsize :=
    extend_forward (ahi - (m_a back + m_size back)) ahi bhi
                   (m_a back) (m_b back) (m_size back) in
  mkMatch (m_a back) (m_b back) bestsize.

(** The sum of the sizes of the blocks of [get_matching_blocks] within
    [a[alo:ahi]] and [b[blo:bhi]]; [None] when the turns run out. *)
Fixpoint matching (turns alo ahi blo bhi : nat) : option nat :=
  match turns with
  | O => None
  | S turns' =>
      let x := find_longest_match alo ahi blo bhi in
      let i := m_a x in
      let j := m_b x in
      let k := m_size x in
      if (k =? 0)%nat then Some 0%nat
      else
        match (if (alo <? i)%nat && (blo <? j)%nat
               then matching turns' alo i blo j else Some 0%nat),
              (if (i + k <? ahi)%nat && (j + k <? bhi)%nat
               then matching turns' (i + k) ahi (j + k) bhi else Some 0%nat)
        with
        | Some before, Some after => Some (k + before + after)%nat
        | _, _ => None
        end
  end.

End Matcher.

(** A match lies in [a[alo:n]]. *)
Definition within (alo n : nat) (x : Match) : Prop :=
  (alo <= m_a x)%nat /\ (m_a x + m_size x <= n)%nat.

(** [_calculate_ratio] *)
Definition calculate_ratio (matches length : nat) : Q :=
  if (length =? 0)%nat then 1%Q else (2 * Z.of_nat matches # Pos.of_nat length)%Q.

(** [SequenceMatcher(None, a, b).ratio()] *)
Definition ratio (a b : string) : Q :=
  let la := List.length (chars a) in
  let lb := List.length (chars b) in
  match matching (chars a) (chars b) (S la) 0 la 0 lb with
  | Some matches => calculate_ratio matches (la + lb)
  | None => 0%Q
  end.

(** The loop of [quick_ratio] over the characters of [a]: [avail] tells
    how many of a character are left in [b]; it is [fullbcount] at
    first, and may go below 0. *)
Fixpoint quick_matches (a : list ascii) (avail : ascii -> Z) : nat :=
  match a with
  | [] => 0%nat
  | elt :: a' =>
      let numb := avail elt in
      ((if (0 <? numb)%Z then 1 else 0)
       + quick_matches a' (fun c => if Ascii.eqb c elt then (numb - 1)%Z else avail c))%nat
  end.

Definition fullbcount (b : list ascii) (c : ascii) : Z := Z.of_nat (occurrences c b).

(** [SequenceMatcher(None, a, b).quick_ratio()] *)
Definition quick_ratio (a b : string) : Q :=
  calculate_ratio (quick_matches (chars a) (fullbcount (chars b)))
                  (List.length (chars a) + List.length (chars b)).

(** [SequenceMatcher(None, a, b).real_quick_ratio()] *)
Definition real_quick_ratio (a b : string) : Q :=
  calculate_ratio (Nat.min (List.length (chars a)) (List.length (chars b)))
                  (List.length (chars a) + List.length (chars b)).

(** [get_close_matches(word, possibilities, n, cutoff)], with its three
    tests. *)
Definition get_close_matches (word : string) (possibilities : list string)
    (n : nat) (cutoff : Q) : list string :=
  let result :=
    map (fun x => (ratio x word, x))
        (filter (fun x => Qle_bool cutoff (real_quick_ratio x word)
                          && Qle_bool cutoff (quick_ratio x word)
                          && Qle_bool cutoff (ratio x word) = true) possibilities) in
  map snd (take n (sort_desc score_ahead result)).

(** The characters of [l] from [lo] to [hi], [l[lo:hi]]. *)
Definition slice (l : list ascii) (lo hi : nat) : list ascii := take (hi - lo) (drop lo l).

(** The characters of a string are those of one byte. *)
Definition all_chars : list ascii := map ascii_of_nat (seq 0 256).

(** The sum of a count over the characters. *)
Definition sum_chars (g : ascii -> nat) : nat := sum_list (map g all_chars).

(** A block of [a[alo:ahi]] that is also in [b[blo:bhi]]. *)
Definition block (a b : list ascii) (alo ahi blo bhi : nat) (x : Match) : Prop :=
  (alo <= m_a x)%nat /\ (m_a x + m_size x <= ahi)%nat
  /\ (blo <= m_b x)%nat /\ (m_b x + m_size x <= bhi)%nat
  /\ forall t, (t < m_size x)%nat -> a_at a (m_a x + t) = b_at b (m_b x + t).

(** A length in [j2len]: the [k] characters of [a[alo:]] before place
    [n] are the [k] characters of [b[blo:bhi]] before place [j]. *)
Definition run (a b : list ascii) (alo blo bhi n j k : nat) : Prop :=
  ((0 < k)%nat -> (alo + k <= n)%nat /\ (blo + k <= j)%nat /\ (j <= bhi)%nat)
  /\ forall t, (t < k)%nat -> a_at a (n - 1 - t) = b_at b (j - 1 - t).

End Difflib.

(** Records of two misspelled statuses. *)
Definition typo_example : list record :=
  map status_only ["Dqualified"; "Qualified"; "Dqualified"; "qualified"].


(** * Properties *)

(** ** The model on small inputs *)

Example strip_ex : PyStr.strip "  email bounce back " = "email bounce back".
Proof. reflexivity. Qed.

Example title_ex2 : PyStr.title "INVALID pHONE-number 2x" = "Invalid Phone-Number 2X".
Proof. reflexivity. Qed.

Example of_Z_ex :
  PyStr.of_Z 45967 = "45967" /\ PyStr.of_Z (-120) = "-120" /\ PyStr.pad 4 31 = "0031".
Proof. repeat split; reflexivity. Qed.

Example ordinal_ex :
  Date.toordinal (mkdate 1900 1 1) = 693596
  /\ Date.ord2ymd 1 = mkdate 1 1 1
  /\ Date.ord2ymd Date.MAXORDINAL = mkdate 9999 12 31
  /\ Date.ord2ymd (Date.toordinal (mkdate 2024 2 29)) = mkdate 2024 2 29
  /\ Date.ord2ymd (Date.toordinal (mkdate 2024 12 31)) = mkdate 2024 12 31.
Proof. vm_compute. repeat split; reflexivity. Qed.

Example py_str_ex :
  py_str (VDateTime (mkdate 25 11 6) 1 2 3 4) = "0025-11-06 01:02:03.000004".
Proof. reflexivity. Qed.

Example strptime_ex :
  Strptime.strptime "31-02-2025" "%d-%m-%Y" = None
  /\ Strptime.strptime "06-11-20255" "%d-%m-%Y" = None
  /\ Strptime.strptime "06-11-69" "%d-%m-%y" = Some (mkdate 1969 11 6)
  /\ Strptime.strptime "06-11-68" "%d-%m-%y" = Some (mkdate 2068 11 6)
  /\ Strptime.strptime "6-MAY-25" "%d-%B-%y" = Some (mkdate 2025 5 6)
  /\ Strptime.strptime "0000-11-06" "%Y-%m-%d" = None
  /\ Strptime.strptime "2025-011-1" "%Y-%m-%d" = None.
Proof. vm_compute. repeat split; reflexivity. Qed.

Example serial_ex :
  parse_date (VStr "45967") = Some (mkdate 2025 11 6)
  /\ parse_date (VInt 45967) = Some (mkdate 2025 11 6)
  /\ parse_date (VStr "60") = Some (mkdate 1900 2 28)
  /\ parse_date (VStr "61") = Some (mkdate 1900 3 1)
  /\ parse_date (VStr "1-2") = None
  /\ parse_date (VStr " nan ") = None.
Proof. vm_compute. repeat split; reflexivity. Qed.

(** ** Dates are totally ordered *)

Ltac date_cmp :=
  unfold Date.le, Date.lt, Date.leb, Date.ltb, Date.eqb, Date.compare in *;
  repeat match goal with
         | d : date |- _ => destruct d
         end;
  cbn [year month day] in *;
  repeat match goal with
         | |- context [?a ?= ?b] => destruct (Z.compare_spec a b)
         | H : context [?a ?= ?b] |- _ => destruct (Z.compare_spec a b)
         end;
  try congruence; try lia.

Lemma date_le_refl a : Date.le a a.
Proof. date_cmp. Qed.

Lemma date_le_trans a b c : Date.le a b -> Date.le b c -> Date.le a c.
Proof. date_cmp. Qed.

Lemma date_le_antisym a b : Date.le a b -> Date.le b a -> a = b.
Proof. date_cmp; f_equal; lia. Qed.

Lemma date_lt_le a b : Date.ltb a b = true -> Date.le a b.
Proof. date_cmp. Qed.

Lemma date_not_lt_le a b : Date.ltb a b = false -> Date.le b a.
Proof. date_cmp. Qed.

Lemma date_lt_not_le a b : Date.lt a b -> Date.le b a -> False.
Proof. date_cmp. Qed.

Lemma date_eqb_eq a b : Date.eqb a b = true <-> a = b.
Proof.
  split.
  - intros H. apply date_le_antisym; revert H; date_cmp.
  - intros ->. date_cmp.
Qed.

Lemma first_of_month_le d : Date.le (Date.first_of_month d) d \/ day d < 1.
Proof.
  destruct (Z_lt_le_dec (day d) 1) as [Hd | Hd]; [now right | left].
  unfold Date.first_of_month. date_cmp.
Qed.

(** ** C1: the month-to-date window *)

Lemma in_mtd_window_spec col lo hi r :
  in_mtd_window col lo hi r = true <-> in_window col lo hi r.
Proof.
  unfold in_mtd_window, in_window. destruct (parse_date (get r col)) as [d|].
  - rewrite andb_true_iff. split.
    + intros [H1 H2]. exists d. auto.
    + intros (d' & Hd & H1 & H2). injection Hd as <-. auto.
  - split; [discriminate | intros (d' & Hd & _); discriminate].
Qed.

Lemma filter_in_window col lo hi (records : list record) :
  filter (fun r => in_mtd_window col lo hi r = true) records
  = filter (in_window col lo hi) records.
Proof. apply list_filter_iff. intros r. apply in_mtd_window_spec. Qed.

Lemma filter_none {A} (P : A -> Prop) `{forall x, Decision (P x)} (l : list A) :
  (forall x, x ∈ l -> ~ P x) -> filter P l = [].
Proof.
  induction l as [|x l IH]; intros Hn; [reflexivity |].
  rewrite filter_cons_False by (apply Hn; left).
  apply IH. intros y Hy. apply Hn. now right.
Qed.

Lemma is_earliest_unique e1 e2 ds : is_earliest e1 ds -> is_earliest e2 ds -> e1 = e2.
Proof. intros [H1 L1] [H2 L2]. apply date_le_antisym; auto. Qed.

(** The loop of the source finds the minimum, however it starts. *)
Lemma earliest_fold_Some col (records : list record) :
  forall acc e,
    fold_left (earliest_step col) records acc = Some e ->
    (acc = Some e \/ e ∈ parsed_dates_of col records)
    /\ (forall a, acc = Some a -> Date.le e a)
    /\ (forall d, d ∈ parsed_dates_of col records -> Date.le e d).
Proof.
  induction records as [|r records IH]; intros acc e H; cbn in H.
  - subst acc. repeat split.
    + now left.
    + intros a [= ->]. apply date_le_refl.
    + intros d Hd. cbn in Hd. inversion Hd.
  - apply IH in H as (Hin & Hacc & Hds).
    unfold parsed_dates_of; cbn [omap list_omap]. fold (parsed_dates_of col records).
    unfold earliest_step in Hin, Hacc.
    destruct (parse_date (get r col)) as [p|] eqn:Ep; cbn.
    + destruct acc as [a|].
      * destruct (Date.ltb p a) eqn:Elt.
        -- repeat split.
           ++ right. destruct Hin as [[= ->] | Hin]; [left | now right].
           ++ intros a' [= <-]. eapply date_le_trans; [now apply Hacc |].
              now apply date_lt_le.
           ++ intros d [-> | Hd]%elem_of_cons; [now apply Hacc | now apply Hds].
        -- repeat split.
           ++ destruct Hin as [Hin | Hin]; [now left | right; now right].
           ++ intros a' [= <-]. now apply Hacc.
           ++ intros d [-> | Hd]%elem_of_cons; [| now apply Hds].
              eapply date_le_trans; [now apply Hacc |]. now apply date_not_lt_le.
      * repeat split.
        -- right. destruct Hin as [[= ->] | Hin]; [left | now right].
        -- intros a' [=].
        -- intros d [-> | Hd]%elem_of_cons; [now apply Hacc | now apply Hds].
    + repeat split; auto.
Qed.

Lemma earliest_fold_None col (records : list record) :
  forall acc,
    fold_left (earliest_step col) records acc = None ->
    acc = None /\ parsed_dates_of col records = [].
Proof.
  induction records as [|r records IH]; intros acc H; cbn in H.
  - now split.
  - apply IH in H as [Hacc Hds].
    unfold parsed_dates_of; cbn [omap list_omap]. fold (parsed_dates_of col records).
    unfold earliest_step in Hacc.
    destruct (parse_date (get r col)) as [p|]; cbn.
    + destruct acc as [a|]; [destruct (Date.ltb p a) |]; discriminate.
    + now split.
Qed.

Lemma earliest_fold_is_earliest col (records : list record) e :
  fold_left (earliest_step col) records None = Some e ->
  is_earliest e (parsed_dates_of col records).
Proof.
  intros H. apply earliest_fold_Some in H as ([[=] | Hin] & _ & Hle). now split.
Qed.

Lemma filter_records_mtd_unfold self col (records : list record) selected_date :
  date_column self = Some col -> col <> "" ->
  filter_records_mtd self records selected_date =
  match fold_left (earliest_step col) records None with
  | None => []
  | Some earliest_date =>
      filter (in_window col (Date.first_of_month earliest_date) selected_date) records
  end.
Proof.
  intros Hc Hne. unfold filter_records_mtd, date_column_unset, column_name.
  rewrite Hc. cbn. destruct col; [congruence | cbn].
  destruct (fold_left _ records None); [| reflexivity]. apply filter_in_window.
Qed.

(** C1, as amended.  When the date column is unset or is the empty
    name, [filter_records_mtd] returns the empty list, whatever the
    records and the selected date.  With a date column set to a
    non-empty name, it returns, in their order, exactly the records whose
    date parses into the window from the first day of the month of the
    earliest parsed date to the selected date, both included; nothing when
    no date parses; nothing when the selected date is before the earliest
    date; and the result depends on the records, the column and the
    selected date only, not on what the processor remembers from other
    calls. *)
Theorem filter_records_mtd_window self (records : list record) selected_date :
  let result := filter_records_mtd self records selected_date in
  (date_column self = None \/ date_column self = Some "" -> result = [])
  /\ (forall col,
        date_column self = Some col -> col <> "" ->
        let ds := parsed_dates_of col records in
        (ds = [] -> result = [])
        /\ (ds <> [] -> exists earliest, is_earliest earliest ds)
        /\ (forall earliest, is_earliest earliest ds ->
              result
              = filter (in_window col (Date.first_of_month earliest) selected_date) records
              /\ (forall r, r ∈ result <->
                    r ∈ records
                    /\ in_window col (Date.first_of_month earliest) selected_date r)
              /\ (Date.lt selected_date earliest -> result = []))
        /\ (forall self', date_column self' = Some col ->
              filter_records_mtd self' records selected_date = result)
        /\ (forall others column,
              filter_records_mtd (parse_dates_from_records self others column).2
                                 records selected_date = result)).
Proof.
  intros result. split.
  { intros Hunset. unfold result, filter_records_mtd, date_column_unset.
    destruct Hunset as [-> | ->]; reflexivity. }
  intros col Hc Hne ds. subst result.
  rewrite (filter_records_mtd_unfold self col) by assumption.
  destruct (fold_left (earliest_step col) records None) as [e|] eqn:Ef.
  - pose proof (earliest_fold_is_earliest _ _ _ Ef) as He. fold ds in He.
    assert (Hres : forall earliest, is_earliest earliest ds ->
              filter (in_window col (Date.first_of_month e) selected_date) records
              = filter (in_window col (Date.first_of_month earliest) selected_date) records).
    { intros e' He'. now rewrite (is_earliest_unique _ _ _ He He'). }
    split; [| split; [| split; [| split]]].
    + intros Hds. destruct He as [Hin _]. rewrite Hds in Hin. inversion Hin.
    + intros _. now exists e.
    + intros e' He'. rewrite (Hres e' He'). split; [reflexivity | split].
      * intros r. rewrite list_elem_of_filter. tauto.
      * intros Hlt. apply filter_none. intros r Hr (d & Hd & _ & Hhi).
        apply (date_lt_not_le _ _ Hlt).
        eapply date_le_trans; [| exact Hhi].
        apply He'. unfold ds, parsed_dates_of. apply list_elem_of_omap. eauto.
    + intros self' Hc'. rewrite (filter_records_mtd_unfold self' col) by assumption.
      now rewrite Ef.
    + intros others column.
      rewrite (filter_records_mtd_unfold _ col) by assumption. now rewrite Ef.
  - apply earliest_fold_None in Ef as [_ Hds]. fold ds in Hds.
    split; [| split; [| split; [| split]]].
    + reflexivity.
    + congruence.
    + intros e' [Hin _]. rewrite Hds in Hin. inversion Hin.
    + intros self' Hc'. rewrite (filter_records_mtd_unfold self' col) by assumption.
      destruct (fold_left (earliest_step col) records None) as [e|] eqn:Ef; [| reflexivity].
      apply earliest_fold_is_earliest in Ef as [Hin _]. fold ds in Hin.
      rewrite Hds in Hin. inversion Hin.
    + intros others column.
      rewrite (filter_records_mtd_unfold _ col) by assumption.
      destruct (fold_left (earliest_step col) records None) as [e|] eqn:Ef; [| reflexivity].
      apply earliest_fold_is_earliest in Ef as [Hin _]. fold ds in Hin.
      rewrite Hds in Hin. inversion Hin.
Qed.

(** The amended C1 at the ten leads of the worked example: all of them
    fall in the window; before the first of them there is nothing; and a
    processor without a date column, or with the empty name for one,
    returns nothing. *)
Lemma filter_records_mtd_window_witness :
  date_column scenario_processor = Some "Audit Date"
  /\ "Audit Date" <> ""
  /\ filter_records_mtd scenario_processor scenario_records scenario_date
     = filter (in_window "Audit Date" (mkdate 2025 11 1) scenario_date) scenario_records
  /\ (Date.lt (mkdate 2025 11 2) (mkdate 2025 11 3) ->
      filter_records_mtd scenario_processor scenario_records (mkdate 2025 11 2) = [])
  /\ filter_records_mtd (new_processor default_config) scenario_records scenario_date = []
  /\ filter_records_mtd unnamed_column_processor [unnamed_column_record] (mkdate 2025 11 6)
     = [].
Proof.
  assert (He : is_earliest (mkdate 2025 11 3)
                 (parsed_dates_of "Audit Date" scenario_records)).
  { assert (Hds : parsed_dates_of "Audit Date" scenario_records
                  = replicate 6 (mkdate 2025 11 6) ++ replicate 4 (mkdate 2025 11 3))
      by (vm_compute; reflexivity).
    split; rewrite Hds; cbn.
    - do 6 right. left.
    - intros d Hd.
      repeat (apply elem_of_cons in Hd as [-> | Hd]; [reflexivity |]). inversion Hd. }
  split; [reflexivity | split; [discriminate | split; [| split; [| split]]]].
  - pose proof (filter_records_mtd_window scenario_processor
                  scenario_records scenario_date) as H.
    destruct H as (_ & H).
    destruct (H "Audit Date" eq_refl) as (_ & _ & Hw & _); [discriminate |].
    exact (proj1 (Hw _ He)).
  - pose proof (filter_records_mtd_window scenario_processor
                  scenario_records (mkdate 2025 11 2)) as H.
    destruct H as (_ & H).
    destruct (H "Audit Date" eq_refl) as (_ & _ & Hw & _); [discriminate |].
    exact (proj2 (proj2 (Hw _ He))).
  - pose proof (filter_records_mtd_window (new_processor default_config)
                  scenario_records scenario_date) as H.
    destruct H as (H & _). apply H. left. reflexivity.
  - pose proof (filter_records_mtd_window unnamed_column_processor
                  [unnamed_column_record] (mkdate 2025 11 6)) as H.
    destruct H as (H & _). apply H. right. reflexivity.
Defined.

(** C1 as stated fails for the empty column name: the guard
    [if not self.date_column] takes it for no column at all and returns
    nothing, although the one record has a date in the window. *)
Lemma filter_records_mtd_empty_column_name :
  date_column unnamed_column_processor = Some ""
  /\ is_earliest (mkdate 2025 11 6) (parsed_dates_of "" [unnamed_column_record])
  /\ in_window "" (Date.first_of_month (mkdate 2025 11 6)) (mkdate 2025 11 6)
       unnamed_column_record
  /\ filter_records_mtd unnamed_column_processor [unnamed_column_record] (mkdate 2025 11 6)
     = []
  /\ filter (in_window "" (Date.first_of_month (mkdate 2025 11 6)) (mkdate 2025 11 6))
       [unnamed_column_record]
     <> filter_records_mtd unnamed_column_processor [unnamed_column_record]
          (mkdate 2025 11 6).
Proof.
  assert (Hw : in_window "" (Date.first_of_month (mkdate 2025 11 6)) (mkdate 2025 11 6)
                 unnamed_column_record).
  { exists (mkdate 2025 11 6). repeat split; vm_compute; reflexivity. }
  split; [reflexivity | split; [| split; [exact Hw | split; [reflexivity |]]]].
  - assert (Hds : parsed_dates_of "" [unnamed_column_record] = [mkdate 2025 11 6])
      by (vm_compute; reflexivity).
    split; rewrite Hds.
    + left.
    + intros d Hd. apply elem_of_cons in Hd as [-> | Hd]; [reflexivity | inversion Hd].
  - rewrite filter_cons_True by exact Hw. discriminate.
Qed.

(** ** C2: the order of the date formats *)

Lemma try_formats_first (fmts : list string) date_str d :
  try_formats fmts date_str = Some d <->
  exists i fmt,
    fmts !! i = Some fmt
    /\ Strptime.strptime date_str fmt = Some d
    /\ forall j other, (j < i)%nat -> fmts !! j = Some other ->
         Strptime.strptime date_str other = None.
Proof.
  induction fmts as [|f fmts IH]; cbn.
  - split; [discriminate | intros (i & fmt & H & _); destruct i; discriminate].
  - destruct (Strptime.strptime date_str f) as [d'|] eqn:Ef.
    + split.
      * intros [= ->]. exists 0%nat, f. repeat split; auto. intros j other Hj. lia.
      * intros (i & fmt & Hi & Hd & Hfirst). destruct i as [|i].
        -- cbn in Hi. injection Hi as <-. congruence.
        -- specialize (Hfirst 0%nat f ltac:(lia) eq_refl). congruence.
    + rewrite IH. split.
      * intros (i & fmt & Hi & Hd & Hfirst). exists (S i), fmt. repeat split; auto.
        intros [|j] other Hj Ho; cbn in Ho.
        -- injection Ho as <-. exact Ef.
        -- apply (Hfirst j); [lia | exact Ho].
      * intros (i & fmt & Hi & Hd & Hfirst). destruct i as [|i].
        -- cbn in Hi. injection Hi as <-. congruence.
        -- exists i, fmt. repeat split; auto.
           intros j other Hj Ho. apply (Hfirst (S j)); [lia | exact Ho].
Qed.

(** C2.  The formats are tried in the order of the list and the first one
    that parses wins; every day-first format stands before every
    month-first format; the four spellings of 6 November 2025 parse to that
    date, and ["11/06/2025"] parses day first, to 11 June 2025. *)
Theorem parse_date_format_order :
  (forall date_str d,
      try_formats date_formats date_str = Some d <->
      exists i fmt,
        date_formats !! i = Some fmt
        /\ Strptime.strptime date_str fmt = Some d
        /\ forall j other, (j < i)%nat -> date_formats !! j = Some other ->
             Strptime.strptime date_str other = None)
  /\ (forall i j f g,
        date_formats !! i = Some f -> date_formats !! j = Some g ->
        PyStr.startswith f "%d" = true -> PyStr.startswith g "%m" = true ->
        (i < j)%nat)
  /\ parse_date (VStr "06-Nov-25") = Some (mkdate 2025 11 6)
  /\ parse_date (VStr "06-11-2025") = Some (mkdate 2025 11 6)
  /\ parse_date (VStr "2025-11-06") = Some (mkdate 2025 11 6)
  /\ parse_date (VStr "2025-11-06 00:00:00") = Some (mkdate 2025 11 6)
  /\ parse_date (VStr "11/06/2025") = Some (mkdate 2025 6 11)
  /\ parse_date (VStr "11/06/2025") <> Some (mkdate 2025 11 6).
Proof.
  split; [intros; apply try_formats_first |].
  split.
  - intros i j f g Hi Hj Hf Hg.
    assert (Hlo : (16 <= j)%nat).
    { destruct (le_lt_dec 16 j) as [|Hlt]; [assumption | exfalso].
      do 16 (destruct j as [|j]; [cbn in Hj; injection Hj as <-; discriminate |]). lia. }
    assert (Hhi : (i < 16)%nat).
    { destruct (le_lt_dec 16 i) as [Hge|]; [exfalso | assumption].
      do 16 (destruct i as [|i]; [lia |]).
      do 4 (destruct i as [|i]; [cbn in Hi; injection Hi as <-; discriminate |]).
      discriminate. }
    lia.
  - repeat split; try (vm_compute; reflexivity). vm_compute. discriminate.
Qed.

(** ** C3: the combined summary *)

Lemma count_if_length p (records : list record) :
  count_if p records = List.length (filter (fun r => p r = true) records).
Proof.
  unfold count_if. induction (filter (fun r => p r = true) records); cbn; auto.
Qed.

Lemma status_of_get r : status_of r = normalize (get r "Lead Status").
Proof.
  unfold status_of, get_default, get. destruct (r !! "Lead Status"); reflexivity.
Qed.

Lemma is_qualified_spec r : is_qualified r = true <-> qualified_status r.
Proof.
  unfold is_qualified, qualified_status. rewrite status_of_get. apply String.eqb_eq.
Qed.

Lemma is_disqualified_spec r : is_disqualified r = true <-> disqualified_status r.
Proof.
  unfold is_disqualified, disqualified_status. rewrite status_of_get. apply String.eqb_eq.
Qed.

Lemma count_if_qualified (records : list record) :
  count_if is_qualified records = List.length (filter qualified_status records).
Proof.
  rewrite count_if_length. f_equal. apply list_filter_iff. intros r. apply is_qualified_spec.
Qed.

Lemma count_if_disqualified (records : list record) :
  count_if is_disqualified records = List.length (filter disqualified_status records).
Proof.
  rewrite count_if_length. f_equal. apply list_filter_iff. intros r.
  apply is_disqualified_spec.
Qed.

(** C3.  The combined report is the header and one row of four counts:
    the month-to-date records, those of them whose normalized status is
    ["qualified"], the records of the day, and those of them that are
    qualified; on the ten leads of the worked example, filtered for
    2025-11-06, the row is [10, 7, 6, 4]. *)
Theorem generate_combined_qa_report_counts :
  (forall date_records mtd_records : list record,
      generate_combined_qa_report date_records mtd_records =
      [ [VStr "MTD PRE QA"; VStr "MTD POST QA"; VStr "PRE QA"; VStr "POST QA"];
        [ VInt (Z.of_nat (List.length mtd_records));
          VInt (Z.of_nat (List.length (filter qualified_status mtd_records)));
          VInt (Z.of_nat (List.length date_records));
          VInt (Z.of_nat (List.length (filter qualified_status date_records))) ] ])
  /\ generate_combined_qa_report
       (filter_records_by_date scenario_processor scenario_records scenario_date)
       (filter_records_mtd scenario_processor scenario_records scenario_date)
     = [ [VStr "MTD PRE QA"; VStr "MTD POST QA"; VStr "PRE QA"; VStr "POST QA"];
         [VInt 10; VInt 7; VInt 6; VInt 4] ].
Proof.
  split.
  - intros date_records mtd_records. unfold generate_combined_qa_report, int_cell.
    now rewrite !count_if_qualified.
  - vm_compute. reflexivity.
Qed.

(** ** C9: row numbers of a sheet *)

(** The rows that are not blank are numbered 2, 3, ... in the order in
    which they follow the header, whatever blank rows lie between them in
    the sheet. *)
Lemma row_record_number headers row idx sheet_type :
  row_record headers row idx sheet_type !! "_row_number" = Some (VInt idx).
Proof.
  unfold row_record. rewrite lookup_insert_ne by discriminate. apply lookup_insert_eq.
Qed.

Lemma parse_rows_numbers headers sheet_type (rows : list (list value)) :
  Forall (fun row => any_cell row = true) rows ->
  forall k,
    map (fun r : record => r !! "_row_number")
        (omap (fun ir : nat * list value =>
                 if negb (any_cell ir.2) then None
                 else Some (row_record headers ir.2 (Z.of_nat ir.1 + 2) sheet_type))
              (imap (fun i row => ((k + i)%nat, row)) rows))
    = map (fun i => Some (VInt (Z.of_nat (k + i) + 2))) (seq 0 (List.length rows)).
Proof.
  induction 1 as [|row rows Hrow Hrows IH]; intros k; [reflexivity |].
  rewrite imap_cons. cbn [omap list_omap fst snd]. rewrite Hrow. cbn [negb map List.length seq].
  rewrite row_record_number. f_equal.
  rewrite <- seq_shift, map_map.
  rewrite (map_ext _ (fun i => Some (VInt (Z.of_nat (S k + i) + 2))))
    by (intros i; do 3 f_equal; lia).
  rewrite <- (IH (S k)). do 2 f_equal. apply imap_ext. intros i x _. cbn.
  f_equal. lia.
Qed.

Lemma parse_sheet_row_numbers (ws : worksheet) sheet_type header_row data_rows :
  (2 <= List.length ws)%nat ->
  filter (fun row => any_cell row = true) ws = header_row :: data_rows ->
  map (fun r : record => r !! "_row_number") (_parse_sheet ws sheet_type).2
  = map (fun i => Some (VInt (Z.of_nat i + 2))) (seq 0 (List.length data_rows)).
Proof.
  intros Hlen Hdata. unfold _parse_sheet.
  destruct (Z.ltb_spec (Z.of_nat (List.length ws)) 2) as [Hlt | _]; [lia |].
  rewrite Hdata. cbn [snd].
  apply (parse_rows_numbers _ sheet_type data_rows) with (k := 0%nat).
  assert (Hall : Forall (fun row => any_cell row = true) (header_row :: data_rows)).
  { rewrite <- Hdata. apply Forall_forall. intros row Hin.
    now apply list_elem_of_filter in Hin as [Hrow _]. }
  now apply Forall_cons in Hall as [_ Hall].
Qed.

(** C9 fails on the code.  With a blank row between the header and the
    data row, the data row is the third row of the sheet, yet its record
    is numbered 2: the blank rows are dropped before the rows are
    numbered. *)
Theorem parse_sheet_row_number_after_blank_row :
  sheet_with_blank_row !! 2%nat = Some [VStr "Qualified"; VStr "Ann"]
  /\ exists r,
       (_parse_sheet sheet_with_blank_row "Qualified").2 = [r]
       /\ r !! "Lead Status" = Some (VStr "Qualified")
       /\ r !! "Agent Name" = Some (VStr "Ann")
       /\ r !! "_row_number" = Some (VInt 2)
       /\ r !! "_row_number" <> Some (VInt 3).
Proof.
  split; [reflexivity |].
  exists (row_record ["Lead Status"; "Agent Name"] [VStr "Qualified"; VStr "Ann"] 2
                     "Qualified").
  split; [reflexivity |].
  unfold row_record. cbn [imap fold_left fst snd lookup list_lookup default].
  repeat split; now simplify_map_eq.
Qed.

(** ** The store: copies are new objects, old objects stay as they were *)

Lemma points_to_app h h' locs rs : points_to h locs rs -> points_to (h ++ h') locs rs.
Proof.
  unfold points_to. intros H. eapply Forall2_impl; [exact H |].
  intros l r Hl. now apply lookup_app_l_Some.
Qed.

Lemma points_to_length h locs rs : points_to h locs rs -> List.length locs = List.length rs.
Proof. apply Forall2_length. Qed.

(** A loop whose body adds one object per element, made from the element
    alone, adds the objects in order and changes nothing else. *)
Lemma for_each_copying {B} (f : loc -> M B) (out : nat -> record -> B)
    (c : record -> record) :
  (forall l r h, h !! l = Some r -> f l h = Some (out (List.length h) r, h ++ [c r])) ->
  forall locs rs h,
    points_to h locs rs ->
    for_each f locs h
    = Some (zip_with out (seq (List.length h) (List.length rs)) rs, h ++ map c rs).
Proof.
  intros Hf locs. unfold points_to.
  induction locs as [|l locs IH]; intros rs h Hp.
  - inversion Hp; subst. cbn. unfold ret. now rewrite app_nil_r.
  - inversion Hp as [| ? r ? rs' Hl Hrest]; subst.
    cbn [for_each]. unfold bind at 1. rewrite (Hf l r h Hl).
    unfold bind at 1. rewrite (IH rs' (h ++ [c r])).
    + unfold ret. cbn. rewrite length_app. cbn.
      replace (List.length h + 1)%nat with (S (List.length h)) by lia.
      now rewrite <- app_assoc.
    + eapply Forall2_impl; [exact Hrest |]. intros l' r' Hl'.
      now apply lookup_app_l_Some.
Qed.

Lemma zip_with_seq_fst {B} (a : nat) (l : list B) :
  zip_with (fun n _ => n) (seq a (List.length l)) l = seq a (List.length l).
Proof. revert a. induction l as [|x l IH]; intros a; cbn; [| rewrite IH]; reflexivity. Qed.

Lemma zip_with_seq_pair {B C} (g : B -> C) (a : nat) (l : list B) :
  zip_with (fun n x => (n, g x)) (seq a (List.length l)) l
  = zip (seq a (List.length l)) (map g l).
Proof. revert a. induction l as [|x l IH]; intros a; cbn; [| rewrite IH]; reflexivity. Qed.

Lemma fresh_lookup (h : store) (news : list record) i r :
  news !! i = Some r -> (h ++ news) !! (List.length h + i)%nat = Some r.
Proof. intros H. rewrite lookup_app_r by lia. now replace (List.length h + i - List.length h)%nat with i by lia. Qed.

(** The new objects, in order, hold the new contents. *)
Lemma fresh_points_to (h : store) (c : record -> record) (rs : list record) :
  Forall2 (fun l' r => (h ++ map c rs) !! l' = Some (c r))
          (seq (List.length h) (List.length rs)) rs.
Proof.
  apply Forall2_same_length_lookup. split; [now rewrite length_seq |].
  intros i l' r Hl Hr. apply lookup_seq in Hl as [-> _].
  apply fresh_lookup. now rewrite list_lookup_fmap, Hr.
Qed.

Lemma load_run l k h r : h !! l = Some r -> load l k h = Some (get r k, h).
Proof. intros H. unfold load. now rewrite H. Qed.

Lemma assign_run l k v h r :
  h !! l = Some r -> assign l k v h = Some (tt, <[l := <[k := v]> r]> h).
Proof. intros H. unfold assign. now rewrite H. Qed.

Lemma copy_run l h r :
  h !! l = Some r -> copy l h = Some (List.length h, h ++ [r]).
Proof. intros H. unfold copy. now rewrite H. Qed.

Lemma insert_last (h : store) (r r' : record) :
  <[List.length h := r']> (h ++ [r]) = h ++ [r'].
Proof.
  replace (List.length h) with (List.length h + 0)%nat at 1 by lia.
  now rewrite insert_app_r.
Qed.

Lemma lookup_last (h : store) (r : record) : (h ++ [r]) !! List.length h = Some r.
Proof. rewrite lookup_app_r by lia. now rewrite Nat.sub_diag. Qed.

(** ** [clean_data] on the store *)

Lemma clean_field_run l field h r :
  h !! l = Some r ->
  clean_field l field h
  = Some (tt, <[l := <[field := cleaned_value field (get r field)]> r]> h).
Proof.
  intros H. unfold clean_field, bind. rewrite (load_run _ _ _ _ H).
  unfold cleaned_value.
  destruct (is_blank_value (get r field)); [| destruct (String.eqb field "DQ Reason")];
    now rewrite (assign_run _ _ _ _ _ H).
Qed.

Lemma clean_record_run l h r :
  h !! l = Some r ->
  clean_record l h = Some (List.length h, h ++ [cleaned_contents r]).
Proof.
  intros H. unfold clean_record, bind. rewrite (copy_run _ _ _ H).
  unfold key_fields. cbn [for_each]. unfold bind, ret.
  rewrite (clean_field_run _ _ _ _ (lookup_last h r)). rewrite insert_last.
  rewrite (clean_field_run _ _ _ _ (lookup_last h _)). rewrite insert_last.
  rewrite (clean_field_run _ _ _ _ (lookup_last h _)). rewrite insert_last.
  reflexivity.
Qed.

Lemma clean_data_run h locs rs :
  points_to h locs rs ->
  clean_data locs h
  = Some (seq (List.length h) (List.length rs), h ++ map cleaned_contents rs).
Proof.
  intros Hp. unfold clean_data.
  rewrite (for_each_copying clean_record (fun n _ => n) cleaned_contents) with (rs := rs).
  - now rewrite zip_with_seq_fst.
  - intros l r h' Hl. now apply clean_record_run.
  - exact Hp.
Qed.

(** ** [apply_corrections] on the store *)

Lemma correct_record_run corrections l h r :
  h !! l = Some r ->
  correct_record corrections l h
  = Some ((List.length h,
           match corrections !! get r "Lead Status" with Some _ => 1%nat | None => 0%nat end),
          h ++ [corrected_contents corrections r]).
Proof.
  intros H. unfold correct_record, bind. rewrite (copy_run _ _ _ H).
  rewrite (load_run l _ (h ++ [r]) r) by now apply lookup_app_l_Some.
  unfold corrected_contents.
  destruct (corrections !! get r "Lead Status") as [c|].
  - unfold bind. rewrite (assign_run _ _ _ _ _ (lookup_last h r)).
    unfold ret. now rewrite insert_last.
  - reflexivity.
Qed.

Lemma sum_hits corrections (rs : list record) :
  sum_list (map (fun r : record =>
                   match corrections !! get r "Lead Status" with
                   | Some _ => 1%nat
                   | None => 0%nat
                   end) rs)
  = List.length (filter (has_correction corrections) rs).
Proof.
  induction rs as [|r rs IH]; [reflexivity |].
  destruct (corrections !! get r "Lead Status") as [c|] eqn:E.
  - rewrite filter_cons_True by (unfold has_correction; rewrite E; eauto).
    cbn. rewrite E. cbn. f_equal. exact IH.
  - rewrite filter_cons_False
      by (unfold has_correction; rewrite E; intros [? ?]; discriminate).
    cbn. rewrite E. cbn. exact IH.
Qed.

Lemma apply_corrections_run self corrections h locs rs :
  corrections <> ∅ ->
  points_to h locs rs ->
  apply_corrections self locs corrections h
  = Some ((seq (List.length h) (List.length rs),
           List.length (filter (has_correction corrections) rs),
           {| v_config := v_config self; corrections_applied := corrections |}),
          h ++ map (corrected_contents corrections) rs).
Proof.
  intros Hne Hp. unfold apply_corrections.
  rewrite bool_decide_eq_false_2 by assumption.
  unfold bind.
  rewrite (for_each_copying (correct_record corrections)
             (fun n r => (n, match corrections !! get r "Lead Status" with Some _ => 1%nat | None => 0%nat end))
             (corrected_contents corrections)) with (rs := rs).
  - unfold ret. rewrite zip_with_seq_pair.
    rewrite fst_zip by (rewrite length_seq, length_map; lia).
    rewrite snd_zip by (rewrite length_seq, length_map; lia).
    now rewrite sum_hits.
  - intros l r h' Hl. now apply correct_record_run.
  - exact Hp.
Qed.

Lemma apply_corrections_empty self h locs :
  apply_corrections self locs ∅ h = Some ((locs, 0%nat, self), h).
Proof. reflexivity. Qed.

(** ** Trimming twice is trimming once *)

Lemma lstrip_no_leading_blank s : no_leading_blank (PyStr.lstrip s).
Proof.
  induction s as [|c s IH]; cbn; [exact I |].
  destruct (PyStr.is_space c) eqn:E; [exact IH | exact E].
Qed.

Lemma lstrip_fixed s : no_leading_blank s -> PyStr.lstrip s = s.
Proof. destruct s as [|c s]; cbn; [reflexivity |]. now intros ->. Qed.

Lemma rstrip_no_leading_blank s : no_leading_blank s -> no_leading_blank (PyStr.rstrip s).
Proof. destruct s as [|c s]; cbn; [auto |]. intros E. rewrite E. exact E. Qed.

Lemma rstrip_idemp s : PyStr.rstrip (PyStr.rstrip s) = PyStr.rstrip s.
Proof.
  induction s as [|c s IH]; cbn; [reflexivity |].
  destruct (PyStr.is_space c && PyStr.is_empty (PyStr.rstrip s)) eqn:E; cbn;
    [reflexivity |].
  now rewrite IH, E.
Qed.

Lemma strip_idemp s : PyStr.strip (PyStr.strip s) = PyStr.strip s.
Proof.
  unfold PyStr.strip.
  rewrite (lstrip_fixed (PyStr.rstrip (PyStr.lstrip s)))
    by apply rstrip_no_leading_blank, lstrip_no_leading_blank.
  apply rstrip_idemp.
Qed.

(** ** C7: what cleaning leaves in the three key fields *)

Lemma is_none_spec v : is_none v = true <-> v = VNone.
Proof. destruct v; cbn; split; congruence. Qed.

Lemma is_blank_value_spec v : is_blank_value v = true <-> blank_or_dash v.
Proof.
  unfold is_blank_value, blank_or_dash.
  rewrite !orb_true_iff, is_none_spec, !String.eqb_eq. tauto.
Qed.

Lemma normalize_dq_reason_title s :
  PyStr.strip s <> "" -> PyStr.strip s <> "-" ->
  normalize_dq_reason (VStr (PyStr.strip s)) = VStr (PyStr.title (PyStr.strip s)).
Proof.
  intros H1 H2. unfold normalize_dq_reason. cbn [py_str truthy].
  rewrite strip_idemp.
  destruct (PyStr.strip s) as [|c t] eqn:E; [congruence |]. cbn [PyStr.is_empty negb orb].
  rewrite bool_decide_eq_false_2; [reflexivity |].
  intros Hin. apply elem_of_cons in Hin as [Hin | Hin]; [discriminate |].
  apply elem_of_cons in Hin as [Hin | Hin]; [congruence | inversion Hin].
Qed.

Lemma cleaned_value_blank field v :
  blank_or_dash v -> cleaned_value field v = VStr (blank_marker field).
Proof.
  intros H. apply is_blank_value_spec in H. unfold cleaned_value, blank_marker.
  rewrite H. destruct (decide (field = "Lead Status")) as [-> | Hne]; [reflexivity |].
  now apply String.eqb_neq in Hne as ->.
Qed.

Lemma cleaned_value_trimmed field v :
  ~ blank_or_dash v -> field <> "DQ Reason" ->
  cleaned_value field v = VStr (PyStr.strip (py_str v)).
Proof.
  intros H Hf. unfold cleaned_value.
  destruct (is_blank_value v) eqn:E; [apply is_blank_value_spec in E; tauto |].
  now apply String.eqb_neq in Hf as ->.
Qed.

Lemma cleaned_value_titled v :
  ~ blank_or_dash v ->
  cleaned_value "DQ Reason" v = VStr (PyStr.title (PyStr.strip (py_str v))).
Proof.
  intros H. unfold cleaned_value.
  destruct (is_blank_value v) eqn:E; [apply is_blank_value_spec in E; tauto |].
  cbn [String.eqb Ascii.eqb Bool.eqb]. cbn.
  apply normalize_dq_reason_title; intros Hs; apply H; unfold blank_or_dash; auto.
Qed.

Lemma cleaned_value_is_text field v : exists s, cleaned_value field v = VStr s.
Proof.
  destruct (decide (blank_or_dash v)) as [H | H].
  - eexists. now apply cleaned_value_blank.
  - destruct (decide (field = "DQ Reason")) as [-> | Hf].
    + eexists. now apply cleaned_value_titled.
    + eexists. now apply cleaned_value_trimmed.
Qed.

Lemma cleaned_contents_key (r : record) field :
  field ∈ key_fields ->
  cleaned_contents r !! field = Some (cleaned_value field (get r field)).
Proof.
  intros Hf. unfold cleaned_contents, key_fields in *. cbn [fold_left].
  repeat (apply elem_of_cons in Hf as [-> | Hf]); [| | | inversion Hf];
    unfold get; now simplify_map_eq.
Qed.

Lemma cleaned_contents_other (r : record) k :
  k ∉ key_fields -> cleaned_contents r !! k = r !! k.
Proof.
  intros Hk. unfold cleaned_contents, key_fields in *. cbn [fold_left].
  rewrite !lookup_insert_ne; [reflexivity | | |];
    intros <-; apply Hk; repeat constructor.
Qed.

(** C7, as amended.  Cleaning succeeds on any list of records and leaves,
    in the copy of every record, each of the three key fields present and
    holding a string: the marker (empty for the status, ["(Blank)"] for
    the other two) when the value was absent, blank after trimming or a
    dash after trimming; otherwise the trimmed text, title-cased for the
    reason. *)
Theorem clean_data_key_fields h locs rs :
  points_to h locs rs ->
  (exists out h',
     clean_data locs h = Some (out, h')
     /\ Forall2
          (fun l' r =>
             exists r', h' !! l' = Some r'
               /\ forall field, field ∈ key_fields ->
                    let v := get r field in
                    (blank_or_dash v -> r' !! field = Some (VStr (blank_marker field)))
                    /\ (~ blank_or_dash v -> field <> "DQ Reason" ->
                        r' !! field = Some (VStr (PyStr.strip (py_str v))))
                    /\ (~ blank_or_dash v -> field = "DQ Reason" ->
                        r' !! field = Some (VStr (PyStr.title (PyStr.strip (py_str v)))))
                    /\ (exists s, r' !! field = Some (VStr s)))
          out rs)
  /\ PyStr.title (PyStr.strip "email bounce back") = "Email Bounce Back".
Proof.
  intros Hp. split; [| reflexivity].
  exists (seq (List.length h) (List.length rs)), (h ++ map cleaned_contents rs).
  split; [now apply clean_data_run |].
  eapply Forall2_impl; [apply fresh_points_to |].
  intros l' r Hl. exists (cleaned_contents r). split; [exact Hl |].
  intros field Hf v. rewrite (cleaned_contents_key r field Hf). fold v.
  repeat split.
  - intros Hb. now rewrite cleaned_value_blank.
  - intros Hb Hne. now rewrite cleaned_value_trimmed.
  - intros Hb ->. now rewrite cleaned_value_titled.
  - destruct (cleaned_value_is_text field v) as [s ->]. now exists s.
Qed.

Lemma clean_data_key_fields_witness :
  points_to [raw_lead] [0%nat] [raw_lead]
  /\ exists out h', clean_data [0%nat] [raw_lead] = Some (out, h').
Proof.
  assert (Hp : points_to [raw_lead] [0%nat] [raw_lead]) by (repeat constructor).
  split; [exact Hp |].
  destruct (clean_data_key_fields [raw_lead] [0%nat] [raw_lead] Hp)
    as [(out & h' & H & _) _].
  exists out, h'. exact H.
Defined.

(** C7 as stated fails for a dash with blanks around it: the value is
    neither absent, nor blank after trimming, nor the exact value ["-"],
    yet cleaning puts the marker and not the trimmed text. *)
Lemma clean_data_padded_dash :
  get raw_lead "Agent Name" = VStr " - "
  /\ get raw_lead "Agent Name" <> VNone
  /\ PyStr.strip (py_str (get raw_lead "Agent Name")) <> ""
  /\ get raw_lead "Agent Name" <> VStr "-"
  /\ exists r',
       clean_data [0%nat] [raw_lead] = Some ([1%nat], [raw_lead; r'])
       /\ r' !! "Agent Name" = Some (VStr "(Blank)")
       /\ r' !! "Agent Name"
          <> Some (VStr (PyStr.strip (py_str (get raw_lead "Agent Name")))).
Proof.
  split; [reflexivity |]. split; [discriminate |]. split; [vm_compute; discriminate |].
  split; [vm_compute; discriminate |].
  exists (cleaned_contents raw_lead). split.
  - rewrite (clean_data_run [raw_lead] [0%nat] [raw_lead]) by (repeat constructor).
    reflexivity.
  - rewrite cleaned_contents_key by (unfold key_fields; do 1 right; left).
    split; vm_compute; [reflexivity | discriminate].
Qed.

(** ** C10: what the copies leave alone *)

(** C10.  [clean_data] and [apply_corrections] return as many records as
    they are given; each returned record agrees with the one it comes
    from on every key outside the three key fields, respectively outside
    ["Lead Status"]; and every object that was in the store before the
    call, the given records among them, is the same after it. *)
Theorem copies_keep_other_fields h locs rs :
  points_to h locs rs ->
  (exists out h',
     clean_data locs h = Some (out, h')
     /\ List.length out = List.length locs
     /\ Forall2 (fun l' r => exists r', h' !! l' = Some r'
                   /\ forall k, k ∉ key_fields -> r' !! k = r !! k) out rs
     /\ points_to h' locs rs
     /\ forall l, (l < List.length h)%nat -> h' !! l = h !! l)
  /\ (forall self corrections,
        exists out n self' h',
          apply_corrections self locs corrections h = Some ((out, n, self'), h')
          /\ List.length out = List.length locs
          /\ Forall2 (fun l' r => exists r', h' !! l' = Some r'
                        /\ forall k, k <> "Lead Status" -> r' !! k = r !! k) out rs
          /\ points_to h' locs rs
          /\ forall l, (l < List.length h)%nat -> h' !! l = h !! l).
Proof.
  intros Hp. pose proof (points_to_length _ _ _ Hp) as Hlen. split.
  - exists (seq (List.length h) (List.length rs)), (h ++ map cleaned_contents rs).
    split; [now apply clean_data_run |].
    split; [rewrite length_seq; lia |].
    split; [| split].
    + eapply Forall2_impl; [apply fresh_points_to |].
      intros l' r Hl. exists (cleaned_contents r). split; [exact Hl |].
      intros k Hk. now apply cleaned_contents_other.
    + now apply points_to_app.
    + intros l Hl. now apply lookup_app_l.
  - intros self corrections. destruct (decide (corrections = ∅)) as [-> | Hne].
    + exists locs, 0%nat, self, h. split; [apply apply_corrections_empty |].
      split; [reflexivity |]. split; [| split; [exact Hp | reflexivity]].
      eapply Forall2_impl; [exact Hp |]. intros l r Hl. exists r. auto.
    + exists (seq (List.length h) (List.length rs)),
             (List.length (filter (has_correction corrections) rs)),
             {| v_config := v_config self; corrections_applied := corrections |},
             (h ++ map (corrected_contents corrections) rs).
      split; [now apply apply_corrections_run |].
      split; [rewrite length_seq; lia |].
      split; [| split].
      * eapply Forall2_impl; [apply fresh_points_to |].
        intros l' r Hl. exists (corrected_contents corrections r). split; [exact Hl |].
        intros k Hk. unfold corrected_contents.
        destruct (corrections !! get r "Lead Status"); [| reflexivity].
        now rewrite lookup_insert_ne by congruence.
      * now apply points_to_app.
      * intros l Hl. now apply lookup_app_l.
Qed.

Lemma copies_keep_other_fields_witness :
  points_to [raw_lead] [0%nat] [raw_lead]
  /\ exists out h',
       clean_data [0%nat] [raw_lead] = Some (out, h')
       /\ List.length out = 1%nat
       /\ h' !! 0%nat = Some raw_lead.
Proof.
  assert (Hp : points_to [raw_lead] [0%nat] [raw_lead]) by (repeat constructor).
  split; [exact Hp |].
  destruct (copies_keep_other_fields [raw_lead] [0%nat] [raw_lead] Hp)
    as [(out & h' & H & Hlen & _ & _ & Hold) _].
  exists out, h'. split; [exact H |]. split; [exact Hlen |].
  rewrite Hold by (cbn; lia). reflexivity.
Defined.

(** ** C6: applying corrections *)

Lemma get_insert (r : record) k v : get (<[k := v]> r) k = v.
Proof. unfold get. now rewrite lookup_insert_eq. Qed.

Lemma insert_differs (r : record) k v : get r k <> v -> <[k := v]> r <> r.
Proof. intros Hne Heq. apply Hne. rewrite <- Heq. apply get_insert. Qed.

Lemma corrected_contents_settled corrections r :
  settled corrections ->
  corrections !! get (corrected_contents corrections r) "Lead Status" = None.
Proof.
  intros Hs. unfold corrected_contents.
  destruct (corrections !! get r "Lead Status") as [c|] eqn:E.
  - rewrite get_insert. now apply (Hs _ _ E).
  - exact E.
Qed.

Lemma corrected_contents_idemp corrections r :
  settled corrections ->
  corrected_contents corrections (corrected_contents corrections r)
  = corrected_contents corrections r.
Proof.
  intros Hs. unfold corrected_contents at 1.
  now rewrite corrected_contents_settled.
Qed.

Lemma corrected_contents_changed corrections r :
  settled corrections ->
  corrected_contents corrections r <> r <-> has_correction corrections r.
Proof.
  intros Hs. unfold corrected_contents, has_correction.
  destruct (corrections !! get r "Lead Status") as [c|] eqn:E.
  - split; [eauto |]. intros _. apply insert_differs.
    intros Heq. rewrite Heq in E. rewrite (Hs _ _ E) in E. discriminate.
  - split; [congruence | intros [? ?]; discriminate].
Qed.

Lemma filter_nothing {A} (P : A -> Prop) `{forall x, Decision (P x)} (l : list A) :
  Forall (fun x => ~ P x) l -> filter P l = [].
Proof. intros H'. apply filter_none. intros x Hx. eapply Forall_forall in H'; eauto. Qed.

(** C6, as amended.  With the empty map the very list that was given
    comes back, with count 0 and no new object.  With a non-empty map
    every returned record is a new object; it is the given record with
    ["Lead Status"] replaced when its value is a key of the map, and
    equal to the given record otherwise; the count is the number of
    records whose value is a key.  When no replacement is itself a key,
    that is the number of records that changed, and applying the map to
    the result changes nothing more.  With five records of status
    ["Qual"], the map from ["Qual"] to ["Qualified"] gives count 5. *)
Theorem apply_corrections_effect self corrections h locs rs :
  points_to h locs rs ->
  apply_corrections self locs ∅ h = Some ((locs, 0%nat, self), h)
  /\ (corrections <> ∅ ->
      exists out n self' h',
        apply_corrections self locs corrections h = Some ((out, n, self'), h')
        /\ Forall (fun l' => (List.length h <= l')%nat) out
        /\ NoDup out
        /\ Forall2
             (fun l' r =>
                exists r', h' !! l' = Some r'
                  /\ (forall c, corrections !! get r "Lead Status" = Some c ->
                        r' = <["Lead Status" := VStr c]> r)
                  /\ (corrections !! get r "Lead Status" = None -> r' = r))
             out rs
        /\ n = List.length (filter (has_correction corrections) rs)
        /\ (settled corrections ->
            n = List.length (filter (fun r => corrected_contents corrections r <> r) rs)
            /\ exists out2 self2 h2,
                 apply_corrections self' out corrections h'
                 = Some ((out2, 0%nat, self2), h2)
                 /\ Forall2 (fun l1 l2 => h2 !! l2 = h' !! l1) out out2)
        /\ (corrections = qual_corrections ->
            List.length (filter (fun r => get r "Lead Status" = VStr "Qual") rs) = 5%nat ->
            n = 5%nat)).
Proof.
  intros Hp. split; [apply apply_corrections_empty |]. intros Hne.
  set (news := map (corrected_contents corrections) rs).
  exists (seq (List.length h) (List.length rs)),
         (List.length (filter (has_correction corrections) rs)),
         {| v_config := v_config self; corrections_applied := corrections |},
         (h ++ news).
  assert (Hnew : points_to (h ++ news) (seq (List.length h) (List.length rs)) news).
  { unfold points_to, news. apply Forall2_fmap_r. apply fresh_points_to. }
  split; [now apply apply_corrections_run |].
  split; [apply Forall_forall; intros l' Hl'; apply elem_of_seq in Hl'; lia |].
  split; [apply NoDup_seq |].
  split; [| split; [reflexivity | split]].
  - eapply Forall2_impl; [apply fresh_points_to |].
    intros l' r Hl. exists (corrected_contents corrections r). split; [exact Hl |].
    unfold corrected_contents. split.
    + intros c ->. reflexivity.
    + intros ->. reflexivity.
  - intros Hs. split.
    + f_equal. apply list_filter_iff. intros r. symmetry.
      now apply corrected_contents_changed.
    + exists (seq (List.length (h ++ news)) (List.length news)),
             {| v_config := v_config self; corrections_applied := corrections |},
             ((h ++ news) ++ map (corrected_contents corrections) news).
      split.
      * rewrite (apply_corrections_run _ corrections (h ++ news) _ news Hne Hnew).
        cbn [v_config]. repeat f_equal.
        rewrite filter_nothing; [reflexivity |].
        unfold news. apply Forall_fmap, Forall_forall. intros r _. cbn.
        unfold has_correction. rewrite corrected_contents_settled by assumption.
        intros [? ?]; discriminate.
      * apply Forall2_same_length_lookup.
        split; [rewrite !length_seq; unfold news; now rewrite length_map |].
        intros i l1 l2 H1 H2.
        apply lookup_seq in H1 as [-> Hi]. apply lookup_seq in H2 as [-> Hi2].
        destruct (lookup_lt_is_Some_2 news i Hi2) as [r' Hr'].
        rewrite (fresh_lookup h news i r' Hr').
        apply fresh_lookup. rewrite list_lookup_fmap, Hr'. cbn. f_equal.
        unfold news in Hr'. rewrite list_lookup_fmap in Hr'.
        destruct (rs !! i) as [r|]; [| discriminate]. injection Hr' as <-.
        now apply corrected_contents_idemp.
  - intros -> H5. rewrite <- H5. f_equal. apply list_filter_iff. intros r.
    unfold has_correction, qual_corrections. split.
    + intros [c Hc]. apply lookup_singleton_Some in Hc as [Hk _]. now symmetry.
    + intros ->. exists "Qualified". apply lookup_singleton_eq.
Qed.

Lemma apply_corrections_effect_witness :
  points_to qual_store (seq 0 7) qual_store
  /\ qual_corrections <> ∅
  /\ exists out self' h',
       apply_corrections some_validator (seq 0 7) qual_corrections qual_store
       = Some ((out, 5%nat, self'), h').
Proof.
  assert (Hp : points_to qual_store (seq 0 7) qual_store) by (repeat constructor).
  assert (Hne : qual_corrections <> ∅).
  { unfold qual_corrections. apply insert_non_empty. }
  split; [exact Hp |]. split; [exact Hne |].
  destruct (apply_corrections_effect some_validator qual_corrections
              qual_store (seq 0 7) qual_store Hp) as [_ H].
  destruct (H Hne) as (out & n & self' & h' & Hrun & _ & _ & _ & _ & _ & H5).
  exists out, self', h'. rewrite Hrun.
  rewrite (H5 eq_refl); [reflexivity |]. vm_compute. reflexivity.
Defined.

(** C6 as stated fails for the empty map: what comes back is the given
    list, so the returned record is the given object and no copy of it.
    It also fails for a map that sends a value to itself: the record is
    counted although nothing in it changed. *)
Lemma apply_corrections_no_copy :
  (exists out,
     apply_corrections some_validator [0%nat] ∅ [status_only "Qual"]
     = Some ((out, 0%nat, some_validator), [status_only "Qual"])
     /\ out = [0%nat]
     /\ ~ Forall (fun l' => (List.length [status_only "Qual"] <= l')%nat) out)
  /\ (exists out self' h' r',
        apply_corrections some_validator [0%nat] {[ VStr "Qual" := "Qual" ]}
                          [status_only "Qual"]
        = Some ((out, 1%nat, self'), h')
        /\ out = [1%nat]
        /\ h' !! 1%nat = Some r'
        /\ r' = status_only "Qual").
Proof.
  split.
  - exists [0%nat]. split; [reflexivity |]. split; [reflexivity |].
    intros H. apply Forall_cons in H as [H _]. cbn in H. lia.
  - assert (Hne : ({[ VStr "Qual" := "Qual" ]} : gmap value string) <> ∅)
      by apply insert_non_empty.
    assert (Hsame : corrected_contents {[ VStr "Qual" := "Qual" ]} (status_only "Qual")
                    = status_only "Qual").
    { unfold corrected_contents, status_only, get.
      rewrite lookup_singleton_eq. apply insert_singleton_eq. }
    exists [1%nat],
           {| v_config := default_config;
              corrections_applied := {[ VStr "Qual" := "Qual" ]} |},
           [status_only "Qual"; status_only "Qual"], (status_only "Qual").
    split; [| repeat split].
    rewrite (apply_corrections_run _ _ [status_only "Qual"] [0%nat]
               [status_only "Qual"] Hne) by (repeat constructor).
    cbn [List.length seq map app]. rewrite Hsame.
    rewrite filter_cons_True; [reflexivity |].
    unfold has_correction, status_only, get.
    rewrite lookup_singleton_eq. eauto.
Qed.

(** ** Counters in insertion order *)

Section UpsertFacts.
Context {K : Type} `{EqDecision K} {A : Type}.
Implicit Types (d : list (K * A)) (k : K).

Lemma upsert_keys k f dflt d k' :
  k' ∈ map fst (upsert k f dflt d) <-> k' = k \/ k' ∈ map fst d.
Proof.
  induction d as [|[k0 a] d IH]; cbn.
  - rewrite elem_of_cons. split; intros [-> | H']; auto; inversion H'.
  - destruct (decide (k0 = k)) as [-> | Hne]; cbn.
    + rewrite !elem_of_cons. tauto.
    + rewrite !elem_of_cons, IH. tauto.
Qed.

Lemma upsert_NoDup k f dflt d :
  NoDup (map fst d) -> NoDup (map fst (upsert k f dflt d)).
Proof.
  induction d as [|[k0 a] d IH]; cbn; intros Hnd.
  - repeat constructor. intros H'. inversion H'.
  - apply NoDup_cons in Hnd as [Hk0 Hnd].
    destruct (decide (k0 = k)) as [-> | Hne]; cbn; apply NoDup_cons.
    + split; assumption.
    + split; [| now apply IH]. rewrite upsert_keys. intros [-> | H']; auto.
Qed.

Lemma upsert_sum (g : A -> nat) (delta : nat) k f dflt d :
  (forall a, g (f a) = (g a + delta)%nat) -> g dflt = 0%nat ->
  sum_list (map (fun e : K * A => g e.2) (upsert k f dflt d))
  = (sum_list (map (fun e : K * A => g e.2) d) + delta)%nat.
Proof.
  intros Hf Hd. induction d as [|[k0 a] d IH]; cbn.
  - rewrite Hf, Hd. lia.
  - destruct (decide (k0 = k)); cbn; [rewrite Hf | rewrite IH]; lia.
Qed.

End UpsertFacts.

Section TallyFacts.
Context {K : Type} `{EqDecision K}.
Implicit Types (d : list (K * nat)) (k : K).

Lemma total_for_cons k k0 n d :
  total_for k ((k0, n) :: d) = ((if decide (k0 = k) then n else 0) + total_for k d)%nat.
Proof.
  unfold total_for. destruct (decide (k0 = k)) as [Heq | Hne].
  - now rewrite filter_cons_True by exact Heq.
  - now rewrite filter_cons_False by exact Hne.
Qed.

Lemma upsert_total_for k k' d :
  total_for k' (upsert k S 0%nat d) = (total_for k' d + one_if (k = k'))%nat.
Proof.
  unfold one_if. induction d as [|[k0 n] d IH]; cbn [upsert].
  - rewrite total_for_cons. unfold total_for. cbn.
    destruct (decide (k = k')); lia.
  - destruct (decide (k0 = k)) as [-> | Hne].
    + rewrite !total_for_cons. destruct (decide (k = k')); lia.
    + rewrite !total_for_cons, IH. lia.
Qed.

Lemma upsert_sum_snd k d :
  sum_list (map snd (upsert k S 0%nat d)) = S (sum_list (map snd d)).
Proof.
  induction d as [|[k0 n] d IH]; cbn; [reflexivity |].
  destruct (decide (k0 = k)); cbn; [| rewrite IH]; lia.
Qed.

Lemma total_for_absent k d : k ∉ map fst d -> total_for k d = 0%nat.
Proof.
  induction d as [|[k0 n] d IH]; [reflexivity |]. intros Hk. cbn in Hk.
  rewrite total_for_cons. apply not_elem_of_cons in Hk as [Hne Hk].
  rewrite decide_False by congruence. now rewrite IH.
Qed.

Lemma total_for_entry k n d :
  NoDup (map fst d) -> (k, n) ∈ d -> total_for k d = n.
Proof.
  induction d as [|[k0 n0] d IH]; intros Hnd Hin; [inversion Hin |].
  cbn in Hnd. apply NoDup_cons in Hnd as [Hk0 Hnd]. rewrite total_for_cons.
  apply elem_of_cons in Hin as [[= <- <-] | Hin].
  - rewrite decide_True by reflexivity. rewrite total_for_absent by assumption. lia.
  - rewrite decide_False.
    + now rewrite IH.
    + intros ->. apply Hk0. apply list_elem_of_fmap. now exists (k, n).
Qed.

End TallyFacts.

(** ** Stable sorting *)

Section SortFacts.
Context {A : Type} (ahead : A -> A -> bool) (R : A -> A -> Prop).
Hypothesis ahead_true : forall x y, ahead x y = true -> R x y.
Hypothesis ahead_false : forall x y, ahead x y = false -> R y x.
Hypothesis R_trans : forall x y z, R x y -> R y z -> R x z.

Lemma insert_sorted_perm x l : insert_sorted ahead x l ≡ₚ x :: l.
Proof.
  induction l as [|y l IH]; cbn; [reflexivity |].
  destruct (ahead x y); [reflexivity |].
  rewrite IH. apply Permutation_swap.
Qed.

Lemma sort_desc_perm l : sort_desc ahead l ≡ₚ l.
Proof.
  induction l as [|x l IH]; cbn; [reflexivity |].
  rewrite insert_sorted_perm. now rewrite IH.
Qed.

Lemma insert_sorted_sorted x l :
  StronglySorted R l -> StronglySorted R (insert_sorted ahead x l).
Proof.
  induction l as [|y l IH]; cbn; intros Hs.
  - repeat constructor.
  - apply StronglySorted_inv in Hs as [Hs Hy].
    destruct (ahead x y) eqn:E.
    + constructor; [constructor; assumption |].
      constructor; [now apply ahead_true |].
      eapply Forall_impl; [exact Hy |]. intros z Hz. cbn in Hz.
      eapply R_trans; [apply ahead_true; exact E | exact Hz].
    + constructor; [now apply IH |].
      rewrite insert_sorted_perm. constructor; [now apply ahead_false | exact Hy].
Qed.

Lemma sort_desc_sorted l : StronglySorted R (sort_desc ahead l).
Proof.
  induction l as [|x l IH]; cbn; [constructor | now apply insert_sorted_sorted].
Qed.

End SortFacts.

Lemma sort_desc_elem_of {A} (ahead : A -> A -> bool) (l : list A) x :
  x ∈ sort_desc ahead l <-> x ∈ l.
Proof. now rewrite sort_desc_perm. Qed.

Lemma sort_desc_sum {A} (ahead : A -> A -> bool) (f : A -> nat) (l : list A) :
  sum_list (map f (sort_desc ahead l)) = sum_list (map f l).
Proof.
  assert (Hp : forall l1 l2 : list A, l1 ≡ₚ l2 -> sum_list (map f l1) = sum_list (map f l2)).
  { intros l1 l2 Hperm. induction Hperm; cbn; lia. }
  apply Hp, sort_desc_perm.
Qed.

Lemma sort_desc_nil {A} (ahead : A -> A -> bool) (l : list A) :
  sort_desc ahead l = [] <-> l = [].
Proof.
  split; [| now intros ->]. intros Hs.
  pose proof (sort_desc_perm ahead l) as Hp. rewrite Hs in Hp.
  now apply Permutation_nil.
Qed.

(** ** Rates *)

Lemma rate_quotient (n d : nat) :
  (0 < d)%nat ->
  (rate n d == inject_Z (Z.of_nat n) / inject_Z (Z.of_nat d))%Q.
Proof.
  intros Hd. unfold rate. destruct (Nat.ltb_spec 0 d) as [_ | Hle]; [| lia].
  rewrite Qmake_Qdiv. replace (Z.pos (Pos.of_nat d)) with (Z.of_nat d); [reflexivity |].
  destruct d; [lia |]. now rewrite <- Pos.of_nat_succ.
Qed.

Lemma Qle_bool_false_le (x y : Q) : Qle_bool x y = false -> (y <= x)%Q.
Proof.
  intros Hb. apply Qlt_le_weak. apply Qnot_le_lt. intros Hle.
  apply Qle_bool_iff in Hle. congruence.
Qed.

Lemma with_total_snoc {R} (total : list R -> R) (rows : list R) :
  rows <> [] -> with_total total rows = rows ++ [total rows].
Proof. destruct rows; [congruence | reflexivity]. Qed.

Lemma count_if_cons p r (records : list record) :
  count_if p (r :: records)
  = ((if p r then 1 else 0) + count_if p records)%nat.
Proof.
  rewrite !count_if_length. destruct (p r) eqn:E.
  - now rewrite filter_cons_True by exact E.
  - rewrite filter_cons_False; [reflexivity |]. congruence.
Qed.

(** ** Counting loops *)

Section TallyLoop.
Context {K : Type} `{EqDecision K} (sel : record -> option K).
Implicit Types (d acc : list (K * nat)) (k : K) (records : list record).

Lemma tally_total k records :
  forall acc,
    total_for k (fold_left (tally_step sel) records acc)
    = (total_for k acc + List.length (filter (fun r => sel r = Some k) records))%nat.
Proof.
  induction records as [|r records IH]; intros acc; cbn [fold_left].
  - cbn. lia.
  - rewrite IH. unfold tally_step. destruct (sel r) as [k0|] eqn:E.
    + rewrite upsert_total_for. unfold one_if.
      destruct (decide (k0 = k)) as [-> | Hne].
      * rewrite filter_cons_True by exact E. cbn. lia.
      * rewrite filter_cons_False by congruence. lia.
    + rewrite filter_cons_False by congruence. reflexivity.
Qed.

Lemma tally_keys k records :
  forall acc,
    k ∈ map fst (fold_left (tally_step sel) records acc)
    <-> k ∈ map fst acc \/ exists r, r ∈ records /\ sel r = Some k.
Proof.
  induction records as [|r records IH]; intros acc; cbn [fold_left].
  - split; [auto | intros [Hk | (r & Hr & _)]; [exact Hk | inversion Hr]].
  - rewrite IH. unfold tally_step. destruct (sel r) as [k0|] eqn:E.
    + rewrite upsert_keys. split.
      * intros [[-> | Hk] | (r' & Hr' & Hs)]; auto.
        -- right. exists r. split; [left | exact E].
        -- right. exists r'. split; [now right | exact Hs].
      * intros [Hk | (r' & Hr' & Hs)]; auto.
        apply elem_of_cons in Hr' as [-> | Hr'].
        -- left. left. congruence.
        -- right. eauto.
    + split.
      * intros [Hk | (r' & Hr' & Hs)]; auto. right. exists r'. split; [now right | exact Hs].
      * intros [Hk | (r' & Hr' & Hs)]; auto.
        apply elem_of_cons in Hr' as [-> | Hr']; [congruence |]. right. eauto.
Qed.

Lemma tally_NoDup records :
  forall acc, NoDup (map fst acc) -> NoDup (map fst (fold_left (tally_step sel) records acc)).
Proof.
  induction records as [|r records IH]; intros acc Hnd; cbn [fold_left]; [exact Hnd |].
  apply IH. unfold tally_step. destruct (sel r); [now apply upsert_NoDup | exact Hnd].
Qed.

Lemma tally_sum records :
  forall acc,
    sum_list (map snd (fold_left (tally_step sel) records acc))
    = (sum_list (map snd acc)
       + List.length (filter (fun r => is_Some (sel r)) records))%nat.
Proof.
  induction records as [|r records IH]; intros acc; cbn [fold_left].
  - cbn. lia.
  - rewrite IH. unfold tally_step. destruct (sel r) as [k0|] eqn:E.
    + rewrite filter_cons_True by (rewrite E; eauto).
      rewrite upsert_sum_snd. cbn. lia.
    + rewrite filter_cons_False by (rewrite E; intros [? ?]; discriminate). reflexivity.
Qed.

(** An entry of the finished counter holds the number of records that
    count under its key, and there is at least one. *)
Lemma tally_entry k n records :
  (k, n) ∈ fold_left (tally_step sel) records [] ->
  n = List.length (filter (fun r => sel r = Some k) records) /\ (0 < n)%nat.
Proof.
  intros Hin.
  assert (Hn : n = List.length (filter (fun r => sel r = Some k) records)).
  { rewrite <- (total_for_entry k n (fold_left (tally_step sel) records [])).
    - now rewrite tally_total.
    - apply tally_NoDup. constructor.
    - exact Hin. }
  split; [exact Hn |].
  assert (Hk : k ∈ map fst (fold_left (tally_step sel) records [])).
  { apply list_elem_of_fmap. now exists (k, n). }
  apply tally_keys in Hk as [Hk | (r & Hr & Hs)]; [inversion Hk |].
  rewrite Hn. destruct (filter (fun r => sel r = Some k) records) eqn:Ef; [| cbn; lia].
  exfalso. eapply (filter_nil_not_elem_of _ _ r Ef); eauto.
Qed.

End TallyLoop.

Lemma fold_left_pointwise {A B} (f g : A -> B -> A) (l : list B) :
  (forall a b, f a b = g a b) -> forall a, fold_left f l a = fold_left g l a.
Proof.
  intros Hfg. induction l as [|b l IH]; intros a; cbn; [reflexivity |].
  now rewrite Hfg, IH.
Qed.

Lemma count_status_tally (records : list record) acc :
  fold_left count_status records acc = fold_left (tally_step status_key) records acc.
Proof.
  apply fold_left_pointwise. intros d r. unfold count_status, tally_step, status_key.
  now destruct (is_none (get r "Lead Status")).
Qed.

Lemma count_reason_tally (records : list record) acc :
  fold_left count_reason records acc = fold_left (tally_step reason_key) records acc.
Proof.
  apply fold_left_pointwise. intros d r. unfold count_reason, tally_step, reason_key.
  now destruct (is_disqualified r).
Qed.

Lemma count_tag_tally column (records : list record) acc :
  fold_left (count_tag column) records acc
  = fold_left (tally_step (tag_key column)) records acc.
Proof.
  apply fold_left_pointwise. intros d r. unfold count_tag, tally_step, tag_key.
  now destruct (is_qualified r).
Qed.

(** ** C8: the report of the reasons *)

Lemma reason_key_spec r k : reason_key r = Some k <-> disqualified_for k r.
Proof.
  unfold reason_key, disqualified_for. rewrite <- is_disqualified_spec.
  destruct (is_disqualified r); split.
  - intros [= <-]. auto.
  - intros [_ ->]. reflexivity.
  - discriminate.
  - intros [? _]. discriminate.
Qed.

Lemma reason_key_some r : is_Some (reason_key r) <-> disqualified_status r.
Proof.
  rewrite <- is_disqualified_spec. unfold reason_key.
  destruct (is_disqualified r); split; eauto.
  - intros [? ?]. discriminate.
  - discriminate.
Qed.

Lemma reason_rows_elem (records : list record) row :
  row ∈ reason_rows records <->
  exists k n, (k, n) ∈ fold_left (tally_step reason_key) records []
              /\ row = mkreason_row k n (rate n (List.length records)).
Proof.
  unfold reason_rows. rewrite sort_desc_elem_of, list_elem_of_fmap, count_reason_tally.
  split.
  - intros ([k n] & -> & Hin). now exists k, n.
  - intros (k & n & Hin & ->). now exists (k, n).
Qed.

Lemma reason_rows_reasons (records : list record) :
  map rr_reason (reason_rows records)
  ≡ₚ map fst (fold_left (tally_step reason_key) records []).
Proof.
  unfold reason_rows. rewrite sort_desc_perm, count_reason_tally.
  rewrite map_map. cbn. reflexivity.
Qed.

Lemma reason_rows_sum (records : list record) :
  sum_list (map rr_count (reason_rows records))
  = List.length (filter disqualified_status records).
Proof.
  unfold reason_rows. rewrite sort_desc_sum, count_reason_tally, map_map. cbn.
  change (fun x : value * nat => x.2) with (@snd value nat).
  rewrite tally_sum. cbn. f_equal. apply list_filter_iff. intros r. apply reason_key_some.
Qed.

Lemma reason_rows_sorted (records : list record) :
  StronglySorted (fun x y => (rr_error_pct y <= rr_error_pct x)%Q) (reason_rows records).
Proof.
  unfold reason_rows. apply sort_desc_sorted.
  - intros x y Hb. now apply Qle_bool_iff.
  - intros x y Hb. now apply Qle_bool_false_le.
  - intros x y z Hxy Hyz. eapply Qle_trans; eassumption.
Qed.

Lemma generate_dq_reason_report_total format_percent (records : list record) :
  reason_rows records <> [] ->
  generate_dq_reason_report format_percent records
  = [VStr "DQ Reason"; VStr "Disqualified"; VStr "Error%"]
    :: map (display_reason_row format_percent) (reason_rows records)
    ++ [[VStr "Grand Total";
         VInt (Z.of_nat (List.length (filter disqualified_status records)));
         VStr (format_percent
                 (rate (List.length (filter disqualified_status records))
                       (List.length records)))]].
Proof.
  intros Hne. unfold generate_dq_reason_report. rewrite with_total_snoc by exact Hne.
  rewrite map_app. cbn [map]. unfold display_reason_row at 2, reason_total_row.
  cbn [rr_reason rr_count rr_error_pct]. now rewrite reason_rows_sum.
Qed.

(** C8.  Every row of the reasons holds the number of records that are
    disqualified with that reason, and its rate is that number divided by
    the number of all records given, whatever their status; every reason
    of a disqualified record has exactly one row; the rows are in
    descending order of rate; and the total row, present when there is a
    row, holds the number of disqualified records and that number divided
    by the number of all records. *)
Theorem generate_dq_reason_report_rates format_percent (records : list record) :
  let rows := reason_rows records in
  let total_leads := List.length records in
  (forall row, row ∈ rows ->
     rr_count row = List.length (filter (disqualified_for (rr_reason row)) records)
     /\ (0 < rr_count row)%nat /\ (0 < total_leads)%nat
     /\ (rr_error_pct row
         == inject_Z (Z.of_nat (rr_count row)) / inject_Z (Z.of_nat total_leads))%Q)
  /\ NoDup (map rr_reason rows)
  /\ (forall r, r ∈ records -> disqualified_status r -> reason_of r ∈ map rr_reason rows)
  /\ StronglySorted (fun x y => (rr_error_pct y <= rr_error_pct x)%Q) rows
  /\ (rows <> [] ->
      let total_disqualified := List.length (filter disqualified_status records) in
      generate_dq_reason_report format_percent records
      = [VStr "DQ Reason"; VStr "Disqualified"; VStr "Error%"]
        :: map (display_reason_row format_percent) rows
        ++ [[VStr "Grand Total"; VInt (Z.of_nat total_disqualified);
             VStr (format_percent (rate total_disqualified total_leads))]]
      /\ total_disqualified = sum_list (map rr_count rows)
      /\ (0 < total_leads)%nat
      /\ (rate total_disqualified total_leads
          == inject_Z (Z.of_nat total_disqualified) / inject_Z (Z.of_nat total_leads))%Q).
Proof.
  intros rows total_leads.
  assert (Hrow : forall row, row ∈ rows ->
            rr_count row = List.length (filter (disqualified_for (rr_reason row)) records)
            /\ (0 < rr_count row)%nat /\ (0 < total_leads)%nat
            /\ rr_error_pct row = rate (rr_count row) total_leads).
  { intros row Hin. apply reason_rows_elem in Hin as (k & n & Hin & ->). cbn.
    apply tally_entry in Hin as [Hn Hpos].
    assert (Hc : n = List.length (filter (disqualified_for k) records)).
    { rewrite Hn. f_equal. apply list_filter_iff. intros r. apply reason_key_spec. }
    split; [exact Hc |]. split; [exact Hpos |]. split; [| reflexivity].
    pose proof (length_filter (disqualified_for k) records). unfold total_leads. lia. }
  split; [| split; [| split; [| split]]].
  - intros row Hin. destruct (Hrow row Hin) as (Hc & Hpos & Htot & Hpct).
    repeat split; try assumption. rewrite Hpct. now apply rate_quotient.
  - unfold rows. rewrite reason_rows_reasons. apply tally_NoDup. constructor.
  - intros r Hr Hd. unfold rows. rewrite reason_rows_reasons.
    apply tally_keys. right. exists r. split; [exact Hr |].
    apply reason_key_spec. now split.
  - apply reason_rows_sorted.
  - intros Hne total_disqualified.
    assert (Htot : (0 < total_leads)%nat).
    { destruct rows as [|row rows'] eqn:E; [congruence |].
      apply (Hrow row). left. }
    split; [| split; [| split; [exact Htot | now apply rate_quotient]]].
    + now apply generate_dq_reason_report_total.
    + unfold total_disqualified, rows. now rewrite reason_rows_sum.
Qed.

Lemma generate_dq_reason_report_rates_witness :
  reason_rows agent_example <> []
  /\ generate_dq_reason_report (fun _ => "") agent_example
     = [ [VStr "DQ Reason"; VStr "Disqualified"; VStr "Error%"];
         [VStr "x"; VInt 2; VStr ""];
         [VStr "y"; VInt 1; VStr ""];
         [VStr "Grand Total"; VInt 3; VStr ""] ]
  /\ map rr_error_pct (reason_rows agent_example) = [(2 # 10)%Q; (1 # 10)%Q].
Proof.
  assert (Hne : reason_rows agent_example <> []) by (vm_compute; discriminate).
  split; [exact Hne |].
  destruct (generate_dq_reason_report_rates (fun _ => "") agent_example)
    as (_ & _ & _ & _ & H).
  destruct (H Hne) as [Hrep _]. rewrite Hrep. split; vm_compute; reflexivity.
Defined.

(** ** C4: the total rows *)

Lemma upsert_Forall {K} `{EqDecision K} {A} (P : A -> Prop) (k : K) f dflt
    (d : list (K * A)) :
  (forall a, P (f a)) ->
  Forall (fun e : K * A => P e.2) d ->
  Forall (fun e : K * A => P e.2) (upsert k f dflt d).
Proof.
  intros Hf. induction d as [|[k0 a] d IH]; cbn; intros Hd.
  - repeat constructor. apply Hf.
  - apply Forall_cons in Hd as [Ha Hd].
    destruct (decide (k0 = k)); constructor; auto. apply Hf.
Qed.

Lemma qualified_not_disqualified r : is_qualified r = true -> is_disqualified r = false.
Proof.
  unfold is_qualified, is_disqualified. intros Hq. apply String.eqb_eq in Hq.
  now rewrite Hq.
Qed.

Lemma count_agent_sums (records : list record) :
  forall acc,
    sum_list (map (fun e : value * counts => c_disqualified e.2)
                  (fold_left count_agent records acc))
    = (sum_list (map (fun e : value * counts => c_disqualified e.2) acc)
       + count_if is_disqualified records)%nat
    /\ sum_list (map (fun e : value * counts => c_qualified e.2)
                     (fold_left count_agent records acc))
       = (sum_list (map (fun e : value * counts => c_qualified e.2) acc)
          + count_if is_qualified records)%nat.
Proof.
  induction records as [|r records IH]; intros acc; cbn [fold_left].
  - unfold count_if. cbn. lia.
  - destruct (IH (count_agent acc r)) as [IHd IHq]. rewrite IHd, IHq.
    rewrite !count_if_cons. unfold count_agent.
    destruct (is_qualified r) eqn:Eq.
    + rewrite (qualified_not_disqualified r Eq).
      unfold is_qualified in Eq. rewrite Eq.
      rewrite (upsert_sum c_disqualified 0%nat) by (intros; cbn; lia).
      rewrite (upsert_sum c_qualified 1%nat) by (intros; cbn; lia). lia.
    + unfold is_qualified in Eq. rewrite Eq.
      destruct (is_disqualified r) eqn:Ed; unfold is_disqualified in Ed; rewrite Ed.
      * rewrite (upsert_sum c_disqualified 1%nat) by (intros; cbn; lia).
        rewrite (upsert_sum c_qualified 0%nat) by (intros; cbn; lia). lia.
      * lia.
Qed.

Lemma count_agent_positive (records : list record) :
  forall acc,
    Forall (fun e : value * counts => 0 < c_qualified e.2 + c_disqualified e.2)%nat acc ->
    Forall (fun e : value * counts => 0 < c_qualified e.2 + c_disqualified e.2)%nat
           (fold_left count_agent records acc).
Proof.
  induction records as [|r records IH]; intros acc Hacc; cbn [fold_left]; [exact Hacc |].
  apply IH. unfold count_agent.
  destruct (String.eqb (status_of r) "qualified");
    [| destruct (String.eqb (status_of r) "disqualified")]; try exact Hacc;
    apply (upsert_Forall (fun c => 0 < c_qualified c + c_disqualified c)%nat);
    try exact Hacc; intros a; cbn; lia.
Qed.

Lemma agent_rows_sums (records : list record) :
  let rows := agent_rows records in
  sum_list (map ar_disqualified rows) = List.length (filter disqualified_status records)
  /\ sum_list (map ar_qualified rows) = List.length (filter qualified_status records)
  /\ sum_list (map ar_total rows)
     = (sum_list (map ar_qualified rows) + sum_list (map ar_disqualified rows))%nat
  /\ (rows <> [] -> 0 < sum_list (map ar_total rows))%nat.
Proof.
  intros rows. unfold rows, agent_rows. rewrite !sort_desc_sum, !map_map.
  destruct (count_agent_sums records []) as [Hd Hq]. cbn in Hd, Hq.
  rewrite count_if_disqualified in Hd. rewrite count_if_qualified in Hq.
  assert (Ed : forall d : list (value * counts),
             map (fun x => ar_disqualified (agent_row_of x)) d
             = map (fun e : value * counts => c_disqualified e.2) d).
  { intros d. apply map_ext. intros [k c]. reflexivity. }
  assert (Eq : forall d : list (value * counts),
             map (fun x => ar_qualified (agent_row_of x)) d
             = map (fun e : value * counts => c_qualified e.2) d).
  { intros d. apply map_ext. intros [k c]. reflexivity. }
  rewrite Ed, Eq, Hd, Hq.
  assert (Ht : forall d : list (value * counts),
             sum_list (map (fun x => ar_total (agent_row_of x)) d)
             = (sum_list (map (fun e : value * counts => c_qualified e.2) d)
                + sum_list (map (fun e : value * counts => c_disqualified e.2) d))%nat).
  { intros d. induction d as [|[k c] d IHd]; cbn; [reflexivity |]. cbn in IHd. lia. }
  split; [reflexivity | split; [reflexivity | split]].
  - rewrite Ht, Hd, Hq. reflexivity.
  - intros Hne. rewrite sort_desc_nil in Hne.
    pose proof (count_agent_positive records [] ltac:(constructor)) as Hpos.
    destruct (fold_left count_agent records []) as [|[k c] d]; [cbn in Hne; congruence |].
    apply Forall_cons in Hpos as [Hc _]. cbn in Hc |- *. lia.
Qed.

Lemma tag_key_some column r : is_Some (tag_key column r) <-> qualified_status r.
Proof.
  rewrite <- is_qualified_spec. unfold tag_key.
  destruct (is_qualified r); split; eauto.
  - intros [? ?]. discriminate.
  - discriminate.
Qed.

Lemma tag_rows_sum column (records : list record) :
  sum_list (map snd (tag_rows column records))
  = List.length (filter qualified_status records).
Proof.
  unfold tag_rows. rewrite sort_desc_sum, count_tag_tally, tally_sum. cbn.
  f_equal. apply list_filter_iff. intros r. apply tag_key_some.
Qed.

(** C4.  In each report that has a total row, when there is a row at
    all, the table is the header, the rows, and a last row named
    ["Grand Total"] whose counts are the sums of the counts above it; the
    sums are the numbers of disqualified and of qualified records given,
    each record counted once.  The rate of the total row is computed from
    the sums: the disqualified total over the total of qualified and
    disqualified for the agents, the disqualified total over the number
    of records for the reasons.  Agents A [2, 3, 5, 0.40] and B
    [1, 4, 5, 0.20] give the total [3, 7, 10, 0.30]; with rows of rates
    1 and 0 and sizes 1 and 3 the total rate is 1/4, not the mean 1/2. *)
Theorem grand_total_rows format_percent (records : list record) :
  (agent_rows records <> [] ->
   let rows := agent_rows records in
   let sum_disqualified := sum_list (map ar_disqualified rows) in
   let sum_qualified := sum_list (map ar_qualified rows) in
   generate_agent_breakdown_report format_percent records
   = [VStr "Agent Name"; VStr "Disqualified"; VStr "Qualified"; VStr "Grand Total";
      VStr "Error%"]
     :: map (display_agent_row format_percent) rows
     ++ [[VStr "Grand Total"; VInt (Z.of_nat sum_disqualified);
          VInt (Z.of_nat sum_qualified);
          VInt (Z.of_nat (sum_qualified + sum_disqualified));
          VStr (format_percent
                  (rate sum_disqualified (sum_qualified + sum_disqualified)))]]
   /\ sum_list (map ar_total rows) = (sum_qualified + sum_disqualified)%nat
   /\ sum_disqualified = List.length (filter disqualified_status records)
   /\ sum_qualified = List.length (filter qualified_status records)
   /\ (rate sum_disqualified (sum_qualified + sum_disqualified)
       == inject_Z (Z.of_nat sum_disqualified)
          / inject_Z (Z.of_nat (sum_qualified + sum_disqualified)))%Q)
  /\ (reason_rows records <> [] ->
      let rows := reason_rows records in
      let total_disqualified := sum_list (map rr_count rows) in
      generate_dq_reason_report format_percent records
      = [VStr "DQ Reason"; VStr "Disqualified"; VStr "Error%"]
        :: map (display_reason_row format_percent) rows
        ++ [[VStr "Grand Total"; VInt (Z.of_nat total_disqualified);
             VStr (format_percent (rate total_disqualified (List.length records)))]]
      /\ total_disqualified = List.length (filter disqualified_status records))
  /\ (forall title column,
        tag_rows column records <> [] ->
        let rows := tag_rows column records in
        let total_qualified := sum_list (map snd rows) in
        generate_tag_report title column records
        = [VStr title; VStr "Qualified Count"]
          :: map (fun row : string * nat => [VStr row.1; VInt (Z.of_nat row.2)]) rows
          ++ [[VStr "Grand Total"; VInt (Z.of_nat total_qualified)]]
        /\ total_qualified = List.length (filter qualified_status records))
  /\ (agent_rows agent_example
      = [mkagent_row (VStr "A") 2 3 5 (2 # 5); mkagent_row (VStr "B") 1 4 5 (1 # 5)]
      /\ agent_total_row (agent_rows agent_example)
         = mkagent_row (VStr "Grand Total") 3 7 10 (3 # 10)
      /\ (2 # 5 == 40 # 100)%Q /\ (1 # 5 == 20 # 100)%Q /\ (3 # 10 == 30 # 100)%Q)
  /\ (map ar_error_pct (agent_rows uneven_example) = [(1 # 1)%Q; (0 # 3)%Q]
      /\ ar_error_pct (agent_total_row (agent_rows uneven_example)) = (1 # 4)%Q
      /\ ~ ((1 # 4) == ((1 # 1) + (0 # 3)) / (2 # 1))%Q).
Proof.
  split; [| split; [| split; [| split]]].
  - intros Hne rows sum_disqualified sum_qualified.
    destruct (agent_rows_sums records) as (Hd & Hq & Ht & Hpos).
    fold rows in Hd, Hq, Ht, Hpos. subst sum_disqualified sum_qualified.
    split; [| split; [exact Ht | split; [exact Hd | split; [exact Hq |]]]].
    + unfold generate_agent_breakdown_report. fold rows.
      rewrite with_total_snoc by exact Hne. rewrite map_app. cbn [map].
      unfold display_agent_row at 2, agent_total_row.
      cbn [ar_agent ar_disqualified ar_qualified ar_total ar_error_pct].
      rewrite Ht. reflexivity.
    + apply rate_quotient. rewrite <- Ht. apply Hpos. exact Hne.
  - intros Hne rows total_disqualified. unfold total_disqualified, rows.
    rewrite reason_rows_sum. split; [| reflexivity].
    now apply generate_dq_reason_report_total.
  - intros title column Hne rows total_qualified. split.
    + unfold generate_tag_report. fold rows. rewrite with_total_snoc by exact Hne.
      rewrite map_app. reflexivity.
    + unfold total_qualified, rows. apply tag_rows_sum.
  - repeat split; vm_compute; reflexivity.
  - split; [vm_compute; reflexivity | split; [vm_compute; reflexivity |]].
    vm_compute. discriminate.
Qed.

Lemma grand_total_rows_witness :
  agent_rows agent_example <> []
  /\ generate_agent_breakdown_report (fun _ => "") agent_example
     = [ [VStr "Agent Name"; VStr "Disqualified"; VStr "Qualified"; VStr "Grand Total";
          VStr "Error%"];
         [VStr "A"; VInt 2; VInt 3; VInt 5; VStr ""];
         [VStr "B"; VInt 1; VInt 4; VInt 5; VStr ""];
         [VStr "Grand Total"; VInt 3; VInt 7; VInt 10; VStr ""] ].
Proof.
  assert (Hne : agent_rows agent_example <> []) by (vm_compute; discriminate).
  split; [exact Hne |].
  destruct (grand_total_rows (fun _ => "") agent_example) as [H _].
  destruct (H Hne) as [Hrep _]. rewrite Hrep. vm_compute. reflexivity.
Defined.

(** ** C5: the issues of the lead status *)

Lemma is_space_lower_char c : PyStr.is_space (PyStr.lower_char c) = PyStr.is_space c.
Proof. destruct c as [[] [] [] [] [] [] [] []]; reflexivity. Qed.

Lemma lstrip_lower s : PyStr.lstrip (PyStr.lower s) = PyStr.lower (PyStr.lstrip s).
Proof.
  induction s as [|c s IH]; cbn; [reflexivity |].
  rewrite is_space_lower_char. destruct (PyStr.is_space c); [exact IH | reflexivity].
Qed.

Lemma is_empty_lower s : PyStr.is_empty (PyStr.lower s) = PyStr.is_empty s.
Proof. destruct s; reflexivity. Qed.

Lemma rstrip_lower s : PyStr.rstrip (PyStr.lower s) = PyStr.lower (PyStr.rstrip s).
Proof.
  induction s as [|c s IH]; cbn; [reflexivity |].
  rewrite is_space_lower_char, IH, is_empty_lower.
  destruct (PyStr.is_space c && PyStr.is_empty (PyStr.rstrip s)); reflexivity.
Qed.

Lemma strip_lower s : PyStr.strip (PyStr.lower s) = PyStr.lower (PyStr.strip s).
Proof. unfold PyStr.strip. now rewrite lstrip_lower, rstrip_lower. Qed.

Lemma matches_pattern_spec text patterns :
  matches_pattern text patterns = true <-> equals_or_starts_with text patterns.
Proof.
  unfold matches_pattern, equals_or_starts_with.
  rewrite existsb_exists, Exists_exists. split.
  - intros (p & Hin & Hp). exists p. split; [now apply list_elem_of_In |].
    apply orb_true_iff in Hp as [Hp | Hp]; [left | now right].
    apply String.eqb_eq in Hp. now symmetry.
  - intros (p & Hin & Hp). exists p. split; [now apply list_elem_of_In |].
    apply orb_true_iff. destruct Hp as [-> | Hp]; [left | now right].
    apply String.eqb_refl.
Qed.

Lemma in_default_statuses v :
  in_statuses v (list_to_set (ACCEPTED_LEAD_STATUS default_config)) = true
  <-> v = VStr "Qualified" \/ v = VStr "Disqualified".
Proof.
  destruct v as [|x| | |]; cbn [in_statuses];
    try (split; [discriminate | intros [? | ?]; discriminate]).
  rewrite bool_decide_eq_true. cbn [ACCEPTED_LEAD_STATUS default_config list_to_set].
  rewrite !elem_of_union, !elem_of_singleton.
  split.
  - intros [-> | [-> | H]]; auto. inversion H.
  - intros [[= ->] | [= ->]]; auto.
Qed.

(** The suggestion computed by the source is the one of the prefix rule,
    for every value outside the accepted set. *)
Lemma auto_suggestion_prefix_rule ratio v n :
  v <> VStr "Qualified" -> v <> VStr "Disqualified" ->
  auto_suggestion
    (issue_of ratio (list_to_set (ACCEPTED_LEAD_STATUS default_config)) (v, n))
  = prefix_rule v.
Proof.
  intros HQ HD. unfold issue_of. cbn [auto_suggestion].
  unfold normalize_lead_status, prefix_rule.
  set (valid := list_to_set (ACCEPTED_LEAD_STATUS default_config) : gset string).
  assert (Hself : match v with
                  | VStr n0 =>
                      if bool_decide (v <> v) && in_statuses v valid then Some n0 else None
                  | _ => None
                  end = None).
  { destruct v; try reflexivity. rewrite bool_decide_eq_false_2; [reflexivity | tauto]. }
  destruct (negb (truthy v) || String.eqb (PyStr.strip (py_str v)) "") eqn:Eguard.
  - rewrite Hself.
    assert (Ht : PyStr.strip (PyStr.lower (py_str v)) = ""
                 \/ v = VInt 0 \/ v = VNone).
    { apply orb_true_iff in Eguard as [Ht | Hs].
      - destruct v as [|x|z| |]; cbn in Ht; try discriminate.
        + right. right. reflexivity.
        + left. destruct x; [reflexivity | discriminate].
        + right. left. destruct (Z.eqb_spec z 0); [now subst | discriminate].
      - left. apply String.eqb_eq in Hs. now rewrite strip_lower, Hs. }
    destruct Ht as [-> | [-> | ->]]; vm_compute; reflexivity.
  - destruct (matches_pattern _ qualified_patterns) eqn:Eq.
    + apply matches_pattern_spec in Eq. unfold qualified_patterns in Eq.
      rewrite decide_True by exact Eq.
      rewrite bool_decide_eq_true_2 by congruence. reflexivity.
    + rewrite decide_False
        by (intros H; apply matches_pattern_spec in H;
            unfold qualified_patterns in Eq; congruence).
      destruct (matches_pattern _ disqualified_patterns) eqn:Ed.
      * apply matches_pattern_spec in Ed. unfold disqualified_patterns in Ed.
        rewrite decide_True by exact Ed.
        rewrite bool_decide_eq_true_2 by congruence. reflexivity.
      * rewrite decide_False
          by (intros H; apply matches_pattern_spec in H;
              unfold disqualified_patterns in Ed; congruence).
        exact Hself.
Qed.

Lemma get_close_matches_spec ratio word possibilities n cutoff :
  (List.length (get_close_matches ratio word possibilities n cutoff) <= n)%nat
  /\ forall s, s ∈ get_close_matches ratio word possibilities n cutoff ->
       s ∈ possibilities /\ (cutoff <= ratio s word)%Q.
Proof.
  unfold get_close_matches. split.
  - rewrite length_map, length_take. lia.
  - intros s Hs. apply list_elem_of_fmap in Hs as ([q x] & -> & Hin). cbn.
    apply (subseteq_take n) in Hin. apply sort_desc_elem_of in Hin.
    apply list_elem_of_fmap in Hin as (y & [= -> ->] & Hy).
    apply list_elem_of_filter in Hy as [Hc Hy]. split; [exact Hy |].
    now apply Qle_bool_iff.
Qed.

Lemma NoDup_fst_filter {K A} (P : K * A -> Prop) `{forall e, Decision (P e)}
    (d : list (K * A)) :
  NoDup (map fst d) -> NoDup (map fst (filter P d)).
Proof.
  induction d as [|e d IH]; intros Hnd; [constructor |].
  cbn in Hnd. apply NoDup_cons in Hnd as [He Hnd].
  destruct (decide (P e)) as [HP | HP].
  - rewrite filter_cons_True by exact HP. cbn. apply NoDup_cons. split; [| now apply IH].
    intros Hin. apply He. apply list_elem_of_fmap in Hin as (e' & -> & Hin).
    apply list_elem_of_filter in Hin as [_ Hin]. apply list_elem_of_fmap. now exists e'.
  - rewrite filter_cons_False by exact HP. now apply IH.
Qed.

Lemma status_key_spec r v : status_key r = Some v <-> get r "Lead Status" = v /\ v <> VNone.
Proof.
  unfold status_key. destruct (is_none (get r "Lead Status")) eqn:E.
  - apply is_none_spec in E. split; [discriminate | intros [<- Hne]; congruence].
  - split.
    + intros [= <-]. split; [reflexivity |]. intros Hn. apply is_none_spec in Hn. congruence.
    + intros [-> _]. reflexivity.
Qed.

Lemma issues_unfold ratio applied (records : list record) :
  (find_lead_status_issues ratio (mkDataValidator default_config applied) records).1
  = map (issue_of ratio (list_to_set (ACCEPTED_LEAD_STATUS default_config)))
        (filter (fun sc : value * nat =>
                   in_statuses sc.1 (list_to_set (ACCEPTED_LEAD_STATUS default_config))
                   = false)
                (fold_left (tally_step status_key) records [])).
Proof. unfold find_lead_status_issues. cbn [fst v_config]. now rewrite count_status_tally. Qed.

Lemma issue_of_fields ratio valid v n :
  original (issue_of ratio valid (v, n)) = v
  /\ count (issue_of ratio valid (v, n)) = n
  /\ fuzzy_matches (issue_of ratio valid (v, n))
     = get_close_matches ratio (py_str v) (elements valid) 2 (6 # 10)%Q
  /\ valid_options (issue_of ratio valid (v, n)) = elements valid.
Proof. repeat split. Qed.

Lemma not_in_default_statuses v :
  in_statuses v (list_to_set (ACCEPTED_LEAD_STATUS default_config)) = false
  <-> v <> VStr "Qualified" /\ v <> VStr "Disqualified".
Proof.
  rewrite <- not_true_iff_false, in_default_statuses. tauto.
Qed.

(** ** The similarity of [difflib] is defined *)

Section MatcherFacts.
Variables a b : list ascii.

Lemma inner_loop_within (alo i blo bhi : nat) (bs : list ascii) :
  (alo <= i)%nat ->
  forall j before j2len best,
    (before <= i - alo)%nat ->
    Forall (fun k => (k <= i - alo)%nat) j2len ->
    Difflib.within alo (S i) best ->
    Forall (fun k => (k <= S i - alo)%nat)
           (Difflib.inner_loop a b i blo bhi bs j before j2len best).1
    /\ Difflib.within alo (S i)
         (Difflib.inner_loop a b i blo bhi bs j before j2len best).2.
Proof.
  intros Hi. induction bs as [|bj bs IH]; intros j before j2len best Hb Hl Hbest.
  - cbn. split; [constructor | exact Hbest].
  - cbn [Difflib.inner_loop].
    assert (Hhere : (hd 0%nat j2len <= i - alo)%nat).
    { destruct j2len as [|k0 j2len]; cbn; [lia |]. now apply Forall_cons in Hl as [Hk _]. }
    assert (Htl : Forall (fun k => (k <= i - alo)%nat) (tl j2len)).
    { destruct j2len as [|k0 j2len]; cbn; [constructor |].
      now apply Forall_cons in Hl as [_ Hl]. }
    destruct (_ && _ && _ && _).
    + set (best' := if (Difflib.m_size best <? S before)%nat
                    then {| Difflib.m_a := i + 1 - S before;
                            Difflib.m_b := j + 1 - S before;
                            Difflib.m_size := S before |}
                    else best).
      assert (Hbest' : Difflib.within alo (S i) best').
      { unfold best'. destruct (Difflib.m_size best <? S before)%nat; [| exact Hbest].
        unfold Difflib.within. cbn. lia. }
      specialize (IH (S j) (hd 0%nat j2len) (tl j2len) best' Hhere Htl Hbest').
      destruct (Difflib.inner_loop a b i blo bhi bs (S j) (hd 0%nat j2len) (tl j2len) best')
        as [new best''].
      cbn [fst snd] in *. destruct IH as [IH1 IH2].
      split; [constructor; [lia | exact IH1] | exact IH2].
    + specialize (IH (S j) (hd 0%nat j2len) (tl j2len) best Hhere Htl Hbest).
      destruct (Difflib.inner_loop a b i blo bhi bs (S j) (hd 0%nat j2len) (tl j2len) best)
        as [new best''].
      cbn [fst snd] in *. destruct IH as [IH1 IH2].
      split; [constructor; [lia | exact IH1] | exact IH2].
Qed.

Lemma outer_loop_within (alo blo bhi n : nat) :
  forall i state,
    (alo <= i)%nat ->
    Forall (fun k => (k <= i - alo)%nat) state.1 ->
    Difflib.within alo i state.2 ->
    Difflib.within alo (i + n)
      (fold_left (Difflib.outer_step a b blo bhi) (seq i n) state).2.
Proof.
  induction n as [|n IH]; intros i state Hi Hl Hbest.
  - cbn. now rewrite Nat.add_0_r.
  - cbn [seq fold_left]. replace (i + S n)%nat with (S i + n)%nat by lia.
    assert (Hbest' : Difflib.within alo (S i) state.2).
    { destruct Hbest as [H1 H2]. split; [exact H1 | lia]. }
    destruct (inner_loop_within alo i blo bhi b Hi 0%nat 0%nat state.1 state.2
                ltac:(lia) Hl Hbest') as [Hl' Hb'].
    apply IH; [lia | |]; unfold Difflib.outer_step.
    + exact Hl'.
    + exact Hb'.
Qed.

Lemma extend_back_within (alo blo n : nat) :
  forall besti bestj bestsize,
    Difflib.within alo n (Difflib.mkMatch besti bestj bestsize) ->
    Difflib.within alo n (Difflib.extend_back a b alo blo besti bestj bestsize).
Proof.
  induction besti as [|i' IH]; intros bestj bestsize Hw; [exact Hw |].
  cbn [Difflib.extend_back]. destruct bestj as [|j']; [exact Hw |].
  destruct (Nat.ltb_spec alo (S i')) as [Hlt | Hge]; cbn [andb]; [| exact Hw].
  destruct (_ && _); [| exact Hw].
  apply IH. destruct Hw as [H1 H2]. cbn in *. split; cbn; lia.
Qed.

Lemma extend_forward_within (ahi bhi besti bestj : nat) :
  forall turns bestsize,
    (besti + bestsize <= ahi)%nat ->
    (besti + Difflib.extend_forward a b turns ahi bhi besti bestj bestsize <= ahi)%nat.
Proof.
  induction turns as [|turns IH]; intros bestsize Hw; [exact Hw |].
  cbn [Difflib.extend_forward].
  destruct (Nat.ltb_spec (besti + bestsize) ahi) as [Hlt | Hge]; cbn [andb]; [| exact Hw].
  destruct (_ && _); [| exact Hw].
  apply IH. lia.
Qed.

(** The loop that extends a match forward stops because its condition
    fails, not because its turns run out. *)
Lemma extend_forward_stops (ahi bhi besti bestj : nat) :
  forall turns bestsize,
    (ahi - (besti + bestsize) <= turns)%nat ->
    let size := Difflib.extend_forward a b turns ahi bhi besti bestj bestsize in
    (besti + size <? ahi)%nat && (bestj + size <? bhi)%nat
    && Ascii.eqb (Difflib.a_at a (besti + size)) (Difflib.b_at b (bestj + size)) = false.
Proof.
  induction turns as [|turns IH]; intros bestsize Hturns; cbn [Difflib.extend_forward].
  - cbn zeta. destruct (Nat.ltb_spec (besti + bestsize) ahi) as [Hlt | Hge]; [lia |].
    reflexivity.
  - destruct ((besti + bestsize <? ahi)%nat && (bestj + bestsize <? bhi)%nat
              && Ascii.eqb (Difflib.a_at a (besti + bestsize))
                           (Difflib.b_at b (bestj + bestsize))) eqn:E.
    + apply IH. lia.
    + exact E.
Qed.

Lemma find_longest_match_within (alo ahi blo bhi : nat) :
  (alo <= ahi)%nat ->
  Difflib.within alo ahi (Difflib.find_longest_match a b alo ahi blo bhi).
Proof.
  intros Hle. unfold Difflib.find_longest_match.
  set (best := (fold_left _ _ _).2).
  assert (Hbest : Difflib.within alo ahi best).
  { pose proof (outer_loop_within alo blo bhi (ahi - alo) alo
                  ([], Difflib.mkMatch alo blo 0)) as Hloop.
    replace (alo + (ahi - alo))%nat with ahi in Hloop by lia.
    apply Hloop; [lia | constructor |]. unfold Difflib.within. cbn. lia. }
  pose proof (extend_back_within alo blo ahi (Difflib.m_a best) (Difflib.m_b best)
                (Difflib.m_size best)) as Hback.
  set (back := Difflib.extend_back a b alo blo _ _ _) in *.
  assert (Hw : Difflib.within alo ahi back) by (apply Hback; now destruct best).
  destruct Hw as [H1 H2]. split; cbn [Difflib.m_a Difflib.m_size]; [exact H1 |].
  now apply extend_forward_within.
Qed.

(** The turns given to [matching] are enough: each block found leaves
    less of [a] to its left and to its right. *)
Lemma matching_enough :
  forall turns alo ahi blo bhi,
    (alo <= ahi)%nat -> (ahi - alo < turns)%nat ->
    is_Some (Difflib.matching a b turns alo ahi blo bhi).
Proof.
  induction turns as [|turns IH]; intros alo ahi blo bhi Hle Hturns; [lia |].
  cbn [Difflib.matching].
  destruct (find_longest_match_within alo ahi blo bhi Hle) as [H1 H2].
  set (x := Difflib.find_longest_match a b alo ahi blo bhi) in *.
  destruct (Nat.eqb_spec (Difflib.m_size x) 0) as [Hz | Hnz]; [eauto |].
  assert (Hbefore : is_Some (if (alo <? Difflib.m_a x)%nat && (blo <? Difflib.m_b x)%nat
                             then Difflib.matching a b turns alo (Difflib.m_a x)
                                                   blo (Difflib.m_b x)
                             else Some 0%nat)).
  { destruct ((alo <? Difflib.m_a x)%nat && _); [| eauto]. apply IH; lia. }
  assert (Hafter : is_Some (if (Difflib.m_a x + Difflib.m_size x <? ahi)%nat
                               && (Difflib.m_b x + Difflib.m_size x <? bhi)%nat
                            then Difflib.matching a b turns
                                   (Difflib.m_a x + Difflib.m_size x) ahi
                                   (Difflib.m_b x + Difflib.m_size x) bhi
                            else Some 0%nat)).
  { destruct ((Difflib.m_a x + Difflib.m_size x <? ahi)%nat && _); [| eauto].
    apply IH; lia. }
  destruct Hbefore as [before ->]. destruct Hafter as [after ->]. eauto.
Qed.

End MatcherFacts.

(** [ratio] is twice the size of the matching blocks over the two
    lengths. *)
Lemma ratio_defined (a b : string) :
  exists matches,
    Difflib.matching (Difflib.chars a) (Difflib.chars b)
                     (S (List.length (Difflib.chars a)))
                     0 (List.length (Difflib.chars a)) 0 (List.length (Difflib.chars b))
    = Some matches
    /\ Difflib.ratio a b
       = Difflib.calculate_ratio matches
           (List.length (Difflib.chars a) + List.length (Difflib.chars b)).
Proof.
  destruct (matching_enough (Difflib.chars a) (Difflib.chars b)
              (S (List.length (Difflib.chars a)))
              0 (List.length (Difflib.chars a)) 0 (List.length (Difflib.chars b)))
    as [matches Hm]; [lia | lia |].
  exists matches. split; [exact Hm |]. unfold Difflib.ratio. now rewrite Hm.
Qed.

Lemma ratio_examples :
  (Difflib.ratio "Qualified" "Qual" == 8 # 13)%Q
  /\ (Difflib.ratio "Disqualified" "Qual" == 3 # 8)%Q
  /\ (Difflib.ratio "Qualified" "Disposed" == 6 # 17)%Q
  /\ (Difflib.ratio "Disqualified" "Disposed" == 1 # 2)%Q
  /\ (Difflib.ratio "Qualified" "Dqualified" == 16 # 19)%Q
  /\ (Difflib.ratio "Disqualified" "Dqualified" == 10 # 11)%Q.
Proof. repeat split; vm_compute; reflexivity. Qed.

(** ** The quick estimates of [difflib] are upper bounds *)

Lemma all_chars_complete c : c ∈ Difflib.all_chars.
Proof.
  unfold Difflib.all_chars. apply list_elem_of_fmap. exists (nat_of_ascii c).
  split; [now rewrite ascii_nat_embedding |].
  apply elem_of_seq. pose proof (nat_ascii_bounded c). lia.
Qed.

Lemma all_chars_NoDup : NoDup Difflib.all_chars.
Proof.
  unfold Difflib.all_chars. apply NoDup_fmap_2_strong; [| apply NoDup_seq].
  intros x y Hx Hy Heq. apply elem_of_seq in Hx, Hy.
  rewrite <- (nat_ascii_embedding x), <- (nat_ascii_embedding y) by lia.
  now rewrite Heq.
Qed.

Lemma sum_differs_at (l : list ascii) (g g' : ascii -> nat) e d :
  NoDup l ->
  (forall c, c <> e -> g c = g' c) -> g e = (d + g' e)%nat ->
  (e ∈ l -> sum_list (map g l) = (d + sum_list (map g' l))%nat)
  /\ (e ∉ l -> sum_list (map g l) = sum_list (map g' l)).
Proof.
  intros Hnd Hother He. induction Hnd as [|c l Hc Hnd IH]; cbn [map sum_list_with].
  - split; [intros Hin; inversion Hin | reflexivity].
  - destruct IH as [IHin IHout]. unfold sum_list in *. cbn [sum_list_with]. unfold id at 1 3.
    destruct (decide (c = e)) as [-> | Hne].
    + split; [intros _ | intros Hout; exfalso; apply Hout; left].
      rewrite He, (IHout Hc). lia.
    + rewrite (Hother c Hne). split.
      * intros Hin. apply elem_of_cons in Hin as [Hin | Hin]; [congruence |].
        rewrite (IHin Hin). lia.
      * intros Hout. rewrite IHout; [reflexivity |]. intros Hin. apply Hout. now right.
Qed.

Lemma sum_chars_differs (g g' : ascii -> nat) e d :
  (forall c, c <> e -> g c = g' c) -> g e = (d + g' e)%nat ->
  Difflib.sum_chars g = (d + Difflib.sum_chars g')%nat.
Proof.
  intros Hother He. unfold Difflib.sum_chars.
  apply (sum_differs_at Difflib.all_chars g g' e d all_chars_NoDup Hother He).
  apply all_chars_complete.
Qed.

Lemma sum_chars_le (g g' : ascii -> nat) :
  (forall c, (g c <= g' c)%nat) -> (Difflib.sum_chars g <= Difflib.sum_chars g')%nat.
Proof.
  intros Hle. unfold Difflib.sum_chars.
  induction Difflib.all_chars as [|c l IH]; simpl; [lia |].
  specialize (Hle c). unfold id in *. lia.
Qed.

Lemma sum_chars_add (g h : ascii -> nat) :
  Difflib.sum_chars (fun c => (g c + h c)%nat)
  = (Difflib.sum_chars g + Difflib.sum_chars h)%nat.
Proof.
  unfold Difflib.sum_chars.
  induction Difflib.all_chars as [|c l IH]; simpl; [reflexivity |].
  unfold id in *. lia.
Qed.

Lemma sum_chars_ext (g h : ascii -> nat) :
  (forall c, g c = h c) -> Difflib.sum_chars g = Difflib.sum_chars h.
Proof.
  intros Hgh. unfold Difflib.sum_chars. f_equal. apply map_ext. exact Hgh.
Qed.

Lemma sum_chars_zero : Difflib.sum_chars (fun _ => 0%nat) = 0%nat.
Proof.
  unfold Difflib.sum_chars.
  induction Difflib.all_chars as [|c l IH]; simpl; [reflexivity |].
  unfold id in *. exact IH.
Qed.

Lemma occurrences_cons c e (l : list ascii) :
  Difflib.occurrences c (e :: l)
  = ((if decide (e = c) then 1 else 0) + Difflib.occurrences c l)%nat.
Proof.
  unfold Difflib.occurrences. destruct (decide (e = c)) as [He | He].
  - now rewrite filter_cons_True by exact He.
  - now rewrite filter_cons_False by exact He.
Qed.

Lemma occurrences_app c (l1 l2 : list ascii) :
  Difflib.occurrences c (l1 ++ l2)
  = (Difflib.occurrences c l1 + Difflib.occurrences c l2)%nat.
Proof. unfold Difflib.occurrences. now rewrite filter_app, length_app. Qed.

(** The occurrences of all characters add up to the length. *)
Lemma sum_occurrences (l : list ascii) :
  Difflib.sum_chars (fun c => Difflib.occurrences c l) = List.length l.
Proof.
  induction l as [|e l IH].
  - rewrite (sum_chars_ext _ (fun _ => 0%nat)) by (intros c; reflexivity).
    apply sum_chars_zero.
  - rewrite (sum_chars_differs _ (fun c => Difflib.occurrences c l) e 1).
    + cbn [List.length]. now rewrite IH.
    + intros c Hc. rewrite occurrences_cons. rewrite decide_False by congruence. reflexivity.
    + rewrite occurrences_cons. now rewrite decide_True.
Qed.

(** What the loop of [quick_ratio] counts: for each character, the
    lesser of its occurrences in [a] and of what is available of it. *)
Lemma quick_matches_sum (a : list ascii) :
  forall avail,
    Difflib.quick_matches a avail
    = Difflib.sum_chars (fun c => Nat.min (Difflib.occurrences c a) (Z.to_nat (avail c))).
Proof.
  induction a as [|e a IH]; intros avail; cbn [Difflib.quick_matches].
  - rewrite (sum_chars_ext _ (fun _ => 0%nat)) by (intros c; reflexivity).
    symmetry. apply sum_chars_zero.
  - rewrite IH. symmetry.
    apply sum_chars_differs with (e := e).
    + intros c Hc. rewrite occurrences_cons. rewrite decide_False by congruence.
      destruct (Ascii.eqb_spec c e) as [-> | _]; [congruence | reflexivity].
    + rewrite occurrences_cons. rewrite decide_True by reflexivity.
      rewrite Ascii.eqb_refl.
      destruct (Z.ltb_spec 0 (avail e)); lia.
Qed.

Lemma quick_matches_full (a b : list ascii) :
  Difflib.quick_matches a (Difflib.fullbcount b)
  = Difflib.sum_chars (fun c => Nat.min (Difflib.occurrences c a) (Difflib.occurrences c b)).
Proof.
  rewrite quick_matches_sum. apply sum_chars_ext. intros c.
  unfold Difflib.fullbcount. now rewrite Nat2Z.id.
Qed.

Lemma quick_matches_bounded (a b : list ascii) :
  (Difflib.quick_matches a (Difflib.fullbcount b)
   <= Nat.min (List.length a) (List.length b))%nat.
Proof.
  rewrite quick_matches_full. apply Nat.min_glb.
  - rewrite <- (sum_occurrences a). apply sum_chars_le. intros c. lia.
  - rewrite <- (sum_occurrences b). apply sum_chars_le. intros c. lia.
Qed.

Lemma quick_matches_same (l : list ascii) :
  Difflib.quick_matches l (Difflib.fullbcount l) = List.length l.
Proof.
  rewrite quick_matches_full. rewrite <- (sum_occurrences l).
  apply sum_chars_ext. intros c. apply Nat.min_id.
Qed.

(** Blocks side by side are matched apart at most as well as together. *)
Lemma quick_matches_app (a1 a2 b1 b2 : list ascii) :
  (Difflib.quick_matches a1 (Difflib.fullbcount b1)
   + Difflib.quick_matches a2 (Difflib.fullbcount b2)
   <= Difflib.quick_matches (a1 ++ a2) (Difflib.fullbcount (b1 ++ b2)))%nat.
Proof.
  rewrite !quick_matches_full, <- sum_chars_add. apply sum_chars_le. intros c.
  rewrite !occurrences_app. lia.
Qed.

Section BlockFacts.
Variables a b : list ascii.

Lemma inner_loop_block (alo ahi blo bhi i : nat) :
  (alo <= i)%nat -> (i < ahi)%nat ->
  forall bs pre j before j2len best,
    b = pre ++ bs -> List.length pre = j ->
    Difflib.run a b alo blo bhi i j before ->
    (forall idx k, j2len !! idx = Some k -> Difflib.run a b alo blo bhi i (S (j + idx)) k) ->
    Difflib.block a b alo ahi blo bhi best ->
    (forall idx k,
       (Difflib.inner_loop a b i blo bhi bs j before j2len best).1 !! idx = Some k ->
       Difflib.run a b alo blo bhi (S i) (S (j + idx)) k)
    /\ Difflib.block a b alo ahi blo bhi
         (Difflib.inner_loop a b i blo bhi bs j before j2len best).2.
Proof.
  intros Hlo Hhi. induction bs as [|bj bs IH];
    intros pre j before j2len best Hb Hj Hbefore Hrow Hbest.
  - cbn. split; [intros idx k Hk; destruct idx; discriminate | exact Hbest].
  - cbn [Difflib.inner_loop].
    assert (Hhere : Difflib.run a b alo blo bhi i (S j) (hd 0%nat j2len)).
    { destruct j2len as [|k0 j2len]; cbn [hd].
      - split; [lia | intros t Ht; lia].
      - specialize (Hrow 0%nat k0 eq_refl). now rewrite Nat.add_0_r in Hrow. }
    assert (Htl : forall idx k, tl j2len !! idx = Some k ->
              Difflib.run a b alo blo bhi i (S (S j + idx)) k).
    { intros idx k Hk. destruct j2len as [|k0 j2len]; [destruct idx; discriminate |].
      cbn [tl] in Hk. specialize (Hrow (S idx) k Hk).
      now replace (S j + idx)%nat with (j + S idx)%nat by lia. }
    assert (Hpre : b = (pre ++ [bj]) ++ bs) by (now rewrite <- app_assoc).
    assert (Hlen : List.length (pre ++ [bj]) = S j) by (rewrite length_app; cbn; lia).
    assert (Hbj : Difflib.b_at b j = bj).
    { unfold Difflib.b_at. rewrite Hb, <- Hj. apply nth_middle. }
    destruct (Ascii.eqb bj (Difflib.a_at a i) && negb (Difflib.popular b bj)
              && (blo <=? j)%nat && (j <? bhi)%nat) eqn:Econd.
    + apply andb_true_iff in Econd as [Econd Hbhi].
      apply andb_true_iff in Econd as [Econd Hblo].
      apply andb_true_iff in Econd as [Heq _].
      apply Ascii.eqb_eq in Heq. apply Nat.leb_le in Hblo. apply Nat.ltb_lt in Hbhi.
      destruct Hbefore as [Hb1 Hb2].
      assert (Hk : Difflib.run a b alo blo bhi (S i) (S j) (S before)).
      { split.
        - intros _. destruct before as [|before']; [lia |].
          destruct Hb1 as (H1 & H2 & H3); lia.
        - intros t Ht. destruct t as [|t].
          + replace (S i - 1 - 0)%nat with i by lia.
            replace (S j - 1 - 0)%nat with j by lia. now rewrite Hbj.
          + replace (S i - 1 - S t)%nat with (i - 1 - t)%nat by lia.
            replace (S j - 1 - S t)%nat with (j - 1 - t)%nat by lia.
            apply Hb2. lia. }
      set (best' := if (Difflib.m_size best <? S before)%nat
                    then {| Difflib.m_a := i + 1 - S before;
                            Difflib.m_b := j + 1 - S before;
                            Difflib.m_size := S before |}
                    else best).
      assert (Hbest' : Difflib.block a b alo ahi blo bhi best').
      { unfold best'. destruct (Difflib.m_size best <? S before)%nat; [| exact Hbest].
        destruct Hk as [Hk1 Hk2]. destruct Hk1 as (H1 & H2 & H3); [lia |].
        unfold Difflib.block. cbn [Difflib.m_a Difflib.m_b Difflib.m_size].
        repeat split; try lia.
        intros t Ht. specialize (Hk2 (before - t)%nat ltac:(lia)).
        replace (i + 1 - S before + t)%nat with (S i - 1 - (before - t))%nat by lia.
        replace (j + 1 - S before + t)%nat with (S j - 1 - (before - t))%nat by lia.
        exact Hk2. }
      specialize (IH (pre ++ [bj]) (S j) (hd 0%nat j2len) (tl j2len) best'
                     Hpre Hlen Hhere Htl Hbest').
      destruct (Difflib.inner_loop a b i blo bhi bs (S j) (hd 0%nat j2len) (tl j2len) best')
        as [new best''].
      cbn [fst snd] in *. destruct IH as [IH1 IH2]. split; [| exact IH2].
      intros idx k Hidx. destruct idx as [|idx].
      * injection Hidx as <-. now rewrite Nat.add_0_r.
      * cbn in Hidx. specialize (IH1 idx k Hidx).
        now replace (j + S idx)%nat with (S j + idx)%nat by lia.
    + specialize (IH (pre ++ [bj]) (S j) (hd 0%nat j2len) (tl j2len) best
                     Hpre Hlen Hhere Htl Hbest).
      destruct (Difflib.inner_loop a b i blo bhi bs (S j) (hd 0%nat j2len) (tl j2len) best)
        as [new best''].
      cbn [fst snd] in *. destruct IH as [IH1 IH2]. split; [| exact IH2].
      intros idx k Hidx. destruct idx as [|idx].
      * injection Hidx as <-. split; [lia | intros t Ht; lia].
      * cbn in Hidx. specialize (IH1 idx k Hidx).
        now replace (j + S idx)%nat with (S j + idx)%nat by lia.
Qed.

Lemma outer_loop_block (alo ahi blo bhi n : nat) :
  forall i state,
    (alo <= i)%nat -> (i + n <= ahi)%nat ->
    (forall idx k, state.1 !! idx = Some k -> Difflib.run a b alo blo bhi i (S idx) k) ->
    Difflib.block a b alo ahi blo bhi state.2 ->
    Difflib.block a b alo ahi blo bhi
      (fold_left (Difflib.outer_step a b blo bhi) (seq i n) state).2.
Proof.
  induction n as [|n IH]; intros i state Hlo Hhi Hrow Hbest; [exact Hbest |].
  cbn [seq fold_left].
  destruct (inner_loop_block alo ahi blo bhi i Hlo ltac:(lia) b [] 0%nat 0%nat
              state.1 state.2 eq_refl eq_refl) as [Hrow' Hbest'].
  - split; [lia | intros t Ht; lia].
  - exact Hrow.
  - exact Hbest.
  - apply IH; [lia | lia | exact Hrow' | exact Hbest'].
Qed.

Lemma extend_back_block (alo ahi blo bhi : nat) :
  forall besti bestj bestsize,
    Difflib.block a b alo ahi blo bhi (Difflib.mkMatch besti bestj bestsize) ->
    Difflib.block a b alo ahi blo bhi
      (Difflib.extend_back a b alo blo besti bestj bestsize).
Proof.
  induction besti as [|i' IH]; intros bestj bestsize Hw; [exact Hw |].
  cbn [Difflib.extend_back]. destruct bestj as [|j']; [exact Hw |].
  destruct ((alo <? S i')%nat && (blo <? S j')%nat
            && Ascii.eqb (Difflib.a_at a i') (Difflib.b_at b j')) eqn:Econd; [| exact Hw].
  apply andb_true_iff in Econd as [Econd Heq].
  apply andb_true_iff in Econd as [Ha Hb].
  apply Nat.ltb_lt in Ha, Hb. apply Ascii.eqb_eq in Heq.
  apply IH. destruct Hw as (H1 & H2 & H3 & H4 & H5).
  cbn [Difflib.m_a Difflib.m_b Difflib.m_size] in *.
  unfold Difflib.block. cbn [Difflib.m_a Difflib.m_b Difflib.m_size].
  repeat split; try lia.
  intros t Ht. destruct t as [|t]; [now rewrite !Nat.add_0_r |].
  replace (i' + S t)%nat with (S i' + t)%nat by lia.
  replace (j' + S t)%nat with (S j' + t)%nat by lia.
  apply H5. lia.
Qed.

Lemma extend_forward_block (alo ahi blo bhi besti bestj : nat) :
  forall turns bestsize,
    Difflib.block a b alo ahi blo bhi (Difflib.mkMatch besti bestj bestsize) ->
    Difflib.block a b alo ahi blo bhi
      (Difflib.mkMatch besti bestj
         (Difflib.extend_forward a b turns ahi bhi besti bestj bestsize)).
Proof.
  induction turns as [|turns IH]; intros bestsize Hw; [exact Hw |].
  cbn [Difflib.extend_forward].
  destruct ((besti + bestsize <? ahi)%nat && (bestj + bestsize <? bhi)%nat
            && Ascii.eqb (Difflib.a_at a (besti + bestsize))
                         (Difflib.b_at b (bestj + bestsize))) eqn:Econd; [| exact Hw].
  apply andb_true_iff in Econd as [Econd Heq].
  apply andb_true_iff in Econd as [Ha Hb].
  apply Nat.ltb_lt in Ha, Hb. apply Ascii.eqb_eq in Heq.
  apply IH. destruct Hw as (H1 & H2 & H3 & H4 & H5).
  cbn [Difflib.m_a Difflib.m_b Difflib.m_size] in *.
  unfold Difflib.block. cbn [Difflib.m_a Difflib.m_b Difflib.m_size].
  repeat split; try lia.
  intros t Ht. destruct (decide (t = bestsize)) as [-> | Hne]; [exact Heq |].
  apply H5. lia.
Qed.

(** What [find_longest_match] returns is a block of [a[alo:ahi]] that
    is in [b[blo:bhi]]. *)
Lemma find_longest_match_block (alo ahi blo bhi : nat) :
  (alo <= ahi)%nat -> (blo <= bhi)%nat ->
  Difflib.block a b alo ahi blo bhi (Difflib.find_longest_match a b alo ahi blo bhi).
Proof.
  intros Ha Hb. unfold Difflib.find_longest_match.
  set (best := (fold_left _ _ _).2).
  assert (Hbest : Difflib.block a b alo ahi blo bhi best).
  { apply outer_loop_block; [lia | lia | intros idx k Hk; destruct idx; discriminate |].
    unfold Difflib.block. cbn. repeat split; try lia. }
  pose proof (extend_back_block alo ahi blo bhi (Difflib.m_a best) (Difflib.m_b best)
                (Difflib.m_size best)) as Hback.
  set (back := Difflib.extend_back a b alo blo _ _ _) in *.
  assert (Hw : Difflib.block a b alo ahi blo bhi back) by (apply Hback; now destruct best).
  apply extend_forward_block. now destruct back.
Qed.

End BlockFacts.

Lemma slice_split (l : list ascii) (lo mid hi : nat) :
  (lo <= mid)%nat -> (mid <= hi)%nat ->
  Difflib.slice l lo hi = Difflib.slice l lo mid ++ Difflib.slice l mid hi.
Proof.
  intros H1 H2. unfold Difflib.slice.
  replace (hi - lo)%nat with ((mid - lo) + (hi - mid))%nat by lia.
  rewrite <- take_take_drop. f_equal. rewrite drop_drop. do 2 f_equal. lia.
Qed.

Lemma slice_lookup (l : list ascii) (lo hi t : nat) :
  (t < hi - lo)%nat -> Difflib.slice l lo hi !! t = l !! (lo + t)%nat.
Proof.
  intros Ht. unfold Difflib.slice. rewrite lookup_take_lt by exact Ht. apply lookup_drop.
Qed.

Lemma slice_length (l : list ascii) (lo hi : nat) :
  (hi <= List.length l)%nat -> List.length (Difflib.slice l lo hi) = (hi - lo)%nat.
Proof. intros H. unfold Difflib.slice. rewrite length_take, length_drop. lia. Qed.

Lemma slice_all (l : list ascii) : Difflib.slice l 0 (List.length l) = l.
Proof. unfold Difflib.slice. rewrite Nat.sub_0_r. cbn [drop]. apply firstn_all. Qed.

Lemma lookup_at (l : list ascii) (i : nat) :
  (i < List.length l)%nat -> l !! i = Some (nth i l Ascii.zero).
Proof.
  intros Hi. destruct (lookup_lt_is_Some_2 l i Hi) as [c Hc]. rewrite Hc. f_equal.
  symmetry. now apply nth_lookup_Some.
Qed.

(** The two sides of a block are the same characters. *)
Lemma block_slices (a b : list ascii) (alo ahi blo bhi : nat) x :
  (ahi <= List.length a)%nat -> (bhi <= List.length b)%nat ->
  Difflib.block a b alo ahi blo bhi x ->
  Difflib.slice a (Difflib.m_a x) (Difflib.m_a x + Difflib.m_size x)
  = Difflib.slice b (Difflib.m_b x) (Difflib.m_b x + Difflib.m_size x).
Proof.
  intros Ha Hb (H1 & H2 & H3 & H4 & H5).
  apply list_eq. intros t.
  destruct (Nat.lt_ge_cases t (Difflib.m_size x)) as [Ht | Ht].
  - rewrite !slice_lookup by lia.
    rewrite (lookup_at a) by lia. rewrite (lookup_at b) by lia.
    f_equal. apply H5. exact Ht.
  - rewrite !lookup_ge_None_2; [reflexivity | |]; rewrite slice_length; lia.
Qed.

(** The blocks of [get_matching_blocks] hold no more characters than
    [quick_ratio] counts. *)
Lemma matching_bounded (a b : list ascii) :
  forall turns alo ahi blo bhi matches,
    (alo <= ahi)%nat -> (ahi <= List.length a)%nat ->
    (blo <= bhi)%nat -> (bhi <= List.length b)%nat ->
    Difflib.matching a b turns alo ahi blo bhi = Some matches ->
    (matches <= Difflib.quick_matches (Difflib.slice a alo ahi)
                  (Difflib.fullbcount (Difflib.slice b blo bhi)))%nat.
Proof.
  induction turns as [|turns IH]; intros alo ahi blo bhi matches Ha Ha' Hb Hb' Hm;
    [discriminate |].
  cbn [Difflib.matching] in Hm.
  pose proof (find_longest_match_block a b alo ahi blo bhi Ha Hb) as Hblock.
  set (x := Difflib.find_longest_match a b alo ahi blo bhi) in *.
  destruct (Nat.eqb_spec (Difflib.m_size x) 0) as [Hz | Hnz];
    [injection Hm as <-; lia |].
  pose proof (block_slices a b alo ahi blo bhi x Ha' Hb' Hblock) as Hsame.
  destruct Hblock as (H1 & H2 & H3 & H4 & _).
  set (i := Difflib.m_a x) in *. set (j := Difflib.m_b x) in *.
  set (k := Difflib.m_size x) in *.
  assert (Hbefore : forall before,
            (if (alo <? i)%nat && (blo <? j)%nat
             then Difflib.matching a b turns alo i blo j else Some 0%nat) = Some before ->
            (before <= Difflib.quick_matches (Difflib.slice a alo i)
                         (Difflib.fullbcount (Difflib.slice b blo j)))%nat).
  { intros before Hbf. destruct ((alo <? i)%nat && (blo <? j)%nat);
      [| injection Hbf as <-; lia].
    apply IH in Hbf; [exact Hbf | lia | lia | lia | lia]. }
  assert (Hafter : forall after,
            (if (i + k <? ahi)%nat && (j + k <? bhi)%nat
             then Difflib.matching a b turns (i + k) ahi (j + k) bhi else Some 0%nat)
            = Some after ->
            (after <= Difflib.quick_matches (Difflib.slice a (i + k) ahi)
                        (Difflib.fullbcount (Difflib.slice b (j + k) bhi)))%nat).
  { intros after Haf. destruct ((i + k <? ahi)%nat && (j + k <? bhi)%nat);
      [| injection Haf as <-; lia].
    apply IH in Haf; [exact Haf | lia | lia | lia | lia]. }
  destruct (if (alo <? i)%nat && (blo <? j)%nat
            then Difflib.matching a b turns alo i blo j else Some 0%nat)
    as [before|]; [| discriminate].
  destruct (if (i + k <? ahi)%nat && (j + k <? bhi)%nat
            then Difflib.matching a b turns (i + k) ahi (j + k) bhi else Some 0%nat)
    as [after|]; [| discriminate].
  injection Hm as <-.
  specialize (Hbefore before eq_refl). specialize (Hafter after eq_refl).
  rewrite (slice_split a alo i ahi) by lia.
  rewrite (slice_split a i (i + k) ahi) by lia.
  rewrite (slice_split b blo j bhi) by lia.
  rewrite (slice_split b j (j + k) bhi) by lia.
  pose proof (quick_matches_app (Difflib.slice a alo i)
                (Difflib.slice a i (i + k) ++ Difflib.slice a (i + k) ahi)
                (Difflib.slice b blo j)
                (Difflib.slice b j (j + k) ++ Difflib.slice b (j + k) bhi)) as Houter.
  pose proof (quick_matches_app (Difflib.slice a i (i + k)) (Difflib.slice a (i + k) ahi)
                (Difflib.slice b j (j + k)) (Difflib.slice b (j + k) bhi)) as Hinner.
  rewrite Hsame in Hinner at 1. rewrite quick_matches_same in Hinner.
  rewrite slice_length in Hinner by lia. lia.
Qed.

Lemma calculate_ratio_le (m m' length : nat) :
  (m <= m')%nat ->
  (Difflib.calculate_ratio m length <= Difflib.calculate_ratio m' length)%Q.
Proof.
  intros Hle. unfold Difflib.calculate_ratio.
  destruct (length =? 0)%nat; [apply Qle_refl |].
  unfold Qle. cbn [Qnum Qden]. nia.
Qed.

(** [ratio() <= quick_ratio() <= real_quick_ratio()] *)
Lemma ratio_upper_bounds (a b : string) :
  (Difflib.ratio a b <= Difflib.quick_ratio a b)%Q
  /\ (Difflib.quick_ratio a b <= Difflib.real_quick_ratio a b)%Q.
Proof.
  split.
  - destruct (ratio_defined a b) as (matches & Hm & ->).
    unfold Difflib.quick_ratio. apply calculate_ratio_le.
    apply matching_bounded in Hm; [| lia | lia | lia | lia].
    now rewrite !slice_all in Hm.
  - unfold Difflib.quick_ratio, Difflib.real_quick_ratio. apply calculate_ratio_le.
    apply quick_matches_bounded.
Qed.

(** The quick tests of [get_close_matches] reject nothing that the
    test of the ratio accepts: the function is the one of the validator
    with the similarity of [difflib]. *)
Lemma get_close_matches_difflib word possibilities n cutoff :
  Difflib.get_close_matches word possibilities n cutoff
  = get_close_matches Difflib.ratio word possibilities n cutoff.
Proof.
  unfold Difflib.get_close_matches, get_close_matches. do 4 f_equal.
  apply list_filter_iff. intros x.
  destruct (ratio_upper_bounds x word) as [Hq Hr]. split.
  - intros H. apply andb_true_iff in H as [_ H]. exact H.
  - intros H. pose proof H as H'. apply Qle_bool_iff in H'.
    rewrite H, andb_true_r. apply andb_true_iff. split; apply Qle_bool_iff.
    + eapply Qle_trans; [exact H' |]. eapply Qle_trans; [exact Hq | exact Hr].
    + eapply Qle_trans; [exact H' | exact Hq].
Qed.

(** With the similarity of [difflib], the fuzzy matches of an issue are
    what [get_close_matches(str(status), list(valid_statuses), n=2,
    cutoff=0.6)] returns. *)
Lemma fuzzy_matches_difflib self (records : list record) i :
  i ∈ (find_lead_status_issues Difflib.ratio self records).1 ->
  fuzzy_matches i
  = Difflib.get_close_matches (py_str (original i))
      (elements (list_to_set (ACCEPTED_LEAD_STATUS (v_config self)) : gset string))
      2 (6 # 10)%Q.
Proof.
  unfold find_lead_status_issues. cbn [fst]. intros Hi.
  apply list_elem_of_fmap in Hi as ([v n] & -> & _).
  rewrite get_close_matches_difflib. reflexivity.
Qed.

(** ** The fuzzy matches *)

Lemma Qeq_bool_le (x y : Q) : Qeq_bool x y = true -> Qle_bool y x = true.
Proof.
  intros He. apply Qeq_bool_iff in He. apply Qle_bool_iff. rewrite He. apply Qle_refl.
Qed.

Lemma Qle_bool_antisym (x y : Q) :
  Qeq_bool x y = false -> Qle_bool y x = true -> Qle_bool x y = false.
Proof.
  intros Hne Hle. destruct (Qle_bool x y) eqn:E; [| reflexivity].
  apply Qle_bool_iff in Hle, E.
  assert (He : (x == y)%Q) by (now apply Qle_antisym).
  apply Qeq_bool_iff in He. congruence.
Qed.

Lemma Qle_bool_total (x y : Q) : Qle_bool y x = false -> Qle_bool x y = true.
Proof. intros H. apply Qle_bool_iff. now apply Qle_bool_false_le. Qed.

(** The accepted statuses of the configuration, in the order of the
    set. *)
Lemma default_statuses_elements :
  elements (list_to_set (ACCEPTED_LEAD_STATUS default_config) : gset string)
  = ["Qualified"; "Disqualified"]
  \/ elements (list_to_set (ACCEPTED_LEAD_STATUS default_config) : gset string)
     = ["Disqualified"; "Qualified"].
Proof.
  apply Permutation_length_2_inv. symmetry.
  cbn [ACCEPTED_LEAD_STATUS default_config list_to_set].
  rewrite union_empty_r_L.
  rewrite elements_union_singleton by (rewrite elem_of_singleton; discriminate).
  now rewrite elements_singleton.
Qed.

(** The fuzzy matches among the two accepted statuses: those that score
    0.6 or more, the better first, and ["Qualified"] first when the two
    score the same, in whatever order the set gives its elements. *)
Lemma get_close_matches_default ratio word :
  get_close_matches ratio word
    (elements (list_to_set (ACCEPTED_LEAD_STATUS default_config) : gset string))
    2 (6 # 10)%Q
  = if Qle_bool (6 # 10) (ratio "Qualified" word)
    then if Qle_bool (6 # 10) (ratio "Disqualified" word)
         then if Qle_bool (ratio "Disqualified" word) (ratio "Qualified" word)
              then ["Qualified"; "Disqualified"]
              else ["Disqualified"; "Qualified"]
         else ["Qualified"]
    else if Qle_bool (6 # 10) (ratio "Disqualified" word)
         then ["Disqualified"]
         else [].
Proof.
  unfold get_close_matches.
  destruct default_statuses_elements as [-> | ->];
    destruct (Qle_bool (6 # 10) (ratio "Qualified" word)) eqn:EQ;
    destruct (Qle_bool (6 # 10) (ratio "Disqualified" word)) eqn:ED;
    repeat first
      [ rewrite filter_cons_True by assumption
      | rewrite filter_cons_False by congruence ];
    rewrite filter_nil; try reflexivity.
  - cbn [map sort_desc foldr insert_sorted take snd]. unfold score_ahead. cbn [fst snd].
    destruct (Qeq_bool (ratio "Qualified" word) (ratio "Disqualified" word)) eqn:Ee.
    + rewrite (Qeq_bool_le _ _ Ee). reflexivity.
    + destruct (Qle_bool (ratio "Disqualified" word) (ratio "Qualified" word));
        reflexivity.
  - cbn [map sort_desc foldr insert_sorted take snd]. unfold score_ahead. cbn [fst snd].
    destruct (Qeq_bool (ratio "Disqualified" word) (ratio "Qualified" word)) eqn:Ee.
    + apply Qeq_bool_iff in Ee.
      assert (Hle : Qle_bool (ratio "Disqualified" word) (ratio "Qualified" word) = true)
        by (apply Qle_bool_iff; rewrite Ee; apply Qle_refl).
      rewrite Hle. reflexivity.
    + destruct (Qle_bool (ratio "Qualified" word) (ratio "Disqualified" word)) eqn:El.
      * rewrite (Qle_bool_antisym _ _ Ee El). reflexivity.
      * rewrite (Qle_bool_total _ _ El). reflexivity.
Qed.

(** What the fuzzy matches are, property by property. *)
Lemma get_close_matches_default_spec ratio word :
  let matches :=
    get_close_matches ratio word
      (elements (list_to_set (ACCEPTED_LEAD_STATUS default_config) : gset string))
      2 (6 # 10)%Q in
  NoDup matches
  /\ (forall s, s ∈ matches <->
        (s = "Qualified" \/ s = "Disqualified") /\ (6 # 10 <= ratio s word)%Q)
  /\ (forall s t, matches = [s; t] ->
        (ratio t word <= ratio s word)%Q
        /\ ((ratio t word == ratio s word)%Q -> s = "Qualified" /\ t = "Disqualified")).
Proof.
  cbn zeta. rewrite get_close_matches_default.
  pose proof (Qle_bool_iff (6 # 10) (ratio "Qualified" word)) as HQ.
  pose proof (Qle_bool_iff (6 # 10) (ratio "Disqualified" word)) as HD.
  assert (Hne : "Qualified" <> "Disqualified") by discriminate.
  destruct (Qle_bool (6 # 10) (ratio "Qualified" word)) eqn:EQ;
    destruct (Qle_bool (6 # 10) (ratio "Disqualified" word)) eqn:ED.
  - destruct (Qle_bool (ratio "Disqualified" word) (ratio "Qualified" word)) eqn:El.
    + split; [| split].
      * repeat constructor; rewrite ?elem_of_cons, ?elem_of_nil; intuition congruence.
      * intros s. rewrite !elem_of_cons, elem_of_nil. split.
        -- intros [-> | [-> | []]]; intuition.
        -- intros [[-> | ->] _]; auto.
      * intros s t [= <- <-]. split; [now apply Qle_bool_iff | auto].
    + split; [| split].
      * repeat constructor; rewrite ?elem_of_cons, ?elem_of_nil; intuition congruence.
      * intros s. rewrite !elem_of_cons, elem_of_nil. split.
        -- intros [-> | [-> | []]]; intuition.
        -- intros [[-> | ->] _]; auto.
      * intros s t [= <- <-]. split; [now apply Qle_bool_false_le |].
        intros He. exfalso. symmetry in He.
        assert (Hle : Qle_bool (ratio "Disqualified" word) (ratio "Qualified" word) = true)
          by (apply Qle_bool_iff; rewrite He; apply Qle_refl).
        congruence.
  - split; [| split].
    + repeat constructor; rewrite ?elem_of_nil; tauto.
    + intros s. rewrite elem_of_cons, elem_of_nil. split.
      * intros [-> | []]. intuition.
      * intros [[-> | ->] Hs]; [auto |]. apply HD in Hs. discriminate.
    + intros s t [=].
  - split; [| split].
    + repeat constructor; rewrite ?elem_of_nil; tauto.
    + intros s. rewrite elem_of_cons, elem_of_nil. split.
      * intros [-> | []]. intuition.
      * intros [[-> | ->] Hs]; [| auto]. apply HQ in Hs. discriminate.
    + intros s t [=].
  - split; [constructor | split].
    + intros s. rewrite elem_of_nil. split; [tauto |].
      intros [[-> | ->] Hs]; [apply HQ in Hs | apply HD in Hs]; discriminate.
    + intros s t [=].
Qed.

(** A list without repetition of at most two elements that holds two
    different things is made of them. *)
Lemma two_elements {A} (l : list A) (x y : A) :
  NoDup l -> (List.length l <= 2)%nat -> x ∈ l -> y ∈ l -> x <> y ->
  l = [x; y] \/ l = [y; x].
Proof.
  intros Hnd Hlen Hx Hy Hne.
  destruct l as [|u [|v [|w l]]]; cbn in Hlen; try lia.
  - inversion Hx.
  - apply list_elem_of_singleton in Hx, Hy. congruence.
  - rewrite !elem_of_cons, elem_of_nil in Hx, Hy.
    destruct Hx as [-> | [-> | []]]; destruct Hy as [-> | [-> | []]];
      try congruence; auto.
Qed.

(** C5.  For the accepted set of the configuration, the issues reported
    have pairwise different original values; a value has an issue exactly
    when it is the ["Lead Status"] of some record, is not [None] and is
    neither of the two accepted strings, compared as they are; the issue
    carries the number of records with that very value, the suggestion of
    the prefix rule, the accepted strings as options, and as fuzzy
    matches exactly the accepted strings whose similarity to the value is
    at least 0.6: at most two, each once, the more similar first and
    ["Qualified"] first when both are as similar.  ["Qual"] is suggested
    ["Qualified"] and ["Disposed"] is suggested ["Disqualified"]. *)
Theorem find_lead_status_issues_report ratio applied (records : list record) :
  let self := mkDataValidator default_config applied in
  let issues := (find_lead_status_issues ratio self records).1 in
  NoDup (map original issues)
  /\ (forall v, v ∈ map original issues <->
        v <> VNone /\ v <> VStr "Qualified" /\ v <> VStr "Disqualified"
        /\ exists r, r ∈ records /\ get r "Lead Status" = v)
  /\ (forall i, i ∈ issues ->
        count i = List.length (filter (fun r => get r "Lead Status" = original i) records)
        /\ (List.length (fuzzy_matches i) <= 2)%nat
        /\ NoDup (fuzzy_matches i)
        /\ (forall s, s ∈ fuzzy_matches i <->
              (s = "Qualified" \/ s = "Disqualified")
              /\ (6 # 10 <= ratio s (py_str (original i)))%Q)
        /\ (forall s t, fuzzy_matches i = [s; t] ->
              (ratio t (py_str (original i)) <= ratio s (py_str (original i)))%Q
              /\ ((ratio t (py_str (original i)) == ratio s (py_str (original i)))%Q ->
                  s = "Qualified" /\ t = "Disqualified"))
        /\ auto_suggestion i = prefix_rule (original i)
        /\ valid_options i ≡ₚ ["Qualified"; "Disqualified"])
  /\ prefix_rule (VStr "Qual") = Some "Qualified"
  /\ prefix_rule (VStr "Disposed") = Some "Disqualified"
  /\ (forall i, i ∈ issues -> original i = VStr "Qual" ->
        auto_suggestion i = Some "Qualified").
Proof.
  intros self issues. unfold issues, self. rewrite issues_unfold.
  set (valid := list_to_set (ACCEPTED_LEAD_STATUS default_config) : gset string).
  set (tally := fold_left (tally_step status_key) records []).
  set (invalid := filter (fun sc : value * nat => in_statuses sc.1 valid = false) tally).
  assert (Hin : forall i, i ∈ map (issue_of ratio valid) invalid ->
            exists v n, i = issue_of ratio valid (v, n) /\ (v, n) ∈ tally
                        /\ v <> VStr "Qualified" /\ v <> VStr "Disqualified").
  { intros i Hi. apply list_elem_of_fmap in Hi as ([v n] & -> & Hi).
    apply list_elem_of_filter in Hi as [Hv Hi]. cbn [fst] in Hv.
    apply not_in_default_statuses in Hv as [HQ HD]. now exists v, n. }
  assert (Horig : map original (map (issue_of ratio valid) invalid) = map fst invalid).
  { rewrite map_map. apply map_ext. intros [v n]. reflexivity. }
  assert (Hauto : forall i, i ∈ map (issue_of ratio valid) invalid ->
            auto_suggestion i = prefix_rule (original i)).
  { intros i Hi. destruct (Hin i Hi) as (v & n & -> & _ & HQ & HD).
    now apply auto_suggestion_prefix_rule. }
  split; [| split; [| split; [| split; [| split]]]].
  - rewrite Horig. apply NoDup_fst_filter. apply tally_NoDup. constructor.
  - intros v. rewrite Horig. split.
    + intros Hv. apply list_elem_of_fmap in Hv as ([v' n] & -> & Hv). cbn [fst].
      apply list_elem_of_filter in Hv as [Hs Hv]. cbn [fst] in Hs.
      apply not_in_default_statuses in Hs as [HQ HD].
      assert (Hk : v' ∈ map fst tally) by (apply list_elem_of_fmap; now exists (v', n)).
      apply tally_keys in Hk as [Hk | (r & Hr & Hs)]; [inversion Hk |].
      apply status_key_spec in Hs as [Hg Hne]. repeat split; try assumption.
      now exists r.
    + intros (Hne & HQ & HD & r & Hr & Hg).
      assert (Hk : v ∈ map fst tally).
      { apply tally_keys. right. exists r. split; [exact Hr |].
        apply status_key_spec. now split. }
      apply list_elem_of_fmap in Hk as ([v' n] & -> & Hk). cbn [fst] in *.
      apply list_elem_of_fmap. exists (v', n). split; [reflexivity |].
      apply list_elem_of_filter. split; [| exact Hk]. cbn [fst].
      now apply not_in_default_statuses.
  - intros i Hi. destruct (Hin i Hi) as (v & n & -> & Ht & HQ & HD).
    destruct (issue_of_fields ratio valid v n) as (Eo & Ec & Ef & Ev).
    rewrite Eo, Ec, Ef, Ev.
    destruct (get_close_matches_default_spec ratio (py_str v)) as (Hnd & Hmem & Hord).
    split; [| split; [| split; [| split; [| split; [| split]]]]].
    + assert (Hk : v ∈ map fst tally).
      { apply list_elem_of_fmap. exists (v, n). split; [reflexivity | exact Ht]. }
      apply tally_keys in Hk as [Hk | (r & Hr & Hs)]; [inversion Hk |].
      apply status_key_spec in Hs as [_ Hne].
      destruct (tally_entry status_key v n records Ht) as [Hn _]. rewrite Hn.
      apply (f_equal (@List.length record)).
      apply list_filter_iff. intros r'. rewrite status_key_spec. tauto.
    + apply get_close_matches_spec.
    + exact Hnd.
    + exact Hmem.
    + exact Hord.
    + rewrite <- Eo at 2. now apply Hauto.
    + unfold valid. cbn [ACCEPTED_LEAD_STATUS default_config list_to_set].
      rewrite union_empty_r_L.
      rewrite elements_union_singleton by (rewrite elem_of_singleton; discriminate).
      now rewrite elements_singleton.
  - vm_compute. reflexivity.
  - vm_compute. reflexivity.
  - intros i Hi Ho. rewrite (Hauto i Hi), Ho. vm_compute. reflexivity.
Qed.

(** The eight statuses of the example, with the similarity of [difflib]:
    the issue of ["Qual"] counts five records, is suggested
    ["Qualified"] and has ["Qualified"] as its one fuzzy match (8/13
    against 3/8 for ["Disqualified"]); that of ["Dqualified"] in the
    other example has both, ["Disqualified"] first (10/11 against
    16/19). *)
Lemma find_lead_status_issues_report_witness :
  (exists i,
     i ∈ (find_lead_status_issues Difflib.ratio some_validator status_example).1
     /\ original i = VStr "Qual"
     /\ count i = 5%nat
     /\ auto_suggestion i = Some "Qualified"
     /\ fuzzy_matches i = ["Qualified"])
  /\ (exists i,
        i ∈ (find_lead_status_issues Difflib.ratio some_validator typo_example).1
        /\ original i = VStr "Dqualified"
        /\ count i = 2%nat
        /\ fuzzy_matches i = ["Disqualified"; "Qualified"]).
Proof.
  split.
  - pose proof (find_lead_status_issues_report Difflib.ratio ∅ status_example)
      as (_ & Hiff & Hrow & _ & _ & Hqual).
    fold some_validator in Hiff, Hrow, Hqual.
    assert (Hv : VStr "Qual"
                 ∈ map original
                     (find_lead_status_issues Difflib.ratio some_validator
                        status_example).1).
    { apply Hiff. split; [intros [=] | split; [intros [=] | split; [intros [=] |]]].
      exists (status_only "Qual"). split; [left | reflexivity]. }
    clear Hiff.
    apply list_elem_of_fmap in Hv as (i & Ho & Hi).
    exists i. split; [exact Hi |]. split; [symmetry; exact Ho |].
    destruct (Hrow i Hi) as (Hc & Hlen & Hnd & Hmem & _). clear Hrow.
    rewrite <- Ho in Hmem, Hc. cbn [py_str] in Hmem.
    split; [rewrite Hc; vm_compute; reflexivity |].
    split; [apply Hqual; [exact Hi | symmetry; exact Ho] |].
    clear Hqual Hc Hi Ho.
    assert (HQ : "Qualified" ∈ fuzzy_matches i).
    { apply Hmem. split; [left; reflexivity |].
      apply Qle_bool_iff. vm_compute. reflexivity. }
    assert (HD : "Disqualified" ∉ fuzzy_matches i).
    { intros HD. apply Hmem in HD as [_ HD].
      apply Qle_bool_iff in HD. vm_compute in HD. discriminate HD. }
    assert (Honly : forall s, s ∈ fuzzy_matches i -> s = "Qualified").
    { intros s Hs. pose proof Hs as Hs'. apply Hmem in Hs' as [[-> | ->] _];
        [reflexivity | exfalso; exact (HD Hs)]. }
    clear Hmem HD. rename HQ into HQ0.
    destruct (fuzzy_matches i) as [|s [|t [|u l]]]; cbn in Hlen; try lia.
    + inversion HQ0.
    + f_equal. apply Honly. left.
    + exfalso. apply NoDup_cons in Hnd as [Hst _]. apply Hst.
      rewrite (Honly s) by left. rewrite (Honly t) by (right; left). left.
  - pose proof (find_lead_status_issues_report Difflib.ratio ∅ typo_example)
      as (_ & Hiff & Hrow & _).
    fold some_validator in Hiff, Hrow.
    assert (Hv : VStr "Dqualified"
                 ∈ map original
                     (find_lead_status_issues Difflib.ratio some_validator
                        typo_example).1).
    { apply Hiff. split; [intros [=] | split; [intros [=] | split; [intros [=] |]]].
      exists (status_only "Dqualified"). split; [left | reflexivity]. }
    clear Hiff.
    apply list_elem_of_fmap in Hv as (i & Ho & Hi).
    exists i. split; [exact Hi |]. split; [symmetry; exact Ho |].
    destruct (Hrow i Hi) as (Hc & Hlen & Hnd & Hmem & Hord & _). clear Hrow.
    rewrite <- Ho in Hmem, Hc, Hord. cbn [py_str] in Hmem, Hord.
    split; [rewrite Hc; vm_compute; reflexivity |].
    clear Hc Hi Ho.
    assert (HQ : "Qualified" ∈ fuzzy_matches i).
    { apply Hmem. split; [left; reflexivity |].
      apply Qle_bool_iff. vm_compute. reflexivity. }
    assert (HD : "Disqualified" ∈ fuzzy_matches i).
    { apply Hmem. split; [right; reflexivity |].
      apply Qle_bool_iff. vm_compute. reflexivity. }
    clear Hmem.
    assert (Hne : "Disqualified" <> "Qualified") by (intros [=]).
    destruct (two_elements (fuzzy_matches i) "Disqualified" "Qualified" Hnd Hlen HD HQ Hne)
      as [Hl | Hl]; [exact Hl |].
    exfalso. destruct (Hord _ _ Hl) as [Hle _].
    apply Qle_bool_iff in Hle. vm_compute in Hle. discriminate Hle.
Defined.

(** * Further properties of the pipeline *)

(** ** Dates found by [parse_date] exist *)

Lemma forallb_seqZ (P : Z -> bool) lo len :
  forallb P (seqZ lo len) = true ->
  forall z, lo <= z < lo + len -> P z = true.
Proof.
  intros Hall z Hz. rewrite forallb_forall in Hall. apply Hall.
  apply list_elem_of_In, elem_of_seqZ. lia.
Qed.

Lemma month_day_all_ok leapyear n : 0 <= n <= 364 -> month_day_ok leapyear n = true.
Proof.
  intros Hn. apply (forallb_seqZ (month_day_ok leapyear) 0 365); [| lia].
  destruct leapyear; vm_compute; reflexivity.
Qed.

Lemma leap_flag_all_ok a b c :
  0 <= a <= 3 -> 0 <= b <= 24 -> 0 <= c <= 3 -> leap_flag_ok a b c = true.
Proof.
  intros Ha Hb Hc.
  assert (Hall : forallb (fun a => forallb (fun b => forallb (leap_flag_ok a b)
                   (seqZ 0 4)) (seqZ 0 25)) (seqZ 0 4) = true)
    by (vm_compute; reflexivity).
  pose proof (forallb_seqZ _ _ _ Hall a ltac:(lia)) as H1. cbv beta in H1.
  pose proof (forallb_seqZ _ _ _ H1 b ltac:(lia)) as H2. cbv beta in H2.
  apply (forallb_seqZ _ _ _ H2 c). lia.
Qed.

Lemma is_leap_cycle k c : Date.is_leap (400 * k + c) = Date.is_leap c.
Proof.
  unfold Date.is_leap.
  replace (400 * k + c) with (c + (100 * k) * 4) at 1 by lia.
  replace (400 * k + c) with (c + (4 * k) * 100) at 1 by lia.
  replace (400 * k + c) with (c + k * 400) by lia.
  now rewrite !Z_mod_plus_full.
Qed.

Lemma ord2ymd_real n : 1 <= n <= Date.MAXORDINAL -> real_date (Date.ord2ymd n).
Proof.
  unfold Date.MAXORDINAL. intros Hn. unfold Date.ord2ymd.
  set (n0 := n - 1).
  pose proof (Z.div_mod n0 146097 ltac:(lia)) as E1.
  pose proof (Z.mod_pos_bound n0 146097 ltac:(lia)) as B1.
  set (n400 := n0 / 146097) in *. set (r1 := n0 mod 146097) in *.
  pose proof (Z.div_mod r1 36524 ltac:(lia)) as E2.
  pose proof (Z.mod_pos_bound r1 36524 ltac:(lia)) as B2.
  set (n100 := r1 / 36524) in *. set (r2 := r1 mod 36524) in *.
  pose proof (Z.div_mod r2 1461 ltac:(lia)) as E3.
  pose proof (Z.mod_pos_bound r2 1461 ltac:(lia)) as B3.
  set (n4 := r2 / 1461) in *. set (r3 := r2 mod 1461) in *.
  pose proof (Z.div_mod r3 365 ltac:(lia)) as E4.
  pose proof (Z.mod_pos_bound r3 365 ltac:(lia)) as B4.
  set (n1 := r3 / 365) in *. set (r4 := r3 mod 365) in *.
  assert (H400 : 0 <= n400 <= 24) by (unfold n0 in *; lia).
  assert (H100 : 0 <= n100 <= 4) by lia.
  assert (H4 : 0 <= n4 <= 24) by lia.
  assert (H1 : 0 <= n1 <= 4) by lia.
  cbv zeta.
  destruct ((n1 =? 4) || (n100 =? 4)) eqn:Early.
  - unfold real_date, Date.valid, Date.days_in_month. cbn [year month day].
    assert (5 <= n400 * 400 + 1 + n100 * 100 + n4 * 4 + n1 <= 10000).
    { apply orb_true_iff in Early as [E | E]; apply Z.eqb_eq in E; unfold n0 in *; lia. }
    repeat (apply andb_true_intro; split); apply Z.leb_le; lia.
  - apply orb_false_iff in Early as [En1 En100].
    apply Z.eqb_neq in En1. apply Z.eqb_neq in En100.
    set (y := n400 * 400 + 1 + n100 * 100 + n4 * 4 + n1).
    set (leapyear := (n1 =? 3) && (negb (n4 =? 24) || (n100 =? 3))).
    assert (Hy : 1 <= y <= 9999) by (unfold y, n0 in *; lia).
    assert (Hleap : Date.is_leap y = leapyear).
    { unfold y, leapyear.
      replace (n400 * 400 + 1 + n100 * 100 + n4 * 4 + n1)
        with (400 * n400 + (1 + 100 * n100 + 4 * n4 + n1)) by lia.
      rewrite is_leap_cycle. apply Bool.eqb_prop.
      apply (leap_flag_all_ok n100 n4 n1); lia. }
    pose proof (month_day_all_ok leapyear r4 ltac:(lia)) as Hmd.
    unfold month_day_ok, month_day in Hmd.
    destruct (r4 <? _) eqn:Elt; cbv zeta in Hmd;
      unfold real_date, Date.valid, Date.days_in_month; cbn [year month day];
      rewrite Hleap;
      repeat (apply andb_true_iff in Hmd as [Hmd ?]);
      repeat (apply andb_true_intro; split); try assumption; apply Z.leb_le; lia.
Qed.

Lemma strptime_real s fmt d : Strptime.strptime s fmt = Some d -> real_date d.
Proof.
  unfold Strptime.strptime. destruct (Strptime.compile fmt); [| discriminate].
  destruct (Strptime.matches _ _ _) as [|[found [|? ?]] ?]; try discriminate.
  destruct (_ <=? 59); [| discriminate].
  unfold Date.make. destruct (Date.valid _ _ _) eqn:E; [| discriminate].
  intros [= <-]. exact E.
Qed.

Lemma try_formats_real fmts s d : try_formats fmts s = Some d -> real_date d.
Proof.
  induction fmts as [|fmt fmts IH]; cbn; [discriminate |].
  destruct (Strptime.strptime s fmt) eqn:E; [| exact IH].
  intros [= <-]. eapply strptime_real; eauto.
Qed.

Lemma parse_excel_serial_real s d : parse_excel_serial s = Some d -> real_date d.
Proof.
  unfold parse_excel_serial. destruct (PyStr.isdigit _); [| discriminate].
  destruct (parse_decimal s) as [[n k]|]; [| discriminate].
  unfold Date.add_days. destruct (_ && _) eqn:E; [| discriminate].
  intros [= <-]. apply andb_true_iff in E as [E1 E2].
  apply Z.ltb_lt in E1. apply Z.leb_le in E2. apply ord2ymd_real. lia.
Qed.

Lemma parse_date_in_calendar v d :
  well_formed v -> parse_date v = Some d -> real_date d.
Proof.
  intros Hwf. unfold parse_date. destruct (_ || _); [discriminate |].
  assert (Htext : forall date_str,
            match
              (if PyStr.contains " " date_str && PyStr.contains ":" date_str
               then Strptime.strptime (PyStr.split_head " " date_str) "%Y-%m-%d"
               else None)
            with
            | Some d0 => Some d0
            | None =>
                match try_formats date_formats date_str with
                | Some d0 => Some d0
                | None => parse_excel_serial date_str
                end
            end = Some d -> real_date d).
  { intros date_str.
    destruct (PyStr.contains " " date_str && PyStr.contains ":" date_str).
    - destruct (Strptime.strptime _ "%Y-%m-%d") eqn:E1.
      + intros [= <-]. eapply strptime_real; eauto.
      + destruct (try_formats date_formats date_str) eqn:E2.
        * intros [= <-]. eapply try_formats_real; eauto.
        * apply parse_excel_serial_real.
    - destruct (try_formats date_formats date_str) eqn:E2.
      + intros [= <-]. eapply try_formats_real; eauto.
      + apply parse_excel_serial_real. }
  destruct v; try apply Htext.
  - intros [= <-]. exact Hwf.
  - intros [= <-]. exact Hwf.
Qed.

(** X1.  [parse_date] never gives a date that is not in the calendar:
    whatever text or number it is given, the year it finds is between 1
    and 9999, the month between 1 and 12 and the day within the month. *)
Theorem parse_date_real v d :
  well_formed v -> parse_date v = Some d -> real_date d.
Proof. apply parse_date_in_calendar. Qed.

Lemma parse_date_real_witness :
  well_formed (VStr "45967") /\ parse_date (VStr "45967") = Some (mkdate 2025 11 6)
  /\ real_date (mkdate 2025 11 6).
Proof.
  assert (Hp : parse_date (VStr "45967") = Some (mkdate 2025 11 6))
    by (vm_compute; reflexivity).
  split; [exact I | split; [exact Hp |]].
  exact (parse_date_real (VStr "45967") (mkdate 2025 11 6) I Hp).
Defined.

(** ** The two date filters together *)

Lemma list_filter_iff_elem {A} (P Q : A -> Prop) `{forall x, Decision (P x)}
    `{forall x, Decision (Q x)} (l : list A) :
  (forall x, x ∈ l -> P x <-> Q x) -> filter P l = filter Q l.
Proof.
  induction l as [|x l IH]; intros Hpq; [reflexivity |].
  assert (IH' : filter P l = filter Q l).
  { apply IH. intros y Hy. apply Hpq. now right. }
  destruct (decide (P x)) as [HP | HP].
  - rewrite filter_cons_True by exact HP.
    rewrite filter_cons_True by (apply Hpq; [left | exact HP]). now rewrite IH'.
  - rewrite filter_cons_False by exact HP.
    rewrite filter_cons_False by (intros HQ; apply HP, Hpq; [left | exact HQ]).
    exact IH'.
Qed.

Lemma on_date_spec col d r : on_date col d r = true <-> dated col d r.
Proof.
  unfold on_date, dated. destruct (parse_date (get r col)) as [p|].
  - rewrite date_eqb_eq. split; congruence.
  - split; discriminate.
Qed.

Lemma filter_records_by_date_unfold self col (records : list record) d :
  uses_column self col ->
  filter_records_by_date self records d = filter (dated col d) records.
Proof.
  intros [Hc Hne]. unfold filter_records_by_date, date_column_unset, column_name.
  rewrite Hc. cbn. destruct col; [congruence | cbn].
  apply list_filter_iff. intros r. apply on_date_spec.
Qed.

Lemma real_date_first_of_month d : real_date d -> Date.le (Date.first_of_month d) d.
Proof.
  intros Hd. destruct (first_of_month_le d) as [H | H]; [exact H | exfalso].
  unfold real_date, Date.valid in Hd.
  repeat (apply andb_true_iff in Hd as [Hd ?]).
  match goal with H1 : (1 <=? day d) = true |- _ => apply Z.leb_le in H1 end. lia.
Qed.

Lemma parsed_dates_real col (records : list record) d :
  date_cells_well_formed col records -> d ∈ parsed_dates_of col records -> real_date d.
Proof.
  intros Hwf Hd. apply list_elem_of_omap in Hd as (r & Hr & Hp).
  eapply parse_date_in_calendar; [| exact Hp].
  unfold date_cells_well_formed in Hwf. rewrite Forall_forall in Hwf. now apply Hwf.
Qed.

(** The window of the month to date opens no later than any date found. *)
Lemma mtd_start_before_all col (records : list record) e p :
  date_cells_well_formed col records ->
  is_earliest e (parsed_dates_of col records) ->
  p ∈ parsed_dates_of col records ->
  Date.le (Date.first_of_month e) p.
Proof.
  intros Hwf [He Hmin] Hp.
  eapply date_le_trans; [| now apply Hmin].
  apply real_date_first_of_month. eapply parsed_dates_real; eauto.
Qed.

Lemma filter_records_mtd_cases self col (records : list record) d :
  uses_column self col ->
  (parsed_dates_of col records = [] /\ filter_records_mtd self records d = [])
  \/ exists e, is_earliest e (parsed_dates_of col records)
               /\ filter_records_mtd self records d
                  = filter (in_window col (Date.first_of_month e) d) records.
Proof.
  intros [Hc Hne]. rewrite (filter_records_mtd_unfold self col) by assumption.
  destruct (fold_left (earliest_step col) records None) as [e|] eqn:Ef.
  - right. exists e. split; [now apply earliest_fold_is_earliest | reflexivity].
  - left. apply earliest_fold_None in Ef as [_ Hds]. now split.
Qed.

Lemma daily_records_within_mtd_aux self col (records : list record) d :
  uses_column self col ->
  date_cells_well_formed col records ->
  filter_records_by_date self records d
  = filter (dated col d) (filter_records_mtd self records d)
  /\ filter_records_by_date self records d `sublist_of` filter_records_mtd self records d.
Proof.
  intros Hu Hwf.
  assert (Heq : filter_records_by_date self records d
                = filter (dated col d) (filter_records_mtd self records d)).
  { rewrite (filter_records_by_date_unfold self col) by assumption.
    destruct (filter_records_mtd_cases self col records d Hu)
      as [[Hnone ->] | (e & He & ->)].
    - apply filter_none. intros r Hr Hd.
      assert (Hin : d ∈ parsed_dates_of col records)
        by (apply list_elem_of_omap; eauto).
      rewrite Hnone in Hin. inversion Hin.
    - rewrite list_filter_filter. apply list_filter_iff_elem. intros r Hr.
      split; [| tauto]. intros Hd. split; [exact Hd |].
      exists d. split; [exact Hd |]. split; [| apply date_le_refl].
      apply (mtd_start_before_all col records); try assumption.
      apply list_elem_of_omap. eauto. }
  split; [exact Heq |]. rewrite Heq. apply sublist_filter.
Qed.

(** X2.  The records of the selected day are exactly the records of the
    month to date that bear that date, in the same order: whatever is in
    the daily report is in the month-to-date report. *)
Theorem daily_records_within_mtd self col (records : list record) d :
  uses_column self col ->
  date_cells_well_formed col records ->
  filter_records_by_date self records d
  = filter (dated col d) (filter_records_mtd self records d)
  /\ filter_records_by_date self records d `sublist_of` filter_records_mtd self records d.
Proof. apply daily_records_within_mtd_aux. Qed.

Lemma daily_records_within_mtd_witness :
  uses_column scenario_processor "Audit Date"
  /\ date_cells_well_formed "Audit Date" scenario_records
  /\ List.length (filter_records_by_date scenario_processor scenario_records scenario_date)
     = 6%nat
  /\ filter_records_by_date scenario_processor scenario_records scenario_date
     `sublist_of` filter_records_mtd scenario_processor scenario_records scenario_date.
Proof.
  assert (Hu : uses_column scenario_processor "Audit Date") by (split; [reflexivity | discriminate]).
  assert (Hwf : date_cells_well_formed "Audit Date" scenario_records)
    by (repeat constructor).
  split; [exact Hu | split; [exact Hwf | split; [vm_compute; reflexivity |]]].
  exact (proj2 (daily_records_within_mtd _ _ _ scenario_date Hu Hwf)).
Defined.

(** X3.  The month to date grows with the selected date: for an earlier
    date it is the part, of the month to date of a later one, dated no
    later than the earlier date. *)
Theorem mtd_grows_with_date self (records : list record) d1 d2 :
  Date.le d1 d2 ->
  filter_records_mtd self records d1
  = filter (dated_by (column_name self) d1) (filter_records_mtd self records d2)
  /\ filter_records_mtd self records d1 `sublist_of` filter_records_mtd self records d2.
Proof.
  intros Hle.
  assert (Heq : filter_records_mtd self records d1
                = filter (dated_by (column_name self) d1)
                         (filter_records_mtd self records d2)).
  { unfold filter_records_mtd. destruct (date_column_unset self); [reflexivity |].
    destruct (fold_left _ records None) as [e|]; [| reflexivity].
    rewrite !filter_in_window, list_filter_filter. apply list_filter_iff. intros r.
    unfold in_window, dated_by. split.
    - intros (p & Hp & Hlo & Hhi). split; [now exists p |].
      exists p. repeat split; try assumption. eapply date_le_trans; eassumption.
    - intros [(p & Hp & Hhi) (p' & Hp' & Hlo & _)].
      exists p. rewrite Hp in Hp'. injection Hp' as <-. auto. }
  split; [exact Heq |]. rewrite Heq. apply sublist_filter.
Qed.

Lemma mtd_grows_with_date_witness :
  Date.le (mkdate 2025 11 3) scenario_date
  /\ List.length (filter_records_mtd scenario_processor scenario_records (mkdate 2025 11 3))
     = 4%nat
  /\ filter_records_mtd scenario_processor scenario_records (mkdate 2025 11 3)
     `sublist_of` filter_records_mtd scenario_processor scenario_records scenario_date.
Proof.
  assert (Hle : Date.le (mkdate 2025 11 3) scenario_date) by reflexivity.
  split; [exact Hle | split; [vm_compute; reflexivity |]].
  exact (proj2 (mtd_grows_with_date scenario_processor scenario_records _ _ Hle)).
Defined.

(** X4.  Selected at or after the last date found, the month to date is
    every record whose date parses, and nothing is lost but the records
    without a date. *)
Theorem mtd_of_last_date self col (records : list record) d :
  uses_column self col ->
  date_cells_well_formed col records ->
  (forall p, p ∈ parsed_dates_of col records -> Date.le p d) ->
  filter_records_mtd self records d = filter (has_date col) records.
Proof.
  intros Hu Hwf Hlast.
  destruct (filter_records_mtd_cases self col records d Hu)
    as [[Hnone ->] | (e & He & ->)].
  - symmetry. apply filter_none. intros r Hr [p Hp].
    assert (Hin : p ∈ parsed_dates_of col records) by (apply list_elem_of_omap; eauto).
    rewrite Hnone in Hin. inversion Hin.
  - apply list_filter_iff_elem. intros r Hr. unfold in_window, has_date. split.
    + intros (p & Hp & _). eauto.
    + intros [p Hp]. exists p. split; [exact Hp |].
      assert (Hin : p ∈ parsed_dates_of col records) by (apply list_elem_of_omap; eauto).
      split; [| now apply Hlast]. now apply (mtd_start_before_all col records).
Qed.

Lemma mtd_of_last_date_witness :
  uses_column scenario_processor "Audit Date"
  /\ date_cells_well_formed "Audit Date" scenario_records
  /\ filter_records_mtd scenario_processor scenario_records scenario_date
     = filter (has_date "Audit Date") scenario_records.
Proof.
  assert (Hu : uses_column scenario_processor "Audit Date") by (split; [reflexivity | discriminate]).
  assert (Hwf : date_cells_well_formed "Audit Date" scenario_records)
    by (repeat constructor).
  split; [exact Hu | split; [exact Hwf |]].
  apply (mtd_of_last_date _ _ _ _ Hu Hwf).
  assert (Hds : parsed_dates_of "Audit Date" scenario_records
                = replicate 6 (mkdate 2025 11 6) ++ replicate 4 (mkdate 2025 11 3))
    by (vm_compute; reflexivity).
  rewrite Hds. cbn. intros p Hp.
  repeat (apply elem_of_cons in Hp as [-> | Hp]; [reflexivity |]). inversion Hp.
Defined.

(** ** The dates offered for selection *)

Lemma lookup_last_list {A} (l : list A) (x : A) : (l ++ [x]) !! List.length l = Some x.
Proof. rewrite lookup_app_r by lia. now rewrite Nat.sub_diag. Qed.

Lemma headers_by_lower_snoc headers h :
  headers_by_lower (headers ++ [h]) = <[PyStr.lower h := h]> (headers_by_lower headers).
Proof. unfold headers_by_lower. now rewrite fold_left_app. Qed.

(** The dictionary of the headers gives, for a lower-cased name, the
    last header of that name. *)
Lemma headers_by_lower_lookup headers k c :
  headers_by_lower headers !! k = Some c <->
  exists i, headers !! i = Some c /\ PyStr.lower c = k
            /\ forall j h, (i < j)%nat -> headers !! j = Some h -> PyStr.lower h <> k.
Proof.
  revert c. induction headers as [|h headers IH] using rev_ind; intros c.
  - split; [discriminate | intros (i & Hi & _); destruct i; discriminate].
  - rewrite headers_by_lower_snoc. destruct (decide (PyStr.lower h = k)) as [Hk | Hk].
    + rewrite Hk, lookup_insert_eq. split.
      * intros [= <-]. exists (List.length headers). split; [apply lookup_last_list |].
        split; [exact Hk |]. intros j h' Hj Hh'.
        apply lookup_lt_Some in Hh'. rewrite length_app in Hh'. cbn in Hh'. lia.
      * intros (i & Hi & Hc & Hlast).
        destruct (decide (i = List.length headers)) as [-> | Hne].
        -- rewrite lookup_last_list in Hi. congruence.
        -- exfalso. apply (Hlast (List.length headers) h).
           ++ apply lookup_lt_Some in Hi. rewrite length_app in Hi. cbn in Hi. lia.
           ++ apply lookup_last_list.
           ++ exact Hk.
    + rewrite lookup_insert_ne by exact Hk. rewrite IH. split.
      * intros (i & Hi & Hc & Hlast). exists i.
        split; [now apply lookup_app_l_Some |]. split; [exact Hc |].
        intros j h' Hj Hh'. apply lookup_app_Some in Hh' as [Hh' | [_ Hh']].
        -- now apply (Hlast j).
        -- destruct (j - List.length headers)%nat; [| discriminate].
           injection Hh' as <-. exact Hk.
      * intros (i & Hi & Hc & Hlast).
        apply lookup_app_Some in Hi as [Hi | [Hge Hi]].
        -- exists i. split; [exact Hi |]. split; [exact Hc |].
           intros j h' Hj Hh'. apply (Hlast j); [exact Hj | now apply lookup_app_l_Some].
        -- destruct (i - List.length headers)%nat; [| discriminate].
           injection Hi as <-. congruence.
Qed.

(** X5.  [detect_date_column] finds the header that reads ["audit date"]
    when letter case is set aside, the last one when there are several,
    and makes it the date column of the processor, which from then on is
    not taken for a processor without a date column; without such a
    header it returns nothing and leaves the processor as it was. *)
Theorem detect_date_column_last self headers :
  (forall c, (detect_date_column self headers).1 = Some c <->
     exists i, headers !! i = Some c /\ PyStr.lower c = "audit date"
               /\ forall j h, (i < j)%nat -> headers !! j = Some h ->
                    PyStr.lower h <> "audit date")
  /\ (forall c, (detect_date_column self headers).1 = Some c ->
        uses_column (detect_date_column self headers).2 c
        /\ date_column_unset (detect_date_column self headers).2 = false)
  /\ ((detect_date_column self headers).1 = None <->
      forall h, h ∈ headers -> PyStr.lower h <> "audit date")
  /\ ((detect_date_column self headers).1 = None ->
      (detect_date_column self headers).2 = self).
Proof.
  unfold detect_date_column.
  destruct (headers_by_lower headers !! "audit date") as [c0|] eqn:E; cbn [fst snd].
  - split; [| split; [| split]].
    + intros c. rewrite <- headers_by_lower_lookup. rewrite E. reflexivity.
    + intros c [= <-]. apply headers_by_lower_lookup in E as (i & _ & Hc & _).
      assert (Hne : c0 <> "") by (intros ->; discriminate).
      split; [split; [reflexivity | exact Hne] |].
      unfold date_column_unset. cbn. destruct c0; [congruence | reflexivity].
    + split; [discriminate |]. intros Hno.
      apply headers_by_lower_lookup in E as (i & Hi & Hc & _).
      exfalso. apply (Hno c0); [| exact Hc]. apply list_elem_of_lookup. eauto.
    + discriminate.
  - split; [| split; [| split]].
    + intros c. rewrite <- headers_by_lower_lookup. rewrite E. reflexivity.
    + discriminate.
    + split; [| reflexivity]. intros _ h Hh Hl.
      apply list_elem_of_lookup in Hh as [i Hi].
      assert (Hex : exists i c, headers !! i = Some c /\ PyStr.lower c = "audit date")
        by eauto.
      clear i h Hi Hl.
      assert (Hlast : exists c, headers_by_lower headers !! "audit date" = Some c).
      { induction headers as [|h headers IH] using rev_ind.
        - destruct Hex as (i & c & Hi & _). destruct i; discriminate.
        - rewrite headers_by_lower_snoc in *.
          destruct (decide (PyStr.lower h = "audit date")) as [Hk | Hk].
          + rewrite Hk, lookup_insert_eq. eauto.
          + rewrite lookup_insert_ne in * by exact Hk. apply IH; [exact E |].
            destruct Hex as (i & c & Hi & Hc).
            apply lookup_app_Some in Hi as [Hi | [_ Hi]]; [eauto |].
            destruct (i - List.length headers)%nat; [| discriminate].
            injection Hi as <-. congruence. }
      destruct Hlast as [c Hc]. congruence.
    + reflexivity.
Qed.

Lemma sorted_dates_perm dates : sorted_dates dates ≡ₚ dates.
Proof. apply (sort_desc_perm Date.leb). Qed.

Lemma sorted_dates_ascending dates :
  NoDup dates -> StronglySorted Date.lt (sorted_dates dates).
Proof.
  intros Hnd.
  assert (Hle : StronglySorted Date.le (sorted_dates dates)).
  { apply (sort_desc_sorted Date.leb Date.le).
    - intros x y H. exact H.
    - intros x y H. revert H. date_cmp.
    - apply date_le_trans. }
  assert (Hnd' : NoDup (sorted_dates dates)) by now rewrite sorted_dates_perm.
  induction Hle as [|x l Hl IH Hx]; [constructor |].
  apply NoDup_cons in Hnd' as [Hx' Hnd'].
  constructor; [now apply IH |].
  rewrite Forall_forall in Hx |- *. intros y Hy.
  assert (x <> y) by (intros ->; contradiction).
  pose proof (Hx y Hy) as Hxy. unfold Date.lt.
  destruct (Date.ltb x y) eqn:E; [reflexivity | exfalso].
  apply date_not_lt_le in E. apply H. now apply date_le_antisym.
Qed.

Lemma parse_dates_from_records_elem self (records : list record) col idx d :
  (idx, d) ∈ (parse_dates_from_records self records col).1 <->
  exists r, records !! idx = Some r /\ parse_date (get r col) = Some d.
Proof.
  unfold parse_dates_from_records. cbn [fst]. rewrite list_elem_of_omap. split.
  - intros ([i r] & Hin & Hp).
    apply elem_of_lookup_imap in Hin as (i' & r' & Heq & Hr).
    injection Heq as -> ->. cbn in Hp.
    destruct (parse_date (get r' col)) as [p|] eqn:E; [| discriminate].
    injection Hp as <- <-. eauto.
  - intros (r & Hr & Hp). exists (idx, r). split.
    + apply elem_of_lookup_imap. eauto.
    + cbn. now rewrite Hp.
Qed.

Lemma parsed_values_from (f : nat -> nat) col (records : list record) :
  map snd
      (omap (fun ir : nat * record =>
               match parse_date (get ir.2 col) with
               | Some d => Some (ir.1, d)
               | None => None
               end)
            (imap (fun i r => (f i, r)) records))
  = parsed_dates_of col records.
Proof.
  revert f. induction records as [|r records IH]; intros f; [reflexivity |].
  rewrite imap_cons. unfold parsed_dates_of. cbn [omap list_omap snd].
  fold (parsed_dates_of col records).
  destruct (parse_date (get r col)) as [p|]; cbn [map snd].
  - f_equal. apply (IH (f ∘ S)).
  - apply (IH (f ∘ S)).
Qed.

Lemma parsed_values self (records : list record) col :
  map snd (parse_dates_from_records self records col).1 = parsed_dates_of col records.
Proof. apply (parsed_values_from (fun i => i)). Qed.

Lemma get_unique_dates_elem self d :
  d ∈ get_unique_dates self <-> d ∈ map snd (parsed_dates self).
Proof.
  unfold get_unique_dates. destruct (parsed_dates self) as [|e l] eqn:E; [reflexivity |].
  rewrite sorted_dates_perm, elem_of_elements, elem_of_list_to_set. reflexivity.
Qed.

Lemma get_unique_dates_ascending self : StronglySorted Date.lt (get_unique_dates self).
Proof.
  unfold get_unique_dates. destruct (parsed_dates self); [constructor |].
  apply sorted_dates_ascending, NoDup_elements.
Qed.

(** X6.  After [parse_dates_from_records], the dates that
    [get_unique_dates] offers are the dates that parse in the column,
    each once, earliest first; there is none exactly when no date
    parses; and every date offered has at least one record of that day,
    so that neither the daily nor the month-to-date selection is empty. *)
Theorem offered_dates_have_records self (records : list record) col :
  let parsed := (parse_dates_from_records self records col).1 in
  let offered := get_unique_dates (parse_dates_from_records self records col).2 in
  StronglySorted Date.lt offered
  /\ (forall d, d ∈ offered <-> d ∈ parsed_dates_of col records)
  /\ (offered = [] <-> parsed = [])
  /\ (forall filt d,
        uses_column filt col -> d ∈ offered ->
        filter_records_by_date filt records d <> []
        /\ (date_cells_well_formed col records ->
            filter_records_mtd filt records d <> [])).
Proof.
  intros parsed offered.
  assert (Helem : forall d, d ∈ offered <-> d ∈ parsed_dates_of col records).
  { intros d. unfold offered. rewrite get_unique_dates_elem.
    change (parsed_dates (parse_dates_from_records self records col).2) with parsed.
    unfold parsed. now rewrite parsed_values. }
  split; [apply get_unique_dates_ascending | split; [exact Helem | split]].
  - split.
    + intros Hoff. destruct parsed as [|[i d] l] eqn:E; [reflexivity | exfalso].
      assert (Hd : d ∈ offered).
      { apply Helem. rewrite <- parsed_values with (self := self).
        fold parsed. rewrite E. left. }
      rewrite Hoff in Hd. inversion Hd.
    + intros Hp. unfold offered, get_unique_dates.
      change (parsed_dates (parse_dates_from_records self records col).2) with parsed.
      now rewrite Hp.
  - intros filt d Hu Hd. apply Helem in Hd.
    apply list_elem_of_omap in Hd as (r & Hr & Hp).
    assert (Hday : r ∈ filter_records_by_date filt records d).
    { rewrite (filter_records_by_date_unfold filt col) by assumption.
      apply list_elem_of_filter. now split. }
    split.
    + intros Hnil. rewrite Hnil in Hday. inversion Hday.
    + intros Hwf Hnil.
      pose proof (proj2 (daily_records_within_mtd_aux filt col records d Hu Hwf)) as Hsub.
      apply sublist_subseteq in Hsub. apply Hsub in Hday. rewrite Hnil in Hday.
      inversion Hday.
Qed.

(** ** The records of a sheet *)

(** The cells of a record: under each header, the cell of the row in
    the column of the last header of that name, [None] where the row is
    too short. *)
Lemma row_cells_lookup (headers : list string) (row : list value) h v :
  fold_left (fun (rec : record) (ih : nat * string) =>
               <[ih.2 := default VNone (row !! ih.1)]> rec)
            (imap (fun i h => (i, h)) headers) ∅ !! h = Some v
  <-> exists j, headers !! j = Some h
                /\ (forall j', (j < j')%nat -> headers !! j' <> Some h)
                /\ v = default VNone (row !! j).
Proof.
  revert v. induction headers as [|h0 headers IH] using rev_ind; intros v.
  - split; [discriminate | intros (j & Hj & _); destruct j; discriminate].
  - rewrite imap_app, fold_left_app. cbn [imap fold_left fst snd].
    rewrite Nat.add_0_r.
    destruct (decide (h0 = h)) as [-> | Hne].
    + rewrite lookup_insert_eq. split.
      * intros [= <-]. exists (List.length headers).
        split; [apply lookup_last_list |]. split; [| reflexivity].
        intros j' Hj' Hh'. apply lookup_lt_Some in Hh'. rewrite length_app in Hh'.
        cbn in Hh'. lia.
      * intros (j & Hj & Hlast & ->).
        destruct (decide (j = List.length headers)) as [-> | Hnj]; [reflexivity |].
        exfalso. apply (Hlast (List.length headers)); [| apply lookup_last_list].
        apply lookup_lt_Some in Hj. rewrite length_app in Hj. cbn in Hj. lia.
    + rewrite lookup_insert_ne by exact Hne. rewrite IH. split.
      * intros (j & Hj & Hlast & ->). exists j.
        split; [now apply lookup_app_l_Some |]. split; [| reflexivity].
        intros j' Hj' Hh'. apply lookup_app_Some in Hh' as [Hh' | [_ Hh']].
        -- now apply (Hlast j').
        -- destruct (j' - List.length headers)%nat; [| discriminate].
           simpl in Hh'. congruence.
      * intros (j & Hj & Hlast & ->).
        apply lookup_app_Some in Hj as [Hj | [_ Hj]].
        -- exists j. split; [exact Hj |]. split; [| reflexivity].
           intros j' Hj' Hh'. apply (Hlast j' Hj'). now apply lookup_app_l_Some.
        -- destruct (j - List.length headers)%nat; [| discriminate].
           simpl in Hj. congruence.
Qed.

Lemma last_occurrence (headers : list string) h :
  h ∈ headers ->
  exists j, headers !! j = Some h /\ forall j', (j < j')%nat -> headers !! j' <> Some h.
Proof.
  induction headers as [|h0 headers IH] using rev_ind; [intros Hin; inversion Hin |].
  intros Hin. destruct (decide (h0 = h)) as [-> | Hne].
  - exists (List.length headers). split; [apply lookup_last_list |].
    intros j' Hj' Hh'. apply lookup_lt_Some in Hh'. rewrite length_app in Hh'.
    cbn in Hh'. lia.
  - apply elem_of_app in Hin as [Hin | Hin].
    + destruct (IH Hin) as (j & Hj & Hlast). exists j.
      split; [now apply lookup_app_l_Some |].
      intros j' Hj' Hh'. apply lookup_app_Some in Hh' as [Hh' | [_ Hh']].
      * now apply (Hlast j').
      * destruct (j' - List.length headers)%nat; [| discriminate].
           simpl in Hh'. congruence.
    + apply list_elem_of_singleton in Hin. congruence.
Qed.

Lemma row_record_keys headers row idx sheet_type k :
  is_Some (row_record headers row idx sheet_type !! k)
  <-> k ∈ headers \/ k = "_row_number" \/ k = "_sheet_name".
Proof.
  unfold row_record.
  destruct (decide (k = "_sheet_name")) as [-> | Hs].
  { rewrite lookup_insert_eq. split; eauto. }
  rewrite lookup_insert_ne by congruence.
  destruct (decide (k = "_row_number")) as [-> | Hr].
  { rewrite lookup_insert_eq. split; eauto. }
  rewrite lookup_insert_ne by congruence. split.
  - intros [v Hv]. apply row_cells_lookup in Hv as (j & Hj & _).
    left. apply list_elem_of_lookup. eauto.
  - intros [Hin | [? | ?]]; [| congruence | congruence].
    destruct (last_occurrence headers k Hin) as (j & Hj & Hlast).
    exists (default VNone (row !! j)). apply row_cells_lookup. eauto.
Qed.

Lemma row_record_cell headers row idx sheet_type j h :
  headers !! j = Some h -> h <> "_row_number" -> h <> "_sheet_name" ->
  (forall j', (j < j')%nat -> headers !! j' <> Some h) ->
  row_record headers row idx sheet_type !! h = Some (default VNone (row !! j)).
Proof.
  intros Hj Hr Hs Hlast. unfold row_record.
  rewrite !lookup_insert_ne by congruence. apply row_cells_lookup. eauto.
Qed.

Lemma row_record_sheet_name headers row idx sheet_type :
  row_record headers row idx sheet_type !! "_sheet_name" = Some (VStr sheet_type).
Proof. unfold row_record. apply lookup_insert_eq. Qed.

(** The second test for blank rows, in the loop over the data rows,
    never fires: the blank rows are gone by then. *)
Lemma parse_rows_all headers sheet_type (rows : list (list value)) :
  Forall (fun row => any_cell row = true) rows ->
  forall k,
    omap (fun ir : nat * list value =>
            if negb (any_cell ir.2) then None
            else Some (row_record headers ir.2 (Z.of_nat ir.1 + 2) sheet_type))
         (imap (fun i row => ((k + i)%nat, row)) rows)
    = imap (fun i row => row_record headers row (Z.of_nat (k + i) + 2) sheet_type) rows.
Proof.
  induction 1 as [|row rows Hrow Hrows IH]; intros k; [reflexivity |].
  rewrite !imap_cons. cbn [omap list_omap fst snd]. rewrite Hrow. cbn [negb].
  f_equal. rewrite <- (imap_ext (fun i row => row_record headers row
                                    (Z.of_nat (S k + i) + 2) sheet_type))
    by (intros i x _; cbn; do 2 f_equal; lia).
  rewrite <- (IH (S k)). f_equal. apply imap_ext. intros i x _. cbn. f_equal. lia.
Qed.

Lemma parse_sheet_unfold (ws : worksheet) sheet_type header_row data_rows :
  (2 <= List.length ws)%nat ->
  filter (fun row => any_cell row = true) ws = header_row :: data_rows ->
  _parse_sheet ws sheet_type
  = (imap header_name header_row,
     imap (fun i row => row_record (imap header_name header_row) row
                                   (Z.of_nat i + 2) sheet_type) data_rows).
Proof.
  intros Hlen Hdata. unfold _parse_sheet.
  destruct (Z.ltb_spec (Z.of_nat (List.length ws)) 2) as [Hlt | _]; [lia |].
  rewrite Hdata. f_equal.
  apply (parse_rows_all _ sheet_type data_rows) with (k := 0%nat).
  assert (Hall : Forall (fun row => any_cell row = true) (header_row :: data_rows)).
  { rewrite <- Hdata. apply Forall_forall. intros row Hin.
    now apply list_elem_of_filter in Hin as [Hrow _]. }
  now apply Forall_cons in Hall as [_ Hall].
Qed.

(** ** Sheets with and without a dimension *)

Lemma parse_rows_unfold (rows : list (list value)) sheet_type header_row data_rows :
  filter (fun row => any_cell row = true) rows = header_row :: data_rows ->
  ReadOnly.parse_rows rows sheet_type
  = (imap header_name header_row,
     imap (fun i row => row_record (imap header_name header_row) row
                                   (Z.of_nat i + 2) sheet_type) data_rows).
Proof.
  intros Hdata. unfold ReadOnly.parse_rows. rewrite Hdata. f_equal.
  apply (parse_rows_all _ sheet_type data_rows) with (k := 0%nat).
  assert (Hall : Forall (fun row => any_cell row = true) (header_row :: data_rows)).
  { rewrite <- Hdata. apply Forall_forall. intros row Hin.
    now apply list_elem_of_filter in Hin as [Hrow _]. }
  now apply Forall_cons in Hall as [_ Hall].
Qed.

Lemma parse_rows_length (rows : list (list value)) sheet_type :
  List.length (ReadOnly.parse_rows rows sheet_type).2 = pred (filled_rows rows).
Proof.
  unfold filled_rows.
  destruct (filter (fun row => any_cell row = true) rows) as [|header_row data_rows] eqn:E.
  - unfold ReadOnly.parse_rows. now rewrite E.
  - rewrite (parse_rows_unfold rows sheet_type header_row data_rows E).
    cbn [snd]. now rewrite length_imap.
Qed.

(** On a sheet whose [max_row] is the number of its rows, the two
    models of [_parse_sheet] agree. *)
Lemma parse_sheet_dimensioned (rows : list (list value)) sheet_type :
  ReadOnly._parse_sheet (ReadOnly.dimensioned rows) sheet_type
  = inr (_parse_sheet rows sheet_type).
Proof.
  unfold ReadOnly._parse_sheet, _parse_sheet, ReadOnly.dimensioned.
  cbn [ReadOnly.max_row ReadOnly.iter_rows].
  destruct (Z.of_nat (List.length rows) <? 2); reflexivity.
Qed.

(** X7.  [_parse_sheet] on a read-only sheet.  Without a [max_row] the
    comparison [max_row < 2] raises a [TypeError]; with a [max_row] below
    2 the result is empty, whatever the rows; from 2 on the rows are read,
    an exception of the reader passes through, and of rows with a header
    there is one record for each row that is not blank after the header,
    in order.  The record bears the name of the sheet, the position of
    its row among the rows that are not blank, counted from 2, and one
    key for each header and no other; under a header that is not one of
    the two metadata keys it holds the cell of the row in the column of
    that header, of the last such column when the header occurs several
    times, and [None] when the row is too short. *)
Theorem parse_sheet_records (ws : ReadOnly.worksheet) sheet_type :
  (ReadOnly.max_row ws = None ->
   ReadOnly._parse_sheet ws sheet_type = inl ReadOnly.none_less_than_int)
  /\ (forall m, ReadOnly.max_row ws = Some m -> m < 2 ->
        ReadOnly._parse_sheet ws sheet_type = inr ([], []))
  /\ (forall m e, ReadOnly.max_row ws = Some m -> 2 <= m ->
        ReadOnly.iter_rows ws = inl e ->
        ReadOnly._parse_sheet ws sheet_type = inl e)
  /\ (forall m rows, ReadOnly.max_row ws = Some m -> 2 <= m ->
        ReadOnly.iter_rows ws = inr rows ->
        (filter (fun row => any_cell row = true) rows = [] ->
         ReadOnly._parse_sheet ws sheet_type = inr ([], []))
        /\ forall header_row data_rows,
             filter (fun row => any_cell row = true) rows = header_row :: data_rows ->
             exists headers records,
               ReadOnly._parse_sheet ws sheet_type = inr (headers, records)
               /\ headers = imap header_name header_row
               /\ List.length headers = List.length header_row
               /\ List.length records = List.length data_rows
               /\ forall i row, data_rows !! i = Some row ->
                    exists r, records !! i = Some r
                      /\ r !! "_sheet_name" = Some (VStr sheet_type)
                      /\ r !! "_row_number" = Some (VInt (Z.of_nat i + 2))
                      /\ (forall k, is_Some (r !! k)
                                    <-> k ∈ headers \/ k = "_row_number"
                                        \/ k = "_sheet_name")
                      /\ (forall j h,
                            headers !! j = Some h ->
                            h <> "_row_number" -> h <> "_sheet_name" ->
                            (forall j', (j < j')%nat -> headers !! j' <> Some h) ->
                            r !! h = Some (default VNone (row !! j)))).
Proof.
  unfold ReadOnly._parse_sheet. split; [| split; [| split]].
  - intros ->. reflexivity.
  - intros m -> Hm. now rewrite (proj2 (Z.ltb_lt m 2) Hm).
  - intros m e -> Hm ->. now rewrite (proj2 (Z.ltb_ge m 2) Hm).
  - intros m rows -> Hm ->. rewrite (proj2 (Z.ltb_ge m 2) Hm). split.
    + intros Hdata. unfold ReadOnly.parse_rows. now rewrite Hdata.
    + intros header_row data_rows Hdata.
      rewrite (parse_rows_unfold rows sheet_type header_row data_rows Hdata).
      eexists _, _. split; [reflexivity |]. rewrite !length_imap.
      split; [reflexivity | split; [reflexivity | split; [reflexivity |]]].
      intros i row Hrow.
      exists (row_record (imap header_name header_row) row (Z.of_nat i + 2) sheet_type).
      split; [rewrite list_lookup_imap, Hrow; reflexivity |].
      split; [apply row_record_sheet_name |].
      split; [apply row_record_number |].
      split; [intros k; apply row_record_keys |].
      intros j h. apply row_record_cell.
Qed.

Lemma parse_sheet_records_witness :
  ReadOnly._parse_sheet (ReadOnly.undimensioned sheet_with_blank_row) "Qualified"
  = inl ReadOnly.none_less_than_int
  /\ exists headers records r,
       ReadOnly._parse_sheet (ReadOnly.dimensioned sheet_with_blank_row) "Qualified"
       = inr (headers, records)
       /\ records !! 0%nat = Some r
       /\ r !! "Agent Name" = Some (VStr "Ann").
Proof.
  split.
  - destruct (parse_sheet_records (ReadOnly.undimensioned sheet_with_blank_row)
                "Qualified") as (Hnone & _).
    apply Hnone. reflexivity.
  - destruct (parse_sheet_records (ReadOnly.dimensioned sheet_with_blank_row)
                "Qualified") as (_ & _ & _ & Hrows).
    destruct (Hrows 3 sheet_with_blank_row eq_refl) as (_ & Hrec); [lia | reflexivity |].
    destruct (Hrec [VStr "Lead Status"; VStr "Agent Name"]
                   [[VStr "Qualified"; VStr "Ann"]] eq_refl)
      as (headers & records & Hrun & Hhd & _ & _ & Hrow).
    exists headers, records.
    destruct (Hrow 0%nat [VStr "Qualified"; VStr "Ann"] eq_refl)
      as (r & Hr & _ & _ & _ & Hcell).
    exists r. split; [exact Hrun | split; [exact Hr |]].
    change (headers = ["Lead Status"; "Agent Name"]) in Hhd.
    apply (Hcell 1%nat "Agent Name"); [now rewrite Hhd | discriminate | discriminate |].
    intros j' Hj'. rewrite Hhd. destruct j' as [|[|[|j']]]; try lia; discriminate.
Defined.

(** ** Loading the workbook *)

Lemma sheet_named_snoc name (sheets : list (string * worksheet)) sheet :
  sheet_named name (sheets ++ [sheet])
  = if decide (PyStr.strip (PyStr.lower sheet.1) = name) then Some sheet.2
    else sheet_named name sheets.
Proof.
  unfold sheet_named. rewrite filter_app.
  destruct (decide (PyStr.strip (PyStr.lower sheet.1) = name)) as [Hn | Hn].
  - rewrite filter_cons_True by exact Hn. cbn [filter list_filter].
    rewrite fmap_app. cbn [fmap list_fmap]. apply last_snoc.
  - rewrite filter_cons_False by exact Hn. cbn [filter list_filter].
    now rewrite app_nil_r.
Qed.

(** The loop over the sheets keeps, of each of the two names, the last
    sheet that bears it. *)
Lemma pick_sheet_fold (sheets : list (string * worksheet)) :
  fold_left pick_sheet sheets (None, None)
  = (sheet_named "qualified" sheets, sheet_named "disqualified" sheets).
Proof.
  induction sheets as [|sheet sheets IH] using rev_ind; [reflexivity |].
  rewrite fold_left_app, IH. cbn [fold_left]. rewrite !sheet_named_snoc.
  unfold pick_sheet. cbn [fst snd].
  destruct (String.eqb_spec (PyStr.strip (PyStr.lower sheet.1)) "qualified") as [Hq | Hq].
  - rewrite decide_True by exact Hq.
    rewrite decide_False by (rewrite Hq; discriminate). reflexivity.
  - rewrite (decide_False (P := _ = "qualified")) by exact Hq.
    destruct (String.eqb_spec (PyStr.strip (PyStr.lower sheet.1)) "disqualified")
      as [Hd | Hd].
    + rewrite decide_True by exact Hd. reflexivity.
    + rewrite decide_False by exact Hd. reflexivity.
Qed.

Lemma sheet_named_last name (sheets : list (string * worksheet)) ws :
  sheet_named name sheets = Some ws <->
  exists i title, sheets !! i = Some (title, ws)
    /\ PyStr.strip (PyStr.lower title) = name
    /\ forall j sheet, (i < j)%nat -> sheets !! j = Some sheet ->
         PyStr.strip (PyStr.lower sheet.1) <> name.
Proof.
  revert ws. induction sheets as [|sheet sheets IH] using rev_ind; intros ws.
  - split; [discriminate | intros (i & t & Hi & _); destruct i; discriminate].
  - rewrite sheet_named_snoc.
    destruct (decide (PyStr.strip (PyStr.lower sheet.1) = name)) as [Hn | Hn].
    + split.
      * intros [= <-]. exists (List.length sheets), sheet.1.
        split; [rewrite lookup_last_list; now destruct sheet |]. split; [exact Hn |].
        intros j s' Hj Hs'. apply lookup_lt_Some in Hs'. rewrite length_app in Hs'.
        cbn in Hs'. lia.
      * intros (i & t & Hi & Ht & Hlast).
        destruct (decide (i = List.length sheets)) as [-> | Hne].
        -- rewrite lookup_last_list in Hi. now injection Hi as ->.
        -- exfalso. apply (Hlast (List.length sheets) sheet).
           ++ apply lookup_lt_Some in Hi. rewrite length_app in Hi. cbn in Hi. lia.
           ++ apply lookup_last_list.
           ++ exact Hn.
    + rewrite IH. split.
      * intros (i & t & Hi & Ht & Hlast). exists i, t.
        split; [now apply lookup_app_l_Some |]. split; [exact Ht |].
        intros j s' Hj Hs'. apply lookup_app_Some in Hs' as [Hs' | [_ Hs']].
        -- now apply (Hlast j).
        -- destruct (j - List.length sheets)%nat; [| discriminate].
           simpl in Hs'. injection Hs' as <-. exact Hn.
      * intros (i & t & Hi & Ht & Hlast).
        apply lookup_app_Some in Hi as [Hi | [_ Hi]].
        -- exists i, t. split; [exact Hi |]. split; [exact Ht |].
           intros j s' Hj Hs'. apply (Hlast j); [exact Hj | now apply lookup_app_l_Some].
        -- destruct (i - List.length sheets)%nat; [| discriminate].
           simpl in Hi. injection Hi as ->. exfalso. apply Hn. exact Ht.
Qed.

Lemma parse_sheet_length (ws : worksheet) sheet_type :
  List.length (_parse_sheet ws sheet_type).2 = pred (filled_rows ws).
Proof.
  unfold filled_rows.
  destruct (Z.ltb_spec (Z.of_nat (List.length ws)) 2) as [Hlt | Hge].
  - unfold _parse_sheet. rewrite (proj2 (Z.ltb_lt _ _) Hlt). cbn [snd List.length].
    pose proof (length_filter (fun row => any_cell row = true) ws). lia.
  - destruct (filter (fun row => any_cell row = true) ws) as [|header_row data_rows] eqn:E.
    + unfold _parse_sheet. rewrite E. now destruct (_ <? _).
    + rewrite (parse_sheet_unfold ws sheet_type header_row data_rows) by (lia || exact E).
      cbn [snd]. now rewrite length_imap.
Qed.

Lemma parse_sheet_record (ws : worksheet) sheet_type r :
  r ∈ (_parse_sheet ws sheet_type).2 ->
  r !! "_sheet_name" = Some (VStr sheet_type)
  /\ forall k, is_Some (r !! k) <-> k ∈ (_parse_sheet ws sheet_type).1 \/ metadata_key k.
Proof.
  destruct (Z.ltb_spec (Z.of_nat (List.length ws)) 2) as [Hlt | Hge].
  - unfold _parse_sheet. rewrite (proj2 (Z.ltb_lt _ _) Hlt). intros Hin. inversion Hin.
  - destruct (filter (fun row => any_cell row = true) ws) as [|header_row data_rows] eqn:E.
    + unfold _parse_sheet. rewrite E. destruct (_ <? _); intros Hin; inversion Hin.
    + rewrite (parse_sheet_unfold ws sheet_type header_row data_rows) by (lia || exact E).
      cbn [fst snd]. intros Hin. apply elem_of_lookup_imap in Hin as (i & row & -> & _).
      split; [apply row_record_sheet_name |]. intros k. apply row_record_keys.
Qed.

(** The headers kept are the first of each name, names compared in
    lower case and those seen before left out. *)
Lemma unique_headers_from_spec (all_headers : list string) :
  forall seen : gset string,
    let unique_headers := unique_headers_from seen all_headers in
    NoDup (map PyStr.lower unique_headers)
    /\ unique_headers `sublist_of` all_headers
    /\ (forall h, h ∈ unique_headers -> PyStr.lower h ∉ seen)
    /\ (forall h, h ∈ all_headers ->
          PyStr.lower h ∈ seen
          \/ exists h', h' ∈ unique_headers /\ PyStr.lower h' = PyStr.lower h).
Proof.
  induction all_headers as [|h0 rest IH]; intros seen; cbn [unique_headers_from].
  - cbn zeta. split; [constructor | split; [constructor |]].
    split; intros x Hx; inversion Hx.
  - destruct (IH seen) as (Hnd & Hsub & Hout & Hcov).
    destruct (IH ({[PyStr.lower h0]} ∪ seen)) as (Hnd' & Hsub' & Hout' & Hcov').
    destruct (bool_decide_reflect (PyStr.lower h0 ∈ seen)) as [Hseen | Hseen]; cbn zeta.
    + split; [exact Hnd | split; [now apply sublist_cons | split; [exact Hout |]]].
      intros h Hh. apply elem_of_cons in Hh as [Heq | Hh]; [| exact (Hcov h Hh)].
      left. rewrite Heq. exact Hseen.
    + split; [| split; [now apply sublist_skip | split]].
      * cbn [map]. apply NoDup_cons. split; [| exact Hnd'].
        intros Hin. apply list_elem_of_fmap in Hin as (h' & Heq & Hh').
        apply Hout' in Hh'. apply Hh'. apply elem_of_union. left.
        apply elem_of_singleton. congruence.
      * intros h Hh. apply elem_of_cons in Hh as [Heq | Hh]; [rewrite Heq; exact Hseen |].
        apply Hout' in Hh. intros Hs. apply Hh. apply elem_of_union. right. exact Hs.
      * intros h Hh. apply elem_of_cons in Hh as [-> | Hh].
        -- right. exists h0. split; [left | reflexivity].
        -- destruct (Hcov' h Hh) as [Hs | (h' & Hh' & Heq)].
           ++ apply elem_of_union in Hs as [Hs | Hs]; [| now left].
              apply elem_of_singleton in Hs. right. exists h0. split; [left | congruence].
           ++ right. exists h'. split; [now right | exact Heq].
Qed.

Lemma validate_file_size_ok self f :
  validate_file_size self f = inr tt <-> within_size_limit self f.
Proof.
  unfold validate_file_size, within_size_limit.
  destruct (file_size f) as [size|]; [| split; [intros _ ? [=] | reflexivity]].
  destruct (Z.ltb_spec (MAX_FILE_SIZE_MB (config self) * 1024 * 1024) size) as [Hlt | Hge].
  - split; [discriminate |]. intros Hle. specialize (Hle size eq_refl). lia.
  - split; [| reflexivity]. intros _ size' [= <-]. exact Hge.
Qed.

Lemma load_and_parse_excel_unfold self f headers records :
  load_and_parse_excel self f = inr (headers, records) <->
  within_size_limit self f
  /\ exists sheets,
       workbook f = inr sheets
       /\ let q := parse_found (sheet_named "qualified" sheets) "Qualified" in
          let d := parse_found (sheet_named "disqualified" sheets) "Disqualified" in
          records = q.2 ++ d.2 /\ records <> []
          /\ headers = unique_headers_from ∅ (q.1 ++ d.1).
Proof.
  unfold load_and_parse_excel. rewrite <- validate_file_size_ok.
  destruct (validate_file_size self f) as [e | []];
    [split; [discriminate | intros [[=] _]] |].
  destruct (workbook f) as [e | sheets];
    [split; [discriminate | intros (_ & sheets & [=] & _)] |].
  destruct (bool_decide_reflect (sheets = [])) as [-> | Hsheets].
  { split; [discriminate |]. intros (_ & sheets & [= <-] & Hrec & Hne & _).
    cbn in Hrec. congruence. }
  rewrite pick_sheet_fold.
  destruct (sheet_named "qualified" sheets) as [qs|] eqn:Eq;
    destruct (sheet_named "disqualified" sheets) as [ds|] eqn:Ed.
  4: { split; [discriminate |]. intros (_ & sheets' & [= <-] & Hrec & Hne & _).
       rewrite Eq, Ed in Hrec. cbn in Hrec. congruence. }
  all: cbn zeta;
    match goal with
    | |- context [bool_decide (?l = [])] =>
        destruct (bool_decide_reflect (l = [])) as [Hnil | Hnil]
    end;
    [ split; [discriminate |]; intros (_ & sheets' & [= <-] & Hrec & Hne & _);
      rewrite Eq, Ed in Hrec; congruence
    | split;
      [ intros [= <- <-]; split; [reflexivity |]; exists sheets;
        split; [reflexivity |]; rewrite Eq, Ed; split; [reflexivity |];
        split; [exact Hnil | reflexivity]
      | intros (_ & sheets' & [= <-] & Hrec & Hne & Hhd); rewrite Eq, Ed in Hrec, Hhd;
        rewrite Hrec, Hhd; reflexivity ] ].
Qed.

(** X8.  What [load_and_parse_excel] returns: the records of the sheet
    named Qualified, all of them before those of the sheet named
    Disqualified, wherever the two sheets lie in the workbook, at least
    one record in all, each bearing the name of its sheet; headers that
    are pairwise different also when letter case is set aside; and every
    key of every record is a metadata key or is among the headers, up to
    letter case. *)
Theorem load_and_parse_excel_result self f headers records :
  load_and_parse_excel self f = inr (headers, records) ->
  exists q d,
    records = q ++ d /\ records <> []
    /\ Forall (fun r : record => r !! "_sheet_name" = Some (VStr "Qualified")) q
    /\ Forall (fun r : record => r !! "_sheet_name" = Some (VStr "Disqualified")) d
    /\ NoDup (map PyStr.lower headers)
    /\ forall (r : record) k,
         r ∈ records -> is_Some (r !! k) ->
         metadata_key k \/ exists h, h ∈ headers /\ PyStr.lower h = PyStr.lower k.
Proof.
  intros Hload. apply load_and_parse_excel_unfold in Hload as (_ & sheets & _ & Hload).
  cbn zeta in Hload. destruct Hload as (Hrec & Hne & Hhd).
  set (qs := sheet_named "qualified" sheets) in *.
  set (ds := sheet_named "disqualified" sheets) in *.
  assert (Hfound : forall found sheet_type (r : record),
            r ∈ (parse_found found sheet_type).2 ->
            r !! "_sheet_name" = Some (VStr sheet_type)
            /\ forall k, is_Some (r !! k) ->
                 k ∈ (parse_found found sheet_type).1 \/ metadata_key k).
  { intros [ws|] st r Hr; [| inversion Hr].
    destruct (parse_sheet_record ws st r Hr) as [Hname Hkeys].
    split; [exact Hname |]. intros k. apply Hkeys. }
  exists (parse_found qs "Qualified").2, (parse_found ds "Disqualified").2.
  destruct (unique_headers_from_spec
              ((parse_found qs "Qualified").1 ++ (parse_found ds "Disqualified").1) ∅)
    as (Hnd & _ & _ & Hcov).
  rewrite <- Hhd in Hnd, Hcov.
  split; [exact Hrec | split; [exact Hne |]].
  split; [apply Forall_forall; intros r Hr; exact (proj1 (Hfound _ _ r Hr)) |].
  split; [apply Forall_forall; intros r Hr; exact (proj1 (Hfound _ _ r Hr)) |].
  split; [exact Hnd |].
  intros r k Hr Hk. rewrite Hrec in Hr.
  assert (Hin : k ∈ (parse_found qs "Qualified").1 ++ (parse_found ds "Disqualified").1
                \/ metadata_key k).
  { apply elem_of_app in Hr as [Hr | Hr];
      destruct (Hfound _ _ r Hr) as [_ Hkeys];
      destruct (Hkeys k Hk) as [Hin | Hm]; auto; left; apply elem_of_app; auto. }
  destruct Hin as [Hin | Hm]; [| now left].
  destruct (Hcov k Hin) as [Hs | Hex]; [set_solver | now right].
Qed.

Lemma load_and_parse_excel_result_witness :
  exists headers records,
    load_and_parse_excel (new_processor default_config) two_sheet_file
    = inr (headers, records)
    /\ NoDup (map PyStr.lower headers).
Proof.
  destruct (load_and_parse_excel (new_processor default_config) two_sheet_file)
    as [e | [headers records]] eqn:E.
  - vm_compute in E. discriminate.
  - exists headers, records. split; [reflexivity |].
    destruct (load_and_parse_excel_result _ _ _ _ E) as (q & d & _ & _ & _ & _ & Hnd & _).
    exact Hnd.
Defined.

(** ** Loading a workbook in read-only mode *)

Lemma read_only_sheet_named_snoc name (sheets : list (string * ReadOnly.worksheet)) sheet :
  ReadOnly.sheet_named name (sheets ++ [sheet])
  = if decide (PyStr.strip (PyStr.lower sheet.1) = name) then Some sheet.2
    else ReadOnly.sheet_named name sheets.
Proof.
  unfold ReadOnly.sheet_named. rewrite filter_app.
  destruct (decide (PyStr.strip (PyStr.lower sheet.1) = name)) as [Hn | Hn].
  - rewrite filter_cons_True by exact Hn. cbn [filter list_filter].
    rewrite fmap_app. cbn [fmap list_fmap]. apply last_snoc.
  - rewrite filter_cons_False by exact Hn. cbn [filter list_filter].
    now rewrite app_nil_r.
Qed.

Lemma read_only_pick_sheet_fold (sheets : list (string * ReadOnly.worksheet)) :
  fold_left ReadOnly.pick_sheet sheets (None, None)
  = (ReadOnly.sheet_named "qualified" sheets, ReadOnly.sheet_named "disqualified" sheets).
Proof.
  induction sheets as [|sheet sheets IH] using rev_ind; [reflexivity |].
  rewrite fold_left_app, IH. cbn [fold_left]. rewrite !read_only_sheet_named_snoc.
  unfold ReadOnly.pick_sheet. cbn [fst snd].
  destruct (String.eqb_spec (PyStr.strip (PyStr.lower sheet.1)) "qualified") as [Hq | Hq].
  - rewrite decide_True by exact Hq.
    rewrite decide_False by (rewrite Hq; discriminate). reflexivity.
  - rewrite (decide_False (P := _ = "qualified")) by exact Hq.
    destruct (String.eqb_spec (PyStr.strip (PyStr.lower sheet.1)) "disqualified")
      as [Hd | Hd].
    + rewrite decide_True by exact Hd. reflexivity.
    + rewrite decide_False by exact Hd. reflexivity.
Qed.

Lemma read_only_file_size_ok self f :
  ReadOnly.validate_file_size self f = inr tt <-> ReadOnly.within_size_limit self f.
Proof.
  unfold ReadOnly.validate_file_size, ReadOnly.within_size_limit.
  destruct (ReadOnly.file_size f) as [size|]; [| split; [intros _ ? [=] | reflexivity]].
  destruct (Z.ltb_spec (MAX_FILE_SIZE_MB (config self) * 1024 * 1024) size) as [Hlt | Hge].
  - split; [discriminate |]. intros Hle. specialize (Hle size eq_refl). lia.
  - split; [| reflexivity]. intros _ size' [= <-]. exact Hge.
Qed.

(** A sheet is parsed without an exception exactly when it is readable,
    and gives as many records as it has data rows. *)
Lemma parse_found_readable found sheet_type :
  (ReadOnly.readable found ->
   exists res, ReadOnly.parse_found found sheet_type = inr res
               /\ List.length res.2 = ReadOnly.data_rows_of found)
  /\ (forall res, ReadOnly.parse_found found sheet_type = inr res ->
        ReadOnly.readable found
        /\ List.length res.2 = ReadOnly.data_rows_of found).
Proof.
  destruct found as [[[m|] rows]|]; cbn [ReadOnly.parse_found ReadOnly.readable].
  - unfold ReadOnly._parse_sheet.
    cbn [ReadOnly.max_row ReadOnly.iter_rows ReadOnly.data_rows_of].
    destruct (Z.ltb_spec m 2) as [Hlt | Hge].
    + split.
      * intros _. exists ([], []). split; [reflexivity |]. now destruct rows.
      * intros res [= <-]. split; [| now destruct rows].
        exists m. split; [reflexivity | lia].
    + destruct rows as [e | rows].
      * split.
        -- intros (m' & [= <-] & Hrows). destruct (Hrows Hge) as [rows [=]].
        -- intros res [=].
      * split.
        -- intros _. eexists. split; [reflexivity |]. apply parse_rows_length.
        -- intros res [= <-]. split; [| apply parse_rows_length].
           exists m. split; [reflexivity |]. intros _. now exists rows.
  - split.
    + intros (m & [=] & _).
    + intros res [=].
  - split.
    + intros _. exists ([], []). split; reflexivity.
    + intros res [= <-]. split; [exact I | reflexivity].
Qed.

Lemma read_only_load_unfold self f headers records :
  ReadOnly.load_and_parse_excel self f = inr (headers, records) <->
  ReadOnly.within_size_limit self f
  /\ exists sheets q d,
       ReadOnly.workbook f = inr sheets
       /\ ReadOnly.parse_found (ReadOnly.sheet_named "qualified" sheets) "Qualified" = inr q
       /\ ReadOnly.parse_found (ReadOnly.sheet_named "disqualified" sheets) "Disqualified"
          = inr d
       /\ records = q.2 ++ d.2 /\ records <> []
       /\ headers = unique_headers_from ∅ (q.1 ++ d.1).
Proof.
  unfold ReadOnly.load_and_parse_excel. rewrite <- read_only_file_size_ok.
  destruct (ReadOnly.validate_file_size self f) as [e | []];
    [split; [discriminate | intros [[=] _]] |].
  destruct (ReadOnly.workbook f) as [e | sheets];
    [split; [discriminate | intros (_ & sheets & q & d & [=] & _)] |].
  destruct sheets as [|sheet sheets].
  { split; [discriminate |].
    intros (_ & sheets & q & d & [= <-] & [= <-] & [= <-] & Hrec & Hne & _).
    cbn in Hrec. congruence. }
  rewrite read_only_pick_sheet_fold.
  set (all := sheet :: sheets).
  destruct (ReadOnly.sheet_named "qualified" all) as [qs|] eqn:Eq;
    destruct (ReadOnly.sheet_named "disqualified" all) as [ds|] eqn:Ed.
  4: { split; [discriminate |].
       intros (_ & sheets' & q & d & [= <-] & Hq & Hd & Hrec & Hne & _).
       fold all in Hq, Hd. rewrite Eq in Hq. rewrite Ed in Hd.
       cbn in Hq, Hd. injection Hq as <-. injection Hd as <-. cbn in Hrec. congruence. }
  all: cbn iota;
    match goal with
    | |- context [ReadOnly.parse_found ?found "Qualified"] =>
        destruct (ReadOnly.parse_found found "Qualified") as [e | q] eqn:Hq
    end;
    [ split; [discriminate |];
      intros (_ & sheets' & q & d & [= <-] & Hq' & _); fold all in Hq';
      rewrite Eq in Hq'; congruence |];
    match goal with
    | |- context [ReadOnly.parse_found ?found "Disqualified"] =>
        destruct (ReadOnly.parse_found found "Disqualified") as [e | d] eqn:Hd
    end;
    [ split; [discriminate |];
      intros (_ & sheets' & q' & d & [= <-] & _ & Hd' & _); fold all in Hd';
      rewrite Ed in Hd'; congruence |];
    cbn zeta;
    destruct (bool_decide_reflect (q.2 ++ d.2 = [])) as [Hnil | Hnil];
    [ split; [discriminate |];
      intros (_ & sheets' & q' & d' & [= <-] & Hq' & Hd' & Hrec & Hne & _);
      fold all in Hq', Hd'; rewrite Eq in Hq'; rewrite Ed in Hd';
      rewrite Hq in Hq'; rewrite Hd in Hd';
      injection Hq' as <-; injection Hd' as <-; congruence
    | split;
      [ intros [= <- <-]; split; [reflexivity |]; exists all, q, d;
        split; [reflexivity |]; rewrite Eq, Ed;
        split; [exact Hq |]; split; [exact Hd |];
        split; [reflexivity |]; split; [exact Hnil | reflexivity]
      | intros (_ & sheets' & q' & d' & [= <-] & Hq' & Hd' & Hrec & Hne & Hhd);
        fold all in Hq', Hd'; rewrite Eq in Hq'; rewrite Ed in Hd';
        rewrite Hq in Hq'; rewrite Hd in Hd';
        injection Hq' as <-; injection Hd' as <-;
        rewrite Hrec, Hhd; reflexivity ] ].
Qed.

(** X9.  [load_and_parse_excel] succeeds exactly when the file is within
    the size limit, the workbook opens, the last sheet named Qualified
    and the last sheet named Disqualified (letter case and blanks around
    the title set aside), where there is one, have a [max_row] and rows
    that can be read, and the two give at least one record; the records
    are then as many as their data rows.  A Qualified sheet without a
    [max_row] makes it fail with the text of the [TypeError]. *)
Theorem load_and_parse_excel_succeeds self f :
  ((exists result, ReadOnly.load_and_parse_excel self f = inr result) <->
   ReadOnly.within_size_limit self f
   /\ exists sheets,
        ReadOnly.workbook f = inr sheets
        /\ ReadOnly.readable (ReadOnly.sheet_named "qualified" sheets)
        /\ ReadOnly.readable (ReadOnly.sheet_named "disqualified" sheets)
        /\ (0 < ReadOnly.data_rows_of (ReadOnly.sheet_named "qualified" sheets)
                + ReadOnly.data_rows_of (ReadOnly.sheet_named "disqualified" sheets))%nat)
  /\ (forall headers records sheets,
        ReadOnly.load_and_parse_excel self f = inr (headers, records) ->
        ReadOnly.workbook f = inr sheets ->
        List.length records
        = (ReadOnly.data_rows_of (ReadOnly.sheet_named "qualified" sheets)
           + ReadOnly.data_rows_of (ReadOnly.sheet_named "disqualified" sheets))%nat)
  /\ (forall sheets ws,
        ReadOnly.within_size_limit self f ->
        ReadOnly.workbook f = inr sheets ->
        ReadOnly.sheet_named "qualified" sheets = Some ws ->
        ReadOnly.max_row ws = None ->
        ReadOnly.load_and_parse_excel self f
        = inl (ReadOnly.error_reading_file ReadOnly.none_less_than_int)).
Proof.
  split; [| split].
  - split.
    + intros [[headers records] Hload].
      apply read_only_load_unfold in Hload
        as (Hsize & sheets & q & d & Hwb & Hq & Hd & Hrec & Hne & _).
      apply (proj2 (parse_found_readable _ _)) in Hq as [Hrq Hlq].
      apply (proj2 (parse_found_readable _ _)) in Hd as [Hrd Hld].
      split; [exact Hsize |]. exists sheets.
      split; [exact Hwb | split; [exact Hrq | split; [exact Hrd |]]].
      rewrite <- Hlq, <- Hld, <- length_app, <- Hrec.
      destruct records; [congruence | cbn; lia].
    + intros (Hsize & sheets & Hwb & Hrq & Hrd & Hpos).
      destruct (proj1 (parse_found_readable _ "Qualified") Hrq) as (q & Hq & Hlq).
      destruct (proj1 (parse_found_readable _ "Disqualified") Hrd) as (d & Hd & Hld).
      eexists (_, _). apply read_only_load_unfold. split; [exact Hsize |].
      exists sheets, q, d.
      split; [exact Hwb | split; [exact Hq | split; [exact Hd |]]].
      split; [reflexivity | split; [| reflexivity]].
      intros Hnil. apply (f_equal (@List.length record)) in Hnil.
      rewrite length_app, Hlq, Hld in Hnil. cbn in Hnil. lia.
  - intros headers records sheets Hload Hwb.
    apply read_only_load_unfold in Hload
      as (_ & sheets' & q & d & Hwb' & Hq & Hd & -> & _).
    rewrite Hwb in Hwb'. injection Hwb' as <-.
    apply (proj2 (parse_found_readable _ _)) in Hq as [_ Hlq].
    apply (proj2 (parse_found_readable _ _)) in Hd as [_ Hld].
    now rewrite length_app, Hlq, Hld.
  - intros sheets ws Hsize Hwb Hq Hnone.
    unfold ReadOnly.load_and_parse_excel.
    rewrite (proj2 (read_only_file_size_ok self f) Hsize), Hwb.
    destruct sheets as [|sheet sheets]; [discriminate |].
    rewrite read_only_pick_sheet_fold, Hq.
    cbn [ReadOnly.parse_found]. unfold ReadOnly._parse_sheet. rewrite Hnone.
    now destruct (ReadOnly.sheet_named "disqualified" (sheet :: sheets)).
Qed.

Lemma load_and_parse_excel_succeeds_witness :
  (exists result,
     ReadOnly.load_and_parse_excel (new_processor default_config) dimensioned_file
     = inr result)
  /\ ReadOnly.load_and_parse_excel (new_processor default_config) undimensioned_file
     = inl (ReadOnly.error_reading_file ReadOnly.none_less_than_int).
Proof.
  assert (Hsize : forall f, ReadOnly.file_size f = Some 20480 ->
            ReadOnly.within_size_limit (new_processor default_config) f).
  { intros f Hf size Hs. rewrite Hf in Hs. injection Hs as <-. vm_compute. discriminate. }
  split.
  - apply (load_and_parse_excel_succeeds (new_processor default_config) dimensioned_file).
    split; [now apply Hsize |].
    eexists. split; [reflexivity |].
    split; [| split; [| vm_compute; lia]].
    + eexists. split; [reflexivity |]. intros _. eexists. reflexivity.
    + eexists. split; [reflexivity |]. intros _. eexists. reflexivity.
  - destruct (load_and_parse_excel_succeeds (new_processor default_config)
                undimensioned_file) as (_ & _ & Hnone).
    eapply Hnone; [now apply Hsize | reflexivity | reflexivity | reflexivity].
Defined.

Lemma pick_sheet_dimensioned (sheets : list (string * worksheet)) :
  forall found,
    fold_left ReadOnly.pick_sheet
              (map (fun sheet : string * worksheet =>
                      (sheet.1, ReadOnly.dimensioned sheet.2)) sheets)
              (option_map ReadOnly.dimensioned found.1,
               option_map ReadOnly.dimensioned found.2)
    = (option_map ReadOnly.dimensioned (fold_left pick_sheet sheets found).1,
       option_map ReadOnly.dimensioned (fold_left pick_sheet sheets found).2).
Proof.
  induction sheets as [|sheet sheets IH]; intros found; [reflexivity |].
  cbn [map fold_left]. rewrite <- IH. f_equal.
  unfold ReadOnly.pick_sheet, pick_sheet. cbn [fst snd].
  destruct (String.eqb _ "qualified"); [reflexivity |].
  destruct (String.eqb _ "disqualified"); reflexivity.
Qed.

Lemma parse_found_dimensioned found sheet_type :
  ReadOnly.parse_found (option_map ReadOnly.dimensioned found) sheet_type
  = inr (parse_found found sheet_type).
Proof. destruct found as [ws|]; [apply parse_sheet_dimensioned | reflexivity]. Qed.

(** On a workbook whose sheets all have the number of their rows as
    [max_row], the two models of [load_and_parse_excel] agree. *)
Lemma load_and_parse_excel_dimensioned self f :
  ReadOnly.load_and_parse_excel self (all_dimensioned f) = load_and_parse_excel self f.
Proof.
  unfold ReadOnly.load_and_parse_excel, load_and_parse_excel.
  unfold ReadOnly.validate_file_size, validate_file_size, all_dimensioned.
  cbn [ReadOnly.file_size ReadOnly.workbook].
  assert (Hbody :
    match
      match workbook f with
      | inl e => inl e
      | inr sheets =>
          inr (map (fun sheet : string * worksheet =>
                      (sheet.1, ReadOnly.dimensioned sheet.2)) sheets)
      end
    with
    | inl e => inl (ReadOnly.error_reading_file e)
    | inr [] => inl "No worksheets found in the file"
    | inr worksheets =>
        let found := fold_left ReadOnly.pick_sheet worksheets (None, None) in
        match found with
        | (None, None) =>
            inl ("Required sheets not found. File must contain at least one sheet named "
                 +:+ quoted "Qualified" +:+ " or " +:+ quoted "Disqualified"
                 +:+ " (case-insensitive)")
        | (qualified_sheet, disqualified_sheet) =>
            match ReadOnly.parse_found qualified_sheet "Qualified" with
            | inl e => inl (ReadOnly.error_reading_file e)
            | inr q =>
                match ReadOnly.parse_found disqualified_sheet "Disqualified" with
                | inl e => inl (ReadOnly.error_reading_file e)
                | inr d =>
                    let all_headers := q.1 ++ d.1 in
                    let all_records := q.2 ++ d.2 in
                    if bool_decide (all_records = [])
                    then inl "No valid data records found in any sheet"
                    else inr (unique_headers_from ∅ all_headers, all_records)
                end
            end
        end
    end
    = match workbook f with
      | inl e => inl ("Error reading file: " +:+ e)
      | inr worksheets =>
          if bool_decide (worksheets = []) then inl "No worksheets found in the file"
          else
            let found := fold_left pick_sheet worksheets (None, None) in
            match found with
            | (None, None) =>
                inl ("Required sheets not found. File must contain at least one sheet named "
                     +:+ quoted "Qualified" +:+ " or " +:+ quoted "Disqualified"
                     +:+ " (case-insensitive)")
            | (qualified_sheet, disqualified_sheet) =>
                let q := parse_found qualified_sheet "Qualified" in
                let d := parse_found disqualified_sheet "Disqualified" in
                let all_headers := q.1 ++ d.1 in
                let all_records := q.2 ++ d.2 in
                if bool_decide (all_records = [])
                then inl "No valid data records found in any sheet"
                else inr (unique_headers_from ∅ all_headers, all_records)
            end
      end).
  { destruct (workbook f) as [e | sheets]; [reflexivity |].
    destruct sheets as [|sheet sheets]; [reflexivity |].
    rewrite bool_decide_eq_false_2 by discriminate.
    pose proof (pick_sheet_dimensioned (sheet :: sheets) (None, None)) as Hpick.
    cbn [fst snd option_map] in Hpick.
    set (g := fun sheet : string * worksheet => (sheet.1, ReadOnly.dimensioned sheet.2))
      in *.
    change (match map g (sheet :: sheets) with
            | [] => ?a
            | _ :: _ => ?b
            end) with b.
    cbn zeta. rewrite Hpick.
    destruct (fold_left pick_sheet (sheet :: sheets) (None, None)) as [[qs|] [ds|]];
      cbn [fst snd option_map ReadOnly.parse_found parse_found];
      rewrite ?parse_sheet_dimensioned; reflexivity. }
  destruct (file_size f) as [size|]; [| exact Hbody].
  destruct (MAX_FILE_SIZE_MB (config self) * 1024 * 1024 <? size); [reflexivity |].
  exact Hbody.
Qed.

(** ** Checking the columns and the statuses *)

Lemma filter_all_kept {A} (P : A -> Prop) `{forall x, Decision (P x)} (l : list A) :
  (forall x, x ∈ l -> P x) -> filter P l = l.
Proof.
  induction l as [|x l IH]; intros Hall; [reflexivity |].
  rewrite filter_cons_True by (apply Hall; left).
  f_equal. apply IH. intros y Hy. apply Hall. now right.
Qed.

Lemma filter_nil_iff {A} (P : A -> Prop) `{forall x, Decision (P x)} (l : list A) :
  filter P l = [] <-> forall x, x ∈ l -> ~ P x.
Proof.
  split; [| apply filter_none].
  intros Hnil x Hx HP.
  assert (Hin : x ∈ filter P l) by (apply list_elem_of_filter; auto).
  rewrite Hnil in Hin. inversion Hin.
Qed.

(** There is no issue exactly when every status that is there is one of
    the accepted statuses, letter for letter. *)
Lemma no_issues_iff ratio self (records : list record) :
  (find_lead_status_issues ratio self records).1 = []
  <-> forall r, r ∈ records ->
        get r "Lead Status" = VNone
        \/ in_statuses (get r "Lead Status")
                       (list_to_set (ACCEPTED_LEAD_STATUS (v_config self))) = true.
Proof.
  unfold find_lead_status_issues. cbn [fst]. rewrite count_status_tally.
  match goal with
  | |- map ?f ?l = [] <-> _ =>
      assert (Hmap : map f l = [] <-> l = [])
        by (split; [apply map_eq_nil | intros ->; reflexivity]);
      rewrite Hmap; clear Hmap
  end.
  rewrite filter_nil_iff. split.
  - intros Hno r Hr.
    destruct (decide (get r "Lead Status" = VNone)) as [Hn | Hn]; [now left | right].
    assert (Hk : get r "Lead Status"
                 ∈ map fst (fold_left (tally_step status_key) records [])).
    { apply tally_keys. right. exists r. split; [exact Hr |]. now apply status_key_spec. }
    apply list_elem_of_fmap in Hk as ([v n] & Hv & Hin). cbn in Hv.
    specialize (Hno (v, n) Hin). cbn in Hno. rewrite Hv.
    now destruct (in_statuses v _).
  - intros Hall [v n] Hin Hbad. cbn in Hbad.
    assert (Hk : v ∈ map fst (fold_left (tally_step status_key) records [])).
    { apply list_elem_of_fmap. now exists (v, n). }
    apply tally_keys in Hk as [Hk | (r & Hr & Hs)]; [inversion Hk |].
    apply status_key_spec in Hs as [Hget Hne].
    destruct (Hall r Hr) as [Hn | Hok]; congruence.
Qed.

(** [validate_lead_status] passes exactly when every status that is
    there is blank or an accepted status once both are normalized. *)
Lemma validate_lead_status_passes self (records : list record) :
  validate_lead_status self records = inr tt
  <-> forall r, r ∈ records -> get r "Lead Status" <> VNone ->
        normalize (get r "Lead Status") = ""
        \/ exists status, status ∈ ACCEPTED_LEAD_STATUS (config self)
             /\ normalize (get r "Lead Status") = normalize (VStr status).
Proof.
  unfold validate_lead_status.
  assert (Hnil : unexpected_statuses self records = []
                 <-> forall r, r ∈ records -> get r "Lead Status" <> VNone ->
                       normalize (get r "Lead Status") = ""
                       \/ exists status, status ∈ ACCEPTED_LEAD_STATUS (config self)
                            /\ normalize (get r "Lead Status") = normalize (VStr status)).
  { unfold unexpected_statuses. rewrite filter_nil_iff. split.
    - intros Hno r Hr Hne.
      destruct (decide (normalize (get r "Lead Status") = "")) as [He | He]; [now left |].
      right.
      assert (Hin : normalize (get r "Lead Status")
                    ∈ map (fun status => normalize (VStr status))
                          (ACCEPTED_LEAD_STATUS (config self))).
      { destruct (decide (normalize (get r "Lead Status")
                          ∈ map (fun status => normalize (VStr status))
                                (ACCEPTED_LEAD_STATUS (config self)))) as [Hin | Hout];
          [exact Hin | exfalso].
        apply (Hno (normalize (get r "Lead Status"))); [| split; assumption].
        apply elem_of_elements, elem_of_list_to_set, list_elem_of_fmap.
        exists r. split; [reflexivity |]. apply list_elem_of_filter. split; [| exact Hr].
        destruct (is_none (get r "Lead Status")) eqn:E; [| reflexivity].
        apply is_none_spec in E. congruence. }
      apply list_elem_of_fmap in Hin as (status & Heq & Hst). eauto.
    - intros Hall s Hs [Hne Hout].
      apply elem_of_elements, elem_of_list_to_set, list_elem_of_fmap in Hs
        as (r & -> & Hr).
      apply list_elem_of_filter in Hr as [Hnn Hr].
      destruct (Hall r Hr) as [He | (status & Hst & Heq)].
      + intros Hn. rewrite Hn in Hnn. discriminate.
      + congruence.
      + apply Hout. apply list_elem_of_fmap. eauto. }
  rewrite <- Hnil. destruct (unexpected_statuses self records); split; congruence.
Qed.

Lemma no_issues_pass_validation_aux ratio validator processor (records : list record) :
  v_config validator = config processor ->
  (find_lead_status_issues ratio validator records).1 = [] ->
  validate_lead_status processor records = inr tt.
Proof.
  intros Hcfg Hno. apply validate_lead_status_passes. intros r Hr Hne.
  destruct (proj1 (no_issues_iff ratio validator records) Hno r Hr) as [Hn | Hok];
    [congruence |].
  right. destruct (get r "Lead Status") as [|status| | |] eqn:E; try discriminate.
  cbn [in_statuses] in Hok. apply bool_decide_eq_true in Hok.
  apply elem_of_list_to_set in Hok. rewrite Hcfg in Hok. eauto.
Qed.

(** X10.  Records in which [find_lead_status_issues] finds no issue pass
    [validate_lead_status], when validator and processor share their
    configuration: the screen of the corrections is at least as strict
    as the validation that follows it. *)
Theorem no_issues_pass_validation ratio validator processor (records : list record) :
  v_config validator = config processor ->
  (find_lead_status_issues ratio validator records).1 = [] ->
  validate_lead_status processor records = inr tt.
Proof. apply no_issues_pass_validation_aux. Qed.

Lemma no_issues_pass_validation_witness :
  validate_lead_status (new_processor default_config)
    [status_only "Qualified"; status_only "Disqualified"] = inr tt.
Proof.
  apply (no_issues_pass_validation (fun _ _ => 0%Q) some_validator).
  - reflexivity.
  - vm_compute. reflexivity.
Defined.

Lemma unique_headers_lower (all_headers : list string) k :
  k ∈ map PyStr.lower (unique_headers_from ∅ all_headers)
  <-> k ∈ map PyStr.lower all_headers.
Proof.
  destruct (unique_headers_from_spec all_headers ∅) as (_ & Hsub & _ & Hcov).
  rewrite !list_elem_of_fmap. split.
  - intros (h & -> & Hh). exists h. split; [reflexivity |].
    eapply sublist_subseteq; eassumption.
  - intros (h & -> & Hh). destruct (Hcov h Hh) as [Hs | (h' & Hh' & Heq)];
      [set_solver | eauto].
Qed.

Lemma validate_columns_passes self headers :
  validate_columns self headers = inr tt
  <-> forall col, col ∈ REQUIRED_COLUMNS (config self) ->
        exists h, h ∈ headers /\ PyStr.lower h = PyStr.lower col.
Proof.
  unfold validate_columns.
  assert (Hnil : filter (fun col => PyStr.lower col ∉ map PyStr.lower headers)
                        (REQUIRED_COLUMNS (config self)) = []
                 <-> forall col, col ∈ REQUIRED_COLUMNS (config self) ->
                       exists h, h ∈ headers /\ PyStr.lower h = PyStr.lower col).
  { rewrite filter_nil_iff. split.
    - intros Hno col Hcol.
      destruct (decide (PyStr.lower col ∈ map PyStr.lower headers)) as [Hin | Hout].
      + apply list_elem_of_fmap in Hin as (h & Heq & Hh). eauto.
      + exfalso. now apply (Hno col).
    - intros Hall col Hcol Hout. destruct (Hall col Hcol) as (h & Hh & Heq).
      apply Hout. apply list_elem_of_fmap. eauto. }
  rewrite <- Hnil.
  destruct (filter _ (REQUIRED_COLUMNS (config self))); split; congruence.
Qed.

(** X11.  Keeping only the first header of each name, as
    [load_and_parse_excel] does with the headers of the two sheets,
    changes neither the verdict of [validate_columns], which passes
    exactly when every required column has a header of its name up to
    letter case, nor the message it raises, nor what
    [check_optional_columns] reports. *)
Theorem unique_headers_keep_columns self (all_headers : list string) :
  let headers := unique_headers_from ∅ all_headers in
  validate_columns self headers = validate_columns self all_headers
  /\ check_optional_columns self headers = check_optional_columns self all_headers
  /\ (validate_columns self headers = inr tt
      <-> forall col, col ∈ REQUIRED_COLUMNS (config self) ->
            exists h, h ∈ all_headers /\ PyStr.lower h = PyStr.lower col).
Proof.
  intros headers.
  assert (Hv : validate_columns self headers = validate_columns self all_headers).
  { unfold validate_columns.
    rewrite (list_filter_iff
               (fun col => PyStr.lower col ∉ map PyStr.lower headers)
               (fun col => PyStr.lower col ∉ map PyStr.lower all_headers));
      [reflexivity |].
    intros col. unfold headers. now rewrite unique_headers_lower. }
  split; [exact Hv | split].
  - unfold check_optional_columns. apply fold_left_pointwise. intros m col.
    f_equal. apply bool_decide_ext. unfold headers. apply unique_headers_lower.
  - rewrite Hv. apply validate_columns_passes.
Qed.

(** ** Issues after the corrections *)

Lemma filter_map_comm {A B} (f : A -> B) (P : B -> Prop) `{forall y, Decision (P y)}
    (l : list A) :
  filter P (map f l) = map f (filter (fun x => P (f x)) l).
Proof.
  induction l as [|x l IH]; [reflexivity |]. cbn [map].
  destruct (decide (P (f x))) as [HP | HP].
  - rewrite !filter_cons_True by exact HP. cbn [map]. now rewrite IH.
  - rewrite !filter_cons_False by exact HP. exact IH.
Qed.

Lemma fold_left_map {A B C} (f : A -> C -> A) (g : B -> C) (l : list B) :
  forall a, fold_left f (map g l) a = fold_left (fun a x => f a (g x)) l a.
Proof. induction l as [|x l IH]; intros a; cbn; [reflexivity | apply IH]. Qed.

Section TallyFilter.
Context {K : Type} `{EqDecision K} (P : K -> Prop) `{forall k, Decision (P k)}.

Lemma upsert_filter k (d : list (K * nat)) :
  filter (fun e : K * nat => P e.1) (upsert k S 0%nat d)
  = if decide (P k) then upsert k S 0%nat (filter (fun e : K * nat => P e.1) d)
    else filter (fun e : K * nat => P e.1) d.
Proof.
  induction d as [|[k0 n] d IH]; cbn [upsert].
  - destruct (decide (P k)) as [HP | HP].
    + now rewrite filter_cons_True by exact HP.
    + now rewrite filter_cons_False by exact HP.
  - destruct (decide (k0 = k)) as [-> | Hne].
    + destruct (decide (P k)) as [HP | HP].
      * rewrite !filter_cons_True by exact HP. cbn [upsert].
        now rewrite decide_True by reflexivity.
      * now rewrite !filter_cons_False by exact HP.
    + destruct (decide (P k0)) as [HP0 | HP0].
      * rewrite !filter_cons_True by exact HP0. rewrite IH.
        destruct (decide (P k)); [| reflexivity].
        cbn [upsert]. now rewrite decide_False by exact Hne.
      * rewrite !filter_cons_False by exact HP0. exact IH.
Qed.

(** Leaving keys out of the finished counter is counting without
    them. *)
Lemma tally_filter (sel : record -> option K) (records : list record) :
  forall acc,
    filter (fun e : K * nat => P e.1) (fold_left (tally_step sel) records acc)
    = fold_left (tally_step (keep_if P sel)) records
                (filter (fun e : K * nat => P e.1) acc).
Proof.
  induction records as [|r records IH]; intros acc; cbn [fold_left]; [reflexivity |].
  rewrite IH. f_equal. unfold tally_step, keep_if.
  destruct (sel r) as [k|]; [| reflexivity].
  rewrite upsert_filter. now destruct (decide (P k)).
Qed.

End TallyFilter.

Lemma corrected_status_key cfg corrections r :
  to_accepted cfg corrections ->
  keep_if (fun v => in_statuses v (list_to_set (ACCEPTED_LEAD_STATUS cfg)) = false)
          status_key (corrected_contents corrections r)
  = keep_if (fun v => corrections !! v = None
                      /\ in_statuses v (list_to_set (ACCEPTED_LEAD_STATUS cfg)) = false)
            status_key r.
Proof.
  intros Hacc. unfold corrected_contents.
  destruct (corrections !! get r "Lead Status") as [c|] eqn:E.
  - assert (Hl : keep_if (fun v => in_statuses v (list_to_set (ACCEPTED_LEAD_STATUS cfg))
                                   = false)
                         status_key (<["Lead Status" := VStr c]> r) = None).
    { unfold keep_if, status_key. rewrite get_insert. cbn [is_none].
      rewrite decide_False; [reflexivity |]. cbn [in_statuses].
      rewrite bool_decide_eq_true_2; [discriminate |].
      apply elem_of_list_to_set. eapply Hacc; eassumption. }
    rewrite Hl. unfold keep_if, status_key.
    destruct (is_none (get r "Lead Status")); [reflexivity |].
    rewrite decide_False; [reflexivity |]. rewrite E. intros [? _]. discriminate.
  - unfold keep_if, status_key.
    destruct (is_none (get r "Lead Status")); [reflexivity |].
    destruct (decide (in_statuses (get r "Lead Status")
                        (list_to_set (ACCEPTED_LEAD_STATUS cfg)) = false)) as [Hi | Hi].
    + now rewrite decide_True by (split; assumption).
    + now rewrite decide_False by (intros [_ ?]; contradiction).
Qed.

Lemma corrected_issues ratio self corrections (rs : list record) :
  to_accepted (v_config self) corrections ->
  (find_lead_status_issues ratio self (map (corrected_contents corrections) rs)).1
  = filter (fun i => corrections !! original i = None)
           (find_lead_status_issues ratio self rs).1.
Proof.
  intros Hacc. unfold find_lead_status_issues. cbn [fst].
  rewrite !count_status_tally.
  rewrite (filter_map_comm (issue_of ratio _)).
  rewrite (list_filter_iff
             (fun x : value * nat =>
                corrections !! original (issue_of ratio
                    (list_to_set (ACCEPTED_LEAD_STATUS (v_config self))) x) = None)
             (fun x : value * nat => corrections !! x.1 = None))
    by (intros [v n]; reflexivity).
  f_equal. rewrite list_filter_filter.
  pose proof (tally_filter
                (fun v => in_statuses v (list_to_set (ACCEPTED_LEAD_STATUS (v_config self)))
                          = false)
                status_key (map (corrected_contents corrections) rs) []) as Hl.
  pose proof (tally_filter
                (fun v => corrections !! v = None
                          /\ in_statuses v
                               (list_to_set (ACCEPTED_LEAD_STATUS (v_config self)))
                             = false)
                status_key rs []) as Hr.
  cbn beta in Hl, Hr. rewrite Hl, Hr. clear Hl Hr.
  cbn [filter list_filter]. rewrite fold_left_map.
  apply fold_left_pointwise. intros d r. unfold tally_step.
  now rewrite (corrected_status_key (v_config self)).
Qed.

Lemma apply_corrections_issues ratio self corrections h locs rs :
  points_to h locs rs ->
  to_accepted (v_config self) corrections ->
  exists out n self' h' rs',
    apply_corrections self locs corrections h = Some ((out, n, self'), h')
    /\ points_to h' out rs'
    /\ v_config self' = v_config self
    /\ (find_lead_status_issues ratio self' rs').1
       = filter (fun i => corrections !! original i = None)
                (find_lead_status_issues ratio self rs).1.
Proof.
  intros Hp Hacc. destruct (decide (corrections = ∅)) as [-> | Hne].
  - exists locs, 0%nat, self, h, rs.
    split; [apply apply_corrections_empty |]. split; [exact Hp |].
    split; [reflexivity |].
    symmetry. apply filter_all_kept. intros i _. apply lookup_empty.
  - exists (seq (List.length h) (List.length rs)),
           (List.length (filter (has_correction corrections) rs)),
           {| v_config := v_config self; corrections_applied := corrections |},
           (h ++ map (corrected_contents corrections) rs),
           (map (corrected_contents corrections) rs).
    split; [now apply apply_corrections_run |].
    split; [unfold points_to; apply Forall2_fmap_r, fresh_points_to |].
    split; [reflexivity |].
    rewrite <- (corrected_issues ratio self corrections rs Hacc). reflexivity.
Qed.

(** X12.  When every replacement is an accepted status, the issues of
    the records that [apply_corrections] returns are the issues of the
    records given whose value has no replacement, with their counts and
    in their order: a correction removes its issue, adds none and leaves
    the others as they were.  When every issue has a replacement, none
    is left, and the records returned pass [validate_lead_status]. *)
Theorem corrections_remove_issues ratio self processor corrections h locs rs :
  points_to h locs rs ->
  to_accepted (v_config self) corrections ->
  v_config self = config processor ->
  exists out n self' h' rs',
    apply_corrections self locs corrections h = Some ((out, n, self'), h')
    /\ points_to h' out rs'
    /\ (find_lead_status_issues ratio self' rs').1
       = filter (fun i => corrections !! original i = None)
                (find_lead_status_issues ratio self rs).1
    /\ ((forall i, i ∈ (find_lead_status_issues ratio self rs).1 ->
           is_Some (corrections !! original i)) ->
        (find_lead_status_issues ratio self' rs').1 = []
        /\ validate_lead_status processor rs' = inr tt).
Proof.
  intros Hp Hacc Hcfg.
  destruct (apply_corrections_issues ratio self corrections h locs rs Hp Hacc)
    as (out & n & self' & h' & rs' & Hrun & Hp' & Hc & Heq).
  exists out, n, self', h', rs'.
  split; [exact Hrun | split; [exact Hp' | split; [exact Heq |]]].
  intros Hall.
  assert (Hnil : (find_lead_status_issues ratio self' rs').1 = []).
  { rewrite Heq. apply filter_none. intros i Hi Hn.
    destruct (Hall i Hi) as [c Hc']. congruence. }
  split; [exact Hnil |].
  apply (no_issues_pass_validation_aux ratio self'); [congruence | exact Hnil].
Qed.

Lemma corrections_remove_issues_witness :
  exists out n self' h' rs',
    apply_corrections some_validator (seq 0 7) qual_corrections qual_store
    = Some ((out, n, self'), h')
    /\ points_to h' out rs'
    /\ (find_lead_status_issues (fun _ _ => 0%Q) self' rs').1 = [].
Proof.
  assert (Hp : points_to qual_store (seq 0 7) qual_store) by (repeat constructor).
  assert (Hacc : to_accepted (v_config some_validator) qual_corrections).
  { intros k c Hc. unfold qual_corrections in Hc.
    apply lookup_singleton_Some in Hc as [_ <-]. left. }
  destruct (corrections_remove_issues (fun _ _ => 0%Q) some_validator
              (new_processor default_config) qual_corrections
              qual_store (seq 0 7) qual_store Hp Hacc eq_refl)
    as (out & n & self' & h' & rs' & Hrun & Hp' & _ & Hall).
  exists out, n, self', h', rs'. split; [exact Hrun | split; [exact Hp' |]].
  apply Hall. intros i Hi.
  assert (Ho : original i = VStr "Qual").
  { apply (list_elem_of_fmap_2 original) in Hi. vm_compute in Hi.
    apply list_elem_of_singleton in Hi. exact Hi. }
  rewrite Ho. exists "Qualified". reflexivity.
Defined.

(** ** The suggestions offered with the issues *)

Lemma normalize_lead_status_cases v :
  normalize_lead_status v = v
  \/ normalize_lead_status v = VStr "Qualified"
  \/ normalize_lead_status v = VStr "Disqualified".
Proof.
  unfold normalize_lead_status.
  destruct (negb (truthy v) || String.eqb (PyStr.strip (py_str v)) ""); [now left |].
  destruct (matches_pattern _ qualified_patterns); [right; now left |].
  destruct (matches_pattern _ disqualified_patterns); [right; now right | now left].
Qed.

Lemma auto_suggestion_some ratio valid v n a :
  auto_suggestion (issue_of ratio valid (v, n)) = Some a ->
  normalize_lead_status v = VStr a /\ VStr a <> v /\ a ∈ valid
  /\ (a = "Qualified" \/ a = "Disqualified").
Proof.
  unfold issue_of. cbn [auto_suggestion].
  destruct (normalize_lead_status_cases v) as [Hn | Hn].
  - rewrite Hn. destruct v as [|x| | |]; try discriminate.
    rewrite bool_decide_eq_false_2 by tauto. discriminate.
  - assert (Hx : exists x, normalize_lead_status v = VStr x
                           /\ (x = "Qualified" \/ x = "Disqualified"))
      by (destruct Hn as [Hn | Hn]; eauto).
    destruct Hx as (x & Hx & Hcase). rewrite Hx.
    destruct (bool_decide_reflect (VStr x <> v)) as [Hne | He]; [| discriminate].
    cbn [andb in_statuses].
    destruct (bool_decide_reflect (x ∈ valid)) as [Hin | Hout]; [| discriminate].
    intros [= <-]. auto.
Qed.

(** The dictionary of the suggestions holds, for the value of each issue
    that has a suggestion, that suggestion, and nothing else. *)
Lemma suggestions_fold (issues : list issue) :
  (forall i a, i ∈ issues -> auto_suggestion i = Some a -> PyStr.is_empty a = false) ->
  (forall i i', i ∈ issues -> i' ∈ issues -> original i = original i' ->
     auto_suggestion i = auto_suggestion i') ->
  forall v a,
    fold_left (fun (acc : gmap value string) (i : issue) =>
                 match auto_suggestion i with
                 | Some a => if PyStr.is_empty a then acc else <[original i := a]> acc
                 | None => acc
                 end) issues ∅ !! v = Some a
    <-> exists i, i ∈ issues /\ original i = v /\ auto_suggestion i = Some a.
Proof.
  induction issues as [|i0 issues IH] using rev_ind; intros Hfull Hsame v a.
  - cbn. rewrite lookup_empty. split; [discriminate | intros (i & Hi & _); inversion Hi].
  - assert (IH' : forall v a,
              fold_left (fun (acc : gmap value string) (i : issue) =>
                           match auto_suggestion i with
                           | Some a => if PyStr.is_empty a then acc
                                       else <[original i := a]> acc
                           | None => acc
                           end) issues ∅ !! v = Some a
              <-> exists i, i ∈ issues /\ original i = v /\ auto_suggestion i = Some a).
    { apply IH.
      - intros i a' Hi. apply Hfull. apply elem_of_app. now left.
      - intros i i' Hi Hi'. apply Hsame; apply elem_of_app; now left. }
    assert (Hlast : i0 ∈ issues ++ [i0]) by (apply elem_of_app; right; left).
    rewrite fold_left_app. cbn [fold_left].
    destruct (auto_suggestion i0) as [a0|] eqn:E0.
    + rewrite (Hfull i0 a0 Hlast E0).
      destruct (decide (original i0 = v)) as [Hv | Hv].
      * rewrite Hv, lookup_insert_eq. split.
        -- intros [= <-]. exists i0. auto.
        -- intros (i & Hi & Ho & Ha).
           rewrite (Hsame i i0 Hi Hlast) in Ha by congruence. congruence.
      * rewrite lookup_insert_ne by exact Hv. rewrite IH'. split.
        -- intros (i & Hi & Ho & Ha). exists i. split; [apply elem_of_app; now left | auto].
        -- intros (i & Hi & Ho & Ha). apply elem_of_app in Hi as [Hi | Hi]; [eauto |].
           apply list_elem_of_singleton in Hi. congruence.
    + rewrite IH'. split.
      * intros (i & Hi & Ho & Ha). exists i. split; [apply elem_of_app; now left | auto].
      * intros (i & Hi & Ho & Ha). apply elem_of_app in Hi as [Hi | Hi]; [eauto |].
        apply list_elem_of_singleton in Hi. congruence.
Qed.

(** X13.  The suggestions that [find_lead_status_issues] returns beside
    the issues: a value has a suggestion in the dictionary exactly when
    it is the value of an issue with that suggestion.  A suggestion is
    an accepted status, [Qualified] or [Disqualified], what
    [normalize_lead_status] makes of the value, and never the value
    itself.  Applied as corrections, the suggestions leave exactly the
    issues that had none. *)
Theorem auto_suggestions_of_issues ratio self (records : list record) :
  let issues := (find_lead_status_issues ratio self records).1 in
  let auto_suggestions := (find_lead_status_issues ratio self records).2 in
  (forall v a, auto_suggestions !! v = Some a
               <-> exists i, i ∈ issues /\ original i = v /\ auto_suggestion i = Some a)
  /\ (forall v a, auto_suggestions !! v = Some a ->
        a ∈ ACCEPTED_LEAD_STATUS (v_config self)
        /\ (a = "Qualified" \/ a = "Disqualified")
        /\ normalize_lead_status v = VStr a /\ VStr a <> v)
  /\ (forall h locs,
        points_to h locs records ->
        exists out n self' h' rs',
          apply_corrections self locs auto_suggestions h = Some ((out, n, self'), h')
          /\ points_to h' out rs'
          /\ (find_lead_status_issues ratio self' rs').1
             = filter (fun i => auto_suggestion i = None) issues).
Proof.
  intros issues auto_suggestions.
  set (valid := list_to_set (ACCEPTED_LEAD_STATUS (v_config self)) : gset string).
  assert (Hissue : forall i, i ∈ issues -> exists n, i = issue_of ratio valid (original i, n)).
  { intros i Hi. unfold issues, find_lead_status_issues in Hi. cbn [fst] in Hi.
    apply list_elem_of_fmap in Hi as ([v n] & -> & _). exists n. reflexivity. }
  assert (Hsome : forall i a, i ∈ issues -> auto_suggestion i = Some a ->
            normalize_lead_status (original i) = VStr a /\ VStr a <> original i
            /\ a ∈ valid /\ (a = "Qualified" \/ a = "Disqualified")).
  { intros i a Hi Ha. destruct (Hissue i Hi) as [n Hn]. rewrite Hn in Ha.
    exact (auto_suggestion_some ratio valid (original i) n a Ha). }
  assert (Hsame : forall i i', i ∈ issues -> i' ∈ issues -> original i = original i' ->
            auto_suggestion i = auto_suggestion i').
  { intros i i' Hi Hi' Ho. destruct (Hissue i Hi) as [n Hn].
    destruct (Hissue i' Hi') as [n' Hn']. rewrite Hn, Hn', Ho. reflexivity. }
  assert (Hlook : forall v a, auto_suggestions !! v = Some a
            <-> exists i, i ∈ issues /\ original i = v /\ auto_suggestion i = Some a).
  { intros v a. unfold auto_suggestions, find_lead_status_issues. cbn [snd].
    apply suggestions_fold.
    - intros i a' Hi Ha. destruct (Hsome i a' Hi Ha) as (_ & _ & _ & [-> | ->]); reflexivity.
    - exact Hsame. }
  split; [exact Hlook | split].
  - intros v a Hva. apply Hlook in Hva as (i & Hi & <- & Ha).
    destruct (Hsome i a Hi Ha) as (Hn & Hne & Hin & Hcase).
    split; [now apply elem_of_list_to_set in Hin | auto].
  - intros h locs Hp.
    assert (Hacc : to_accepted (v_config self) auto_suggestions).
    { intros v a Hva. apply Hlook in Hva as (i & Hi & _ & Ha).
      destruct (Hsome i a Hi Ha) as (_ & _ & Hin & _).
      now apply elem_of_list_to_set in Hin. }
    destruct (apply_corrections_issues ratio self auto_suggestions h locs records Hp Hacc)
      as (out & n & self' & h' & rs' & Hrun & Hp' & _ & Heq).
    exists out, n, self', h', rs'. split; [exact Hrun | split; [exact Hp' |]].
    rewrite Heq. apply list_filter_iff_elem. intros i Hi. fold issues in Hi. split.
    + intros Hnone. destruct (auto_suggestion i) as [a|] eqn:Ea; [| reflexivity].
      assert (Hl : auto_suggestions !! original i = Some a) by (apply Hlook; eauto).
      congruence.
    + intros Hnone. destruct (auto_suggestions !! original i) as [a|] eqn:El;
        [| reflexivity].
      apply Hlook in El as (i' & Hi' & Ho & Ha).
      rewrite (Hsame i' i Hi' Hi Ho) in Ha. congruence.
Qed.

(** ** Cleaning what is clean *)

Lemma is_space_upper_char c : PyStr.is_space (PyStr.upper_char c) = PyStr.is_space c.
Proof. destruct c as [[] [] [] [] [] [] [] []]; reflexivity. Qed.

Lemma is_space_not_cased c : PyStr.is_space c = true -> PyStr.is_cased c = false.
Proof. destruct c as [[] [] [] [] [] [] [] []]; vm_compute; congruence. Qed.

Lemma is_cased_lower_char c : PyStr.is_cased (PyStr.lower_char c) = PyStr.is_cased c.
Proof. destruct c as [[] [] [] [] [] [] [] []]; reflexivity. Qed.

Lemma is_cased_upper_char c : PyStr.is_cased (PyStr.upper_char c) = PyStr.is_cased c.
Proof. destruct c as [[] [] [] [] [] [] [] []]; reflexivity. Qed.

Lemma lower_char_idemp c : PyStr.lower_char (PyStr.lower_char c) = PyStr.lower_char c.
Proof. destruct c as [[] [] [] [] [] [] [] []]; reflexivity. Qed.

Lemma upper_char_idemp c : PyStr.upper_char (PyStr.upper_char c) = PyStr.upper_char c.
Proof. destruct c as [[] [] [] [] [] [] [] []]; reflexivity. Qed.

Lemma upper_char_dash c : PyStr.upper_char c = "-"%char -> c = "-"%char.
Proof. destruct c as [[] [] [] [] [] [] [] []]; vm_compute; congruence. Qed.

(** Trimming and capitalizing keep text in ASCII. *)
Lemma ascii_lower_char c : ascii_char (PyStr.lower_char c) = ascii_char c.
Proof. destruct c as [[] [] [] [] [] [] [] []]; reflexivity. Qed.

Lemma ascii_upper_char c : ascii_char (PyStr.upper_char c) = ascii_char c.
Proof. destruct c as [[] [] [] [] [] [] [] []]; reflexivity. Qed.

Lemma ascii_title_from s :
  forall b, ascii_text (PyStr.title_from b s) = ascii_text s.
Proof.
  induction s as [|c s IH]; intros b; cbn [PyStr.title_from ascii_text]; [reflexivity |].
  rewrite IH. destruct b; [now rewrite ascii_lower_char | now rewrite ascii_upper_char].
Qed.

Lemma ascii_lstrip s : ascii_text s = true -> ascii_text (PyStr.lstrip s) = true.
Proof.
  induction s as [|c s IH]; intros Hs; cbn [PyStr.lstrip]; [reflexivity |].
  destruct (PyStr.is_space c); [| exact Hs].
  cbn [ascii_text] in Hs. apply andb_true_iff in Hs as [_ Hs]. now apply IH.
Qed.

Lemma ascii_rstrip s : ascii_text s = true -> ascii_text (PyStr.rstrip s) = true.
Proof.
  induction s as [|c s IH]; intros Hs; cbn [PyStr.rstrip]; [reflexivity |].
  cbn [ascii_text] in Hs. apply andb_true_iff in Hs as [Hc Hs].
  destruct (PyStr.is_space c && PyStr.is_empty (PyStr.rstrip s)); [reflexivity |].
  cbn [ascii_text]. rewrite Hc. now apply IH.
Qed.

Lemma ascii_strip s : ascii_text s = true -> ascii_text (PyStr.strip s) = true.
Proof. intros Hs. unfold PyStr.strip. now apply ascii_rstrip, ascii_lstrip. Qed.

Lemma title_from_idemp s :
  ascii_text s = true ->
  forall b, PyStr.title_from b (PyStr.title_from b s) = PyStr.title_from b s.
Proof.
  induction s as [|c s IH]; intros Hs b; cbn [PyStr.title_from]; [reflexivity |].
  cbn [ascii_text] in Hs. apply andb_true_iff in Hs as [_ Hs].
  destruct b.
  - rewrite lower_char_idemp, is_cased_lower_char. now rewrite IH.
  - rewrite upper_char_idemp, is_cased_upper_char. now rewrite IH.
Qed.

Lemma is_empty_title_from b s :
  PyStr.is_empty (PyStr.title_from b s) = PyStr.is_empty s.
Proof. destruct s; reflexivity. Qed.

Lemma rstrip_title_from s :
  ascii_text s = true ->
  forall b, PyStr.rstrip (PyStr.title_from b s) = PyStr.title_from b (PyStr.rstrip s).
Proof.
  induction s as [|c s IH]; intros Hs b; cbn [PyStr.title_from PyStr.rstrip];
    [reflexivity |].
  cbn [ascii_text] in Hs. apply andb_true_iff in Hs as [_ Hs].
  rewrite IH by exact Hs. rewrite is_empty_title_from.
  assert (Hsp : PyStr.is_space (if b then PyStr.lower_char c else PyStr.upper_char c)
                = PyStr.is_space c).
  { destruct b; [apply is_space_lower_char | apply is_space_upper_char]. }
  rewrite Hsp.
  destruct (PyStr.is_space c && PyStr.is_empty (PyStr.rstrip s)); reflexivity.
Qed.

Lemma lstrip_title s :
  ascii_text s = true ->
  PyStr.lstrip (PyStr.title s) = PyStr.title (PyStr.lstrip s).
Proof.
  unfold PyStr.title.
  induction s as [|c s IH]; intros Hs; cbn [PyStr.title_from PyStr.lstrip]; [reflexivity |].
  cbn [ascii_text] in Hs. apply andb_true_iff in Hs as [_ Hs].
  rewrite is_space_upper_char. destruct (PyStr.is_space c) eqn:E; [| reflexivity].
  rewrite (is_space_not_cased c E). now apply IH.
Qed.

(** Trimming and capitalizing text in ASCII may be done in either
    order. *)
Lemma strip_title s :
  ascii_text s = true ->
  PyStr.strip (PyStr.title s) = PyStr.title (PyStr.strip s).
Proof.
  intros Hs. unfold PyStr.strip. rewrite lstrip_title by exact Hs.
  apply rstrip_title_from. now apply ascii_lstrip.
Qed.

(** Text in ASCII that is in title case stays as it is. *)
Lemma title_idemp s :
  ascii_text s = true -> PyStr.title (PyStr.title s) = PyStr.title s.
Proof. intros Hs. now apply title_from_idemp. Qed.

Lemma title_empty s : PyStr.title s = "" -> s = "".
Proof. destruct s; [reflexivity | discriminate]. Qed.

Lemma title_dash s : PyStr.title s = "-" -> s = "-".
Proof.
  destruct s as [|c [|c' s]]; cbn; try discriminate.
  intros [= Hc]. now rewrite (upper_char_dash c Hc).
Qed.

Lemma is_blank_value_str s :
  is_blank_value (VStr s) = true <-> PyStr.strip s = "" \/ PyStr.strip s = "-".
Proof.
  rewrite is_blank_value_spec. unfold blank_or_dash. cbn [py_str].
  split; [intros [? | ?]; [discriminate | assumption] | auto].
Qed.

(** A cleaned value in ASCII is left as it is by cleaning. *)
Lemma cleaned_value_idemp field v :
  field ∈ key_fields -> ascii_value v ->
  cleaned_value field (cleaned_value field v) = cleaned_value field v.
Proof.
  intros Hf Hascii. destruct (decide (blank_or_dash v)) as [Hb | Hb].
  - rewrite (cleaned_value_blank field v Hb).
    unfold key_fields in Hf.
    repeat (apply elem_of_cons in Hf as [-> | Hf]); [| | | inversion Hf]; reflexivity.
  - assert (Hne : PyStr.strip (py_str v) <> "" /\ PyStr.strip (py_str v) <> "-")
      by (unfold blank_or_dash in Hb; tauto).
    destruct Hne as [Hne Hnd].
    assert (Hst : ascii_text (PyStr.strip (py_str v)) = true) by (now apply ascii_strip).
    destruct (decide (field = "DQ Reason")) as [-> | Hq].
    + rewrite (cleaned_value_titled v Hb).
      assert (Hb' : ~ blank_or_dash (VStr (PyStr.title (PyStr.strip (py_str v))))).
      { intros Hb'. apply is_blank_value_spec, is_blank_value_str in Hb'.
        rewrite strip_title, strip_idemp in Hb' by exact Hst.
        destruct Hb' as [He | He]; [apply title_empty in He | apply title_dash in He];
          congruence. }
      rewrite (cleaned_value_titled _ Hb'). cbn [py_str].
      rewrite strip_title, strip_idemp by exact Hst.
      now rewrite title_idemp.
    + rewrite (cleaned_value_trimmed field v Hb Hq).
      assert (Hb' : ~ blank_or_dash (VStr (PyStr.strip (py_str v)))).
      { intros Hb'. apply is_blank_value_spec, is_blank_value_str in Hb'.
        rewrite strip_idemp in Hb'. tauto. }
      rewrite (cleaned_value_trimmed field _ Hb' Hq). cbn [py_str].
      now rewrite strip_idemp.
Qed.

Lemma get_cleaned_key (r : record) field :
  field ∈ key_fields -> get (cleaned_contents r) field = cleaned_value field (get r field).
Proof. intros Hf. unfold get at 1. now rewrite cleaned_contents_key. Qed.

Lemma get_cleaned_other (r : record) k :
  k ∉ key_fields -> get (cleaned_contents r) k = get r k.
Proof. intros Hk. unfold get. now rewrite cleaned_contents_other. Qed.

Lemma cleaned_contents_idemp (r : record) :
  ascii_key_fields r ->
  cleaned_contents (cleaned_contents r) = cleaned_contents r.
Proof.
  intros Hascii.
  apply map_eq. intros k. destruct (decide (k ∈ key_fields)) as [Hk | Hk].
  - rewrite !cleaned_contents_key by exact Hk.
    rewrite get_cleaned_key by exact Hk.
    rewrite cleaned_value_idemp; [reflexivity | exact Hk | now apply Hascii].
  - now rewrite !cleaned_contents_other.
Qed.

Lemma ascii_cleaned_value field v :
  field ∈ key_fields -> ascii_value v -> ascii_value (cleaned_value field v).
Proof.
  intros Hf Hv. destruct (decide (blank_or_dash v)) as [Hb | Hb].
  - rewrite (cleaned_value_blank field v Hb). unfold key_fields in Hf.
    repeat (apply elem_of_cons in Hf as [-> | Hf]); [| | | inversion Hf]; reflexivity.
  - destruct (decide (field = "DQ Reason")) as [-> | Hq].
    + rewrite (cleaned_value_titled v Hb). unfold ascii_value. cbn [py_str].
      unfold PyStr.title. rewrite ascii_title_from. now apply ascii_strip.
    + rewrite (cleaned_value_trimmed field v Hb Hq). unfold ascii_value. cbn [py_str].
      now apply ascii_strip.
Qed.

Lemma ascii_cleaned_contents (r : record) :
  ascii_key_fields r -> ascii_key_fields (cleaned_contents r).
Proof.
  intros Hr field Hf. rewrite get_cleaned_key by exact Hf.
  apply ascii_cleaned_value; [exact Hf | now apply Hr].
Qed.

(** Cleaning changes the normalized status only from a dash to the
    empty text. *)
Lemma cleaned_status (r : record) :
  status_of (cleaned_contents r) = status_of r
  \/ (status_of (cleaned_contents r) = "" /\ status_of r = "-").
Proof.
  rewrite !status_of_get.
  rewrite get_cleaned_key by (unfold key_fields; left).
  set (v := get r "Lead Status").
  destruct (decide (blank_or_dash v)) as [Hb | Hb].
  - rewrite (cleaned_value_blank _ v Hb). cbn.
    destruct Hb as [-> | [Hs | Hs]]; [now left | |]; unfold normalize;
      destruct (is_none v) eqn:En; try (now left); rewrite Hs; auto.
  - rewrite (cleaned_value_trimmed _ v Hb) by discriminate. left.
    unfold normalize. cbn [is_none py_str]. rewrite strip_idemp.
    destruct (is_none v) eqn:En; [| reflexivity].
    apply is_none_spec in En. exfalso. apply Hb. now left.
Qed.

Lemma cleaned_is_qualified (r : record) :
  is_qualified (cleaned_contents r) = is_qualified r.
Proof.
  unfold is_qualified. destruct (cleaned_status r) as [-> | [-> ->]]; reflexivity.
Qed.

Lemma cleaned_is_disqualified (r : record) :
  is_disqualified (cleaned_contents r) = is_disqualified r.
Proof.
  unfold is_disqualified. destruct (cleaned_status r) as [-> | [-> ->]]; reflexivity.
Qed.

(** X14.  [clean_data] changes nothing in records that it has cleaned,
    when the three key fields hold text in ASCII: run on its own result
    it succeeds and returns records with the very contents of that
    result, again in ASCII, in objects that are again new. *)
Theorem clean_data_twice h locs rs :
  points_to h locs rs ->
  Forall ascii_key_fields rs ->
  exists out h' rs',
    clean_data locs h = Some (out, h')
    /\ points_to h' out rs'
    /\ Forall ascii_key_fields rs'
    /\ exists out2 h2,
         clean_data out h' = Some (out2, h2)
         /\ points_to h2 out2 rs'
         /\ Forall (fun l2 => (l2 ∉ out) /\ (l2 ∉ locs)) out2.
Proof.
  intros Hp Hascii.
  set (news := map cleaned_contents rs).
  assert (Hnew : points_to (h ++ news) (seq (List.length h) (List.length rs)) news).
  { unfold points_to, news. apply Forall2_fmap_r. apply fresh_points_to. }
  exists (seq (List.length h) (List.length rs)), (h ++ news), news.
  split; [now apply clean_data_run | split; [exact Hnew | split]].
  { unfold news. apply Forall_forall. intros r' Hr'.
    apply list_elem_of_fmap in Hr' as (r & -> & Hr).
    apply ascii_cleaned_contents. rewrite Forall_forall in Hascii. now apply Hascii. }
  exists (seq (List.length (h ++ news)) (List.length news)),
         ((h ++ news) ++ map cleaned_contents news).
  split; [now apply clean_data_run | split].
  - assert (Hsame : map cleaned_contents news = news).
    { unfold news. rewrite map_map. apply map_ext_in. intros r Hr.
      apply cleaned_contents_idemp. rewrite Forall_forall in Hascii.
      apply Hascii. now apply list_elem_of_In. }
    rewrite Hsame. pose proof (fresh_points_to (h ++ news) (fun r => r) news) as Hf.
    rewrite List.map_id in Hf. exact Hf.
  - apply Forall_forall. intros l2 Hl2. apply elem_of_seq in Hl2.
    rewrite length_app in Hl2. split.
    + intros Hin. apply elem_of_seq in Hin. unfold news in Hl2.
      rewrite length_map in Hl2. lia.
    + intros Hin. apply list_elem_of_lookup in Hin as [i Hi].
      destruct (Forall2_lookup_l _ _ _ _ _ Hp Hi) as (r & _ & Hr).
      apply lookup_lt_Some in Hr. lia.
Qed.

Lemma clean_data_twice_witness :
  exists out h' rs' out2 h2,
    clean_data [0%nat] [raw_lead] = Some (out, h')
    /\ clean_data out h' = Some (out2, h2)
    /\ points_to h2 out2 rs'.
Proof.
  assert (Hp : points_to [raw_lead] [0%nat] [raw_lead]) by (repeat constructor).
  assert (Hascii : Forall ascii_key_fields [raw_lead]).
  { constructor; [| constructor]. intros field Hf. unfold key_fields in Hf.
    repeat (apply elem_of_cons in Hf as [-> | Hf]); [| | | inversion Hf];
      vm_compute; reflexivity. }
  destruct (clean_data_twice [raw_lead] [0%nat] [raw_lead] Hp Hascii)
    as (out & h' & rs' & Hrun & _ & _ & out2 & h2 & Hrun2 & Hp2 & _).
  exists out, h', rs', out2, h2. auto.
Defined.

(** ** Cleaning and the date filters *)

Lemma option_column_not_key headers col :
  col ∈ get_date_column_options headers -> (col ∉ key_fields) /\ ~ metadata_key col.
Proof.
  unfold get_date_column_options. intros Hin.
  apply list_elem_of_filter in Hin as [Hout _]. split.
  - intros Hk. apply Hout. unfold key_fields in Hk.
    repeat (apply elem_of_cons in Hk as [-> | Hk]); [| | | inversion Hk];
      vm_compute; repeat constructor.
  - intros [-> | ->]; apply Hout; vm_compute; repeat constructor.
Qed.

Lemma detected_column_not_key self headers col :
  (detect_date_column self headers).1 = Some col -> (col ∉ key_fields) /\ ~ metadata_key col.
Proof.
  unfold detect_date_column.
  destruct (headers_by_lower headers !! "audit date") as [c|] eqn:E; [| discriminate].
  cbn [fst]. intros [= ->].
  apply headers_by_lower_lookup in E as (i & _ & Hl & _). split.
  - intros Hk. unfold key_fields in Hk.
    repeat (apply elem_of_cons in Hk as [-> | Hk]); [| | | inversion Hk]; discriminate.
  - intros [-> | ->]; discriminate.
Qed.

Lemma parse_dates_ext (c : record -> record) col (records : list record) :
  (forall r, get (c r) col = get r col) ->
  forall f : nat -> nat,
    omap (fun ir : nat * record =>
            match parse_date (get ir.2 col) with
            | Some d => Some (ir.1, d)
            | None => None
            end)
         (imap (fun i r => (f i, r)) (map c records))
    = omap (fun ir : nat * record =>
              match parse_date (get ir.2 col) with
              | Some d => Some (ir.1, d)
              | None => None
              end)
           (imap (fun i r => (f i, r)) records).
Proof.
  intros Hc. induction records as [|r records IH]; intros f; [reflexivity |].
  cbn [map]. rewrite !imap_cons. cbn [omap list_omap fst snd]. rewrite Hc.
  destruct (parse_date (get r col)); [f_equal |]; apply (IH (f ∘ S)).
Qed.

Section DateFiltersUnderMap.
Variables (c : record -> record) (col : string).
Hypothesis date_kept : forall r, get (c r) col = get r col.

Lemma earliest_fold_map (records : list record) :
  forall acc,
    fold_left (earliest_step col) (map c records) acc
    = fold_left (earliest_step col) records acc.
Proof.
  intros acc. rewrite fold_left_map. apply fold_left_pointwise.
  intros a r. unfold earliest_step. now rewrite date_kept.
Qed.

Lemma filter_records_by_date_map self (records : list record) d :
  uses_column self col ->
  filter_records_by_date self (map c records) d
  = map c (filter_records_by_date self records d).
Proof.
  intros Hu. rewrite !(filter_records_by_date_unfold self col) by exact Hu.
  rewrite filter_map_comm. f_equal. apply list_filter_iff. intros r.
  unfold dated. now rewrite date_kept.
Qed.

Lemma filter_records_mtd_map self (records : list record) d :
  uses_column self col ->
  filter_records_mtd self (map c records) d
  = map c (filter_records_mtd self records d).
Proof.
  intros [Hc Hne]. rewrite !(filter_records_mtd_unfold self col) by assumption.
  rewrite earliest_fold_map.
  destruct (fold_left (earliest_step col) records None) as [e|]; [| reflexivity].
  rewrite filter_map_comm. f_equal. apply list_filter_iff. intros r.
  unfold in_window. now rewrite date_kept.
Qed.

End DateFiltersUnderMap.

Lemma count_if_map (c : record -> record) p (records : list record) :
  (forall r, p (c r) = p r) ->
  count_if p (map c records) = count_if p records.
Proof.
  intros Hp. rewrite !count_if_length, filter_map_comm, length_map. f_equal.
  apply list_filter_iff. intros r. now rewrite Hp.
Qed.

(** X15.  Whichever way the date column is chosen, found by
    [detect_date_column] or picked among [get_date_column_options], it is
    not a field that [clean_data] rewrites.  Cleaning then changes no
    date: the dates parsed from the cleaned records are those of the
    records given, the daily and the month-to-date selections of the
    cleaned records are the cleaned records of the selections, and the
    combined summary counts the same, cleaned or not. *)
Theorem cleaning_keeps_dates self headers col h locs rs :
  (detect_date_column self headers).1 = Some col \/ col ∈ get_date_column_options headers ->
  points_to h locs rs ->
  exists out h' rs',
    clean_data locs h = Some (out, h')
    /\ points_to h' out rs'
    /\ (forall processor,
          (parse_dates_from_records processor rs' col).1
          = (parse_dates_from_records processor rs col).1)
    /\ (forall filt d,
          uses_column filt col ->
          List.length (filter_records_by_date filt rs' d)
          = List.length (filter_records_by_date filt rs d)
          /\ List.length (filter_records_mtd filt rs' d)
             = List.length (filter_records_mtd filt rs d)
          /\ generate_combined_qa_report (filter_records_by_date filt rs' d)
                                         (filter_records_mtd filt rs' d)
             = generate_combined_qa_report (filter_records_by_date filt rs d)
                                           (filter_records_mtd filt rs d)).
Proof.
  intros Hcol Hp.
  assert (Hkey : col ∉ key_fields).
  { destruct Hcol as [Hd | Ho];
      [apply (detected_column_not_key self headers col Hd)
      | apply (option_column_not_key headers col Ho)]. }
  assert (Hkept : forall r, get (cleaned_contents r) col = get r col)
    by (intros r; now apply get_cleaned_other).
  exists (seq (List.length h) (List.length rs)), (h ++ map cleaned_contents rs),
         (map cleaned_contents rs).
  split; [now apply clean_data_run |].
  split; [unfold points_to; apply Forall2_fmap_r, fresh_points_to |].
  split.
  - intros processor. unfold parse_dates_from_records. cbn [fst].
    apply (parse_dates_ext cleaned_contents col rs Hkept (fun i => i)).
  - intros filt d Hu.
    rewrite (filter_records_by_date_map cleaned_contents col Hkept) by exact Hu.
    rewrite (filter_records_mtd_map cleaned_contents col Hkept) by exact Hu.
    rewrite !length_map. split; [reflexivity | split; [reflexivity |]].
    unfold generate_combined_qa_report. rewrite !length_map.
    now rewrite !(count_if_map cleaned_contents is_qualified)
      by apply cleaned_is_qualified.
Qed.

Lemma cleaning_keeps_dates_witness :
  exists out h' rs',
    clean_data [0%nat] [raw_lead] = Some (out, h')
    /\ points_to h' out rs'
    /\ generate_combined_qa_report
         (filter_records_by_date scenario_processor rs' scenario_date)
         (filter_records_mtd scenario_processor rs' scenario_date)
       = generate_combined_qa_report
           (filter_records_by_date scenario_processor [raw_lead] scenario_date)
           (filter_records_mtd scenario_processor [raw_lead] scenario_date).
Proof.
  assert (Hp : points_to [raw_lead] [0%nat] [raw_lead]) by (repeat constructor).
  destruct (cleaning_keeps_dates (new_processor default_config)
              ["Lead Status"; "Audit Date"] "Audit Date" [raw_lead] [0%nat] [raw_lead]
              (or_introl eq_refl) Hp)
    as (out & h' & rs' & Hrun & Hp' & _ & Hrep).
  exists out, h', rs'. split; [exact Hrun | split; [exact Hp' |]].
  apply Hrep. split; [reflexivity | discriminate].
Defined.

(** ** Serial numbers *)

Lemma digit_not_space a : PyStr.is_digit a = true -> PyStr.is_space a = false.
Proof. destruct a as [[] [] [] [] [] [] [] []]; vm_compute; congruence. Qed.

Lemma is_digit_lower_char c : PyStr.is_digit (PyStr.lower_char c) = PyStr.is_digit c.
Proof. destruct c as [[] [] [] [] [] [] [] []]; reflexivity. Qed.

Lemma digit_lower_char a : PyStr.is_digit a = true -> PyStr.lower_char a = a.
Proof. destruct a as [[] [] [] [] [] [] [] []]; vm_compute; congruence. Qed.

Lemma all_digits_cons a s :
  PyStr.all_digits (String a s) = true
  <-> PyStr.is_digit a = true /\ PyStr.all_digits s = true.
Proof. cbn [PyStr.all_digits]. apply andb_true_iff. Qed.

Lemma all_digits_rstrip s : PyStr.all_digits s = true -> PyStr.rstrip s = s.
Proof.
  induction s as [|a s IH]; [reflexivity |]. intros Hd.
  apply all_digits_cons in Hd as [Ha Hs]. cbn [PyStr.rstrip].
  rewrite (digit_not_space a Ha), (IH Hs). reflexivity.
Qed.

Lemma all_digits_strip s : PyStr.all_digits s = true -> PyStr.strip s = s.
Proof.
  intros Hd. unfold PyStr.strip.
  assert (Hl : PyStr.lstrip s = s).
  { destruct s as [|a s]; [reflexivity |]. apply all_digits_cons in Hd as [Ha _].
    cbn [PyStr.lstrip]. now rewrite (digit_not_space a Ha). }
  rewrite Hl. now apply all_digits_rstrip.
Qed.

Lemma all_digits_lower s : PyStr.all_digits s = true -> PyStr.lower s = s.
Proof.
  induction s as [|a s IH]; [reflexivity |]. intros Hd.
  apply all_digits_cons in Hd as [Ha Hs]. cbn [PyStr.lower].
  now rewrite (digit_lower_char a Ha), (IH Hs).
Qed.

Lemma all_digits_contains c s :
  PyStr.is_digit c = false -> PyStr.all_digits s = true -> PyStr.contains c s = false.
Proof.
  intros Hc. induction s as [|a s IH]; [reflexivity |]. intros Hd.
  apply all_digits_cons in Hd as [Ha Hs]. cbn [PyStr.contains]. rewrite (IH Hs).
  destruct (Ascii.eqb_spec a c) as [-> | Hne]; [congruence | reflexivity].
Qed.

Lemma remove_absent c s : PyStr.contains c s = false -> PyStr.remove c s = s.
Proof.
  induction s as [|a s IH]; [reflexivity |]. cbn [PyStr.contains PyStr.remove].
  intros Hc. apply orb_false_iff in Hc as [Ha Hs]. rewrite Ha. now rewrite (IH Hs).
Qed.

Lemma split_head_absent c s : PyStr.contains c s = false -> PyStr.split_head c s = s.
Proof.
  induction s as [|a s IH]; [reflexivity |]. cbn [PyStr.contains PyStr.split_head].
  intros Hc. apply orb_false_iff in Hc as [Ha Hs]. rewrite Ha. now rewrite (IH Hs).
Qed.

Lemma after_first_absent c s : PyStr.contains c s = false -> after_first c s = "".
Proof.
  induction s as [|a s IH]; [reflexivity |]. cbn [PyStr.contains after_first].
  intros Hc. apply orb_false_iff in Hc as [Ha Hs]. rewrite Ha. now apply IH.
Qed.

Lemma append_empty s : s +:+ "" = s.
Proof.
  induction s as [|a s IH]; [reflexivity |].
  change (String a (s +:+ "") = String a s). now rewrite IH.
Qed.

Lemma match_classes_digits cs :
  forall s txt rest,
    Strptime.match_classes cs s = Some (txt, rest) ->
    PyStr.all_digits s = true -> PyStr.all_digits rest = true.
Proof.
  induction cs as [|c cs IH]; intros s txt rest; cbn [Strptime.match_classes].
  - now intros [= _ <-].
  - destruct s as [|a s]; [discriminate |].
    destruct (c a); [| discriminate].
    destruct (Strptime.match_classes cs s) as [[txt' rest']|] eqn:E; [| discriminate].
    intros [= _ <-] Hd. apply all_digits_cons in Hd as [_ Hs]. exact (IH s txt' rest' E Hs).
Qed.

Lemma flat_map_nil {A B} (f : A -> list B) (l : list A) :
  (forall x, x ∈ l -> f x = []) -> flat_map f l = [].
Proof.
  induction l as [|x l IH]; intros Hf; [reflexivity |]. cbn.
  rewrite (Hf x) by left. apply IH. intros y Hy. apply Hf. now right.
Qed.

(** A text of digits only matches no format that holds a separator. *)
Lemma matches_digits items :
  has_separator items = true ->
  forall s found, PyStr.all_digits s = true -> Strptime.matches items s found = [].
Proof.
  induction items as [|it items IH]; [discriminate |].
  intros Hsep s found Hd. destruct it as [d | c |]; cbn [Strptime.matches].
  - cbn in Hsep. apply flat_map_nil. intros alt _.
    destruct (Strptime.match_classes alt s) as [[txt rest]|] eqn:E; [| reflexivity].
    apply IH; [exact Hsep |]. exact (match_classes_digits alt s txt rest E Hd).
  - destruct s as [|a s]; [reflexivity |].
    apply all_digits_cons in Hd as [Ha Hs].
    destruct (Ascii.eqb_spec (PyStr.lower_char a) (PyStr.lower_char c)) as [Heq | Hne];
      [| reflexivity].
    cbn in Hsep. destruct (PyStr.is_digit c) eqn:Ec; cbn in Hsep.
    + apply IH; assumption.
    + rewrite <- is_digit_lower_char, <- Heq, is_digit_lower_char in Ec. congruence.
  - destruct s as [|a s]; [reflexivity |].
    apply all_digits_cons in Hd as [Ha Hs]. cbn [Strptime.after_blanks].
    now rewrite (digit_not_space a Ha).
Qed.

Lemma date_formats_separated :
  Forall (fun fmt => exists items,
            Strptime.compile fmt = Some items /\ has_separator items = true)
         date_formats.
Proof. repeat constructor; eexists; split; reflexivity. Qed.

Lemma try_formats_digits s :
  PyStr.all_digits s = true -> try_formats date_formats s = None.
Proof.
  intros Hd. pose proof date_formats_separated as Hsep.
  induction Hsep as [|fmt fmts (items & Hc & Hs) _ IH]; [reflexivity |].
  cbn [try_formats]. unfold Strptime.strptime. rewrite Hc.
  now rewrite (matches_digits items Hs s [] Hd).
Qed.

Lemma parse_excel_serial_digits s :
  PyStr.isdigit s = true -> parse_excel_serial s = serial_date (PyStr.to_Z s).
Proof.
  intros Hs. pose proof Hs as Hs'. unfold PyStr.isdigit in Hs'.
  apply andb_true_iff in Hs' as [Hne Hd].
  assert (Hdot : PyStr.contains "." s = false) by (now apply all_digits_contains).
  assert (Hdash : PyStr.contains "-" s = false) by (now apply all_digits_contains).
  unfold parse_excel_serial.
  rewrite (remove_absent "." s Hdot), (remove_absent "-" s Hdash), Hs.
  assert (Hdec : parse_decimal s = Some (PyStr.to_Z s, 0)).
  { unfold parse_decimal.
    assert (Hhead : match s with
                    | String "-" body => (true, body)
                    | _ => (false, s)
                    end = (false, s)).
    { destruct s as [|a s']; [reflexivity |]. apply all_digits_cons in Hd as [Ha _].
      destruct a as [[] [] [] [] [] [] [] []]; try reflexivity; discriminate Ha. }
    rewrite Hhead.
    rewrite (split_head_absent "." s Hdot), (after_first_absent "." s Hdot), Hdash.
    cbn [PyStr.contains orb PyStr.is_empty andb String.length Z.of_nat].
    destruct s; [discriminate |]. cbn [PyStr.is_empty andb orb].
    now rewrite append_empty. }
  rewrite Hdec. unfold serial_date. change (10 ^ 0) with 1.
  rewrite Z.div_1_r, Z.mul_1_r. destruct (59 <? PyStr.to_Z s); f_equal; lia.
Qed.

Lemma parse_date_digits s :
  PyStr.isdigit s = true -> parse_date (VStr s) = serial_date (PyStr.to_Z s).
Proof.
  intros Hs. pose proof Hs as Hs'. unfold PyStr.isdigit in Hs'.
  apply andb_true_iff in Hs' as [Hne Hd].
  unfold parse_date. cbn [is_none py_str orb].
  rewrite (all_digits_strip s Hd), (all_digits_lower s Hd).
  assert (Hnan : String.eqb s "nan" = false).
  { destruct (String.eqb_spec s "nan") as [-> | _]; [discriminate Hd | reflexivity]. }
  rewrite Hnan. destruct (PyStr.is_empty s) eqn:Ee; [discriminate |]. cbn [orb].
  rewrite (all_digits_contains " " s eq_refl Hd). cbn [andb].
  rewrite (try_formats_digits s Hd). now apply parse_excel_serial_digits.
Qed.

Lemma digit_char_spec (m : N) :
  (m < 10)%N ->
  PyStr.is_digit (ascii_of_N (48 + m)) = true
  /\ PyStr.digit_val (ascii_of_N (48 + m)) = Z.of_N m.
Proof.
  intros Hm.
  assert (Hcases : (m = 0 \/ m = 1 \/ m = 2 \/ m = 3 \/ m = 4 \/ m = 5 \/ m = 6 \/ m = 7
                    \/ m = 8 \/ m = 9)%N) by lia.
  repeat (destruct Hcases as [-> | Hcases]; [split; reflexivity |]).
  subst m. split; reflexivity.
Qed.

Lemma digits_go_all fuel :
  forall n acc,
    PyStr.all_digits acc = true -> PyStr.all_digits (PyStr.digits_go fuel n acc) = true.
Proof.
  induction fuel as [|fuel IH]; intros n acc Hacc; cbn [PyStr.digits_go]; [exact Hacc |].
  assert (Hacc' : PyStr.all_digits (String (PyStr.digit_char n) acc) = true).
  { apply all_digits_cons. split; [| exact Hacc].
    apply digit_char_spec. apply N.mod_lt. discriminate. }
  destruct (n <? 10)%N; [exact Hacc' | now apply IH].
Qed.

Lemma digits_go_filled fuel :
  forall n acc,
    PyStr.is_empty acc = false -> PyStr.is_empty (PyStr.digits_go fuel n acc) = false.
Proof.
  induction fuel as [|fuel IH]; intros n acc Hacc; cbn [PyStr.digits_go]; [exact Hacc |].
  destruct (n <? 10)%N; [reflexivity | now apply IH].
Qed.

Lemma digits_go_value fuel :
  forall n acc,
    (n < 2 ^ N.of_nat fuel)%N ->
    PyStr.to_Z_from 0 (PyStr.digits_go fuel n acc) = PyStr.to_Z_from (Z.of_N n) acc.
Proof.
  induction fuel as [|fuel IH]; intros n acc Hn; cbn [PyStr.digits_go].
  - cbn in Hn. assert (n = 0%N) by lia. now subst n.
  - rewrite Nat2N.inj_succ, N.pow_succ_r' in Hn.
    assert (Hm : (n mod 10 < 10)%N) by (apply N.mod_lt; discriminate).
    destruct (digit_char_spec (n mod 10) Hm) as [_ Hv].
    destruct (N.ltb_spec n 10) as [Hlt | Hge].
    + cbn [PyStr.to_Z_from]. unfold PyStr.digit_char. rewrite Hv.
      rewrite N.mod_small by exact Hlt. f_equal.
    + rewrite IH.
      * cbn [PyStr.to_Z_from]. unfold PyStr.digit_char. rewrite Hv. f_equal.
        pose proof (N.div_mod n 10 ltac:(discriminate)) as Hdm. lia.
      * apply N.Div0.div_lt_upper_bound. lia.
Qed.

Lemma pos_below_size p : (N.pos p < 2 ^ N.of_nat (Pos.size_nat p))%N.
Proof.
  induction p as [p IH | p IH |]; cbn [Pos.size_nat].
  - rewrite Nat2N.inj_succ, N.pow_succ_r'. lia.
  - rewrite Nat2N.inj_succ, N.pow_succ_r'. lia.
  - reflexivity.
Qed.

(** The text of a positive whole number is made of digits, and reads
    back as the number. *)
Lemma of_Z_digits n :
  0 < n -> PyStr.isdigit (PyStr.of_Z n) = true /\ PyStr.to_Z (PyStr.of_Z n) = n.
Proof.
  intros Hn. destruct n as [|p|p]; try lia. cbn [PyStr.of_Z]. unfold PyStr.of_N. split.
  - unfold PyStr.isdigit. rewrite digits_go_all by reflexivity.
    cbn [PyStr.digits_go]. destruct (N.pos p <? 10)%N; [reflexivity |].
    now rewrite digits_go_filled.
  - unfold PyStr.to_Z. rewrite digits_go_value; [reflexivity |].
    cbn [N.size_nat]. rewrite Nat2N.inj_succ, N.pow_succ_r'.
    pose proof (pos_below_size p). lia.
Qed.

(** X16.  A cell that holds digits only, or a positive whole number, is
    read by none of the twenty formats, each of which asks for a
    separator: it is taken for the serial number of a spreadsheet.  Up
    to 59 it counts days from the last day of 1899, from 60 on from the
    day before that; so 59 and 60 both give the 28th of February 1900,
    and 45967 gives the 6th of November 2025.  Serial numbers past the
    year 9999 give no date. *)
Theorem serial_number_dates :
  (forall s, PyStr.isdigit s = true ->
     try_formats date_formats s = None
     /\ parse_date (VStr s) = serial_date (PyStr.to_Z s))
  /\ (forall n, 0 < n -> parse_date (VInt n) = serial_date n)
  /\ (forall n, 0 <= n <= 59 -> serial_date n = Some (Date.ord2ymd (693595 + n)))
  /\ (forall n, 60 <= n <= 2958465 -> serial_date n = Some (Date.ord2ymd (693594 + n)))
  /\ (forall n, 2958465 < n -> serial_date n = None)
  /\ parse_date (VInt 59) = Some (mkdate 1900 2 28)
  /\ parse_date (VInt 60) = Some (mkdate 1900 2 28)
  /\ parse_date (VInt 45967) = Some (mkdate 2025 11 6).
Proof.
  assert (Hint : forall n, 0 < n -> parse_date (VInt n) = serial_date n).
  { intros n Hn. destruct (of_Z_digits n Hn) as [Hd Hv].
    change (parse_date (VInt n)) with (parse_date (VStr (PyStr.of_Z n))).
    rewrite (parse_date_digits _ Hd). now rewrite Hv. }
  assert (Hord : Date.toordinal (mkdate 1900 1 1) = 693596) by reflexivity.
  split; [| split; [exact Hint | split; [| split; [| split]]]].
  - intros s Hs. split; [| now apply parse_date_digits].
    apply try_formats_digits. unfold PyStr.isdigit in Hs.
    now apply andb_true_iff in Hs as [_ Hd].
  - intros n Hn. unfold serial_date, Date.add_days. rewrite Hord.
    destruct (Z.ltb_spec 59 n) as [Hlt | _]; [lia |].
    replace (693596 + (n - 1)) with (693595 + n) by lia.
    destruct (Z.ltb_spec 0 (693595 + n)) as [_ | Hle]; [| lia].
    destruct (Z.leb_spec (693595 + n) Date.MAXORDINAL) as [_ | Hgt]; [reflexivity |].
    unfold Date.MAXORDINAL in Hgt. lia.
  - intros n Hn. unfold serial_date, Date.add_days. rewrite Hord.
    destruct (Z.ltb_spec 59 n) as [_ | Hle]; [| lia].
    replace (693596 + (n - 2)) with (693594 + n) by lia.
    destruct (Z.ltb_spec 0 (693594 + n)) as [_ | Hle]; [| lia].
    destruct (Z.leb_spec (693594 + n) Date.MAXORDINAL) as [_ | Hgt]; [reflexivity |].
    unfold Date.MAXORDINAL in Hgt. lia.
  - intros n Hn. unfold serial_date, Date.add_days. rewrite Hord.
    destruct (Z.ltb_spec 59 n) as [_ | Hle]; [| lia].
    destruct (Z.leb_spec (693596 + (n - 2)) Date.MAXORDINAL) as [Hle | _].
    + unfold Date.MAXORDINAL in Hle. lia.
    + now rewrite andb_false_r.
  - rewrite !Hint by lia. repeat split; reflexivity.
Qed.

(** ** More on counters and on sorting *)

Section UpsertOrder.
Context {K : Type} `{EqDecision K} {A : Type}.
Implicit Types (d : list (K * A)) (k : K).

(** A new key goes to the end; a key that is there stays where it is. *)
Lemma upsert_fst k f dflt d :
  map fst (upsert k f dflt d)
  = if decide (k ∈ map fst d) then map fst d else map fst d ++ [k].
Proof.
  induction d as [|[k0 a] d IH]; cbn [upsert map fst].
  - rewrite decide_False by (intros Hin; inversion Hin). reflexivity.
  - destruct (decide (k0 = k)) as [-> | Hne]; cbn [map fst].
    + rewrite decide_True by left. reflexivity.
    + rewrite IH. destruct (decide (k ∈ map fst d)) as [Hin | Hout].
      * rewrite decide_True by (now right). reflexivity.
      * rewrite decide_False; [reflexivity |].
        intros Hin. apply elem_of_cons in Hin as [-> | Hin]; congruence.
Qed.

Lemma upsert_filter_key k f dflt d k' :
  filter (fun e : K * A => e.1 = k') (upsert k f dflt d)
  = if decide (k = k') then upsert k f dflt (filter (fun e : K * A => e.1 = k') d)
    else filter (fun e : K * A => e.1 = k') d.
Proof.
  induction d as [|[k0 a] d IH]; cbn [upsert].
  - destruct (decide (k = k')) as [Hk | Hk].
    + now rewrite filter_cons_True by exact Hk.
    + now rewrite filter_cons_False by exact Hk.
  - destruct (decide (k0 = k)) as [-> | Hne].
    + destruct (decide (k = k')) as [Hk | Hk].
      * rewrite !filter_cons_True by exact Hk. cbn [upsert].
        now rewrite decide_True by reflexivity.
      * now rewrite !filter_cons_False by exact Hk.
    + destruct (decide (k0 = k')) as [Hk0 | Hk0].
      * rewrite !filter_cons_True by exact Hk0. rewrite IH.
        destruct (decide (k = k')); [| reflexivity].
        cbn [upsert]. now rewrite decide_False by exact Hne.
      * rewrite !filter_cons_False by exact Hk0. exact IH.
Qed.

Lemma filter_key_entry k a d :
  NoDup (map fst d) -> (k, a) ∈ d -> filter (fun e : K * A => e.1 = k) d = [(k, a)].
Proof.
  induction d as [|[k0 a0] d IH]; intros Hnd Hin; [inversion Hin |].
  cbn in Hnd. apply NoDup_cons in Hnd as [Hk0 Hnd].
  apply elem_of_cons in Hin as [[= <- <-] | Hin].
  - rewrite filter_cons_True by reflexivity. f_equal.
    apply filter_none. intros [k1 a1] Hin1 Heq. cbn in Heq. subst k1.
    apply Hk0. apply list_elem_of_fmap. now exists (k, a1).
  - rewrite filter_cons_False.
    + now apply IH.
    + cbn. intros ->. apply Hk0. apply list_elem_of_fmap. now exists (k, a).
Qed.

End UpsertOrder.

Section SortStable.
Context {A : Type} (ahead : A -> A -> bool) (P : A -> Prop) `{forall x, Decision (P x)}.
Hypothesis skipped_outside : forall x y, P x -> ahead x y = false -> ~ P y.

Lemma insert_sorted_filter x l :
  filter P (insert_sorted ahead x l)
  = if decide (P x) then x :: filter P l else filter P l.
Proof.
  induction l as [|y l IH]; cbn [insert_sorted].
  - destruct (decide (P x)) as [HP | HP].
    + now rewrite filter_cons_True by exact HP.
    + now rewrite filter_cons_False by exact HP.
  - destruct (ahead x y) eqn:E.
    + destruct (decide (P x)) as [HP | HP].
      * now rewrite (filter_cons_True P x) by exact HP.
      * now rewrite (filter_cons_False P x) by exact HP.
    + destruct (decide (P x)) as [HP | HP].
      * rewrite (filter_cons_False P y) by (now apply (skipped_outside x)).
        rewrite (filter_cons_False P y) by (now apply (skipped_outside x)).
        exact IH.
      * destruct (decide (P y)) as [Hy | Hy].
        -- rewrite !(filter_cons_True P y) by exact Hy. now rewrite IH.
        -- rewrite !(filter_cons_False P y) by exact Hy. exact IH.
Qed.

(** The sort is stable: the elements of one class are left in their
    order. *)
Lemma sort_desc_stable l : filter P (sort_desc ahead l) = filter P l.
Proof.
  induction l as [|x l IH]; [reflexivity |].
  change (sort_desc ahead (x :: l)) with (insert_sorted ahead x (sort_desc ahead l)).
  rewrite insert_sorted_filter, IH.
  destruct (decide (P x)) as [HP | HP].
  - now rewrite filter_cons_True by exact HP.
  - now rewrite filter_cons_False by exact HP.
Qed.

End SortStable.

Lemma first_seen_snoc {A} `{EqDecision A} (l : list A) (x : A) :
  first_seen (l ++ [x])
  = if decide (x ∈ first_seen l) then first_seen l else first_seen l ++ [x].
Proof.
  unfold first_seen. rewrite reverse_app. cbn [reverse rev_append app].
  change (rev_append [] [x]) with [x]. cbn [app remove_dups].
  destruct (decide_rel elem_of x (reverse l)) as [Hin | Hout].
  - rewrite decide_True; [reflexivity |].
    rewrite elem_of_reverse, elem_of_remove_dups. exact Hin.
  - rewrite decide_False.
    + now rewrite reverse_cons.
    + rewrite elem_of_reverse, elem_of_remove_dups. exact Hout.
Qed.

Lemma first_seen_elem {A} `{EqDecision A} (l : list A) (x : A) :
  x ∈ first_seen l <-> x ∈ l.
Proof.
  unfold first_seen. now rewrite elem_of_reverse, elem_of_remove_dups, elem_of_reverse.
Qed.

(** The keys of a finished counter are the keys counted, in the order in
    which they first occur. *)
Lemma tally_first_seen {K} `{EqDecision K} (sel : record -> option K)
    (records : list record) :
  map fst (fold_left (tally_step sel) records []) = first_seen (omap sel records).
Proof.
  induction records as [|r records IH] using rev_ind; [reflexivity |].
  rewrite fold_left_app. cbn [fold_left]. rewrite omap_app. cbn [omap list_omap].
  unfold tally_step at 1. destruct (sel r) as [k|].
  - rewrite upsert_fst, IH. cbn [app]. now rewrite first_seen_snoc.
  - now rewrite app_nil_r.
Qed.

(** ** The rows of the agents *)

Lemma agent_key_spec r a :
  agent_key r = Some a
  <-> (qualified_status r \/ disqualified_status r) /\ agent_of r = a.
Proof.
  unfold agent_key. rewrite <- is_qualified_spec, <- is_disqualified_spec.
  destruct (is_qualified r), (is_disqualified r); cbn [orb]; split;
    try (intros [= <-]; auto); try (intros [_ ->]; reflexivity);
    intros [[? | ?] _]; discriminate.
Qed.

Lemma count_agent_first_seen (records : list record) :
  map fst (fold_left count_agent records []) = first_seen (omap agent_key records).
Proof.
  induction records as [|r records IH] using rev_ind; [reflexivity |].
  rewrite fold_left_app. cbn [fold_left]. rewrite omap_app. cbn [omap list_omap].
  unfold count_agent at 1, agent_key, is_qualified, is_disqualified, agent_of.
  destruct (String.eqb (status_of r) "qualified"); cbn [orb].
  - rewrite upsert_fst, IH. cbn [app]. now rewrite first_seen_snoc.
  - destruct (String.eqb (status_of r) "disqualified").
    + rewrite upsert_fst, IH. cbn [app]. now rewrite first_seen_snoc.
    + now rewrite app_nil_r.
Qed.

Lemma count_agent_of_agent a (records : list record) :
  forall acc,
    sum_list (map (fun e : value * counts => c_qualified e.2)
                  (filter (fun e : value * counts => e.1 = a)
                          (fold_left count_agent records acc)))
    = (sum_list (map (fun e : value * counts => c_qualified e.2)
                     (filter (fun e : value * counts => e.1 = a) acc))
       + List.length (filter (qualified_by a) records))%nat
    /\ sum_list (map (fun e : value * counts => c_disqualified e.2)
                     (filter (fun e : value * counts => e.1 = a)
                             (fold_left count_agent records acc)))
       = (sum_list (map (fun e : value * counts => c_disqualified e.2)
                        (filter (fun e : value * counts => e.1 = a) acc))
          + List.length (filter (disqualified_by a) records))%nat.
Proof.
  induction records as [|r records IH]; intros acc; cbn [fold_left].
  - cbn. lia.
  - destruct (IH (count_agent acc r)) as [IHq IHd]. rewrite IHq, IHd. clear IH IHq IHd.
    unfold count_agent. fold (agent_of r).
    destruct (is_qualified r) eqn:Eq.
    + pose proof (qualified_not_disqualified r Eq) as Ed.
      unfold is_qualified in Eq. rewrite Eq.
      assert (Hq : qualified_status r) by (now apply is_qualified_spec).
      assert (Hd : ~ disqualified_status r).
      { intros Hd. apply is_disqualified_spec in Hd. congruence. }
      rewrite upsert_filter_key.
      rewrite (filter_cons_False (disqualified_by a)) by (intros [? _]; contradiction).
      destruct (decide (agent_of r = a)) as [Ha | Ha].
      * rewrite (filter_cons_True (qualified_by a)) by (split; assumption).
        rewrite (upsert_sum c_qualified 1%nat) by (intros; cbn; lia).
        rewrite (upsert_sum c_disqualified 0%nat) by (intros; cbn; lia).
        cbn [List.length]. lia.
      * rewrite (filter_cons_False (qualified_by a)) by (intros [_ ?]; contradiction).
        lia.
    + unfold is_qualified in Eq. rewrite Eq.
      assert (Hq : ~ qualified_status r).
      { intros Hq. apply is_qualified_spec in Hq. unfold is_qualified in Hq. congruence. }
      rewrite (filter_cons_False (qualified_by a)) by (intros [? _]; contradiction).
      destruct (is_disqualified r) eqn:Ed; unfold is_disqualified in Ed; rewrite Ed.
      * assert (Hd : disqualified_status r) by (now apply is_disqualified_spec).
        rewrite upsert_filter_key.
        destruct (decide (agent_of r = a)) as [Ha | Ha].
        -- rewrite (filter_cons_True (disqualified_by a)) by (split; assumption).
           rewrite (upsert_sum c_qualified 0%nat) by (intros; cbn; lia).
           rewrite (upsert_sum c_disqualified 1%nat) by (intros; cbn; lia).
           cbn [List.length]. lia.
        -- rewrite (filter_cons_False (disqualified_by a)) by (intros [_ ?]; contradiction).
           lia.
      * assert (Hd : ~ disqualified_status r).
        { intros Hd. apply is_disqualified_spec in Hd. unfold is_disqualified in Hd.
          congruence. }
        rewrite (filter_cons_False (disqualified_by a)) by (intros [? _]; contradiction).
        lia.
Qed.

Lemma first_seen_NoDup {A} `{EqDecision A} (l : list A) : NoDup (first_seen l).
Proof. unfold first_seen. rewrite reverse_Permutation. apply NoDup_remove_dups. Qed.

Lemma count_agent_entry a c (records : list record) :
  (a, c) ∈ fold_left count_agent records [] ->
  c_qualified c = List.length (filter (qualified_by a) records)
  /\ c_disqualified c = List.length (filter (disqualified_by a) records)
  /\ (0 < c_qualified c + c_disqualified c)%nat.
Proof.
  intros Hin.
  assert (Hnd : NoDup (map fst (fold_left count_agent records [])))
    by (rewrite count_agent_first_seen; apply first_seen_NoDup).
  destruct (count_agent_of_agent a records []) as [Hq Hd].
  rewrite (filter_key_entry a c _ Hnd Hin) in Hq, Hd. cbn in Hq, Hd.
  split; [lia | split; [lia |]].
  pose proof (count_agent_positive records [] ltac:(constructor)) as Hpos.
  eapply Forall_forall in Hpos; [| exact Hin]. exact Hpos.
Qed.

Lemma agent_rows_elem (records : list record) row :
  row ∈ agent_rows records
  <-> exists a c, (a, c) ∈ fold_left count_agent records [] /\ row = agent_row_of (a, c).
Proof.
  unfold agent_rows. rewrite sort_desc_elem_of, list_elem_of_fmap. split.
  - intros ([a c] & -> & Hin). now exists a, c.
  - intros (a & c & Hin & ->). now exists (a, c).
Qed.

Lemma agent_rows_agents (records : list record) :
  map ar_agent (agent_rows records) ≡ₚ first_seen (omap agent_key records).
Proof.
  unfold agent_rows. rewrite sort_desc_perm, <- count_agent_first_seen, map_map.
  erewrite map_ext; [reflexivity |]. now intros [a c].
Qed.

Lemma agent_rows_sorted (records : list record) :
  StronglySorted (fun x y => (ar_error_pct y <= ar_error_pct x)%Q) (agent_rows records).
Proof.
  unfold agent_rows. apply sort_desc_sorted.
  - intros x y Hb. now apply Qle_bool_iff.
  - intros x y Hb. now apply Qle_bool_false_le.
  - intros x y z Hxy Hyz. eapply Qle_trans; eassumption.
Qed.

(** X17.  The rows of the agents, before the total: one row for each
    agent that has a qualified or a disqualified record, and for no
    other; the row holds the number of disqualified and of qualified
    records of the agent, their sum, which is never zero, and the
    quotient of the disqualified by the sum; the rows are in descending
    order of that quotient.  There is no row exactly when no record is
    qualified or disqualified. *)
Theorem agent_rows_counts (records : list record) :
  let rows := agent_rows records in
  NoDup (map ar_agent rows)
  /\ (forall a, a ∈ map ar_agent rows
        <-> exists r, r ∈ records
              /\ (qualified_status r \/ disqualified_status r) /\ agent_of r = a)
  /\ (forall row, row ∈ rows ->
        ar_qualified row = List.length (filter (qualified_by (ar_agent row)) records)
        /\ ar_disqualified row
           = List.length (filter (disqualified_by (ar_agent row)) records)
        /\ ar_total row = (ar_qualified row + ar_disqualified row)%nat
        /\ (0 < ar_total row)%nat
        /\ (ar_error_pct row
            == inject_Z (Z.of_nat (ar_disqualified row))
               / inject_Z (Z.of_nat (ar_total row)))%Q)
  /\ StronglySorted (fun x y => (ar_error_pct y <= ar_error_pct x)%Q) rows
  /\ (rows = [] <->
      forall r, r ∈ records -> ~ qualified_status r /\ ~ disqualified_status r).
Proof.
  intros rows.
  assert (Hagents : forall a, a ∈ map ar_agent rows
            <-> exists r, r ∈ records
                  /\ (qualified_status r \/ disqualified_status r) /\ agent_of r = a).
  { intros a. unfold rows. rewrite agent_rows_agents, first_seen_elem, list_elem_of_omap.
    split; intros (r & Hr & Hk); exists r; (split; [exact Hr |]);
      now apply agent_key_spec. }
  split; [| split; [exact Hagents | split; [| split; [apply agent_rows_sorted |]]]].
  - unfold rows. rewrite agent_rows_agents. apply first_seen_NoDup.
  - intros row Hin. apply agent_rows_elem in Hin as (a & c & Hin & ->).
    destruct (count_agent_entry a c records Hin) as (Hq & Hd & Hpos).
    cbn [agent_row_of ar_agent ar_qualified ar_disqualified ar_total ar_error_pct].
    split; [exact Hq | split; [exact Hd | split; [reflexivity | split; [exact Hpos |]]]].
    now apply rate_quotient.
  - split.
    + intros Hnil r Hr. destruct (decide (qualified_status r \/ disqualified_status r))
        as [Hs | Hs]; [exfalso | tauto].
      assert (Hin : agent_of r ∈ map ar_agent rows) by (apply Hagents; eauto).
      rewrite Hnil in Hin. inversion Hin.
    + intros Hall. destruct rows as [|row rows'] eqn:E; [reflexivity | exfalso].
      assert (Hin : ar_agent row ∈ map ar_agent (row :: rows')) by left.
      apply Hagents in Hin as (r & Hr & Hs & _). destruct (Hall r Hr). tauto.
Qed.

(** ** The rows of the tags *)

Lemma tag_key_spec column r t : tag_key column r = Some t <-> tagged column t r.
Proof.
  unfold tag_key, tagged. rewrite <- is_qualified_spec.
  destruct (is_qualified r); split.
  - intros [= <-]. auto.
  - intros [_ ->]. reflexivity.
  - discriminate.
  - intros [? _]. discriminate.
Qed.

(** A label is never empty and carries no blank around it; a cell that
    is absent or blank is labelled ["(Blank)"]. *)
Lemma tag_of_trimmed column r :
  tag_of column r <> "" /\ PyStr.strip (tag_of column r) = tag_of column r
  /\ (get r column = VNone \/ PyStr.strip (py_str (get r column)) = "" ->
      tag_of column r = "(Blank)").
Proof.
  unfold tag_of, get_default, get.
  destruct (r !! column) as [v|]; cbn [default from_option id].
  - destruct (is_none v) eqn:En; cbn [orb].
    + split; [discriminate | split; [reflexivity | reflexivity]].
    + destruct (String.eqb_spec (PyStr.strip (py_str v)) "") as [He | Hne].
      * split; [discriminate | split; [reflexivity | reflexivity]].
      * split; [exact Hne | split; [apply strip_idemp |]].
        intros [Hv | He]; [| contradiction].
        apply is_none_spec in Hv. congruence.
  - cbn. split; [discriminate | split; [reflexivity | reflexivity]].
Qed.

Lemma tag_rows_sorted column (records : list record) :
  StronglySorted (fun x y : string * nat => (y.2 <= x.2)%nat) (tag_rows column records).
Proof.
  unfold tag_rows. apply sort_desc_sorted.
  - intros x y Hb. now apply Nat.leb_le.
  - intros x y Hb. apply Nat.leb_gt in Hb. lia.
  - intros x y z Hxy Hyz. lia.
Qed.

(** X18.  The rows of a report of tags (the segments, the personas),
    before the total: one row for each label of a qualified record and
    for no other, holding the number of qualified records with that
    label, which is never zero; the labels are trimmed and never empty,
    ["(Blank)"] standing for a cell that is absent or blank; the rows
    are in descending order of their counts. *)
Theorem tag_rows_counts column (records : list record) :
  let rows := tag_rows column records in
  NoDup (map fst rows)
  /\ (forall t, t ∈ map fst rows <-> exists r, r ∈ records /\ tagged column t r)
  /\ (forall row, row ∈ rows ->
        row.2 = List.length (filter (tagged column row.1) records)
        /\ (0 < row.2)%nat
        /\ row.1 <> "" /\ PyStr.strip row.1 = row.1)
  /\ (forall r, r ∈ records -> qualified_status r ->
        get r column = VNone \/ PyStr.strip (py_str (get r column)) = "" ->
        "(Blank)" ∈ map fst rows)
  /\ StronglySorted (fun x y : string * nat => (y.2 <= x.2)%nat) rows.
Proof.
  intros rows.
  assert (Hkeys : map fst rows ≡ₚ first_seen (omap (tag_key column) records)).
  { unfold rows, tag_rows. rewrite sort_desc_perm, count_tag_tally.
    now rewrite tally_first_seen. }
  assert (Hlabels : forall t, t ∈ map fst rows
            <-> exists r, r ∈ records /\ tagged column t r).
  { intros t. rewrite Hkeys, first_seen_elem, list_elem_of_omap.
    split; intros (r & Hr & Hk); exists r; (split; [exact Hr |]);
      now apply tag_key_spec. }
  split; [rewrite Hkeys; apply first_seen_NoDup |].
  split; [exact Hlabels |].
  split; [| split; [| apply tag_rows_sorted]].
  - intros [t n] Hin. cbn [fst snd].
    assert (Ht : t ∈ map fst rows) by (apply list_elem_of_fmap; now exists (t, n)).
    unfold rows, tag_rows in Hin. rewrite sort_desc_elem_of, count_tag_tally in Hin.
    apply tally_entry in Hin as [Hn Hpos].
    split; [| split; [exact Hpos |]].
    + rewrite Hn. f_equal. apply list_filter_iff. intros r. apply tag_key_spec.
    + apply Hlabels in Ht as (r & _ & _ & <-).
      destruct (tag_of_trimmed column r) as (Hne & Hs & _). auto.
  - intros r Hr Hq Hblank. apply Hlabels. exists r. split; [exact Hr |].
    split; [exact Hq |]. now apply tag_of_trimmed.
Qed.

(** ** Rows of equal rank *)

Lemma Qle_bool_false_lt (x y : Q) : Qle_bool x y = false -> (y < x)%Q.
Proof.
  intros Hb. apply Qnot_le_lt. intros Hle. apply Qle_bool_iff in Hle. congruence.
Qed.

(** X19.  The sorts are stable.  In each of the three sorted reports,
    the rows of equal rank (of equal rate for the agents and for the
    reasons, of equal count for the tags) stand in the order in which
    their agents, reasons or labels first occur in the records that
    count. *)
Theorem rows_of_equal_rank_keep_order (records : list record) :
  (forall q,
     map ar_agent (filter (fun row => (ar_error_pct row == q)%Q) (agent_rows records))
     `sublist_of` first_seen (omap agent_key records))
  /\ (forall q,
        map rr_reason (filter (fun row => (rr_error_pct row == q)%Q) (reason_rows records))
        `sublist_of` first_seen (omap reason_key records))
  /\ (forall column n,
        map fst (filter (fun row : string * nat => row.2 = n) (tag_rows column records))
        `sublist_of` first_seen (omap (tag_key column) records)).
Proof.
  split; [| split].
  - intros q. unfold agent_rows. rewrite sort_desc_stable.
    + rewrite filter_map_comm, map_map, <- count_agent_first_seen.
      erewrite (map_ext (fun x => ar_agent (agent_row_of x)) fst) by (now intros [a c]).
      apply fmap_sublist, sublist_filter.
    + intros x y Hx Hb Hy. apply Qle_bool_false_lt in Hb.
      rewrite Hx, Hy in Hb. now apply Qlt_irrefl in Hb.
  - intros q. unfold reason_rows. rewrite sort_desc_stable.
    + rewrite filter_map_comm, map_map, count_reason_tally, <- tally_first_seen.
      cbn [rr_reason]. apply fmap_sublist, sublist_filter.
    + intros x y Hx Hb Hy. apply Qle_bool_false_lt in Hb.
      rewrite Hx, Hy in Hb. now apply Qlt_irrefl in Hb.
  - intros column n. unfold tag_rows. rewrite sort_desc_stable.
    + rewrite count_tag_tally, <- tally_first_seen. apply fmap_sublist, sublist_filter.
    + intros x y Hx Hb Hy. apply Nat.leb_gt in Hb. lia.
Qed.

(** ** The order of the records *)

Lemma earliest_fold_perm col (records records' : list record) :
  records ≡ₚ records' ->
  fold_left (earliest_step col) records None
  = fold_left (earliest_step col) records' None.
Proof.
  intros Hp.
  assert (Hds : parsed_dates_of col records ≡ₚ parsed_dates_of col records')
    by (unfold parsed_dates_of; now rewrite Hp).
  destruct (fold_left (earliest_step col) records None) as [e|] eqn:E;
    destruct (fold_left (earliest_step col) records' None) as [e'|] eqn:E'.
  - apply earliest_fold_is_earliest in E, E'. f_equal.
    apply (is_earliest_unique e e' (parsed_dates_of col records)); [exact E |].
    destruct E' as [Hin Hle]. split; [now rewrite Hds |].
    intros d0 Hd0. apply Hle. now rewrite <- Hds.
  - apply earliest_fold_is_earliest in E as [Hin _].
    apply earliest_fold_None in E' as [_ Hnil].
    rewrite Hds, Hnil in Hin. inversion Hin.
  - apply earliest_fold_is_earliest in E' as [Hin _].
    apply earliest_fold_None in E as [_ Hnil].
    rewrite <- Hds, Hnil in Hin. inversion Hin.
  - reflexivity.
Qed.

Lemma filter_nonempty_elem {A} (P : A -> Prop) `{forall x, Decision (P x)} (l : list A) :
  (0 < List.length (filter P l))%nat -> exists x, x ∈ l /\ P x.
Proof.
  destruct (filter P l) as [|x l'] eqn:E; [cbn; lia |]. intros _.
  assert (Hin : x ∈ filter P l) by (rewrite E; left).
  apply list_elem_of_filter in Hin as [HP Hin]. eauto.
Qed.

Lemma tally_elem {K} `{EqDecision K} (sel : record -> option K) k n
    (records : list record) :
  (k, n) ∈ fold_left (tally_step sel) records []
  <-> n = List.length (filter (fun r => sel r = Some k) records) /\ (0 < n)%nat.
Proof.
  split; [apply tally_entry |]. intros [Hn Hpos].
  rewrite Hn in Hpos. apply filter_nonempty_elem in Hpos as (r & Hr & Hs).
  assert (Hk : k ∈ map fst (fold_left (tally_step sel) records []))
    by (apply tally_keys; right; eauto).
  apply list_elem_of_fmap in Hk as ([k' n'] & Hk' & Hin). cbn in Hk'. subst k'.
  destruct (tally_entry sel k n' records Hin) as [Hn' _]. now rewrite Hn, <- Hn'.
Qed.

Lemma NoDup_fst {K A} (d : list (K * A)) : NoDup (map fst d) -> NoDup d.
Proof. apply NoDup_fmap_1. Qed.

Lemma tally_perm {K} `{EqDecision K} (sel : record -> option K)
    (records records' : list record) :
  records ≡ₚ records' ->
  fold_left (tally_step sel) records [] ≡ₚ fold_left (tally_step sel) records' [].
Proof.
  intros Hp. apply NoDup_Permutation.
  - apply NoDup_fst, tally_NoDup. constructor.
  - apply NoDup_fst, tally_NoDup. constructor.
  - intros [k n]. rewrite !tally_elem. now rewrite Hp.
Qed.

Lemma count_agent_elem a c (records : list record) :
  (a, c) ∈ fold_left count_agent records []
  <-> c = mkcounts (List.length (filter (qualified_by a) records))
                   (List.length (filter (disqualified_by a) records))
      /\ (0 < c_qualified c + c_disqualified c)%nat.
Proof.
  split.
  - intros Hin. destruct (count_agent_entry a c records Hin) as (Hq & Hd & Hpos).
    split; [| exact Hpos]. destruct c as [q d0]. cbn in Hq, Hd. now rewrite Hq, Hd.
  - intros [-> Hpos]. cbn in Hpos.
    assert (Hex : exists r, r ∈ records /\ agent_key r = Some a).
    { destruct (List.length (filter (qualified_by a) records)) eqn:Eq.
      - assert (Hd : (0 < List.length (filter (disqualified_by a) records))%nat) by lia.
        apply filter_nonempty_elem in Hd as (r & Hr & Hs & Ha).
        exists r. split; [exact Hr |]. apply agent_key_spec. auto.
      - assert (Hq : (0 < List.length (filter (qualified_by a) records))%nat) by lia.
        apply filter_nonempty_elem in Hq as (r & Hr & Hs & Ha).
        exists r. split; [exact Hr |]. apply agent_key_spec. auto. }
    destruct Hex as (r & Hr & Hk).
    assert (Ha : a ∈ map fst (fold_left count_agent records [])).
    { rewrite count_agent_first_seen, first_seen_elem, list_elem_of_omap. eauto. }
    apply list_elem_of_fmap in Ha as ([a' c'] & Ha' & Hin). cbn in Ha'. subst a'.
    destruct (count_agent_entry a c' records Hin) as (Hq & Hd & _).
    destruct c' as [q d0]. cbn in Hq, Hd. now rewrite <- Hq, <- Hd.
Qed.

Lemma count_agent_perm (records records' : list record) :
  records ≡ₚ records' ->
  fold_left count_agent records [] ≡ₚ fold_left count_agent records' [].
Proof.
  intros Hp. apply NoDup_Permutation.
  - apply NoDup_fst. rewrite count_agent_first_seen. apply first_seen_NoDup.
  - apply NoDup_fst. rewrite count_agent_first_seen. apply first_seen_NoDup.
  - intros [a c]. rewrite !count_agent_elem. now rewrite Hp.
Qed.

Lemma sorted_dates_unique (l1 l2 : list date) :
  StronglySorted Date.lt l1 -> StronglySorted Date.lt l2 ->
  (forall d, d ∈ l1 <-> d ∈ l2) -> l1 = l2.
Proof.
  intros H1. revert l2. induction H1 as [|a l1 Hs1 IH Ha]; intros l2 H2 Hel.
  - destruct l2 as [|b l2]; [reflexivity |].
    assert (Hb : b ∈ []) by (apply Hel; left). inversion Hb.
  - destruct H2 as [|b l2 Hs2 Hb].
    + assert (Hin : a ∈ []) by (apply Hel; left). inversion Hin.
    + assert (Hab : a = b).
      { assert (Hin : a ∈ b :: l2) by (apply Hel; left).
        assert (Hin' : b ∈ a :: l1) by (apply Hel; left).
        apply elem_of_cons in Hin as [Heq | Hin]; [exact Heq |].
        apply elem_of_cons in Hin' as [Heq | Hin']; [now symmetry |].
        eapply Forall_forall in Ha; [| exact Hin'].
        eapply Forall_forall in Hb; [| exact Hin].
        exfalso. eapply date_lt_not_le; [exact Ha |]. now apply date_lt_le. }
      subst b. f_equal. apply IH; [exact Hs2 |]. intros d0. split; intros Hd.
      * assert (Hin : d0 ∈ a :: l2) by (apply Hel; now right).
        apply elem_of_cons in Hin as [-> | Hin]; [| exact Hin].
        eapply Forall_forall in Ha; [| exact Hd].
        exfalso. eapply date_lt_not_le; [exact Ha | apply date_le_refl].
      * assert (Hin : d0 ∈ a :: l1) by (apply Hel; now right).
        apply elem_of_cons in Hin as [-> | Hin]; [| exact Hin].
        eapply Forall_forall in Hb; [| exact Hd].
        exfalso. eapply date_lt_not_le; [exact Hb | apply date_le_refl].
Qed.

(** X20.  The order of the records matters to no number.  When the
    records are given in another order, each of the two date filters
    selects the same records, the dates offered for selection are the
    same, the combined summary is the same, and the rows of the agents,
    of the reasons and of the tags are the same rows; only rows of equal
    rank may change places. *)
Theorem reports_ignore_record_order self (records records' : list record) d :
  records ≡ₚ records' ->
  filter_records_by_date self records d ≡ₚ filter_records_by_date self records' d
  /\ filter_records_mtd self records d ≡ₚ filter_records_mtd self records' d
  /\ (forall col,
        get_unique_dates (parse_dates_from_records self records col).2
        = get_unique_dates (parse_dates_from_records self records' col).2)
  /\ (forall mtd mtd' : list record,
        mtd ≡ₚ mtd' ->
        generate_combined_qa_report records mtd = generate_combined_qa_report records' mtd')
  /\ agent_rows records ≡ₚ agent_rows records'
  /\ reason_rows records ≡ₚ reason_rows records'
  /\ (forall column, tag_rows column records ≡ₚ tag_rows column records').
Proof.
  intros Hp. split; [| split; [| split; [| split; [| split; [| split]]]]].
  - unfold filter_records_by_date. destruct (date_column_unset self); [reflexivity |].
    now rewrite Hp.
  - unfold filter_records_mtd. destruct (date_column_unset self); [reflexivity |].
    cbn zeta. rewrite (earliest_fold_perm _ records records' Hp).
    destruct (fold_left _ records' None); [| reflexivity]. now rewrite Hp.
  - intros col. apply sorted_dates_unique; try apply get_unique_dates_ascending.
    intros d0. rewrite !get_unique_dates_elem.
    change (parsed_dates (parse_dates_from_records self records col).2)
      with (parse_dates_from_records self records col).1.
    change (parsed_dates (parse_dates_from_records self records' col).2)
      with (parse_dates_from_records self records' col).1.
    rewrite !parsed_values. unfold parsed_dates_of. now rewrite Hp.
  - intros mtd mtd' Hm. unfold generate_combined_qa_report.
    rewrite !count_if_length. now rewrite Hp, Hm.
  - unfold agent_rows. rewrite !sort_desc_perm.
    now rewrite (count_agent_perm records records' Hp).
  - unfold reason_rows. rewrite !sort_desc_perm, !count_reason_tally.
    rewrite (Permutation_length Hp).
    now rewrite (tally_perm reason_key records records' Hp).
  - intros column. unfold tag_rows. rewrite !sort_desc_perm, !count_tag_tally.
    apply tally_perm, Hp.
Qed.

Lemma reports_ignore_record_order_witness :
  agent_rows agent_example ≡ₚ agent_rows (reverse agent_example).
Proof.
  apply (reports_ignore_record_order scenario_processor agent_example
           (reverse agent_example) scenario_date).
  symmetry. apply reverse_Permutation.
Defined.

(** ** After the validation *)

Lemma partition_three {A} (P Q R : A -> Prop) `{forall x, Decision (P x)}
    `{forall x, Decision (Q x)} `{forall x, Decision (R x)} (l : list A) :
  (forall x, x ∈ l -> P x \/ Q x \/ R x) ->
  (forall x, P x -> ~ Q x) -> (forall x, P x -> ~ R x) -> (forall x, Q x -> ~ R x) ->
  List.length l
  = (List.length (filter P l) + List.length (filter Q l) + List.length (filter R l))%nat.
Proof.
  intros Hall HPQ HPR HQR. induction l as [|x l IH]; [reflexivity |].
  assert (IH' : List.length l
                = (List.length (filter P l) + List.length (filter Q l)
                   + List.length (filter R l))%nat).
  { apply IH. intros y Hy. apply Hall. now right. }
  destruct (Hall x ltac:(left)) as [HP | [HQ | HR]].
  - rewrite (filter_cons_True P) by exact HP.
    rewrite (filter_cons_False Q) by (now apply HPQ).
    rewrite (filter_cons_False R) by (now apply HPR). cbn [List.length]. lia.
  - rewrite (filter_cons_False P) by (intros HP; now apply (HPQ x)).
    rewrite (filter_cons_True Q) by exact HQ.
    rewrite (filter_cons_False R) by (now apply HQR). cbn [List.length]. lia.
  - rewrite (filter_cons_False P) by (intros HP; now apply (HPR x)).
    rewrite (filter_cons_False Q) by (intros HQ; now apply (HQR x)).
    rewrite (filter_cons_True R) by exact HR. cbn [List.length]. lia.
Qed.

(** X21.  Once [validate_lead_status] has passed, with the statuses of
    the default configuration, every record is qualified, disqualified
    or without a status: the records are counted in three parts, and
    the total of the report of the agents is the number of the records
    that have a status. *)
Theorem validated_records_are_counted self (records : list record) :
  config self = default_config ->
  validate_lead_status self records = inr tt ->
  (forall r, r ∈ records ->
     qualified_status r \/ disqualified_status r \/ blank_status r)
  /\ List.length records
     = (List.length (filter qualified_status records)
        + List.length (filter disqualified_status records)
        + List.length (filter blank_status records))%nat
  /\ sum_list (map ar_total (agent_rows records))
     = (List.length records - List.length (filter blank_status records))%nat.
Proof.
  intros Hcfg Hok.
  assert (Hall : forall r, r ∈ records ->
            qualified_status r \/ disqualified_status r \/ blank_status r).
  { intros r Hr. unfold qualified_status, disqualified_status, blank_status.
    destruct (decide (get r "Lead Status" = VNone)) as [Hn | Hn].
    - right. right. now rewrite Hn.
    - destruct (proj1 (validate_lead_status_passes self records) Hok r Hr Hn)
        as [He | (status & Hst & Heq)]; [auto |].
      rewrite Hcfg in Hst. cbn in Hst.
      apply elem_of_cons in Hst as [-> | Hst]; [left; exact Heq |].
      apply elem_of_cons in Hst as [-> | Hst]; [right; left; exact Heq |].
      inversion Hst. }
  assert (Hlen : List.length records
                 = (List.length (filter qualified_status records)
                    + List.length (filter disqualified_status records)
                    + List.length (filter blank_status records))%nat).
  { apply partition_three; [exact Hall | | |];
      unfold qualified_status, disqualified_status, blank_status; intros r H1 H2;
      rewrite H1 in H2; discriminate. }
  split; [exact Hall | split; [exact Hlen |]].
  destruct (agent_rows_sums records) as (Hd & Hq & Ht & _). rewrite Ht, Hd, Hq. lia.
Qed.

Lemma validated_records_are_counted_witness :
  sum_list (map ar_total (agent_rows agent_example)) = 10%nat.
Proof.
  destruct (validated_records_are_counted (new_processor default_config) agent_example
              eq_refl) as (_ & _ & Hsum).
  - vm_compute. reflexivity.
  - rewrite Hsum. vm_compute. reflexivity.
Defined.

(** ** Status texts *)

(** X22.  [normalize_lead_status] returns the value given,
    ["Qualified"] or ["Disqualified"], never anything else; applied to
    its own result it changes nothing, and it leaves the two accepted
    statuses as they are.  A text that starts with the letter q, in
    either case and after blanks, becomes ["Qualified"], whatever
    follows. *)
Theorem normalize_lead_status_settles v :
  (normalize_lead_status v = v
   \/ normalize_lead_status v = VStr "Qualified"
   \/ normalize_lead_status v = VStr "Disqualified")
  /\ normalize_lead_status (normalize_lead_status v) = normalize_lead_status v
  /\ normalize_lead_status (VStr "Qualified") = VStr "Qualified"
  /\ normalize_lead_status (VStr "Disqualified") = VStr "Disqualified"
  /\ (forall s,
        PyStr.startswith (PyStr.strip (PyStr.lower s)) "q" = true ->
        normalize_lead_status (VStr s) = VStr "Qualified").
Proof.
  split; [apply normalize_lead_status_cases |].
  split; [| split; [reflexivity | split; [reflexivity |]]].
  - destruct (normalize_lead_status_cases v) as [Hv | [Hv | Hv]]; rewrite Hv;
      [exact Hv | reflexivity | reflexivity].
  - intros s Hq. unfold normalize_lead_status. cbn [py_str truthy].
    assert (Hne : PyStr.strip s <> "").
    { intros He. rewrite strip_lower, He in Hq. discriminate. }
    assert (Hs : s <> "") by (intros ->; now apply Hne).
    destruct s as [|a s']; [congruence |]. cbn [PyStr.is_empty negb orb].
    apply String.eqb_neq in Hne. rewrite Hne.
    assert (Hm : matches_pattern (PyStr.strip (PyStr.lower (String a s')))
                                 qualified_patterns = true).
    { unfold matches_pattern, qualified_patterns. cbn [existsb].
      rewrite Hq. now rewrite !orb_true_r. }
    now rewrite Hm.
Qed.

(** ** The date selected is the date offered *)

Lemma matches_lit_step c items a s found :
  Strptime.matches (Strptime.Lit c :: items) (String a s) found
  = if Ascii.eqb (PyStr.lower_char a) (PyStr.lower_char c)
    then Strptime.matches items s found else [].
Proof. reflexivity. Qed.

Lemma matches_dir_step d items s found :
  Strptime.matches (Strptime.Dir d :: items) s found
  = flat_map
      (fun alt =>
         match Strptime.match_classes alt s with
         | Some (txt, rest) => Strptime.matches items rest ((d, txt) :: found)
         | None => []
         end)
      (Strptime.alternatives d).
Proof. reflexivity. Qed.

Lemma match_classes_cons c cs a s :
  Strptime.match_classes (c :: cs) (String a s)
  = if c a then
      match Strptime.match_classes cs s with
      | Some (txt, rest) => Some (String a txt, rest)
      | None => None
      end
    else None.
Proof. reflexivity. Qed.

Lemma match_classes_nil s : Strptime.match_classes [] s = Some (EmptyString, s).
Proof. reflexivity. Qed.

(** Settles a test whose outcome does not depend on the text that is
    left open. *)
Ltac decide_test :=
  match goal with
  | |- context [if ?b then _ else _] =>
      let v := eval vm_compute in b in
      lazymatch v with
      | true => change b with true
      | false => change b with false
      end; cbv iota
  end.

(** Runs the matcher over the known head of a text. *)
Ltac run_matcher :=
  repeat (first [ rewrite match_classes_cons | rewrite match_classes_nil
                | rewrite matches_lit_step | decide_test | progress cbv beta iota ]);
  cbn [app]; rewrite ?app_nil_r.

Ltac day_case :=
  match goal with
  | |- context [PyStr.pad 2 ?k] =>
      let s := eval vm_compute in (PyStr.pad 2 k) in change (PyStr.pad 2 k) with s
  end;
  cbv [append]; unfold Strptime.alternatives; cbn [flat_map];
  run_matcher; reflexivity.

(** The two digits of a day are matched by one alternative of the day,
    and by that one only once the dash is asked for. *)
Lemma day_matches n rest items found :
  1 <= n <= 31 ->
  Strptime.matches (Strptime.Dir Strptime.D_d :: Strptime.Lit "-" :: items)
                   (PyStr.pad 2 n +:+ String "-" rest) found
  = Strptime.matches items rest ((Strptime.D_d, PyStr.pad 2 n) :: found).
Proof.
  intros Hn. rewrite matches_dir_step.
  assert (Hc : n = 1 \/ n = 2 \/ n = 3 \/ n = 4 \/ n = 5 \/ n = 6 \/ n = 7 \/ n = 8 \/ n = 9
               \/ n = 10 \/ n = 11 \/ n = 12 \/ n = 13 \/ n = 14 \/ n = 15 \/ n = 16
               \/ n = 17 \/ n = 18 \/ n = 19 \/ n = 20 \/ n = 21 \/ n = 22 \/ n = 23
               \/ n = 24 \/ n = 25 \/ n = 26 \/ n = 27 \/ n = 28 \/ n = 29 \/ n = 30
               \/ n = 31) by lia.
  repeat (destruct Hc as [-> | Hc]; [day_case |]).
  subst n. day_case.
Qed.

Ltac month_case :=
  match goal with
  | |- context [nth ?k month_abbr ""] =>
      let s := eval vm_compute in (nth k month_abbr "") in
      change (nth k month_abbr "") with s
  end;
  cbv [append]; unfold Strptime.alternatives, Strptime.a_month, Strptime.word;
  cbn [map flat_map list_ascii_of_string];
  run_matcher; reflexivity.

Lemma month_matches m rest items found :
  1 <= m <= 12 ->
  Strptime.matches (Strptime.Dir Strptime.D_b :: Strptime.Lit "-" :: items)
                   (nth (Z.to_nat (m - 1)) month_abbr "" +:+ String "-" rest) found
  = Strptime.matches items rest
      ((Strptime.D_b, nth (Z.to_nat (m - 1)) month_abbr "") :: found).
Proof.
  intros Hm. rewrite matches_dir_step.
  assert (Hc : m = 1 \/ m = 2 \/ m = 3 \/ m = 4 \/ m = 5 \/ m = 6 \/ m = 7 \/ m = 8
               \/ m = 9 \/ m = 10 \/ m = 11 \/ m = 12) by lia.
  repeat (destruct Hc as [-> | Hc]; [month_case |]).
  subst m. month_case.
Qed.

Lemma year_text_all_ok y : 1 <= y <= 9999 -> year_text_ok y = true.
Proof.
  intros Hy. apply (forallb_seqZ year_text_ok 1 9999); [| lia].
  vm_compute. reflexivity.
Qed.

Lemma year_matches y found :
  1 <= y <= 9999 ->
  Strptime.matches [Strptime.Dir Strptime.D_Y] (PyStr.pad 4 y) found
  = [((Strptime.D_Y, PyStr.pad 4 y) :: found, EmptyString)]
  /\ PyStr.to_Z (PyStr.pad 4 y) = y.
Proof.
  intros Hy. pose proof (year_text_all_ok y Hy) as Hok. unfold year_text_ok in Hok.
  destruct (PyStr.pad 4 y) as [|a [|b [|c [|e [|? ?]]]]]; try discriminate.
  apply andb_true_iff in Hok as [Hok Hv]. apply andb_true_iff in Hok as [Hok He].
  apply andb_true_iff in Hok as [Hok Hc]. apply andb_true_iff in Hok as [Ha Hb].
  split; [| now apply Z.eqb_eq].
  rewrite matches_dir_step. unfold Strptime.alternatives. cbn [flat_map].
  rewrite !match_classes_cons, match_classes_nil. unfold Strptime.digit.
  rewrite Ha, Hb, Hc, He. reflexivity.
Qed.

Lemma day_text_all_ok n : 1 <= n <= 31 -> PyStr.to_Z (PyStr.lstrip (PyStr.pad 2 n)) = n.
Proof.
  intros Hn. apply Z.eqb_eq. apply (forallb_seqZ day_text_ok 1 31); [| lia].
  vm_compute. reflexivity.
Qed.

Lemma month_text_all_ok m :
  1 <= m <= 12 ->
  Strptime.index_of (PyStr.lower (nth (Z.to_nat (m - 1)) month_abbr ""))
                    Strptime.a_month 1 = m.
Proof.
  intros Hm. apply Z.eqb_eq. apply (forallb_seqZ month_text_ok 1 12); [| lia].
  vm_compute. reflexivity.
Qed.

Lemma real_date_bounds d :
  real_date d ->
  1 <= year d <= 9999 /\ 1 <= month d <= 12 /\ 1 <= day d <= 31.
Proof.
  unfold real_date, Date.valid. intros Hv.
  apply andb_true_iff in Hv as [Hv Hd2]. apply andb_true_iff in Hv as [Hv Hd1].
  apply andb_true_iff in Hv as [Hv Hm2]. apply andb_true_iff in Hv as [Hv Hm1].
  apply andb_true_iff in Hv as [Hy1 Hy2].
  apply Z.leb_le in Hy1, Hy2, Hm1, Hm2, Hd1, Hd2.
  assert (Hdim : Date.days_in_month (year d) (month d) <= 31).
  { assert (Hc : month d = 1 \/ month d = 2 \/ month d = 3 \/ month d = 4 \/ month d = 5
                 \/ month d = 6 \/ month d = 7 \/ month d = 8 \/ month d = 9
                 \/ month d = 10 \/ month d = 11 \/ month d = 12) by lia.
    unfold Date.days_in_month.
    repeat (destruct Hc as [-> | Hc]; [destruct (Date.is_leap (year d)); lia |]).
    rewrite Hc. lia. }
  lia.
Qed.

Lemma strptime_strftime d :
  real_date d -> 1000 <= year d ->
  Strptime.strptime (strftime_d_b_Y d) "%d-%b-%Y" = Some d.
Proof.
  intros Hreal Hy. destruct (real_date_bounds d Hreal) as (Hyear & Hmonth & Hday).
  unfold Strptime.strptime.
  change (Strptime.compile "%d-%b-%Y")
    with (Some [Strptime.Dir Strptime.D_d; Strptime.Lit "-"; Strptime.Dir Strptime.D_b;
                Strptime.Lit "-"; Strptime.Dir Strptime.D_Y]).
  unfold strftime_d_b_Y.
  change (PyStr.pad 2 (day d) +:+ "-" +:+ nth (Z.to_nat (month d - 1)) month_abbr ""
          +:+ "-" +:+ PyStr.pad 4 (year d))
    with (PyStr.pad 2 (day d)
          +:+ String "-" (nth (Z.to_nat (month d - 1)) month_abbr ""
                          +:+ String "-" (PyStr.pad 4 (year d)))).
  rewrite (day_matches (day d)) by exact Hday.
  rewrite (month_matches (month d)) by exact Hmonth.
  destruct (year_matches (year d)
              [(Strptime.D_b, nth (Z.to_nat (month d - 1)) month_abbr "");
               (Strptime.D_d, PyStr.pad 2 (day d))] ltac:(lia)) as [Hm Hv].
  rewrite Hm. cbn [rev app fold_left Strptime.set_field].
  cbn [Strptime.f_year Strptime.f_month_ Strptime.f_day Strptime.f_second].
  rewrite Hv, (day_text_all_ok (day d) Hday), (month_text_all_ok (month d) Hmonth).
  cbn [Z.leb Z.compare]. unfold Date.make. unfold real_date in Hreal. rewrite Hreal.
  now destruct d.
Qed.

Lemma sorted_last_greatest (l : list date) d :
  StronglySorted Date.lt l -> last l = Some d -> forall x, x ∈ l -> Date.le x d.
Proof.
  induction 1 as [|a l Hs IH Ha]; [discriminate |].
  intros Hlast x Hx. destruct l as [|b l'].
  - cbn in Hlast. injection Hlast as <-. apply list_elem_of_singleton in Hx as ->.
    apply date_le_refl.
  - change (last (a :: b :: l')) with (last (b :: l')) in Hlast.
    apply elem_of_cons in Hx as [-> | Hx]; [| now apply IH].
    assert (Hd : d ∈ b :: l') by (now apply last_Some_elem_of).
    eapply Forall_forall in Ha; [| exact Hd]. now apply date_lt_le.
Qed.

(** X23.  The date selected in the application is the date offered.  A
    date of the calendar with a year of four digits, written as
    [%d-%b-%Y], is read back by [strptime] with that format as the same
    date, so that two dates offered never show the same text; this
    holds for every date that [get_unique_dates] offers when the cells
    are well formed.  The date preselected, the last one offered, is
    the latest date of the records. *)
Theorem date_selection_round_trip :
  (forall d, real_date d -> 1000 <= year d ->
     Strptime.strptime (strftime_d_b_Y d) "%d-%b-%Y" = Some d)
  /\ (forall d1 d2,
        real_date d1 -> real_date d2 -> 1000 <= year d1 -> 1000 <= year d2 ->
        strftime_d_b_Y d1 = strftime_d_b_Y d2 -> d1 = d2)
  /\ (forall self (records : list record) col d,
        date_cells_well_formed col records ->
        d ∈ get_unique_dates (parse_dates_from_records self records col).2 ->
        1000 <= year d ->
        Strptime.strptime (strftime_d_b_Y d) "%d-%b-%Y" = Some d)
  /\ (forall self (records : list record) col d,
        last (get_unique_dates (parse_dates_from_records self records col).2) = Some d ->
        d ∈ parsed_dates_of col records
        /\ forall d', d' ∈ parsed_dates_of col records -> Date.le d' d).
Proof.
  split; [exact strptime_strftime | split; [| split]].
  - intros d1 d2 H1 H2 Hy1 Hy2 Heq.
    pose proof (strptime_strftime d1 H1 Hy1) as E1.
    pose proof (strptime_strftime d2 H2 Hy2) as E2.
    rewrite Heq in E1. congruence.
  - intros self records col d Hwf Hd Hy. apply strptime_strftime; [| exact Hy].
    apply (parsed_dates_real col records d Hwf).
    apply get_unique_dates_elem in Hd.
    change (parsed_dates (parse_dates_from_records self records col).2)
      with (parse_dates_from_records self records col).1 in Hd.
    now rewrite parsed_values in Hd.
  - intros self records col d Hlast.
    assert (Hel : forall x,
              x ∈ get_unique_dates (parse_dates_from_records self records col).2
              <-> x ∈ parsed_dates_of col records).
    { intros x. rewrite get_unique_dates_elem.
      change (parsed_dates (parse_dates_from_records self records col).2)
        with (parse_dates_from_records self records col).1.
      now rewrite parsed_values. }
    split.
    + apply Hel. now apply last_Some_elem_of.
    + intros d' Hd'. apply Hel in Hd'.
      exact (sorted_last_greatest _ d (get_unique_dates_ascending _) Hlast d' Hd').
Qed.

(** ** Columns spelled in another case *)

Lemma lower_idemp s : PyStr.lower (PyStr.lower s) = PyStr.lower s.
Proof.
  induction s as [|c s IH]; [reflexivity |]. cbn [PyStr.lower].
  now rewrite lower_char_idemp, IH.
Qed.

Lemma tally_nothing {K} `{EqDecision K} (sel : record -> option K)
    (records : list record) acc :
  (forall r, r ∈ records -> sel r = None) ->
  fold_left (tally_step sel) records acc = acc.
Proof.
  revert acc. induction records as [|r records IH]; intros acc Hnone; [reflexivity |].
  cbn [fold_left]. unfold tally_step at 2. rewrite (Hnone r) by left.
  apply IH. intros r' Hr'. apply Hnone. now right.
Qed.

Lemma count_agent_nothing (records : list record) acc :
  (forall r, r ∈ records -> is_qualified r = false /\ is_disqualified r = false) ->
  fold_left count_agent records acc = acc.
Proof.
  revert acc. induction records as [|r records IH]; intros acc Hnone; [reflexivity |].
  cbn [fold_left]. destruct (Hnone r ltac:(left)) as [Hq Hd].
  unfold count_agent at 2. unfold is_qualified in Hq. unfold is_disqualified in Hd.
  rewrite Hq, Hd. apply IH. intros r' Hr'. apply Hnone. now right.
Qed.

Lemma no_status_no_rank (r : record) :
  get r "Lead Status" = VNone ->
  status_key r = None /\ is_qualified r = false /\ is_disqualified r = false.
Proof.
  intros Hn. unfold status_key, is_qualified, is_disqualified.
  rewrite status_of_get, Hn. repeat split.
Qed.

(** X24.  The columns are checked without regard to letter case, but
    read by their exact names.  [validate_columns] gives the same
    verdict on the headers in lower case.  When no header of a sheet is
    spelled ["Lead Status"], the records of the sheet have no status:
    they raise no issue, pass [validate_lead_status], count in the
    combined summary as records of which none is qualified, and give no
    row in any report.  When the column of a tag is not a header, every
    qualified record goes under ["(Blank)"]. *)
Theorem columns_spelled_otherwise ratio validator processor (ws : worksheet) sheet_type :
  let headers := (_parse_sheet ws sheet_type).1 in
  let records := (_parse_sheet ws sheet_type).2 in
  validate_columns processor (map PyStr.lower headers) = validate_columns processor headers
  /\ ("Lead Status" ∉ headers ->
      find_lead_status_issues ratio validator records = ([], ∅)
      /\ validate_lead_status processor records = inr tt
      /\ generate_combined_qa_report records records
         = [ [VStr "MTD PRE QA"; VStr "MTD POST QA"; VStr "PRE QA"; VStr "POST QA"];
             [int_cell (List.length records); int_cell 0; int_cell (List.length records);
              int_cell 0] ]
      /\ agent_rows records = [] /\ reason_rows records = []
      /\ forall column, tag_rows column records = [])
  /\ (forall column,
        column ∉ headers -> ~ metadata_key column ->
        forall row, row ∈ tag_rows column records ->
          row = ("(Blank)", List.length (filter qualified_status records))).
Proof.
  intros headers records.
  assert (Habsent : forall k, k ∉ headers -> ~ metadata_key k ->
            forall r, r ∈ records -> get r k = VNone).
  { intros k Hk Hm r Hr. destruct (parse_sheet_record ws sheet_type r Hr) as [_ Hkeys].
    unfold get. destruct (r !! k) as [v|] eqn:E; [exfalso | reflexivity].
    destruct (proj1 (Hkeys k) ltac:(rewrite E; eauto)) as [Hin | Hmeta]; auto. }
  split; [| split].
  - unfold validate_columns. rewrite map_map.
    rewrite (map_ext (fun h => PyStr.lower (PyStr.lower h)) PyStr.lower)
      by apply lower_idemp.
    reflexivity.
  - intros Hno.
    assert (Hnone : forall r, r ∈ records -> get r "Lead Status" = VNone).
    { apply Habsent; [exact Hno |]. intros [? | ?]; discriminate. }
    assert (Hq : forall r, r ∈ records ->
              is_qualified r = false /\ is_disqualified r = false).
    { intros r Hr. now apply no_status_no_rank, Hnone. }
    assert (Hissues : find_lead_status_issues ratio validator records = ([], ∅)).
    { unfold find_lead_status_issues. rewrite count_status_tally.
      rewrite tally_nothing; [reflexivity |].
      intros r Hr. now apply no_status_no_rank, Hnone. }
    split; [exact Hissues |].
    split.
    { apply validate_lead_status_passes. intros r Hr Hne.
      now rewrite (Hnone r Hr) in Hne. }
    split.
    { unfold generate_combined_qa_report. rewrite count_if_length.
      rewrite filter_none; [reflexivity |].
      intros r Hr. destruct (Hq r Hr) as [Hf _]. rewrite Hf. discriminate. }
    split; [| split].
    + unfold agent_rows. now rewrite count_agent_nothing.
    + unfold reason_rows. rewrite count_reason_tally, tally_nothing; [reflexivity |].
      intros r Hr. unfold reason_key. now rewrite (proj2 (Hq r Hr)).
    + intros column. unfold tag_rows.
      rewrite count_tag_tally, tally_nothing; [reflexivity |].
      intros r Hr. unfold tag_key. now rewrite (proj1 (Hq r Hr)).
  - intros column Hcol Hmeta [t n] Hin.
    unfold tag_rows in Hin. rewrite sort_desc_elem_of, count_tag_tally in Hin.
    pose proof Hin as Hin'. apply tally_entry in Hin as [Hn _].
    assert (Ht : t ∈ map fst (fold_left (tally_step (tag_key column)) records []))
      by (apply list_elem_of_fmap; now exists (t, n)).
    apply tally_keys in Ht as [Ht | (r & Hr & Hk)]; [inversion Ht |].
    apply tag_key_spec in Hk as [_ <-].
    assert (Hblank : forall r', r' ∈ records -> tag_of column r' = "(Blank)").
    { intros r' Hr'. apply tag_of_trimmed. left. now apply Habsent. }
    rewrite (Hblank r Hr) in Hn |- *. f_equal. rewrite Hn. f_equal.
    apply list_filter_iff_elem. intros r' Hr'. rewrite tag_key_spec. unfold tagged.
    rewrite (Hblank r' Hr'). tauto.
Qed.

(** ** The rate of the total row *)

Lemma rate_le_cross (d t d' t' : nat) :
  (0 < t)%nat -> (0 < t')%nat ->
  ((rate d t <= rate d' t')%Q <-> (d * t' <= d' * t)%nat).
Proof.
  intros Ht Ht'. unfold rate.
  rewrite (proj2 (Nat.ltb_lt 0 t) Ht), (proj2 (Nat.ltb_lt 0 t') Ht').
  unfold Qle. cbn [Qnum Qden].
  assert (Hp : forall n, (0 < n)%nat -> Z.pos (Pos.of_nat n) = Z.of_nat n).
  { intros n Hn. destruct n; [lia |]. now rewrite <- Pos.of_nat_succ. }
  rewrite (Hp t Ht), (Hp t' Ht'). rewrite <- !Nat2Z.inj_mul. lia.
Qed.

Lemma agent_row_fields (records : list record) row :
  row ∈ agent_rows records ->
  (0 < ar_total row)%nat
  /\ ar_error_pct row = rate (ar_disqualified row) (ar_total row).
Proof.
  intros Hrow. apply agent_rows_elem in Hrow as (a & c & Hin & ->).
  cbn [agent_row_of ar_total ar_error_pct ar_disqualified]. split; [| reflexivity].
  pose proof (count_agent_positive records [] ltac:(constructor)) as Hpos.
  rewrite Forall_forall in Hpos. exact (Hpos (a, c) Hin).
Qed.

(** Sums of numerators and of denominators keep a bound on the
    quotients, from above and from below. *)
Lemma sums_keep_bound (rows : list agent_row) (d t : nat) :
  (Forall (fun row => (ar_disqualified row * t <= d * ar_total row)%nat) rows ->
   (sum_list (map ar_disqualified rows) * t <= d * sum_list (map ar_total rows))%nat)
  /\ (Forall (fun row => (d * ar_total row <= ar_disqualified row * t)%nat) rows ->
      (d * sum_list (map ar_total rows) <= sum_list (map ar_disqualified rows) * t)%nat).
Proof.
  split; induction 1 as [|row rows Hrow _ IH]; simpl; unfold id in *; nia.
Qed.

Lemma sorted_head_last {A} (R : A -> A -> Prop) (l : list A) :
  (forall x, R x x) ->
  StronglySorted R l ->
  (forall x, head l = Some x -> Forall (fun y => R x y) l)
  /\ (forall x, last l = Some x -> Forall (fun y => R y x) l).
Proof.
  intros Hrefl Hs. split.
  - intros x Hx. destruct l as [|x' l]; [discriminate |]. injection Hx as ->.
    apply StronglySorted_inv in Hs as [_ Hall]. constructor; [apply Hrefl | exact Hall].
  - induction Hs as [|y l Hs IH Hall]; intros x Hx; [discriminate |].
    destruct l as [|z l].
    + injection Hx as ->. constructor; [apply Hrefl | constructor].
    + change (last (y :: z :: l)) with (last (z :: l)) in Hx.
      constructor; [| now apply IH].
      rewrite Forall_forall in Hall. apply Hall. now apply last_Some_elem_of.
Qed.

(** X25.  In the report of the agents the rate of the total row lies
    between the rates of the last and of the first row, which are the
    lowest and the highest of the agents; in the report of the reasons
    no rate of a row is above the rate of the total row; and no rate is
    below 0 or above 1.  These are comparisons of quotients of counts,
    which the rounding of the quotients to floats keeps. *)
Theorem total_rate_between_rows (records : list record) :
  let rows := agent_rows records in
  let total := agent_total_row rows in
  (forall row, head rows = Some row -> (ar_error_pct total <= ar_error_pct row)%Q)
  /\ (forall row, last rows = Some row -> (ar_error_pct row <= ar_error_pct total)%Q)
  /\ (forall row, row ∈ rows -> (0 <= ar_error_pct row <= 1)%Q)
  /\ (0 <= ar_error_pct total <= 1)%Q
  /\ (forall row, row ∈ reason_rows records ->
        (0 <= rr_error_pct row)%Q
        /\ (rr_error_pct row
            <= rr_error_pct (reason_total_row (List.length records)
                                              (reason_rows records)))%Q)
  /\ (rr_error_pct (reason_total_row (List.length records) (reason_rows records)) <= 1)%Q.
Proof.
  intros rows total.
  pose proof (agent_rows_sorted records) as Hsorted. fold rows in Hsorted.
  destruct (sorted_head_last _ rows (fun row => Qle_refl (ar_error_pct row)) Hsorted)
    as [Hhead Hlast].
  destruct (agent_rows_sums records) as (_ & _ & Htot & Hpos). fold rows in Htot, Hpos.
  assert (Hfields : forall row, row ∈ rows ->
            (0 < ar_total row)%nat
            /\ ar_error_pct row = rate (ar_disqualified row) (ar_total row))
    by (intros row; apply agent_row_fields).
  assert (Hpct : ar_error_pct total
                 = rate (sum_list (map ar_disqualified rows)) (sum_list (map ar_total rows)))
    by reflexivity.
  assert (Hunit : forall d t, (d <= t)%nat -> (0 <= rate d t <= 1)%Q).
  { intros d t Hdt. unfold rate. destruct (Nat.ltb_spec 0 t) as [Ht | Ht].
    - unfold Qle. cbn [Qnum Qden].
      replace (Z.pos (Pos.of_nat t)) with (Z.of_nat t)
        by (destruct t; [lia |]; now rewrite <- Pos.of_nat_succ).
      lia.
    - split; [apply Qle_refl | discriminate]. }
  split; [| split; [| split; [| split; [| split]]]].
  - intros row Hrow.
    assert (Hin : row ∈ rows) by (destruct rows; [discriminate |]; injection Hrow as ->; left).
    destruct (Hfields row Hin) as [Ht Hr].
    assert (Hne : rows <> []) by (intros Hnil; rewrite Hnil in Hin; inversion Hin).
    rewrite Hpct, Hr. apply rate_le_cross; [now apply Hpos | exact Ht |].
    apply (proj1 (sums_keep_bound rows (ar_disqualified row) (ar_total row))).
    specialize (Hhead row Hrow). rewrite Forall_forall in Hhead |- *.
    intros y Hy. specialize (Hhead y Hy). cbn beta in Hhead.
    destruct (Hfields y Hy) as [Hty Hry]. rewrite Hry, Hr in Hhead.
    now apply rate_le_cross in Hhead.
  - intros row Hrow.
    assert (Hin : row ∈ rows) by (now apply last_Some_elem_of).
    destruct (Hfields row Hin) as [Ht Hr].
    assert (Hne : rows <> []) by (intros Hnil; rewrite Hnil in Hin; inversion Hin).
    rewrite Hpct, Hr. apply rate_le_cross; [exact Ht | now apply Hpos |].
    apply (proj2 (sums_keep_bound rows (ar_disqualified row) (ar_total row))).
    specialize (Hlast row Hrow). rewrite Forall_forall in Hlast |- *.
    intros y Hy. specialize (Hlast y Hy). cbn beta in Hlast.
    destruct (Hfields y Hy) as [Hty Hry]. rewrite Hry, Hr in Hlast.
    apply rate_le_cross in Hlast; [lia | exact Ht | exact Hty].
  - intros row Hrow. pose proof Hrow as Hrow'.
    apply agent_rows_elem in Hrow' as (a & c & _ & ->).
    cbn [agent_row_of ar_error_pct]. apply Hunit. lia.
  - rewrite Hpct. apply Hunit. lia.
  - intros row Hrow. apply reason_rows_elem in Hrow as (k & n & Hkn & ->).
    cbn [rr_error_pct reason_total_row]. rewrite reason_rows_sum.
    pose proof (tally_entry reason_key k n records Hkn) as [Hn _].
    assert (Hle : (n <= List.length (filter disqualified_status records))%nat).
    { rewrite Hn. apply sublist_length.
      assert (Hsub : filter (fun r => reason_key r = Some k) records
                     = filter (fun r => reason_key r = Some k)
                              (filter disqualified_status records)).
      { rewrite list_filter_filter. apply list_filter_iff. intros r. split; [| tauto].
        intros Hk. split; [exact Hk |]. apply reason_key_some. rewrite Hk. eauto. }
      rewrite Hsub. apply sublist_filter. }
    pose proof (length_filter disqualified_status records) as Hall.
    split; [apply Hunit; lia |].
    destruct (Nat.ltb_spec 0 (List.length records)) as [Hpos' | Hz].
    + apply rate_le_cross; [exact Hpos' | exact Hpos' |]. nia.
    + unfold rate. rewrite (proj2 (Nat.ltb_ge 0 _) Hz). apply Qle_refl.
  - cbn [rr_error_pct reason_total_row]. rewrite reason_rows_sum.
    apply Hunit. apply length_filter.
Qed.

Lemma total_rate_between_rows_witness :
  exists first,
    head (agent_rows agent_example) = Some first
    /\ (ar_error_pct (agent_total_row (agent_rows agent_example)) <= ar_error_pct first)%Q.
Proof.
  assert (Hhead : is_Some (head (agent_rows agent_example)))
    by (vm_compute; eauto).
  destruct Hhead as [first Hfirst]. exists first. split; [exact Hfirst |].
  destruct (total_rate_between_rows agent_example) as (Hhead & _).
  exact (Hhead first Hfirst).
Defined.

(** ** A date and its text *)

Lemma is_empty_append s t :
  PyStr.is_empty (s +:+ t) = PyStr.is_empty s && PyStr.is_empty t.
Proof. destruct s; reflexivity. Qed.

Lemma rstrip_append s t :
  PyStr.is_empty (PyStr.rstrip t) = false ->
  PyStr.rstrip (s +:+ t) = s +:+ PyStr.rstrip t.
Proof.
  intros Ht. induction s as [|c s IH]; [reflexivity |].
  change (String c s +:+ t) with (String c (s +:+ t)). cbn [PyStr.rstrip].
  rewrite IH, is_empty_append, Ht, !andb_false_r. reflexivity.
Qed.

Lemma contains_append c s t :
  PyStr.contains c (s +:+ t) = PyStr.contains c s || PyStr.contains c t.
Proof.
  induction s as [|a s IH]; [reflexivity |].
  change (String a s +:+ t) with (String a (s +:+ t)). cbn [PyStr.contains].
  now rewrite IH, orb_assoc.
Qed.

Lemma split_head_append c s t :
  PyStr.contains c s = false -> PyStr.split_head c (s +:+ String c t) = s.
Proof.
  induction s as [|a s IH]; intros Hc.
  - change (PyStr.split_head c (String c t) = ""). cbn [PyStr.split_head].
    now rewrite Ascii.eqb_refl.
  - change (String a s +:+ String c t) with (String a (s +:+ String c t)).
    cbn [PyStr.contains] in Hc. apply orb_false_iff in Hc as [Ha Hs].
    cbn [PyStr.split_head]. rewrite Ha. now rewrite IH.
Qed.

Lemma all_digits_append s t :
  PyStr.all_digits (s +:+ t) = PyStr.all_digits s && PyStr.all_digits t.
Proof.
  induction s as [|a s IH]; [reflexivity |].
  change (String a s +:+ t) with (String a (s +:+ t)). cbn [PyStr.all_digits].
  now rewrite IH, andb_assoc.
Qed.

Lemma zeros_digits k : PyStr.all_digits (PyStr.zeros k) = true.
Proof. induction k as [|k IH]; [reflexivity |]. cbn [PyStr.zeros PyStr.all_digits]. exact IH. Qed.

(** A padded number is a text of digits, and not the empty one. *)
Lemma pad_digits w n : PyStr.isdigit (PyStr.pad w n) = true.
Proof.
  unfold PyStr.isdigit, PyStr.pad. rewrite is_empty_append, all_digits_append.
  rewrite zeros_digits. unfold PyStr.of_N.
  rewrite digits_go_all by reflexivity.
  assert (Hne : PyStr.is_empty
                  (PyStr.digits_go (S (N.size_nat (Z.to_N n))) (Z.to_N n) "") = false).
  { cbn [PyStr.digits_go]. destruct (Z.to_N n <? 10)%N; [reflexivity |].
    now apply digits_go_filled. }
  rewrite Hne, andb_false_r. reflexivity.
Qed.

Lemma pad_all_digits w n : PyStr.all_digits (PyStr.pad w n) = true.
Proof.
  pose proof (pad_digits w n) as H. unfold PyStr.isdigit in H.
  now apply andb_true_iff in H as [_ H].
Qed.

Lemma pad_filled w n : PyStr.is_empty (PyStr.pad w n) = false.
Proof.
  pose proof (pad_digits w n) as H. unfold PyStr.isdigit in H.
  apply andb_true_iff in H as [H _]. now destruct (PyStr.is_empty _).
Qed.

(** A text that starts with a padded number and ends with one has no
    blank around it, is not empty and does not read ["nan"]. *)
Lemma padded_text_passes w n body w' n' :
  let text := PyStr.pad w n +:+ body +:+ PyStr.pad w' n' in
  PyStr.strip text = text
  /\ PyStr.is_empty text = false
  /\ String.eqb (PyStr.lower text) "nan" = false.
Proof.
  intros text.
  assert (Hhead : exists a s', PyStr.pad w n = String a s' /\ PyStr.is_digit a = true).
  { pose proof (pad_all_digits w n) as Hd. pose proof (pad_filled w n) as He.
    destruct (PyStr.pad w n) as [|a s']; [discriminate |].
    apply all_digits_cons in Hd as [Ha _]. eauto. }
  destruct Hhead as (a & s' & Hpad & Ha).
  assert (Htext : text = String a (s' +:+ body +:+ PyStr.pad w' n')).
  { unfold text. now rewrite Hpad. }
  split; [| split].
  - unfold PyStr.strip.
    assert (Hl : PyStr.lstrip text = text).
    { rewrite Htext. cbn [PyStr.lstrip]. now rewrite (digit_not_space a Ha). }
    rewrite Hl. unfold text.
    assert (Hr : PyStr.rstrip (PyStr.pad w' n') = PyStr.pad w' n')
      by apply all_digits_rstrip, pad_all_digits.
    assert (Hb : PyStr.rstrip (body +:+ PyStr.pad w' n') = body +:+ PyStr.pad w' n').
    { rewrite rstrip_append by (rewrite Hr; apply pad_filled). now rewrite Hr. }
    rewrite rstrip_append
      by (rewrite Hb, is_empty_append, pad_filled; apply andb_false_r).
    now rewrite Hb.
  - now rewrite Htext.
  - rewrite Htext. cbn [PyStr.lower]. rewrite (digit_lower_char a Ha).
    destruct (String.eqb_spec (String a (PyStr.lower (s' +:+ body +:+ PyStr.pad w' n')))
                              "nan") as [Heq | _]; [| reflexivity].
    injection Heq as -> _. discriminate Ha.
Qed.

Lemma matches_nil_step s found : Strptime.matches [] s found = [(found, s)].
Proof. reflexivity. Qed.

Lemma matches_spaces_step items s found :
  Strptime.matches (Strptime.Spaces :: items) s found
  = flat_map (fun rest => Strptime.matches items rest found) (Strptime.after_blanks s).
Proof. reflexivity. Qed.

Lemma after_blanks_cons a s :
  Strptime.after_blanks (String a s)
  = if PyStr.is_space a then Strptime.after_blanks s ++ [s] else [].
Proof. reflexivity. Qed.

Lemma after_blanks_nil : Strptime.after_blanks EmptyString = [].
Proof. reflexivity. Qed.

(** Runs the matcher to the end of a text that is known. *)
Ltac run_matcher_to_end :=
  repeat (first [ rewrite match_classes_cons | rewrite match_classes_nil
                | rewrite matches_lit_step | rewrite matches_nil_step
                | rewrite matches_spaces_step | rewrite after_blanks_cons
                | rewrite after_blanks_nil | decide_test
                | progress cbv beta iota | progress cbn [flat_map app] ]).

Ltac known_pad :=
  match goal with
  | |- context [PyStr.pad 2 ?k] =>
      let s := eval vm_compute in (PyStr.pad 2 k) in change (PyStr.pad 2 k) with s
  end.

Lemma year_head_matches y rest items found :
  1 <= y <= 9999 ->
  Strptime.matches (Strptime.Dir Strptime.D_Y :: Strptime.Lit "-" :: items)
                   (PyStr.pad 4 y +:+ String "-" rest) found
  = Strptime.matches items rest ((Strptime.D_Y, PyStr.pad 4 y) :: found).
Proof.
  intros Hy. pose proof (year_text_all_ok y Hy) as Hok. unfold year_text_ok in Hok.
  destruct (PyStr.pad 4 y) as [|a [|b [|c [|e [|? ?]]]]]; try discriminate.
  apply andb_true_iff in Hok as [Hok _]. apply andb_true_iff in Hok as [Hok He].
  apply andb_true_iff in Hok as [Hok Hc]. apply andb_true_iff in Hok as [Ha Hb].
  cbv [append]. rewrite matches_dir_step. unfold Strptime.alternatives. cbn [flat_map].
  rewrite !match_classes_cons, match_classes_nil. unfold Strptime.digit.
  rewrite Ha, Hb, Hc, He. cbv beta iota. rewrite matches_lit_step.
  decide_test. now rewrite app_nil_r.
Qed.

Lemma month_number_matches m rest items found :
  1 <= m <= 12 ->
  Strptime.matches (Strptime.Dir Strptime.D_m :: Strptime.Lit "-" :: items)
                   (PyStr.pad 2 m +:+ String "-" rest) found
  = Strptime.matches items rest ((Strptime.D_m, PyStr.pad 2 m) :: found).
Proof.
  intros Hm. rewrite matches_dir_step.
  assert (Hc : m = 1 \/ m = 2 \/ m = 3 \/ m = 4 \/ m = 5 \/ m = 6 \/ m = 7 \/ m = 8
               \/ m = 9 \/ m = 10 \/ m = 11 \/ m = 12) by lia.
  repeat (destruct Hc as [-> | Hc]; [day_case |]).
  subst m. day_case.
Qed.

Ltac thirty_one_days n :=
  assert (n = 1 \/ n = 2 \/ n = 3 \/ n = 4 \/ n = 5 \/ n = 6 \/ n = 7 \/ n = 8 \/ n = 9
          \/ n = 10 \/ n = 11 \/ n = 12 \/ n = 13 \/ n = 14 \/ n = 15 \/ n = 16
          \/ n = 17 \/ n = 18 \/ n = 19 \/ n = 20 \/ n = 21 \/ n = 22 \/ n = 23
          \/ n = 24 \/ n = 25 \/ n = 26 \/ n = 27 \/ n = 28 \/ n = 29 \/ n = 30
          \/ n = 31) as Hc by lia.

Ltac day_end_case :=
  known_pad; unfold Strptime.alternatives; cbn [flat_map];
  run_matcher_to_end; reflexivity.

(** At the end of the text the two digits of the day are the first
    match. *)
Lemma day_end_matches n found :
  1 <= n <= 31 ->
  exists others,
    Strptime.matches [Strptime.Dir Strptime.D_d] (PyStr.pad 2 n) found
    = ((Strptime.D_d, PyStr.pad 2 n) :: found, EmptyString) :: others.
Proof.
  intros Hn. thirty_one_days n.
  repeat (destruct Hc as [-> | Hc];
          [eexists; rewrite matches_dir_step; day_end_case |]).
  subst n. eexists. rewrite matches_dir_step. day_end_case.
Qed.

(** A format that asks for a time finds none after the day. *)
Lemma day_then_blank n items found :
  1 <= n <= 31 ->
  Strptime.matches (Strptime.Dir Strptime.D_d :: Strptime.Spaces :: items)
                   (PyStr.pad 2 n) found = [].
Proof.
  intros Hn. thirty_one_days n. rewrite matches_dir_step.
  repeat (destruct Hc as [-> | Hc]; [day_end_case |]).
  subst n. day_end_case.
Qed.

Lemma month_number_all_ok m : 1 <= m <= 12 -> PyStr.to_Z (PyStr.pad 2 m) = m.
Proof.
  intros Hm. apply Z.eqb_eq. apply (forallb_seqZ month_number_ok 1 12); [| lia].
  vm_compute. reflexivity.
Qed.

Lemma isoformat_shape d :
  Date.isoformat d
  = PyStr.pad 4 (year d)
    +:+ String "-" (PyStr.pad 2 (month d) +:+ String "-" (PyStr.pad 2 (day d))).
Proof. reflexivity. Qed.

Lemma strptime_iso d :
  real_date d -> Strptime.strptime (Date.isoformat d) "%Y-%m-%d" = Some d.
Proof.
  intros Hreal. destruct (real_date_bounds d Hreal) as (Hyear & Hmonth & Hday).
  unfold Strptime.strptime.
  change (Strptime.compile "%Y-%m-%d")
    with (Some [Strptime.Dir Strptime.D_Y; Strptime.Lit "-"; Strptime.Dir Strptime.D_m;
                Strptime.Lit "-"; Strptime.Dir Strptime.D_d]).
  rewrite isoformat_shape.
  rewrite (year_head_matches (year d)) by exact Hyear.
  rewrite (month_number_matches (month d)) by exact Hmonth.
  destruct (day_end_matches (day d)
              [(Strptime.D_m, PyStr.pad 2 (month d));
               (Strptime.D_Y, PyStr.pad 4 (year d))] Hday) as [others Hm].
  rewrite Hm. cbn [rev app fold_left Strptime.set_field].
  cbn [Strptime.f_year Strptime.f_month_ Strptime.f_day Strptime.f_second].
  destruct (year_matches (year d) [] Hyear) as [_ Hv].
  rewrite Hv, (day_text_all_ok (day d) Hday), (month_number_all_ok (month d) Hmonth).
  cbn [Z.leb Z.compare]. unfold Date.make. unfold real_date in Hreal. rewrite Hreal.
  now destruct d.
Qed.

Lemma strptime_iso_time d :
  real_date d -> Strptime.strptime (Date.isoformat d) "%Y-%m-%d %H:%M:%S" = None.
Proof.
  intros Hreal. destruct (real_date_bounds d Hreal) as (Hyear & Hmonth & Hday).
  unfold Strptime.strptime.
  change (Strptime.compile "%Y-%m-%d %H:%M:%S")
    with (Some [Strptime.Dir Strptime.D_Y; Strptime.Lit "-"; Strptime.Dir Strptime.D_m;
                Strptime.Lit "-"; Strptime.Dir Strptime.D_d; Strptime.Spaces;
                Strptime.Dir Strptime.D_H; Strptime.Lit ":"; Strptime.Dir Strptime.D_M;
                Strptime.Lit ":"; Strptime.Dir Strptime.D_S]).
  rewrite isoformat_shape.
  rewrite (year_head_matches (year d)) by exact Hyear.
  rewrite (month_number_matches (month d)) by exact Hmonth.
  now rewrite (day_then_blank (day d)) by exact Hday.
Qed.

Lemma append_assoc (s t u : string) : (s +:+ t) +:+ u = s +:+ (t +:+ u).
Proof.
  induction s as [|a s IH]; [reflexivity |].
  change (String a ((s +:+ t) +:+ u) = String a (s +:+ (t +:+ u))). now rewrite IH.
Qed.

Lemma isoformat_no_blank d : PyStr.contains " " (Date.isoformat d) = false.
Proof.
  rewrite isoformat_shape. rewrite contains_append. cbn [PyStr.contains].
  rewrite contains_append. cbn [PyStr.contains].
  rewrite !(all_digits_contains " ") by (reflexivity || apply pad_all_digits).
  reflexivity.
Qed.

(** The text of a date is read as that date. *)
Lemma parse_date_iso d : real_date d -> parse_date (VStr (Date.isoformat d)) = Some d.
Proof.
  intros Hreal.
  assert (Hshape : Date.isoformat d
                   = PyStr.pad 4 (year d)
                     +:+ ("-" +:+ PyStr.pad 2 (month d) +:+ "-")
                     +:+ PyStr.pad 2 (day d)).
  { rewrite isoformat_shape.
    change ("-" +:+ PyStr.pad 2 (month d) +:+ "-")
      with (String "-" (PyStr.pad 2 (month d) +:+ "-")).
    change (String "-" (PyStr.pad 2 (month d) +:+ "-") +:+ PyStr.pad 2 (day d))
      with (String "-" ((PyStr.pad 2 (month d) +:+ "-") +:+ PyStr.pad 2 (day d))).
    now rewrite append_assoc. }
  destruct (padded_text_passes 4 (year d) ("-" +:+ PyStr.pad 2 (month d) +:+ "-")
                               2 (day d)) as (Hstrip & Hfilled & Hnan).
  rewrite <- Hshape in Hstrip, Hfilled, Hnan.
  unfold parse_date. cbn [is_none py_str orb].
  rewrite Hstrip, Hfilled, Hnan. cbn [orb].
  rewrite isoformat_no_blank. cbn [andb].
  unfold date_formats. cbn [try_formats].
  now rewrite (strptime_iso_time d Hreal), (strptime_iso d Hreal).
Qed.

Lemma append_cons a (s t : string) : String a s +:+ t = String a (s +:+ t).
Proof. reflexivity. Qed.

Lemma append_nil_l (t : string) : EmptyString +:+ t = t.
Proof. reflexivity. Qed.

(** Brings a text made of pieces into one shape. *)
Ltac normal_append :=
  do 3 (rewrite ?append_assoc, ?append_cons, ?append_nil_l).

(** The text of a date with a time is read as the date. *)
Lemma parse_date_iso_time d h m s us :
  real_date d -> parse_date (VStr (py_str (VDateTime d h m s us))) = Some d.
Proof.
  intros Hreal. cbn [py_str].
  set (time := PyStr.pad 2 h +:+ ":" +:+ PyStr.pad 2 m +:+ ":" +:+ PyStr.pad 2 s
               +:+ (if us =? 0 then "" else "." +:+ PyStr.pad 6 us)).
  change (Date.isoformat d +:+ " " +:+ time)
    with (Date.isoformat d +:+ String " " time).
  assert (Hpass : let text := Date.isoformat d +:+ String " " time in
                  PyStr.strip text = text /\ PyStr.is_empty text = false
                  /\ String.eqb (PyStr.lower text) "nan" = false).
  { destruct (us =? 0) eqn:Eus.
    - pose proof (padded_text_passes 4 (year d)
                    ("-" +:+ PyStr.pad 2 (month d) +:+ "-" +:+ PyStr.pad 2 (day d)
                     +:+ " " +:+ PyStr.pad 2 h +:+ ":" +:+ PyStr.pad 2 m +:+ ":")
                    2 s) as Hp.
      cbn zeta in Hp.
      assert (Heq : Date.isoformat d +:+ String " " time
                    = PyStr.pad 4 (year d)
                      +:+ ("-" +:+ PyStr.pad 2 (month d) +:+ "-" +:+ PyStr.pad 2 (day d)
                           +:+ " " +:+ PyStr.pad 2 h +:+ ":" +:+ PyStr.pad 2 m +:+ ":")
                      +:+ PyStr.pad 2 s).
      { unfold time. rewrite isoformat_shape. normal_append.
        now rewrite (append_empty (PyStr.pad 2 s)). }
      cbn zeta. rewrite Heq. exact Hp.
    - pose proof (padded_text_passes 4 (year d)
                    ("-" +:+ PyStr.pad 2 (month d) +:+ "-" +:+ PyStr.pad 2 (day d)
                     +:+ " " +:+ PyStr.pad 2 h +:+ ":" +:+ PyStr.pad 2 m +:+ ":"
                     +:+ PyStr.pad 2 s +:+ ".")
                    6 us) as Hp.
      cbn zeta in Hp.
      assert (Heq : Date.isoformat d +:+ String " " time
                    = PyStr.pad 4 (year d)
                      +:+ ("-" +:+ PyStr.pad 2 (month d) +:+ "-" +:+ PyStr.pad 2 (day d)
                           +:+ " " +:+ PyStr.pad 2 h +:+ ":" +:+ PyStr.pad 2 m +:+ ":"
                           +:+ PyStr.pad 2 s +:+ ".")
                      +:+ PyStr.pad 6 us).
      { unfold time. rewrite isoformat_shape. normal_append. reflexivity. }
      cbn zeta. rewrite Heq. exact Hp. }
  destruct Hpass as (Hstrip & Hfilled & Hnan).
  unfold parse_date. cbn [is_none py_str orb].
  rewrite Hstrip, Hfilled, Hnan. cbn [orb].
  assert (Hblank : PyStr.contains " " (Date.isoformat d +:+ String " " time) = true).
  { rewrite contains_append. cbn [PyStr.contains]. rewrite Ascii.eqb_refl.
    cbn [orb]. apply orb_true_r. }
  assert (Hcolon : PyStr.contains ":" (Date.isoformat d +:+ String " " time) = true).
  { rewrite contains_append. cbn [PyStr.contains]. unfold time.
    rewrite contains_append.
    change (":" +:+ ?x) with (String ":" x). cbn [PyStr.contains].
    rewrite Ascii.eqb_refl. cbn [orb]. rewrite !orb_true_r. reflexivity. }
  rewrite Hblank, Hcolon. cbn [andb].
  rewrite (split_head_append " " _ _ (isoformat_no_blank d)).
  rewrite (strptime_iso d Hreal). reflexivity.
Qed.

(** X26.  A date and its text read the same.  The text that Python
    gives for a date, [YYYY-MM-DD], and for a date with a time,
    [YYYY-MM-DD HH:MM:SS] with or without microseconds, is read by
    [parse_date] as that date, as the cell itself is; the first format
    of the list, which asks for a time, does not read the text of a
    date, the second one does. *)
Theorem parse_date_reads_its_text d :
  real_date d ->
  parse_date (VDate d) = Some d
  /\ parse_date (VStr (py_str (VDate d))) = Some d
  /\ Strptime.strptime (py_str (VDate d)) "%Y-%m-%d %H:%M:%S" = None
  /\ Strptime.strptime (py_str (VDate d)) "%Y-%m-%d" = Some d
  /\ forall h m s us,
       parse_date (VDateTime d h m s us) = Some d
       /\ parse_date (VStr (py_str (VDateTime d h m s us))) = Some d.
Proof.
  intros Hreal.
  assert (Hcell : forall v, (exists h m s us, v = VDateTime d h m s us) \/ v = VDate d ->
            parse_date v = Some d).
  { intros v Hv. unfold parse_date.
    assert (Hguard : is_none v || PyStr.is_empty (PyStr.strip (py_str v))
                     || String.eqb (PyStr.lower (PyStr.strip (py_str v))) "nan" = false).
    { destruct Hv as [(h & m & s & us & ->) | ->]; cbn [is_none orb].
      - pose proof (parse_date_iso_time d h m s us Hreal) as Hp.
        unfold parse_date in Hp. cbn [is_none orb] in Hp.
        destruct (_ || _); [discriminate | reflexivity].
      - pose proof (parse_date_iso d Hreal) as Hp.
        unfold parse_date in Hp. cbn [is_none orb py_str] in Hp. cbn [py_str].
        destruct (_ || _); [discriminate | reflexivity]. }
    rewrite Hguard. destruct Hv as [(h & m & s & us & ->) | ->]; reflexivity. }
  split; [apply Hcell; now right |].
  split; [now apply parse_date_iso |].
  split; [now apply strptime_iso_time |].
  split; [now apply strptime_iso |].
  intros h m s us. split; [apply Hcell; left; eauto | now apply parse_date_iso_time].
Qed.

Lemma parse_date_reads_its_text_witness :
  parse_date (VStr (py_str (VDate scenario_date))) = Some scenario_date.
Proof.
  assert (Hreal : real_date scenario_date) by reflexivity.
  destruct (parse_date_reads_its_text scenario_date Hreal) as (_ & Htext & _).
  exact Htext.
Defined.

(** ** Reasons in title case *)

(** X27.  [normalize_dq_reason] leaves a value as it is when the value
    is empty, blank or a dash, blanks around the dash included;
    otherwise it gives the trimmed text in title case.  For text in
    ASCII that result is again in ASCII, trimmed and in title case:
    normalizing twice is normalizing once. *)
Theorem normalize_dq_reason_settles v :
  (normalize_dq_reason v = v
   \/ (normalize_dq_reason v = VStr (PyStr.title (PyStr.strip (py_str v)))
       /\ PyStr.strip (py_str v) <> "" /\ PyStr.strip (py_str v) <> "-"))
  /\ (PyStr.strip (py_str v) = "" \/ PyStr.strip (py_str v) = "-" ->
      normalize_dq_reason v = v)
  /\ (ascii_value v ->
      ascii_value (normalize_dq_reason v)
      /\ normalize_dq_reason (normalize_dq_reason v) = normalize_dq_reason v
      /\ (forall s, normalize_dq_reason v = VStr s ->
            normalize_dq_reason v <> v ->
            PyStr.strip s = s /\ PyStr.title s = s)).
Proof.
  assert (Hcases : normalize_dq_reason v = v
                   \/ (normalize_dq_reason v = VStr (PyStr.title (PyStr.strip (py_str v)))
                       /\ PyStr.strip (py_str v) <> ""
                       /\ PyStr.strip (py_str v) <> "-")).
  { unfold normalize_dq_reason. destruct (negb (truthy v)); cbn [orb]; [now left |].
    destruct (bool_decide_reflect (PyStr.strip (py_str v) ∈ [""; "-"])) as [Hin | Hout];
      [now left | right].
    split; [reflexivity |].
    split; intros He; apply Hout; rewrite He; repeat constructor. }
  split; [exact Hcases | split].
  - intros Hblank. unfold normalize_dq_reason.
    rewrite (bool_decide_eq_true_2 (PyStr.strip (py_str v) ∈ [""; "-"])).
    + now rewrite orb_true_r.
    + destruct Hblank as [-> | ->]; repeat constructor.
  - intros Hascii. split; [| split].
    + destruct Hcases as [Hv | (Hv & _)]; rewrite Hv; [exact Hascii |].
      unfold ascii_value. cbn [py_str]. unfold PyStr.title. rewrite ascii_title_from.
      now apply ascii_strip.
    + destruct Hcases as [Hv | (Hv & Hne & Hnd)]; rewrite Hv; [exact Hv |].
      assert (Hst : ascii_text (PyStr.strip (py_str v)) = true)
        by (now apply ascii_strip).
      assert (Hs : PyStr.strip (PyStr.title (PyStr.strip (py_str v)))
                   = PyStr.title (PyStr.strip (py_str v)))
        by (rewrite strip_title by exact Hst; now rewrite strip_idemp).
      unfold normalize_dq_reason. cbn [py_str truthy]. rewrite Hs.
      assert (Hfilled : PyStr.is_empty (PyStr.title (PyStr.strip (py_str v))) = false).
      { destruct (PyStr.title (PyStr.strip (py_str v))) eqn:E; [| reflexivity].
        apply title_empty in E. congruence. }
      rewrite Hfilled. cbn [negb orb].
      rewrite bool_decide_eq_false_2; [now rewrite title_idemp |].
      intros Hin. apply elem_of_cons in Hin as [Hin | Hin].
      * apply title_empty in Hin. congruence.
      * apply elem_of_cons in Hin as [Hin | Hin]; [| inversion Hin].
        apply title_dash in Hin. congruence.
    + intros s Hs Hchanged. destruct Hcases as [Hv | (Hv & _)]; [congruence |].
      rewrite Hv in Hs. injection Hs as <-.
      assert (Hst : ascii_text (PyStr.strip (py_str v)) = true)
        by (now apply ascii_strip).
      split; [rewrite strip_title by exact Hst; now rewrite strip_idemp
             | now apply title_idemp].
Qed.

Lemma normalize_dq_reason_settles_witness :
  normalize_dq_reason (VStr "  email bounce BACK ") = VStr "Email Bounce Back"
  /\ normalize_dq_reason (normalize_dq_reason (VStr "  email bounce BACK "))
     = normalize_dq_reason (VStr "  email bounce BACK ").
Proof.
  split; [vm_compute; reflexivity |].
  destruct (normalize_dq_reason_settles (VStr "  email bounce BACK ")) as (_ & _ & Hascii).
  destruct Hascii as (_ & Htwice & _); [vm_compute; reflexivity | exact Htwice].
Defined.

(** ** The primary format *)

Lemma two_digits_all_ok n : 0 <= n <= 99 -> two_digits_ok n = true.
Proof.
  intros Hn. apply (forallb_seqZ two_digits_ok 0 100); [| lia].
  vm_compute. reflexivity.
Qed.

Lemma two_digits_text n :
  0 <= n <= 99 ->
  exists a b, PyStr.pad 2 n = String a (String b EmptyString)
              /\ PyStr.is_digit a = true /\ PyStr.is_digit b = true
              /\ PyStr.to_Z (PyStr.pad 2 n) = n.
Proof.
  intros Hn. pose proof (two_digits_all_ok n Hn) as Hok. unfold two_digits_ok in Hok.
  destruct (PyStr.pad 2 n) as [|a [|b [|? ?]]] eqn:E; try discriminate.
  apply andb_true_iff in Hok as [Hok Hv]. apply andb_true_iff in Hok as [Ha Hb].
  exists a, b. repeat split; try assumption. now apply Z.eqb_eq.
Qed.

Lemma short_year_matches yy found :
  0 <= yy <= 99 ->
  Strptime.matches [Strptime.Dir Strptime.D_y] (PyStr.pad 2 yy) found
  = [((Strptime.D_y, PyStr.pad 2 yy) :: found, EmptyString)].
Proof.
  intros Hy. destruct (two_digits_text yy Hy) as (a & b & -> & Ha & Hb & _).
  rewrite matches_dir_step. unfold Strptime.alternatives. cbn [flat_map].
  rewrite !match_classes_cons, match_classes_nil. unfold Strptime.digit.
  rewrite Ha, Hb. reflexivity.
Qed.

(** A text that starts with two digits and a dash is not read by a
    format that starts with the year in four digits. *)
Lemma long_year_fails n rest items found :
  0 <= n <= 99 ->
  Strptime.matches (Strptime.Dir Strptime.D_Y :: items)
                   (PyStr.pad 2 n +:+ String "-" rest) found = [].
Proof.
  intros Hn. destruct (two_digits_text n Hn) as (a & b & -> & Ha & Hb & _).
  cbv [append]. rewrite matches_dir_step. unfold Strptime.alternatives. cbn [flat_map].
  rewrite !match_classes_cons. unfold Strptime.digit. rewrite Ha, Hb.
  change (PyStr.is_digit "-") with false. reflexivity.
Qed.

Lemma month_name_no_blank m :
  1 <= m <= 12 -> PyStr.contains " " (nth (Z.to_nat (m - 1)) month_abbr "") = false.
Proof.
  intros Hm. apply negb_true_iff. apply (forallb_seqZ month_name_ok 1 12); [| lia].
  vm_compute. reflexivity.
Qed.

Lemma primary_text_shape d :
  primary_text d
  = PyStr.pad 2 (day d)
    +:+ String "-" (nth (Z.to_nat (month d - 1)) month_abbr ""
                    +:+ String "-" (PyStr.pad 2 (year d mod 100))).
Proof. reflexivity. Qed.

Lemma strptime_primary d :
  real_date d -> 1969 <= year d <= 2068 ->
  Strptime.strptime (primary_text d) "%d-%b-%y" = Some d.
Proof.
  intros Hreal Hy. destruct (real_date_bounds d Hreal) as (_ & Hmonth & Hday).
  assert (Hyy : 0 <= year d mod 100 <= 99)
    by (pose proof (Z.mod_pos_bound (year d) 100 ltac:(lia)); lia).
  unfold Strptime.strptime.
  change (Strptime.compile "%d-%b-%y")
    with (Some [Strptime.Dir Strptime.D_d; Strptime.Lit "-"; Strptime.Dir Strptime.D_b;
                Strptime.Lit "-"; Strptime.Dir Strptime.D_y]).
  rewrite primary_text_shape.
  rewrite (day_matches (day d)) by exact Hday.
  rewrite (month_matches (month d)) by exact Hmonth.
  rewrite (short_year_matches (year d mod 100)) by exact Hyy.
  cbn [rev app fold_left Strptime.set_field].
  cbn [Strptime.f_year Strptime.f_month_ Strptime.f_day Strptime.f_second].
  destruct (two_digits_text (year d mod 100) Hyy) as (_ & _ & _ & _ & _ & Hv).
  rewrite Hv, (day_text_all_ok (day d) Hday), (month_text_all_ok (month d) Hmonth).
  cbn [Z.leb Z.compare].
  assert (Hyear : (if year d mod 100 <=? 68 then year d mod 100 + 2000
                   else year d mod 100 + 1900) = year d).
  { pose proof (Z.div_mod (year d) 100 ltac:(lia)) as Hdm.
    destruct (Z.leb_spec (year d mod 100) 68); lia. }
  rewrite Hyear. unfold Date.make. unfold real_date in Hreal. rewrite Hreal.
  now destruct d.
Qed.

(** X28.  A date between 1969 and 2068 written in the primary format,
    as in [06-Nov-25], is read by [parse_date] as that date: the two
    formats tried first, which start with a year of four digits, do not
    read the text, the third one does, and it takes the two digits of
    the year for 2000 to 2068 up to 68 and for 1969 to 1999 from 69
    on. *)
Theorem parse_date_primary_format d :
  real_date d -> 1969 <= year d <= 2068 ->
  Strptime.strptime (primary_text d) "%Y-%m-%d %H:%M:%S" = None
  /\ Strptime.strptime (primary_text d) "%Y-%m-%d" = None
  /\ Strptime.strptime (primary_text d) "%d-%b-%y" = Some d
  /\ parse_date (VStr (primary_text d)) = Some d.
Proof.
  intros Hreal Hy. destruct (real_date_bounds d Hreal) as (_ & Hmonth & Hday).
  assert (H1 : Strptime.strptime (primary_text d) "%Y-%m-%d %H:%M:%S" = None).
  { unfold Strptime.strptime.
    change (Strptime.compile "%Y-%m-%d %H:%M:%S")
      with (Some [Strptime.Dir Strptime.D_Y; Strptime.Lit "-"; Strptime.Dir Strptime.D_m;
                  Strptime.Lit "-"; Strptime.Dir Strptime.D_d; Strptime.Spaces;
                  Strptime.Dir Strptime.D_H; Strptime.Lit ":"; Strptime.Dir Strptime.D_M;
                  Strptime.Lit ":"; Strptime.Dir Strptime.D_S]).
    rewrite primary_text_shape. now rewrite long_year_fails by lia. }
  assert (H2 : Strptime.strptime (primary_text d) "%Y-%m-%d" = None).
  { unfold Strptime.strptime.
    change (Strptime.compile "%Y-%m-%d")
      with (Some [Strptime.Dir Strptime.D_Y; Strptime.Lit "-"; Strptime.Dir Strptime.D_m;
                  Strptime.Lit "-"; Strptime.Dir Strptime.D_d]).
    rewrite primary_text_shape. now rewrite long_year_fails by lia. }
  pose proof (strptime_primary d Hreal Hy) as H3.
  split; [exact H1 | split; [exact H2 | split; [exact H3 |]]].
  assert (Hshape : primary_text d
                   = PyStr.pad 2 (day d)
                     +:+ ("-" +:+ nth (Z.to_nat (month d - 1)) month_abbr "" +:+ "-")
                     +:+ PyStr.pad 2 (year d mod 100)).
  { rewrite primary_text_shape. now normal_append. }
  pose proof (padded_text_passes 2 (day d)
                ("-" +:+ nth (Z.to_nat (month d - 1)) month_abbr "" +:+ "-")
                2 (year d mod 100)) as Hp.
  cbn zeta in Hp. rewrite <- Hshape in Hp. destruct Hp as (Hstrip & Hfilled & Hnan).
  assert (Hblank : PyStr.contains " " (primary_text d) = false).
  { rewrite primary_text_shape. rewrite contains_append. cbn [PyStr.contains].
    rewrite contains_append. cbn [PyStr.contains].
    rewrite (all_digits_contains " " (PyStr.pad 2 (day d)))
      by (reflexivity || apply pad_all_digits).
    rewrite (all_digits_contains " " (PyStr.pad 2 (year d mod 100)))
      by (reflexivity || apply pad_all_digits).
    rewrite (month_name_no_blank (month d) Hmonth). reflexivity. }
  unfold parse_date. cbn [is_none py_str orb].
  rewrite Hstrip, Hfilled, Hnan. cbn [orb]. rewrite Hblank. cbn [andb].
  unfold date_formats. cbn [try_formats]. rewrite H1, H2, H3. reflexivity.
Qed.

Lemma parse_date_primary_format_witness :
  parse_date (VStr (primary_text scenario_date)) = Some scenario_date.
Proof.
  assert (Hreal : real_date scenario_date) by reflexivity.
  assert (Hy : 1969 <= year scenario_date <= 2068) by (cbn; lia).
  destruct (parse_date_primary_format scenario_date Hreal Hy) as (_ & _ & _ & Hp).
  exact Hp.
Defined.

(** ** The memo of the dates *)

Lemma parsed_indices_sorted col (records : list record) :
  forall k,
    let parsed :=
      omap (fun ir : nat * record =>
              match parse_date (get ir.2 col) with
              | Some d => Some (ir.1, d)
              | None => None
              end)
           (imap (fun i r => ((k + i)%nat, r)) records) in
    StronglySorted Nat.lt (map fst parsed)
    /\ Forall (fun j => (k <= j < k + List.length records)%nat) (map fst parsed).
Proof.
  induction records as [|r records IH]; intros k; cbn zeta.
  - split; constructor.
  - rewrite imap_cons. cbn [omap list_omap fst snd].
    rewrite (imap_ext _ (fun i r => ((S k + i)%nat, r)))
      by (intros i x _; cbn; f_equal; lia).
    destruct (IH (S k)) as [Hs Hb]. cbn zeta in Hs, Hb.
    assert (Hb' : Forall (fun j => (k <= j < k + List.length (r :: records))%nat)
                    (map fst
                       (omap (fun ir : nat * record =>
                                match parse_date (get ir.2 col) with
                                | Some d => Some (ir.1, d)
                                | None => None
                                end)
                             (imap (fun i r => ((S k + i)%nat, r)) records)))).
    { eapply Forall_impl; [exact Hb |]. intros j Hj. cbn [List.length] in *. lia. }
    destruct (parse_date (get r col)) as [d|]; [| split; assumption].
    cbn [map fst]. split.
    + constructor; [exact Hs |]. eapply Forall_impl; [exact Hb |].
      intros j Hj. cbn beta in Hj. lia.
    + constructor; [cbn [List.length]; lia | exact Hb'].
Qed.

Lemma memo_selects col d (records : list record) :
  forall pre : list record,
    omap (fun e : nat * date =>
            if decide (e.2 = d) then (pre ++ records) !! e.1 else None)
         (omap (fun ir : nat * record =>
                  match parse_date (get ir.2 col) with
                  | Some d' => Some (ir.1, d')
                  | None => None
                  end)
               (imap (fun i r => ((List.length pre + i)%nat, r)) records))
    = filter (dated col d) records.
Proof.
  induction records as [|r records IH]; intros pre; [reflexivity |].
  rewrite imap_cons. cbn [omap list_omap fst snd].
  rewrite (imap_ext _ (fun i x => ((List.length (pre ++ [r]) + i)%nat, x)))
    by (intros i x _; cbn; f_equal; rewrite length_app; cbn; lia).
  specialize (IH (pre ++ [r])). rewrite <- app_assoc in IH. cbn [app] in IH.
  destruct (parse_date (get r col)) as [d'|] eqn:E.
  - cbn [omap list_omap fst snd]. rewrite IH.
    destruct (decide (d' = d)) as [-> | Hne].
    + rewrite Nat.add_0_r, lookup_app_r by lia. rewrite Nat.sub_diag. cbn [lookup list_lookup].
      now rewrite filter_cons_True by exact E.
    + rewrite filter_cons_False; [reflexivity |]. unfold dated. congruence.
  - rewrite IH. rewrite filter_cons_False; [reflexivity |]. unfold dated. congruence.
Qed.

(** X29.  What [parse_dates_from_records] keeps.  It stores in the
    processor the dictionary that it returns and leaves the date column
    of the processor alone.  The keys are positions of records, in
    ascending order; a position has a date exactly when the cell of
    that record parses, to that date.  The filter of the day, which
    parses the cells again, selects the very records whose positions
    the dictionary holds with that date. *)
Theorem parsed_dates_memo self (records : list record) col :
  let parsed := (parse_dates_from_records self records col).1 in
  let self' := (parse_dates_from_records self records col).2 in
  parsed_dates self' = parsed
  /\ date_column self' = date_column self
  /\ StronglySorted Nat.lt (map fst parsed)
  /\ (forall i d, (i, d) ∈ parsed
        <-> exists r, records !! i = Some r /\ parse_date (get r col) = Some d)
  /\ (forall filt d,
        uses_column filt col ->
        filter_records_by_date filt records d
        = omap (fun e : nat * date => if decide (e.2 = d) then records !! e.1 else None)
               parsed).
Proof.
  intros parsed self'. split; [reflexivity | split; [reflexivity | split; [| split]]].
  - apply (parsed_indices_sorted col records 0).
  - intros i d. apply parse_dates_from_records_elem.
  - intros filt d Hu. rewrite (filter_records_by_date_unfold filt col) by exact Hu.
    symmetry. apply (memo_selects col d records []).
Qed.

(** ** The columns offered for the dates *)

(** X30.  [get_date_column_options] offers the headers, in their order,
    except those that read, in lower case, as one of the three key
    fields or of the two metadata keys.  A column that
    [detect_date_column] finds is among them.  None is offered exactly
    when every header is one of those five; and when the headers are
    pairwise different in lower case, as [load_and_parse_excel] returns
    them, so are the columns offered. *)
Theorem date_column_options headers :
  let options := get_date_column_options headers in
  options `sublist_of` headers
  /\ (forall h, h ∈ options <-> h ∈ headers /\ PyStr.lower h ∉ excluded_lower)
  /\ (forall self c, (detect_date_column self headers).1 = Some c -> c ∈ options)
  /\ (options = [] <-> forall h, h ∈ headers -> PyStr.lower h ∈ excluded_lower)
  /\ (NoDup (map PyStr.lower headers) -> NoDup (map PyStr.lower options)).
Proof.
  intros options. unfold options, get_date_column_options.
  split; [apply sublist_filter |].
  assert (Hel : forall h,
            h ∈ filter (fun h => PyStr.lower h ∉ excluded_lower) headers
            <-> h ∈ headers /\ PyStr.lower h ∉ excluded_lower).
  { intros h. rewrite list_elem_of_filter. tauto. }
  split; [exact Hel | split; [| split]].
  - intros self c Hc. apply Hel. unfold detect_date_column in Hc.
    destruct (headers_by_lower headers !! "audit date") as [c0|] eqn:E; [| discriminate].
    cbn [fst] in Hc. injection Hc as ->.
    apply headers_by_lower_lookup in E as (i & Hi & Hl & _).
    split; [apply list_elem_of_lookup; eauto |].
    rewrite Hl. unfold excluded_lower. intros Hin.
    repeat (apply elem_of_cons in Hin as [Hin | Hin]; [discriminate |]).
    inversion Hin.
  - rewrite filter_nil_iff. split.
    + intros Hno h Hh. destruct (decide (PyStr.lower h ∈ excluded_lower)) as [Hin | Hout];
        [exact Hin | exfalso; now apply (Hno h)].
    + intros Hall h Hh Hout. apply Hout. now apply Hall.
  - intros Hnd. induction headers as [|h headers IH]; [constructor |].
    cbn [map] in Hnd. apply NoDup_cons in Hnd as [Hh Hnd].
    destruct (decide (PyStr.lower h ∉ excluded_lower)) as [Hout | Hin].
    + rewrite filter_cons_True by exact Hout. cbn [map]. apply NoDup_cons.
      split; [| apply IH; [| exact Hnd]].
      * intros Hin. apply Hh. apply list_elem_of_fmap in Hin as (h' & Heq & Hh').
        apply list_elem_of_filter in Hh' as [_ Hh']. apply list_elem_of_fmap. eauto.
      * intros h'. rewrite list_elem_of_filter. tauto.
    + rewrite filter_cons_False by exact Hin. apply IH; [| exact Hnd].
      intros h'. rewrite list_elem_of_filter. tauto.
Qed.

(** ** The further properties on the worked examples *)

Lemma detect_date_column_last_witness :
  (detect_date_column (new_processor default_config)
     ["Lead Status"; "AUDIT DATE"; "Audit Date"]).1 = Some "Audit Date"
  /\ uses_column (detect_date_column (new_processor default_config)
                    ["Lead Status"; "AUDIT DATE"; "Audit Date"]).2 "Audit Date".
Proof.
  assert (Hd : (detect_date_column (new_processor default_config)
                  ["Lead Status"; "AUDIT DATE"; "Audit Date"]).1 = Some "Audit Date")
    by reflexivity.
  split; [exact Hd |].
  destruct (detect_date_column_last (new_processor default_config)
              ["Lead Status"; "AUDIT DATE"; "Audit Date"]) as (_ & Hset & _).
  exact (proj1 (Hset "Audit Date" Hd)).
Defined.

Lemma offered_dates_have_records_witness :
  scenario_date ∈ get_unique_dates
                    (parse_dates_from_records scenario_processor scenario_records
                                              "Audit Date").2
  /\ filter_records_by_date scenario_processor scenario_records scenario_date <> [].
Proof.
  destruct (offered_dates_have_records scenario_processor scenario_records "Audit Date")
    as (_ & Hel & _ & Hrec).
  assert (Hin : scenario_date
                ∈ get_unique_dates
                    (parse_dates_from_records scenario_processor scenario_records
                                              "Audit Date").2).
  { apply Hel.
    assert (Hds : parsed_dates_of "Audit Date" scenario_records
                  = replicate 6 (mkdate 2025 11 6) ++ replicate 4 (mkdate 2025 11 3))
      by (vm_compute; reflexivity).
    rewrite Hds. left. }
  split; [exact Hin |].
  apply (Hrec scenario_processor scenario_date); [| exact Hin].
  split; [reflexivity | discriminate].
Defined.

Lemma auto_suggestions_of_issues_witness :
  exists out n self' h' rs',
    apply_corrections some_validator (seq 0 7)
      (find_lead_status_issues (fun _ _ => 0%Q) some_validator qual_store).2 qual_store
    = Some ((out, n, self'), h')
    /\ points_to h' out rs'.
Proof.
  assert (Hp : points_to qual_store (seq 0 7) qual_store) by (repeat constructor).
  destruct (auto_suggestions_of_issues (fun _ _ => 0%Q) some_validator qual_store)
    as (_ & _ & Happly).
  destruct (Happly qual_store (seq 0 7) Hp)
    as (out & n & self' & h' & rs' & Hrun & Hp' & _).
  exists out, n, self', h', rs'. split; assumption.
Defined.

Lemma agent_rows_counts_witness :
  exists row,
    row ∈ agent_rows agent_example
    /\ ar_agent row = VStr "A"
    /\ ar_disqualified row
       = List.length (filter (disqualified_by (VStr "A")) agent_example).
Proof.
  exists (mkagent_row (VStr "A") 2 3 5 (2 # 5)).
  assert (Hin : mkagent_row (VStr "A") 2 3 5 (2 # 5) ∈ agent_rows agent_example)
    by (vm_compute; left).
  split; [exact Hin | split; [reflexivity |]].
  destruct (agent_rows_counts agent_example) as (_ & _ & Hrow & _).
  exact (proj1 (proj2 (Hrow _ Hin))).
Defined.

Lemma tag_rows_counts_witness :
  exists row,
    row ∈ tag_rows "Segment Tagging" agent_example
    /\ row.1 = "(Blank)"
    /\ row.2 = List.length (filter (tagged "Segment Tagging" "(Blank)") agent_example).
Proof.
  exists ("(Blank)", 7%nat).
  assert (Hin : ("(Blank)", 7%nat) ∈ tag_rows "Segment Tagging" agent_example)
    by (vm_compute; left).
  split; [exact Hin | split; [reflexivity |]].
  destruct (tag_rows_counts "Segment Tagging" agent_example) as (_ & _ & Hrow & _).
  exact (proj1 (Hrow _ Hin)).
Defined.

Lemma date_selection_round_trip_witness :
  Strptime.strptime (strftime_d_b_Y scenario_date) "%d-%b-%Y" = Some scenario_date.
Proof.
  destruct date_selection_round_trip as (Hround & _).
  apply Hround; [reflexivity | cbn; lia].
Defined.

Lemma columns_spelled_otherwise_witness :
  validate_columns (new_processor default_config)
                   (_parse_sheet lower_case_sheet "Qualified").1 = inr tt
  /\ List.length (_parse_sheet lower_case_sheet "Qualified").2 = 2%nat
  /\ agent_rows (_parse_sheet lower_case_sheet "Qualified").2 = [].
Proof.
  split; [vm_compute; reflexivity | split; [reflexivity |]].
  destruct (columns_spelled_otherwise (fun _ _ => 0%Q) some_validator
              (new_processor default_config) lower_case_sheet "Qualified")
    as (_ & Hno & _).
  apply Hno.
  change ((_parse_sheet lower_case_sheet "Qualified").1)
    with ["lead status"; "agent name"; "dq reason"].
  intros Hin.
  repeat (apply elem_of_cons in Hin as [Hin | Hin]; [discriminate |]).
  inversion Hin.
Defined.

Lemma parsed_dates_memo_witness :
  filter_records_by_date scenario_processor scenario_records scenario_date
  = omap (fun e : nat * date =>
            if decide (e.2 = scenario_date) then scenario_records !! e.1 else None)
         (parse_dates_from_records scenario_processor scenario_records "Audit Date").1.
Proof.
  destruct (parsed_dates_memo scenario_processor scenario_records "Audit Date")
    as (_ & _ & _ & _ & Hsel).
  apply Hsel. split; [reflexivity | discriminate].
Defined.
